(** * Cross-organization migration scripts: a shallow embedding

    The development follows the Python sources

    - [variables-and-secrets/secrets/github_secrets_migration.py]
      (class [GitHubSecretsMigrator]),
    - [variables-and-secrets/variables/github_variables_migration.py]
      (class [GitHubVariablesMigrator]),
    - [Rulesets/rulesets.py],
    - [Webhooks/migrate_webhooks.py] (class [GitHubWebhookMigrator]),
    - [Migration/Python New/migrate_repos.py] (its paginated fetch only).

    Conventions of the embedding.

    - JSON bodies are values of [Json]; Python's dynamic tests
      ([isinstance], truthiness, [dict.get], [in]) are functions on it.
      Numbers are integers.
    - A method that talks to the network is a computation in the monad
      [M W]: a function from the world [W] to an [Outcome] and the next
      world.  [Raise] is a Python exception, [Unfinished] says that a
      [while True] loop was still running when the page budget given to
      it was used up.
    - The remote service is a parameter: a state [Server] and a function
      [serve] that answers one request.  Every request is appended to
      the [trace] of the world before it is served.
    - Time is a logical clock in microseconds, advanced by [time.sleep]
      only. *)

From Stdlib Require Import ZArith Lia Bool Ascii.
From stdpp Require Import base tactics option list strings gmap pretty.

Local Set Warnings "-register-all".
Local Open Scope Z_scope.

(** ** Python values *)

Inductive Json : Type :=
| JNull
| JBool (b : bool)
| JInt (z : Z)
| JStr (s : string)
| JArr (items : list Json)
| JObj (members : list (string * Json)).

(** [bool(x)] *)
Definition truthy (j : Json) : bool :=
  match j with
  | JNull => false
  | JBool b => b
  | JInt z => negb (z =? 0)
  | JStr s => negb (String.eqb s "")
  | JArr l => match l with [] => false | _ => true end
  | JObj l => match l with [] => false | _ => true end
  end.

Definition is_list (j : Json) : bool :=
  match j with JArr _ => true | _ => false end.

Definition is_dict (j : Json) : bool :=
  match j with JObj _ => true | _ => false end.

(** Lookup in the member list of an object: the first binding of the key. *)
Fixpoint assoc (k : string) (kvs : list (string * Json)) : option Json :=
  match kvs with
  | [] => None
  | (k', v) :: rest => if String.eqb k k' then Some v else assoc k rest
  end.

(** [d[k]] and [k in d] for a value already known to be a dict; on any
    other value the lookup finds nothing. *)
Definition member (k : string) (j : Json) : option Json :=
  match j with JObj kvs => assoc k kvs | _ => None end.

(** [d.get(k, default)] *)
Definition dict_get (k : string) (default : Json) (j : Json) : Json :=
  match member k j with Some v => v | None => default end.

(** [d.get(k)] *)
Definition dict_get_none (k : string) (j : Json) : Json := dict_get k JNull j.

(** [x == s] for a string literal [s] *)
Definition is_str (s : string) (j : Json) : bool :=
  match j with JStr s' => String.eqb s' s | _ => false end.

(** [a or b] *)
Definition py_or (a b : Json) : Json := if truthy a then a else b.

(** The elements [list.extend(x)] and a [for] loop take from [x]: the
    items of a list, the keys of a dict, the characters of a string;
    [None] when [x] is not iterable (Python raises [TypeError]). *)
Fixpoint chars (s : string) : list Json :=
  match s with
  | EmptyString => []
  | String c rest => JStr (String c EmptyString) :: chars rest
  end.

Definition py_iter (j : Json) : option (list Json) :=
  match j with
  | JArr l => Some l
  | JObj kvs => Some (map (fun kv => JStr (fst kv)) kvs)
  | JStr s => Some (chars s)
  | _ => None
  end.

(** [str(x)] as an f-string renders it.  Strings inside a list or a dict
    are shown between single quotes, without Python's escapes. *)
Fixpoint py_repr (j : Json) : string :=
  match j with
  | JNull => "None"
  | JBool true => "True"
  | JBool false => "False"
  | JInt z => pretty z
  | JStr s => "'" +:+ s +:+ "'"
  | JArr l => "[" +:+ String.concat ", " (map py_repr l) +:+ "]"
  | JObj kvs =>
      "{" +:+ String.concat ", "
                (map (fun kv => "'" +:+ fst kv +:+ "': " +:+ py_repr (snd kv)) kvs)
          +:+ "}"
  end.

Definition py_str (j : Json) : string :=
  match j with JStr s => s | _ => py_repr j end.

(** [type(x)] as an f-string renders it, and the bare type name. *)
Definition type_name (j : Json) : string :=
  match j with
  | JNull => "NoneType"
  | JBool _ => "bool"
  | JInt _ => "int"
  | JStr _ => "str"
  | JArr _ => "list"
  | JObj _ => "dict"
  end.

Definition py_type (j : Json) : string := "<class '" +:+ type_name j +:+ "'>".

(** [d[k] = v] on the member list of a dict: an existing key keeps its
    place, a new one goes last. *)
Fixpoint dict_set (k : string) (v : Json) (kvs : list (string * Json))
  : list (string * Json) :=
  match kvs with
  | [] => [(k, v)]
  | (k', v') :: rest =>
      if String.eqb k k' then (k, v) :: rest else (k', v') :: dict_set k v rest
  end.

(** Keys of a Python dict built from JSON values: [None], integers
    ([True] and [False] hash and compare as 1 and 0) and strings. *)
Inductive Key : Type := KNone | KInt (z : Z) | KStr (s : string).

Global Instance Key_eq_dec : EqDecision Key.
Proof. solve_decision. Defined.

Global Instance Key_countable : Countable Key.
Proof.
  refine (inj_countable'
            (fun k => match k with
                      | KNone => inl tt
                      | KInt z => inr (inl z)
                      | KStr s => inr (inr s)
                      end)
            (fun x => match x with
                      | inl _ => KNone
                      | inr (inl z) => KInt z
                      | inr (inr s) => KStr s
                      end) _).
  intros []; reflexivity.
Defined.

(** The key a value makes; [None] for a list or a dict (unhashable). *)
Definition to_key (j : Json) : option Key :=
  match j with
  | JNull => Some KNone
  | JBool b => Some (KInt (if b then 1 else 0))
  | JInt z => Some (KInt z)
  | JStr s => Some (KStr s)
  | JArr _ | JObj _ => None
  end.

(** ** Python strings *)

Definition py_isspace (c : Ascii.ascii) : bool :=
  let n := Ascii.nat_of_ascii c in
  ((9 <=? n)%nat && (n <=? 13)%nat) || ((28 <=? n)%nat && (n <=? 32)%nat).

Fixpoint lstrip (s : string) : string :=
  match s with
  | EmptyString => EmptyString
  | String c rest => if py_isspace c then lstrip rest else s
  end.

(** [s.strip()] *)
Definition strip (s : string) : string :=
  String.rev (lstrip (String.rev (lstrip s))).

(** [s.split(sep)] for a one-character separator *)
Fixpoint split (sep : Ascii.ascii) (s : string) : list string :=
  match s with
  | EmptyString => [EmptyString]
  | String c rest =>
      if Ascii.eqb c sep then EmptyString :: split sep rest
      else match split sep rest with
           | h :: t => String c h :: t
           | [] => [String c EmptyString]
           end
  end.

(** [needle in hay] *)
Fixpoint contains (needle hay : string) : bool :=
  String.prefix needle hay
  || match hay with
     | EmptyString => false
     | String _ rest => contains needle rest
     end.

(** ** Outcomes and the world monad *)

Inductive Exn : Type :=
| RequestException (msg : string)
| ValueError (msg : string)
| KeyError (key : string)
| TypeError (msg : string)
| AttributeError (msg : string)
| CryptoError (msg : string)
| GithubException (status : Z) (msg : string).

(** [str(e)] *)
Definition exn_str (e : Exn) : string :=
  match e with
  | RequestException msg | ValueError msg | TypeError msg
  | AttributeError msg | CryptoError msg => msg
  | KeyError key => "'" +:+ key +:+ "'"
  | GithubException status msg => pretty status +:+ " " +:+ msg
  end.

Inductive Outcome (A : Type) : Type :=
| Ok (a : A)
| Raise (e : Exn)
| Unfinished.
Arguments Ok {A} a.
Arguments Raise {A} e.
Arguments Unfinished {A}.

Definition M (W A : Type) : Type := W -> Outcome A * W.

Definition ret {W A} (a : A) : M W A := fun w => (Ok a, w).

Definition bind {W A B} (m : M W A) (k : A -> M W B) : M W B :=
  fun w =>
    match m w with
    | (Ok a, w') => k a w'
    | (Raise e, w') => (Raise e, w')
    | (Unfinished, w') => (Unfinished, w')
    end.

Definition raise {W A} (e : Exn) : M W A := fun w => (Raise e, w).

Definition unfinished {W A} : M W A := fun w => (Unfinished, w).

(** [try: m except Exception as e: h e] *)
Definition try_except {W A} (m : M W A) (h : Exn -> M W A) : M W A :=
  fun w =>
    match m w with
    | (Raise e, w') => h e w'
    | r => r
    end.

Definition gets {W A} (f : W -> A) : M W A := fun w => (Ok (f w), w).

Definition modify {W} (f : W -> W) : M W unit := fun w => (Ok tt, f w).

Notation "'let*' x := m 'in' k" := (bind m (fun x => k))
  (at level 10, x binder, m at level 100, k at level 200, only parsing).
Notation "m ;; k" := (bind m (fun _ => k))
  (at level 100, k at level 200, right associativity, only parsing).

(** A [for] loop threading an accumulator. *)
Fixpoint for_each {W A B} (xs : list A) (acc : B) (body : B -> A -> M W B) : M W B :=
  match xs with
  | [] => ret acc
  | x :: rest => let* acc' := body acc x in for_each rest acc' body
  end.


(** Log levels; the handlers are configured at [logging.INFO], so
    [logger.debug] lines never reach the log and are not modelled. *)
Inductive Level : Type := INFO | WARNING | ERROR.

(** ** The HTTP layer of the two migrator classes

    [GitHubSecretsMigrator] and [GitHubVariablesMigrator] hold the same
    [_handle_rate_limit], [_make_request], [_get_paginated_data],
    [build_target_repo_mapping], [get_target_repository_ids] and
    [get_organization_repositories]; the only difference is the second
    collection key [_get_paginated_data] looks for (['secrets'] or
    ['variables']).  They are embedded once, in the section below, with
    that key as the parameter [collection_key]. *)

Inductive Session : Type := source_session | target_session.

Inductive Method : Type := GET | POST | PUT | PATCH | DELETE.

(** A rate-limit header as [int(response.headers.get(name, 0))] reads it:
    missing, an integer, or text that [int] rejects. *)
Inductive Header : Type := Absent | Value (z : Z) | Malformed (raw : string).

Record Request : Type := mkRequest {
  rq_session : Session;
  rq_method : Method;
  rq_url : string;
  rq_params : list (string * Z);
  rq_json : option Json
}.

Record Response : Type := mkResponse {
  status_code : Z;
  ratelimit_remaining : Header;
  ratelimit_reset : Header;
  json : Json + string;    (* [inr msg]: [response.json()] raises [ValueError(msg)] *)
  text : string
}.

Global Instance Session_eq_dec : EqDecision Session.
Proof. solve_decision. Defined.

Global Instance Method_eq_dec : EqDecision Method.
Proof. solve_decision. Defined.

Definition is_get (rq : Request) : bool :=
  match rq_method rq with GET => true | _ => false end.

Record World (Server : Type) : Type := mkWorld {
  server : Server;
  clock : Z;                                   (* microseconds *)
  rng : nat;                                   (* draws of the sealed box so far *)
  trace : list (Z * Request);                  (* time of issue, request *)
  log : list (Level * string);
  rate_limit_remaining : Z;
  rate_limit_reset : option Z;
  target_repo_mapping : gmap Key Json;
  org_public_key_cache : gmap string Json;
  repo_public_key_cache : gmap string Json
}.
Arguments mkWorld {Server}.
Arguments server {Server}.
Arguments clock {Server}.
Arguments rng {Server}.
Arguments trace {Server}.
Arguments log {Server}.
Arguments rate_limit_remaining {Server}.
Arguments rate_limit_reset {Server}.
Arguments target_repo_mapping {Server}.
Arguments org_public_key_cache {Server}.
Arguments repo_public_key_cache {Server}.

(** The state of a migrator right after [__init__]. *)
Definition init_world {Server} (s : Server) (now : Z) : World Server :=
  mkWorld s now 0 [] [] 5000 None ∅ ∅ ∅.

Definition requests {Server} (w : World Server) : list Request := map snd (trace w).

Definition set_server {Server} (s : Server) (w : World Server) : World Server :=
  mkWorld s (clock w) (rng w) (trace w) (log w) (rate_limit_remaining w)
    (rate_limit_reset w) (target_repo_mapping w) (org_public_key_cache w)
    (repo_public_key_cache w).

Definition set_clock {Server} (t : Z) (w : World Server) : World Server :=
  mkWorld (server w) t (rng w) (trace w) (log w) (rate_limit_remaining w)
    (rate_limit_reset w) (target_repo_mapping w) (org_public_key_cache w)
    (repo_public_key_cache w).

Definition set_rng {Server} (n : nat) (w : World Server) : World Server :=
  mkWorld (server w) (clock w) n (trace w) (log w) (rate_limit_remaining w)
    (rate_limit_reset w) (target_repo_mapping w) (org_public_key_cache w)
    (repo_public_key_cache w).

Definition set_trace {Server} (t : list (Z * Request)) (w : World Server) : World Server :=
  mkWorld (server w) (clock w) (rng w) t (log w) (rate_limit_remaining w)
    (rate_limit_reset w) (target_repo_mapping w) (org_public_key_cache w)
    (repo_public_key_cache w).

Definition set_log {Server} (l : list (Level * string)) (w : World Server) : World Server :=
  mkWorld (server w) (clock w) (rng w) (trace w) l (rate_limit_remaining w)
    (rate_limit_reset w) (target_repo_mapping w) (org_public_key_cache w)
    (repo_public_key_cache w).

Definition set_rate_limit_remaining {Server} (z : Z) (w : World Server) : World Server :=
  mkWorld (server w) (clock w) (rng w) (trace w) (log w) z
    (rate_limit_reset w) (target_repo_mapping w) (org_public_key_cache w)
    (repo_public_key_cache w).

Definition set_rate_limit_reset {Server} (z : option Z) (w : World Server) : World Server :=
  mkWorld (server w) (clock w) (rng w) (trace w) (log w) (rate_limit_remaining w)
    z (target_repo_mapping w) (org_public_key_cache w)
    (repo_public_key_cache w).

Definition set_target_repo_mapping {Server} (m : gmap Key Json) (w : World Server)
  : World Server :=
  mkWorld (server w) (clock w) (rng w) (trace w) (log w) (rate_limit_remaining w)
    (rate_limit_reset w) m (org_public_key_cache w)
    (repo_public_key_cache w).

Definition set_org_public_key_cache {Server} (m : gmap string Json) (w : World Server)
  : World Server :=
  mkWorld (server w) (clock w) (rng w) (trace w) (log w) (rate_limit_remaining w)
    (rate_limit_reset w) (target_repo_mapping w) m
    (repo_public_key_cache w).

Definition set_repo_public_key_cache {Server} (m : gmap string Json) (w : World Server)
  : World Server :=
  mkWorld (server w) (clock w) (rng w) (trace w) (log w) (rate_limit_remaining w)
    (rate_limit_reset w) (target_repo_mapping w) (org_public_key_cache w) m.

(** [logger.info], [logger.warning], [logger.error] *)
Definition logger {Server} (lvl : Level) (msg : string) : M (World Server) unit :=
  modify (fun w => set_log (log w ++ [(lvl, msg)]) w).

(** [time.sleep(d)], [d] in microseconds *)
Definition sleep {Server} (d : Z) : M (World Server) unit :=
  modify (fun w => set_clock (clock w + d) w).

(** [f"{x:.0f}"] for a duration given in microseconds: the nearest whole
    number of seconds, ties to even. *)
Definition format_0f (us : Z) : string :=
  let q := us / 1000000 in
  let r := us mod 1000000 in
  pretty (if r <? 500000 then q
          else if 500000 <? r then q + 1
          else if Z.even q then q else q + 1).

(** [x[k]] for a string key [k] *)
Definition subscript {W} (k : string) (j : Json) : M W Json :=
  match j with
  | JObj kvs =>
      match assoc k kvs with
      | Some v => ret v
      | None => raise (KeyError k)
      end
  | JArr _ => raise (TypeError "list indices must be integers or slices, not str")
  | JStr _ => raise (TypeError "string indices must be integers, not 'str'")
  | _ => raise (TypeError ("'" +:+ type_name j +:+ "' object is not subscriptable"))
  end.

(** The elements a [for] loop or [extend] takes from a value. *)
Definition iterate {W} (j : Json) : M W (list Json) :=
  match py_iter j with
  | Some l => ret l
  | None => raise (TypeError ("'" +:+ type_name j +:+ "' object is not iterable"))
  end.

(** The error detail of a failed create or update:
    [response.json().get('message', 'Unknown error')], and [response.text]
    when that raises. *)
Definition error_detail (response : Response) : string :=
  match json response with
  | inl (JObj kvs) => py_str (dict_get "message" (JStr "Unknown error") (JObj kvs))
  | _ => text response
  end.

Definition base_url : string := "https://api.github.com".

Definition per_page : Z := 100.

Definition ENCRYPTED_SECRET_VALUE : string := "[ENCRYPTED_SECRET_VALUE]".

Definition PLACEHOLDER_VALUE_SET_MANUALLY : string := "PLACEHOLDER_VALUE_SET_MANUALLY".

(** The two lists [get_target_repository_ids] fills in its loop: the ids
    of the names the mapping knows, and the names it does not know. *)
Fixpoint translate (mapping : gmap Key Json) (repo_names : list string)
  : list Json * list string :=
  match repo_names with
  | [] => ([], [])
  | repo_name :: rest =>
      let (target_ids, missing_repos) := translate mapping rest in
      match mapping !! KStr repo_name with
      | Some id => (id :: target_ids, missing_repos)
      | None => (target_ids, repo_name :: missing_repos)
      end
  end.

(** [f" (visibility: {visibility}"] and its closing part *)
Definition visibility_info (visibility : string) (selected_repo_names : list string)
  : string :=
  " (visibility: " +:+ visibility +:+
  (if String.eqb visibility "selected"
   then ", repositories: " +:+ pretty (length selected_repo_names) +:+ ")"
   else ")").

Section Migrator.

Context {Server : Type}.

(** [session.request(method, url, **kwargs)]: the answer of the remote
    service, or the message of a [requests.exceptions.RequestException]. *)
Variable serve : Request -> Server -> (Response + string) * Server.

(** [str(datetime.fromtimestamp(t))], which depends on the local zone. *)
Variable render_time : Z -> string.

(** The sealed box of [encrypt_secret]: the draw number, the plain text
    and the public key give the base64 text, or the message of the
    exception raised. *)
Variable sealed_box : nat -> string -> Json -> string + string.

(** ['secrets'] in [GitHubSecretsMigrator], ['variables'] in
    [GitHubVariablesMigrator]. *)
Variable collection_key : string.

(** [SOURCE_ORGANIZATION] and [TARGET_ORGANIZATION] *)
Variables source_org target_org : string.

Local Abbreviation W := (World Server).

Definition session_request (rq : Request) : M W Response :=
  fun w =>
    let w1 := set_trace (trace w ++ [(clock w, rq)]) w in
    match serve rq (server w1) with
    | (inl response, s') => (Ok response, set_server s' w1)
    | (inr msg, s') => (Raise (RequestException msg), set_server s' w1)
    end.

Definition int_header (h : Header) : M W Z :=
  match h with
  | Absent => ret 0
  | Value z => ret z
  | Malformed raw =>
      raise (ValueError ("invalid literal for int() with base 10: '" +:+ raw +:+ "'"))
  end.

Definition _handle_rate_limit (response : Response) : M W unit :=
  let* remaining := int_header (ratelimit_remaining response) in
  modify (set_rate_limit_remaining remaining) ;;
  let* reset := int_header (ratelimit_reset response) in
  modify (set_rate_limit_reset (Some reset)) ;;
  if (status_code response =? 429) || (remaining <? 10) then
    let* now := gets clock in
    let wait_time := reset * 1000000 - now + 10 * 1000000 in
    if 0 <? wait_time then
      logger WARNING ("Rate limit reached. Waiting " +:+ format_0f wait_time
                      +:+ " seconds until " +:+ render_time reset) ;;
      sleep wait_time
    else ret tt
  else ret tt.

Definition _make_request (session : Session) (method : Method) (url : string)
    (params : list (string * Z)) (body : option Json) : M W Response :=
  try_except
    (let* response := session_request (mkRequest session method url params body) in
     _handle_rate_limit response ;;
     ret response)
    (fun e =>
       match e with
       | RequestException msg =>
           logger ERROR ("Request failed for " +:+ url +:+ ": " +:+ msg) ;;
           raise e
       | _ => raise e
       end).

(** [response.json()] *)
Definition response_json (response : Response) : M W Json :=
  match json response with
  | inl j => ret j
  | inr msg => raise (ValueError msg)
  end.

(** The [while True] loop of [_get_paginated_data], entered at [page]
    with [all_data] collected so far; [budget] bounds the number of
    iterations the model follows. *)
Fixpoint paginate (budget : nat) (session : Session) (url : string)
    (page : Z) (all_data : list Json) : M W (list Json) :=
  match budget with
  | O => unfinished
  | S budget' =>
      let* response :=
        _make_request session GET url [("page", page); ("per_page", per_page)] None in
      if negb (status_code response =? 200) then ret all_data else
      let* data := response_json response in
      if negb (truthy data) then ret all_data else
      match data with
      | JArr l =>
          let all_data := all_data ++ l in
          if Z.of_nat (length l) <? per_page then ret all_data
          else paginate budget' session url (page + 1) all_data
      | JObj _ =>
          let items :=
            dict_get "repositories" (dict_get collection_key (JArr []) data) data in
          let* l := iterate items in
          let all_data := all_data ++ l in
          if Z.of_nat (length l) <? per_page then ret all_data
          else paginate budget' session url (page + 1) all_data
      | _ => ret all_data
      end
  end.

Definition _get_paginated_data (budget : nat) (session : Session) (url : string)
  : M W (list Json) :=
  paginate budget session url 1 [].

Definition get_organization_repositories (budget : nat) (org : string)
    (session : Session) : M W (list Json) :=
  logger INFO ("Fetching repositories for organization: " +:+ org) ;;
  let url := base_url +:+ "/orgs/" +:+ org +:+ "/repos" in
  let* repos := _get_paginated_data budget session url in
  logger INFO ("Found " +:+ pretty (length repos) +:+ " repositories in " +:+ org) ;;
  ret repos.

(** The body of the loop of [build_target_repo_mapping]. *)
Definition record_repo (repo : Json) : M W unit :=
  match repo with
  | JObj kvs =>
      match assoc "name" kvs, assoc "id" kvs with
      | Some name, Some id =>
          match to_key name with
          | Some k => modify (fun w => set_target_repo_mapping
                                         (<[k := id]> (target_repo_mapping w)) w)
          | None => raise (TypeError ("unhashable type: '" +:+ type_name name +:+ "'"))
          end
      | _, _ => ret tt
      end
  | _ => ret tt
  end.

Definition build_target_repo_mapping (budget : nat) : M W unit :=
  let* mapping := gets target_repo_mapping in
  if bool_decide (mapping ≠ ∅) then ret tt (* Already built *) else
  logger INFO "Building target organization repository mapping..." ;;
  let* target_repos := get_organization_repositories budget target_org target_session in
  for_each target_repos tt (fun _ repo => record_repo repo) ;;
  let* mapping := gets target_repo_mapping in
  logger INFO ("Built mapping for " +:+ pretty (size mapping) +:+ " target repositories").

Definition get_target_repository_ids (budget : nat) (repo_names : list string)
  : M W (list Json) :=
  build_target_repo_mapping budget ;;
  let* mapping := gets target_repo_mapping in
  let (target_ids, missing_repos) := translate mapping repo_names in
  (match missing_repos with
   | [] => ret tt
   | _ => logger WARNING ("Repositories not found in target org: "
                          +:+ String.concat ", " missing_repos)
   end) ;;
  ret target_ids.

(** *** [GitHubSecretsMigrator] *)

Definition check_organization_secret_exists (org secret_name : string)
    (session : Session) : M W bool :=
  logger INFO ("Checking if organization secret '" +:+ secret_name
               +:+ "' exists in " +:+ org) ;;
  let url := base_url +:+ "/orgs/" +:+ org +:+ "/actions/secrets/" +:+ secret_name in
  let* response := _make_request session GET url [] None in
  if status_code response =? 200 then
    logger INFO ("Organization secret '" +:+ secret_name +:+ "' already exists in "
                 +:+ org +:+ " - will skip") ;;
    ret true
  else if status_code response =? 404 then
    logger INFO ("Organization secret '" +:+ secret_name +:+ "' does not exist in "
                 +:+ org +:+ " - will create") ;;
    ret false
  else
    logger WARNING ("Unexpected response when checking org secret " +:+ secret_name
                    +:+ ": " +:+ pretty (status_code response)) ;;
    ret false.

Definition check_repository_secret_exists (org repo secret_name : string)
    (session : Session) : M W bool :=
  logger INFO ("Checking if repository secret '" +:+ secret_name
               +:+ "' exists in " +:+ org +:+ "/" +:+ repo) ;;
  let url := base_url +:+ "/repos/" +:+ org +:+ "/" +:+ repo
             +:+ "/actions/secrets/" +:+ secret_name in
  let* response := _make_request session GET url [] None in
  if status_code response =? 200 then
    logger INFO ("Repository secret '" +:+ secret_name +:+ "' already exists in "
                 +:+ org +:+ "/" +:+ repo +:+ " - will skip") ;;
    ret true
  else if status_code response =? 404 then
    logger INFO ("Repository secret '" +:+ secret_name +:+ "' does not exist in "
                 +:+ org +:+ "/" +:+ repo +:+ " - will create") ;;
    ret false
  else
    logger WARNING ("Unexpected response when checking repo secret " +:+ repo +:+ "/"
                    +:+ secret_name +:+ ": " +:+ pretty (status_code response)) ;;
    ret false.

(** The result is [JNull] where the method returns [None]. *)
Definition get_organization_public_key (org : string) (session : Session) : M W Json :=
  let* cache := gets org_public_key_cache in
  match cache !! org with
  | Some public_key => ret public_key
  | None =>
      let url := base_url +:+ "/orgs/" +:+ org +:+ "/actions/secrets/public-key" in
      let* response := _make_request session GET url [] None in
      if negb (status_code response =? 200) then
        logger ERROR ("Failed to fetch org public key for " +:+ org +:+ ": "
                      +:+ pretty (status_code response)) ;;
        ret JNull
      else
        try_except
          (let* public_key := response_json response in
           modify (fun w => set_org_public_key_cache
                              (<[org := public_key]> (org_public_key_cache w)) w) ;;
           ret public_key)
          (fun e =>
             logger ERROR ("Error parsing org public key for " +:+ org +:+ ": "
                           +:+ exn_str e) ;;
             ret JNull)
  end.

Definition get_repository_public_key (org repo : string) (session : Session)
  : M W Json :=
  let cache_key := org +:+ "/" +:+ repo in
  let* cache := gets repo_public_key_cache in
  match cache !! cache_key with
  | Some public_key => ret public_key
  | None =>
      let url := base_url +:+ "/repos/" +:+ org +:+ "/" +:+ repo
                 +:+ "/actions/secrets/public-key" in
      let* response := _make_request session GET url [] None in
      if negb (status_code response =? 200) then
        logger ERROR ("Failed to fetch repo public key for " +:+ org +:+ "/" +:+ repo
                      +:+ ": " +:+ pretty (status_code response)) ;;
        ret JNull
      else
        try_except
          (let* public_key := response_json response in
           modify (fun w => set_repo_public_key_cache
                              (<[cache_key := public_key]> (repo_public_key_cache w)) w) ;;
           ret public_key)
          (fun e =>
             logger ERROR ("Error parsing repo public key for " +:+ org +:+ "/" +:+ repo
                           +:+ ": " +:+ exn_str e) ;;
             ret JNull)
  end.

Definition encrypt_secret (secret_value : string) (public_key : Json) : M W string :=
  try_except
    (let* n := gets rng in
     modify (set_rng (S n)) ;;
     match sealed_box n secret_value public_key with
     | inl encrypted => ret encrypted
     | inr msg => raise (CryptoError msg)
     end)
    (fun e => logger ERROR ("Error encrypting secret: " +:+ exn_str e) ;; raise e).

(** [value == '[ENCRYPTED_SECRET_VALUE]' or not value.strip()] *)
Definition no_actual_value (value : string) : bool :=
  String.eqb value ENCRYPTED_SECRET_VALUE || String.eqb (strip value) "".

(** The visibility part of the create and update payloads: with
    visibility ['selected'] and a non-empty name list the names are
    translated; the ids are added when there are any, and the visibility
    becomes ['private'] when there are none. *)
Definition with_selected_repositories (budget : nat) (what name visibility : string)
    (selected_repo_names : list string) (data : list (string * Json))
  : M W (list (string * Json)) :=
  if String.eqb visibility "selected"
     && match selected_repo_names with [] => false | _ => true end
  then
    let* target_repo_ids := get_target_repository_ids budget selected_repo_names in
    match target_repo_ids with
    | _ :: _ => ret (dict_set "selected_repository_ids" (JArr target_repo_ids) data)
    | [] =>
        logger WARNING ("No valid repositories found for " +:+ what +:+ " " +:+ name
                        +:+ ", setting visibility to 'private'") ;;
        ret (dict_set "visibility" (JStr "private") data)
    end
  else ret data.

(** The result is [Some true] for [True], [Some false] for [False] and
    [None] for [None] (skipped). *)
Definition create_organization_secret (budget : nat) (org name value visibility : string)
    (selected_repo_names : list string) (session : Session)
    (create_placeholder : bool) : M W (option bool) :=
  let* found := check_organization_secret_exists org name session in
  if found then
    logger INFO ("Organization secret '" +:+ name +:+ "' already exists - skipping") ;;
    ret None
  else
  if no_actual_value value && negb create_placeholder then
    logger WARNING ("Cannot create secret " +:+ name +:+ " - no actual value provided") ;;
    ret (Some false)
  else
  (if no_actual_value value
   then logger INFO ("Creating secret " +:+ name
                     +:+ " with placeholder value (to be set manually later)")
   else ret tt) ;;
  let value := if no_actual_value value then PLACEHOLDER_VALUE_SET_MANUALLY else value in
  let* public_key_info := get_organization_public_key org session in
  if negb (truthy public_key_info) then
    logger ERROR ("Failed to get public key for organization " +:+ org) ;;
    ret (Some false)
  else
  let* encrypted :=
    try_except
      (let* key := subscript "key" public_key_info in
       let* encrypted_value := encrypt_secret value key in
       ret (Some encrypted_value))
      (fun e =>
         logger ERROR ("Failed to encrypt secret " +:+ name +:+ ": " +:+ exn_str e) ;;
         ret None) in
  match encrypted with
  | None => ret (Some false)
  | Some encrypted_value =>
      let url := base_url +:+ "/orgs/" +:+ org +:+ "/actions/secrets/" +:+ name in
      let* key_id := subscript "key_id" public_key_info in
      let data := [("encrypted_value", JStr encrypted_value);
                   ("key_id", key_id);
                   ("visibility", JStr visibility)] in
      let* data :=
        with_selected_repositories budget "secret" name visibility selected_repo_names data in
      let* response := _make_request session PUT url [] (Some (JObj data)) in
      if (status_code response =? 201) || (status_code response =? 204) then
        let action :=
          "Created/Updated" +:+
          (if String.eqb value PLACEHOLDER_VALUE_SET_MANUALLY then " [PLACEHOLDER]" else "") in
        logger INFO (action +:+ " organization secret: " +:+ name
                     +:+ visibility_info visibility selected_repo_names) ;;
        ret (Some true)
      else
        logger ERROR ("Failed to create organization secret " +:+ name +:+ ": "
                      +:+ pretty (status_code response) +:+ " - "
                      +:+ error_detail response) ;;
        ret (Some false)
  end.

Definition create_repository_secret (org repo name value : string) (session : Session)
    (create_placeholder : bool) : M W (option bool) :=
  let* found := check_repository_secret_exists org repo name session in
  if found then
    logger INFO ("Repository secret '" +:+ name +:+ "' already exists in " +:+ repo
                 +:+ " - skipping") ;;
    ret None
  else
  if no_actual_value value && negb create_placeholder then
    logger WARNING ("Cannot create secret " +:+ name +:+ " in " +:+ repo
                    +:+ " - no actual value provided") ;;
    ret (Some false)
  else
  (if no_actual_value value
   then logger INFO ("Creating secret " +:+ name +:+ " in " +:+ repo
                     +:+ " with placeholder value (to be set manually later)")
   else ret tt) ;;
  let value := if no_actual_value value then PLACEHOLDER_VALUE_SET_MANUALLY else value in
  let* public_key_info := get_repository_public_key org repo session in
  if negb (truthy public_key_info) then
    logger ERROR ("Failed to get public key for repository " +:+ org +:+ "/" +:+ repo) ;;
    ret (Some false)
  else
  let* encrypted :=
    try_except
      (let* key := subscript "key" public_key_info in
       let* encrypted_value := encrypt_secret value key in
       ret (Some encrypted_value))
      (fun e =>
         logger ERROR ("Failed to encrypt secret " +:+ name +:+ ": " +:+ exn_str e) ;;
         ret None) in
  match encrypted with
  | None => ret (Some false)
  | Some encrypted_value =>
      let url := base_url +:+ "/repos/" +:+ org +:+ "/" +:+ repo
                 +:+ "/actions/secrets/" +:+ name in
      let* key_id := subscript "key_id" public_key_info in
      let data := [("encrypted_value", JStr encrypted_value); ("key_id", key_id)] in
      let* response := _make_request session PUT url [] (Some (JObj data)) in
      if (status_code response =? 201) || (status_code response =? 204) then
        let action :=
          "Created/Updated" +:+
          (if String.eqb value PLACEHOLDER_VALUE_SET_MANUALLY then " [PLACEHOLDER]" else "") in
        logger INFO (action +:+ " repository secret: " +:+ repo +:+ "/" +:+ name) ;;
        ret (Some true)
      else if status_code response =? 404 then
        logger WARNING ("Repository " +:+ org +:+ "/" +:+ repo
                        +:+ " not found in target organization - skipping secret "
                        +:+ name) ;;
        ret (Some false)
      else
        logger ERROR ("Failed to create repository secret " +:+ repo +:+ "/" +:+ name
                      +:+ ": " +:+ pretty (status_code response) +:+ " - "
                      +:+ error_detail response) ;;
        ret (Some false)
  end.

(** [[repo.strip() for repo in s.split(',') if repo.strip()]], and [[]]
    for the empty string. *)
Definition parse_selected_repositories (s : string) : list string :=
  let selected_repos := if String.eqb s "" then [] else split ","%char s in
  map strip (filter (fun repo => strip repo ≠ "") selected_repos).

(** The loop of [migrate_secrets]; the accumulator holds
    [(success_count, error_count, skipped_count)]. *)
Definition count_result (counts : nat * nat * nat) (success : option bool)
  : nat * nat * nat :=
  let '(success_count, error_count, skipped_count) := counts in
  match success with
  | Some true => (S success_count, error_count, skipped_count)
  | Some false => (success_count, S error_count, skipped_count)
  | None => (success_count, error_count, S skipped_count)
  end.

Definition count_error (counts : nat * nat * nat) : nat * nat * nat :=
  let '(success_count, error_count, skipped_count) := counts in
  (success_count, S error_count, skipped_count).

Definition completed_message (counts : nat * nat * nat) : string :=
  let '(success_count, error_count, skipped_count) := counts in
  "Migration completed. Success: " +:+ pretty success_count +:+ ", Errors: "
  +:+ pretty error_count +:+ ", Skipped: " +:+ pretty skipped_count.

End Migrator.

(** A row of the export: the eight columns of the CSV file, each a
    string, as [csv.DictReader] yields them for a file written by
    [export_secrets_to_csv] and as [fetch_all_secrets] builds them from
    API objects whose fields have their documented types. *)
Record Row : Type := mkRow {
  scope : string;
  repository : string;
  name : string;
  value : string;
  visibility : string;
  selected_repositories : string;
  created_at : string;
  updated_at : string
}.

Section SecretsMigration.

Context {Server : Type}.
Variable serve : Request -> Server -> (Response + string) * Server.
Variable render_time : Z -> string.
Variable sealed_box : nat -> string -> Json -> string + string.
Variables source_org target_org : string.

Local Abbreviation W := (World Server).
Local Abbreviation make_request := (_make_request serve render_time).
Local Abbreviation paginated_data := (_get_paginated_data serve render_time "secrets").

Definition migrate_secrets (budget : nat) (secrets_data : list Row)
    (create_placeholder : bool) : M W (nat * nat * nat) :=
  let mode := if create_placeholder then "with placeholder values"
              else "only with actual values" in
  logger INFO ("Starting migration of " +:+ pretty (length secrets_data)
               +:+ " secrets " +:+ mode) ;;
  let* counts :=
    for_each secrets_data (0%nat, 0%nat, 0%nat) (fun counts secret =>
      try_except
        (let* success :=
           if String.eqb (scope secret) "organization" then
             let selected_repos :=
               parse_selected_repositories (selected_repositories secret) in
             create_organization_secret serve render_time sealed_box "secrets"
               target_org budget target_org (name secret) (value secret)
               (visibility secret) selected_repos target_session create_placeholder
           else if String.eqb (scope secret) "repository" then
             create_repository_secret serve render_time sealed_box
               target_org (repository secret) (name secret) (value secret)
               target_session create_placeholder
           else
             logger ERROR ("Unknown scope: " +:+ scope secret) ;;
             ret (Some false) in
         ret (count_result counts success))
        (fun e =>
           logger ERROR ("Error migrating secret " +:+ name secret +:+ ": "
                         +:+ exn_str e) ;;
           ret (count_error counts))) in
  logger INFO (completed_message counts) ;;
  ret counts.

(** [[repo[k] for repo in repos if isinstance(repo, dict) and k in repo]] *)
Definition pluck (k : string) (repos : list Json) : list Json :=
  omap (member k) repos.

Definition get_secret_selected_repositories (budget : nat) (org secret_name : string)
    (session : Session) : M W (list Json) :=
  let url := base_url +:+ "/orgs/" +:+ org +:+ "/actions/secrets/" +:+ secret_name
             +:+ "/repositories" in
  paginated_data budget session url.

(** [secret_name] is the text of the name as the f-strings render it. *)
Definition get_organization_secret_details (budget : nat) (org secret_name : string)
    (session : Session) : M W Json :=
  let url := base_url +:+ "/orgs/" +:+ org +:+ "/actions/secrets/" +:+ secret_name in
  let* response := make_request session GET url [] None in
  if negb (status_code response =? 200) then
    logger WARNING ("Failed to fetch detailed info for secret " +:+ secret_name +:+ ": "
                    +:+ pretty (status_code response)) ;;
    ret JNull
  else
    try_except
      (let* secret_details := response_json response in
       match secret_details with
       | JObj kvs =>
           let* kvs :=
             if is_str "selected" (dict_get_none "visibility" secret_details) then
               let* selected_repos :=
                 get_secret_selected_repositories budget org secret_name session in
               let kvs := dict_set "selected_repository_ids"
                            (JArr (pluck "id" selected_repos)) kvs in
               let kvs := dict_set "selected_repository_names"
                            (JArr (pluck "name" selected_repos)) kvs in
               logger INFO ("Secret " +:+ secret_name +:+ " has selected visibility for "
                            +:+ pretty (length selected_repos) +:+ " repositories") ;;
               ret kvs
             else ret kvs in
           ret (JObj (dict_set "value" (JStr ENCRYPTED_SECRET_VALUE) kvs))
       | _ =>
           logger ERROR ("Secret details for " +:+ secret_name +:+ " is not a dict: "
                         +:+ py_type secret_details) ;;
           ret JNull
       end)
      (fun e =>
         logger ERROR ("Error parsing secret details for " +:+ secret_name +:+ ": "
                       +:+ exn_str e) ;;
         ret JNull).

(** The body of the loop of [get_organization_secrets] for the item
    [secret] at index [i]; [enhanced_secrets] is the list built so far. *)
Definition enhance_secret (budget : nat) (org : string) (session : Session)
    (i : nat) (secret : Json) (enhanced_secrets : list Json) : M W (list Json) :=
  try_except
    (match secret with
     | JObj kvs =>
         let secret_name := dict_get_none "name" secret in
         if negb (truthy secret_name) then
           logger ERROR ("Secret " +:+ pretty i +:+ " has no name: " +:+ py_str secret) ;;
           ret enhanced_secrets
         else
           let* enhanced_secret :=
             get_organization_secret_details budget org (py_str secret_name) session in
           if truthy enhanced_secret && is_dict enhanced_secret then
             ret (enhanced_secrets ++ [enhanced_secret])
           else
             logger WARNING ("Using basic info for secret: " +:+ py_str secret_name) ;;
             let kvs := match assoc "visibility" kvs with
                        | Some _ => kvs
                        | None => dict_set "visibility" (JStr "all") kvs
                        end in
             ret (enhanced_secrets ++ [JObj kvs])
     | _ =>
         logger ERROR ("Secret " +:+ pretty i +:+ " is not a dict: " +:+ py_type secret
                       +:+ " - " +:+ py_str secret) ;;
         ret enhanced_secrets
     end)
    (fun e =>
       logger ERROR ("Error processing secret " +:+ pretty i +:+ ": " +:+ exn_str e) ;;
       ret enhanced_secrets).

(** [data.get('secrets', [])] for a dict, [data] itself for a list; [None]
    for any other value. *)
Definition secrets_of (data : Json) : option Json :=
  match data with
  | JObj _ => Some (dict_get "secrets" (JArr []) data)
  | JArr _ => Some data
  | _ => None
  end.

Definition get_organization_secrets (budget : nat) (org : string) (session : Session)
  : M W (list Json) :=
  logger INFO ("Fetching organization secrets for: " +:+ org) ;;
  let url := base_url +:+ "/orgs/" +:+ org +:+ "/actions/secrets" in
  let* response := make_request session GET url [] None in
  if negb (status_code response =? 200) then
    logger ERROR ("Failed to fetch org secrets: " +:+ pretty (status_code response)) ;;
    (if status_code response =? 404
     then logger ERROR "Organization not found or no access to secrets"
     else ret tt) ;;
    ret []
  else
  let* parsed :=
    try_except
      (let* data := response_json response in
       match secrets_of data with
       | Some secrets => ret (Some secrets)
       | None =>
           logger ERROR ("Unexpected response format: " +:+ py_type data) ;;
           ret None
       end)
      (fun e =>
         logger ERROR ("Failed to parse JSON response: " +:+ exn_str e) ;;
         ret None) in
  match parsed with
  | None => ret []
  | Some secrets =>
      if negb (truthy secrets) then
        logger INFO "No organization secrets found" ;;
        ret []
      else
        let* items := iterate secrets in
        let* r :=
          for_each items (0%nat, []) (fun acc secret =>
            let* enhanced_secrets :=
              enhance_secret budget org session (fst acc) secret (snd acc) in
            ret (S (fst acc), enhanced_secrets)) in
        let enhanced_secrets := snd r in
        logger INFO ("Found " +:+ pretty (length enhanced_secrets)
                     +:+ " organization secrets") ;;
        ret enhanced_secrets
  end.

(** [secret['value'] = '[ENCRYPTED_SECRET_VALUE]'] on the dicts of the
    list; a dict or a string in place of the list is left as it is (its
    items are strings). *)
Definition mark_values (secrets : Json) : Json :=
  match secrets with
  | JArr l =>
      JArr (map (fun secret =>
                   match secret with
                   | JObj kvs => JObj (dict_set "value" (JStr ENCRYPTED_SECRET_VALUE) kvs)
                   | _ => secret
                   end) l)
  | _ => secrets
  end.

(** [len(x)] of an iterable value *)
Definition py_len (j : Json) : nat :=
  match py_iter j with Some l => length l | None => 0%nat end.

(** [repo] is the text of the repository name as the f-strings render
    it.  The result is the value the method returns: the list of
    secrets, or whatever stands under ['secrets']. *)
Definition get_repository_secrets (org repo : string) (session : Session) : M W Json :=
  let url := base_url +:+ "/repos/" +:+ org +:+ "/" +:+ repo +:+ "/actions/secrets" in
  let* response := make_request session GET url [] None in
  if negb (status_code response =? 200) then
    (if status_code response =? 404 then ret tt
     else logger WARNING ("Failed to fetch repo secrets for " +:+ org +:+ "/" +:+ repo
                          +:+ ": " +:+ pretty (status_code response))) ;;
    ret (JArr [])
  else
  let* parsed :=
    try_except
      (let* data := response_json response in
       match secrets_of data with
       | Some secrets => ret (Some secrets)
       | None =>
           logger ERROR ("Unexpected repo secrets response format: " +:+ py_type data) ;;
           ret None
       end)
      (fun e =>
         logger ERROR ("Error parsing repo secrets for " +:+ org +:+ "/" +:+ repo +:+ ": "
                       +:+ exn_str e) ;;
         ret None) in
  match parsed with
  | None => ret (JArr [])
  | Some secrets =>
      iterate secrets ;;
      let secrets := mark_values secrets in
      (if truthy secrets
       then logger INFO ("Found " +:+ pretty (py_len secrets)
                         +:+ " repository secrets for " +:+ org +:+ "/" +:+ repo)
       else ret tt) ;;
      ret secrets
  end.

(** [','.join(x)]: every item must be a string. *)
Fixpoint join_items (i : nat) (items : list Json) : M W (list string) :=
  match items with
  | [] => ret []
  | JStr s :: rest => let* r := join_items (S i) rest in ret (s :: r)
  | j :: _ =>
      raise (TypeError ("sequence item " +:+ pretty i +:+ ": expected str instance, "
                        +:+ type_name j +:+ " found"))
  end.

Definition comma_join (x : Json) : M W string :=
  let* items := iterate x in
  let* parts := join_items 0 items in
  ret (String.concat "," parts).

Definition org_secret_row (secret : Json) : M W Row :=
  let selected_repos := dict_get "selected_repository_names" (JArr []) secret in
  let* joined := if truthy selected_repos then comma_join selected_repos else ret "" in
  ret (mkRow "organization" ""
         (py_str (dict_get "name" (JStr "") secret))
         (py_str (dict_get "value" (JStr ENCRYPTED_SECRET_VALUE) secret))
         (py_str (dict_get "visibility" (JStr "all") secret))
         joined
         (py_str (dict_get "created_at" (JStr "") secret))
         (py_str (dict_get "updated_at" (JStr "") secret))).

Definition repo_secret_row (repo_name : string) (secret : Json) : Row :=
  mkRow "repository" repo_name
    (py_str (dict_get "name" (JStr "") secret))
    (py_str (dict_get "value" (JStr ENCRYPTED_SECRET_VALUE) secret))
    "" ""
    (py_str (dict_get "created_at" (JStr "") secret))
    (py_str (dict_get "updated_at" (JStr "") secret)).

Definition fetch_all_secrets (budget : nat) : M W (list Row) :=
  let* org_secrets := get_organization_secrets budget source_org source_session in
  let* all_secrets :=
    for_each org_secrets [] (fun all_secrets secret =>
      if negb (is_dict secret) then
        logger ERROR ("Org secret is not a dict: " +:+ py_type secret +:+ " - "
                      +:+ py_str secret) ;;
        ret all_secrets
      else
        let* row := org_secret_row secret in
        ret (all_secrets ++ [row])) in
  let* repos :=
    get_organization_repositories serve render_time "secrets" budget
      source_org source_session in
  for_each repos all_secrets (fun all_secrets repo =>
    match member "name" repo with
    | None => ret all_secrets
    | Some repo_name =>
        let* repo_secrets :=
          get_repository_secrets source_org (py_str repo_name) source_session in
        let* items := iterate repo_secrets in
        for_each items all_secrets (fun all_secrets secret =>
          if negb (is_dict secret) then
            logger ERROR ("Repo secret is not a dict: " +:+ py_type secret +:+ " - "
                          +:+ py_str secret) ;;
            ret all_secrets
          else ret (all_secrets ++ [repo_secret_row (py_str repo_name) secret]))
    end).

(** [run_complete_migration], without the CSV file it writes between the
    two steps and without its own log lines. *)
Definition run_complete_migration (budget : nat) : M W (option (nat * nat * nat)) :=
  let* secrets_data := fetch_all_secrets budget in
  match secrets_data with
  | [] => ret None
  | _ =>
      let* counts := migrate_secrets budget secrets_data true in
      ret (Some counts)
  end.

End SecretsMigration.

(** *** [GitHubVariablesMigrator] *)

Section VariablesMigration.

Context {Server : Type}.
Variable serve : Request -> Server -> (Response + string) * Server.
Variable render_time : Z -> string.
Variables source_org target_org : string.

Local Abbreviation W := (World Server).
Local Abbreviation make_request := (_make_request serve render_time).
Local Abbreviation selected_repositories_payload :=
  (with_selected_repositories serve render_time "variables" target_org).

Definition update_organization_variable (budget : nat) (org name value visibility : string)
    (selected_repo_names : list string) (session : Session) : M W (option bool) :=
  let url := base_url +:+ "/orgs/" +:+ org +:+ "/actions/variables/" +:+ name in
  let data := [("name", JStr name); ("value", JStr value);
               ("visibility", JStr visibility)] in
  let* data :=
    selected_repositories_payload budget "variable" name visibility selected_repo_names data in
  let* response := make_request session PATCH url [] (Some (JObj data)) in
  if status_code response =? 204 then
    logger INFO ("Updated organization variable: " +:+ name
                 +:+ visibility_info visibility selected_repo_names) ;;
    ret (Some true)
  else
    logger ERROR ("Failed to update organization variable " +:+ name +:+ ": "
                  +:+ pretty (status_code response) +:+ " - " +:+ error_detail response) ;;
    ret (Some false).

Definition create_organization_variable (budget : nat) (org name value visibility : string)
    (selected_repo_names : list string) (session : Session) : M W (option bool) :=
  let url := base_url +:+ "/orgs/" +:+ org +:+ "/actions/variables" in
  let data := [("name", JStr name); ("value", JStr value);
               ("visibility", JStr visibility)] in
  let* data :=
    selected_repositories_payload budget "variable" name visibility selected_repo_names data in
  let* response := make_request session POST url [] (Some (JObj data)) in
  if status_code response =? 201 then
    logger INFO ("Created organization variable: " +:+ name
                 +:+ visibility_info visibility selected_repo_names) ;;
    ret (Some true)
  else if status_code response =? 409 then
    logger INFO ("Organization variable already exists, updating: " +:+ name) ;;
    update_organization_variable budget org name value visibility selected_repo_names session
  else
    logger ERROR ("Failed to create organization variable " +:+ name +:+ ": "
                  +:+ pretty (status_code response) +:+ " - " +:+ error_detail response) ;;
    ret (Some false).

Definition update_repository_variable (org repo name value : string) (session : Session)
  : M W (option bool) :=
  let url := base_url +:+ "/repos/" +:+ org +:+ "/" +:+ repo
             +:+ "/actions/variables/" +:+ name in
  let data := [("name", JStr name); ("value", JStr value)] in
  let* response := make_request session PATCH url [] (Some (JObj data)) in
  if status_code response =? 204 then
    logger INFO ("Updated repository variable: " +:+ repo +:+ "/" +:+ name) ;;
    ret (Some true)
  else
    logger ERROR ("Failed to update repository variable " +:+ repo +:+ "/" +:+ name
                  +:+ ": " +:+ pretty (status_code response) +:+ " - "
                  +:+ error_detail response) ;;
    ret (Some false).

Definition create_repository_variable (org repo name value : string) (session : Session)
  : M W (option bool) :=
  let url := base_url +:+ "/repos/" +:+ org +:+ "/" +:+ repo +:+ "/actions/variables" in
  let data := [("name", JStr name); ("value", JStr value)] in
  let* response := make_request session POST url [] (Some (JObj data)) in
  if status_code response =? 201 then
    logger INFO ("Created repository variable: " +:+ repo +:+ "/" +:+ name) ;;
    ret (Some true)
  else if status_code response =? 409 then
    logger INFO ("Repository variable already exists, updating: " +:+ repo +:+ "/"
                 +:+ name) ;;
    update_repository_variable org repo name value session
  else if status_code response =? 404 then
    logger WARNING ("Repository " +:+ org +:+ "/" +:+ repo
                    +:+ " not found in target organization - skipping variable "
                    +:+ name) ;;
    ret (Some false)
  else
    logger ERROR ("Failed to create repository variable " +:+ repo +:+ "/" +:+ name
                  +:+ ": " +:+ pretty (status_code response) +:+ " - "
                  +:+ error_detail response) ;;
    ret (Some false).

Definition migrate_variables (budget : nat) (variables_data : list Row)
  : M W (nat * nat * nat) :=
  logger INFO ("Starting migration of " +:+ pretty (length variables_data)
               +:+ " variables") ;;
  let* counts :=
    for_each variables_data (0%nat, 0%nat, 0%nat) (fun counts var =>
      try_except
        (let* success :=
           if String.eqb (scope var) "organization" then
             let selected_repos :=
               parse_selected_repositories (selected_repositories var) in
             create_organization_variable budget target_org (name var) (value var)
               (visibility var) selected_repos target_session
           else if String.eqb (scope var) "repository" then
             create_repository_variable target_org (repository var) (name var)
               (value var) target_session
           else
             logger ERROR ("Unknown scope: " +:+ scope var) ;;
             ret (Some false) in
         ret (count_result counts success))
        (fun e =>
           logger ERROR ("Error migrating variable " +:+ name var +:+ ": "
                         +:+ exn_str e) ;;
           ret (count_error counts))) in
  logger INFO (completed_message counts) ;;
  ret counts.

End VariablesMigration.

(** ** [Rulesets/rulesets.py] *)

Module Rulesets.

Record ApiRequest : Type := mkApiRequest {
  method : Method;
  url : string;
  token : option string;          (* the token of the Authorization header *)
  params : list (string * Json);
  body : option Json
}.

Record ApiResponse : Type := mkApiResponse {
  status_code : Z;
  reason : string;
  text : string;
  json : Json + string           (* [inr msg]: [response.json()] raises *)
}.

Record State (Server : Type) : Type := mkState {
  server : Server;
  trace : list ApiRequest;
  log : list (Level * string)
}.
Arguments mkState {Server}.
Arguments server {Server}.
Arguments trace {Server}.
Arguments log {Server}.

Definition init_state {Server} (s : Server) : State Server := mkState s [] [].

(** [a or b] for two optional tokens: an empty string is as good as none. *)
Definition token_or (a b : option string) : option string :=
  match a with
  | Some s => if String.eqb s "" then b else a
  | None => b
  end.

(** The standard repository roles and the names [get_bypass_actor_details]
    gives them. *)
Definition role_map : gmap Key string :=
  {[ KInt 1 := "read"; KInt 2 := "triage"; KInt 3 := "write";
     KInt 4 := "maintain"; KInt 5 := "admin" ]}.

(** [details.get("name") or details.get("login") or details.get("slug") or fallback] *)
Definition actor_name (details fallback : Json) : Json :=
  py_or (dict_get_none "name" details)
    (py_or (dict_get_none "login" details)
       (py_or (dict_get_none "slug" details) fallback)).

(** [x.get(k)]: [AttributeError] when [x] is not a dict. *)
Definition get_attr {W} (k : string) (default : Json) (x : Json) : M W Json :=
  match x with
  | JObj _ => ret (dict_get k default x)
  | _ => raise (AttributeError ("'" +:+ type_name x +:+ "' object has no attribute 'get'"))
  end.

Section Script.

Context {Server : Type}.

(** [requests.request(method, url, headers=headers, **kwargs)] *)
Variable serve : ApiRequest -> Server -> (ApiResponse + string) * Server.

(** The module's configuration, read from the environment. *)
Variables SOURCE_GITHUB_TOKEN TARGET_GITHUB_TOKEN ENV_GITHUB_TOKEN : option string.
Variables SOURCE_API_URL TARGET_API_URL : string.
Variables ENRICH_BYPASS_ACTORS SANITIZE_BYPASS_ACTORS REMOVE_ALL_BYPASS_ACTORS : bool.

Definition GITHUB_TOKEN : option string :=
  token_or SOURCE_GITHUB_TOKEN (token_or TARGET_GITHUB_TOKEN ENV_GITHUB_TOKEN).

Local Abbreviation W := (State Server).

Definition logger (lvl : Level) (msg : string) : M W unit :=
  modify (fun w => mkState (server w) (trace w) (log w ++ [(lvl, msg)])).

(** The result is [None] where the function returns [None]. *)
Definition make_api_request (method : Method) (url : string) (token : option string)
    (params : list (string * Json)) (body : option Json) : M W (option ApiResponse) :=
  fun w =>
    let rq := mkApiRequest method url (token_or token GITHUB_TOKEN) params body in
    let w1 := mkState (server w) (trace w ++ [rq]) (log w) in
    match serve rq (server w1) with
    | (inl response, s') =>
        let w2 := mkState s' (trace w1) (log w1) in
        if (400 <=? status_code response) && (status_code response <? 600) then
          if status_code response =? 404 then
            (logger INFO ("Resource not found for URL " +:+ url
                          +:+ " (404). This may be expected.") ;;
             ret None) w2
          else
            (logger ERROR ("HTTP Error for URL " +:+ url +:+ ": "
                           +:+ pretty (status_code response) +:+ " " +:+ reason response) ;;
             logger ERROR ("Response Body: " +:+ text response) ;;
             ret None) w2
        else (Ok (Some response), w2)
    | (inr msg, s') =>
        (logger ERROR ("Request failed: " +:+ msg) ;; ret None)
          (mkState s' (trace w1) (log w1))
    end.

Definition response_json (response : ApiResponse) : M W Json :=
  match json response with
  | inl j => ret j
  | inr msg => raise (ValueError msg)
  end.

(** [[repo['name'] for repo in data]] *)
Fixpoint names_of (data : list Json) : M W (list Json) :=
  match data with
  | [] => ret []
  | repo :: rest =>
      let* name := subscript "name" repo in
      let* names := names_of rest in
      ret (name :: names)
  end.

(** The [while True] loop of [get_all_repos], entered at [page] with
    [repos] collected so far. *)
Fixpoint all_repos_from (budget : nat) (org api_url : string) (token : option string)
    (page : Z) (repos : list Json) : M W (list Json) :=
  match budget with
  | O => unfinished
  | S budget' =>
      let url := api_url +:+ "/orgs/" +:+ org +:+ "/repos" in
      let* response :=
        make_api_request GET url token [("per_page", JInt 100); ("page", JInt page)] None in
      match response with
      | None =>
          logger ERROR ("Could not fetch repositories for '" +:+ org +:+ "'.") ;;
          ret repos
      | Some response =>
          let* data := response_json response in
          if negb (truthy data) then ret repos else
          let* items := iterate data in
          let* names := names_of items in
          all_repos_from budget' org api_url token (page + 1) (repos ++ names)
      end
  end.

Definition get_all_repos (budget : nat) (org api_url : string) (token : option string)
  : M W (list Json) :=
  logger INFO ("Fetching all repositories for organization '" +:+ org +:+ "'...") ;;
  let* repos := all_repos_from budget org api_url token 1 [] in
  logger INFO ("Found " +:+ pretty (length repos) +:+ " repositories in '" +:+ org +:+ "'.") ;;
  ret repos.

(** [{ruleset['name']: ruleset['id'] for ruleset in rulesets}] *)
Fixpoint index_rulesets (rulesets : list Json) (acc : gmap Key Json)
  : M W (gmap Key Json) :=
  match rulesets with
  | [] => ret acc
  | ruleset :: rest =>
      let* name := subscript "name" ruleset in
      let* id := subscript "id" ruleset in
      match to_key name with
      | Some k => index_rulesets rest (<[k := id]> acc)
      | None => raise (TypeError ("unhashable type: '" +:+ type_name name +:+ "'"))
      end
  end.

(** [repo] is [None] for the rulesets of the organization. *)
Definition check_existing_rulesets (org : string) (repo : option string)
    (api_url : string) (token : option string) : M W (gmap Key Json) :=
  let url := match repo with
             | Some repo =>
                 if String.eqb repo "" then api_url +:+ "/orgs/" +:+ org +:+ "/rulesets"
                 else api_url +:+ "/repos/" +:+ org +:+ "/" +:+ repo +:+ "/rulesets"
             | None => api_url +:+ "/orgs/" +:+ org +:+ "/rulesets"
             end in
  let* response :=
    make_api_request GET url token [("include_parents", JStr "false")] None in
  match response with
  | None => ret ∅
  | Some response =>
      let* rulesets := response_json response in
      let* items := iterate rulesets in
      let* existing_rulesets := index_rulesets items ∅ in
      logger INFO ("Found " +:+ pretty (size existing_rulesets) +:+ " existing rulesets") ;;
      ret existing_rulesets
  end.

(** *** Bypass actors *)

(** The result is [JNull] where the function returns [None]. *)
Definition get_bypass_actor_details (actor_id actor_type : Json) (org : string)
    (token : option string) (api_url : string) : M W Json :=
  try_except
    (if is_str "Team" actor_type then
       let url := api_url +:+ "/teams/" +:+ py_str actor_id in
       let* response := make_api_request GET url token [] None in
       match response with
       | Some response =>
           let* team_data := response_json response in
           let* id := get_attr "id" JNull team_data in
           let* organization := get_attr "organization" (JObj []) team_data in
           let* login := get_attr "login" JNull organization in
           ret (JObj [("id", id);
                      ("slug", dict_get_none "slug" team_data);
                      ("name", dict_get_none "name" team_data);
                      ("description", dict_get_none "description" team_data);
                      ("privacy", dict_get "privacy" (JStr "closed") team_data);
                      ("permission", dict_get "permission" (JStr "pull") team_data);
                      ("organization", login)])
       | None => ret JNull
       end
     else if is_str "User" actor_type then
       ret (JObj [("id", actor_id);
                  ("type", JStr "user_by_id");
                  ("note", JStr "User ID stored for later resolution during import")])
     else if is_str "RepositoryRole" actor_type then
       match to_key actor_id with
       | Some k =>
           ret (JObj [("id", actor_id);
                      ("name", JStr (default ("role_" +:+ py_str actor_id) (role_map !! k)));
                      ("type", JStr "repository_role")])
       | None => raise (TypeError ("unhashable type: '" +:+ type_name actor_id +:+ "'"))
       end
     else ret JNull)
    (fun e =>
       logger ERROR ("Failed to fetch " +:+ py_str actor_type +:+ " details for ID "
                     +:+ py_str actor_id +:+ ": " +:+ exn_str e) ;;
       ret JNull).

(** The result is [JNull] where the function returns [None]. *)
Definition find_existing_team_in_target (team_details : Json) (target_org : string)
    (token : option string) (api_url : string) : M W Json :=
  let* team_slug := get_attr "slug" JNull team_details in
  if negb (truthy team_slug) then
    logger ERROR "Team slug not found in team details" ;;
    ret JNull
  else
    let url := api_url +:+ "/orgs/" +:+ target_org +:+ "/teams/" +:+ py_str team_slug in
    let* response := make_api_request GET url token [] None in
    match response with
    | Some response =>
        let* existing_team := response_json response in
        let* id := subscript "id" existing_team in
        logger INFO ("Found existing team '" +:+ py_str team_slug +:+ "' in " +:+ target_org
                     +:+ " with ID " +:+ py_str id) ;;
        ret id
    | None =>
        logger WARNING ("Team '" +:+ py_str team_slug +:+ "' not found in " +:+ target_org
                        +:+ " - will be skipped") ;;
        ret JNull
    end.

Definition find_user_in_target (user_details : Json) (target_org : string)
    (token : option string) (api_url : string) : M W Json :=
  let* user_id := get_attr "id" JNull user_details in
  if negb (truthy user_id) then
    logger ERROR "User ID not found in user details" ;;
    ret JNull
  else
    logger INFO ("User ID " +:+ py_str user_id
                 +:+ " will be validated during ruleset creation") ;;
    ret user_id.

(** The body of the loop of [enrich_bypass_actors_with_details]. *)
Definition enrich_actor (org : string) (token : option string) (api_url : string)
    (enriched_actors : list Json) (actor : Json) : M W (list Json) :=
  let* actor_id := get_attr "actor_id" JNull actor in
  let* actor_type := get_attr "actor_type" JNull actor in
  let* bypass_mode := get_attr "bypass_mode" JNull actor in
  let* actor_details := get_bypass_actor_details actor_id actor_type org token api_url in
  let enriched_actor := JObj [("original_actor_id", actor_id);
                              ("actor_type", actor_type);
                              ("bypass_mode", bypass_mode);
                              ("details", actor_details)] in
  (if truthy actor_details then
     logger INFO ("Enriched " +:+ py_str actor_type +:+ " bypass actor: "
                  +:+ py_str (py_or (dict_get_none "name" actor_details)
                                (py_or (dict_get_none "login" actor_details) actor_id)))
   else
     logger WARNING ("Could not enrich " +:+ py_str actor_type +:+ " bypass actor ID "
                     +:+ py_str actor_id)) ;;
  ret (enriched_actors ++ [enriched_actor]).

Definition enrich_bypass_actors_with_details (bypass_actors : Json) (org : string)
    (token : option string) (api_url : string) : M W (list Json) :=
  if negb (truthy bypass_actors) then ret [] else
  let* actors := iterate bypass_actors in
  for_each actors [] (enrich_actor org token api_url).

(** The body of the loop of [resolve_bypass_actors_for_target]. *)
Definition resolve_actor (target_org : string) (token : option string) (api_url : string)
    (resolved_actors : list Json) (enriched_actor : Json) : M W (list Json) :=
  let* actor_type := get_attr "actor_type" JNull enriched_actor in
  let* bypass_mode := get_attr "bypass_mode" JNull enriched_actor in
  let* details := get_attr "details" JNull enriched_actor in
  let* original_id := get_attr "original_actor_id" JNull enriched_actor in
  if negb (truthy details) then
    logger WARNING ("Skipping " +:+ py_str actor_type +:+ " actor " +:+ py_str original_id
                    +:+ " - no details available") ;;
    ret resolved_actors
  else
  let* target_actor_id :=
    if is_str "Team" actor_type then
      find_existing_team_in_target details target_org token api_url
    else if is_str "User" actor_type then
      find_user_in_target details target_org token api_url
    else if is_str "RepositoryRole" actor_type then ret original_id
    else ret JNull in
  if truthy target_actor_id then
    let resolved_actor := JObj [("actor_id", target_actor_id);
                                ("actor_type", actor_type);
                                ("bypass_mode", bypass_mode)] in
    get_attr "name" JNull details ;;
    logger INFO ("Resolved " +:+ py_str actor_type +:+ " '"
                 +:+ py_str (actor_name details target_actor_id) +:+ "' to ID "
                 +:+ py_str target_actor_id +:+ " in " +:+ target_org) ;;
    ret (resolved_actors ++ [resolved_actor])
  else
    get_attr "name" JNull details ;;
    logger WARNING ("Could not resolve " +:+ py_str actor_type +:+ " '"
                    +:+ py_str (actor_name details original_id) +:+ "' in "
                    +:+ target_org) ;;
    ret resolved_actors.

Definition resolve_bypass_actors_for_target (enriched_bypass_actors : Json)
    (target_org : string) (token : option string) (api_url : string) : M W (list Json) :=
  if negb (truthy enriched_bypass_actors) then ret [] else
  let* actors := iterate enriched_bypass_actors in
  for_each actors [] (resolve_actor target_org token api_url).

(** *** Export and import *)

(** [len(x)] *)
Definition len_of (x : Json) : M W nat :=
  match py_iter x with
  | Some l => ret (length l)
  | None => raise (TypeError ("object of type '" +:+ type_name x +:+ "' has no len()"))
  end.

(** The body of the loop of [export_rulesets_for_repo]. *)
Definition export_ruleset (org repo : string) (detailed_rulesets : list Json)
    (ruleset_summary : Json) : M W (list Json) :=
  let* id := subscript "id" ruleset_summary in
  let detail_url := SOURCE_API_URL +:+ "/repos/" +:+ org +:+ "/" +:+ repo
                    +:+ "/rulesets/" +:+ py_str id in
  let* detail_response := make_api_request GET detail_url SOURCE_GITHUB_TOKEN [] None in
  match detail_response with
  | None => ret detailed_rulesets
  | Some detail_response =>
      let* ruleset := response_json detail_response in
      let* bypass_actors := get_attr "bypass_actors" JNull ruleset in
      let* ruleset :=
        if ENRICH_BYPASS_ACTORS && truthy bypass_actors then
          logger INFO ("Enriching bypass actors for ruleset '"
                       +:+ py_str (dict_get_none "name" ruleset) +:+ "'...") ;;
          let* enriched_bypass_actors :=
            enrich_bypass_actors_with_details bypass_actors org
              SOURCE_GITHUB_TOKEN SOURCE_API_URL in
          match ruleset with
          | JObj kvs =>
              ret (JObj (dict_set "enriched_bypass_actors" (JArr enriched_bypass_actors)
                           (dict_set "original_bypass_actors" bypass_actors kvs)))
          | _ => ret ruleset
          end
        else if truthy bypass_actors then
          logger INFO ("Bypass actor enrichment disabled for ruleset '"
                       +:+ py_str (dict_get_none "name" ruleset) +:+ "'") ;;
          ret ruleset
        else ret ruleset in
      ret (detailed_rulesets ++ [ruleset])
  end.

Definition export_rulesets_for_repo (org repo : string) : M W (list Json) :=
  logger INFO ("Exporting rulesets from '" +:+ org +:+ "/" +:+ repo +:+ "'...") ;;
  let url := SOURCE_API_URL +:+ "/repos/" +:+ org +:+ "/" +:+ repo +:+ "/rulesets" in
  let* response :=
    make_api_request GET url SOURCE_GITHUB_TOKEN [("include_parents", JStr "false")] None in
  match response with
  | None => ret []
  | Some response =>
      let* rulesets := response_json response in
      if negb (truthy rulesets) then
        logger INFO ("No rulesets found on '" +:+ org +:+ "/" +:+ repo +:+ "'.") ;;
        ret []
      else
        let* n := len_of rulesets in
        logger INFO ("Found " +:+ pretty n +:+ " ruleset(s) on '" +:+ org +:+ "/" +:+ repo
                     +:+ "'.") ;;
        let* items := iterate rulesets in
        for_each items [] (export_ruleset org repo)
  end.

(** The body of the loop of [sanitize_bypass_actors]; the accumulator
    holds [(sanitized_actors, removed_actors)]. *)
Definition sanitize_actor (acc : list Json * list string) (actor : Json)
  : M W (list Json * list string) :=
  let (sanitized_actors, removed_actors) := acc in
  let* actor_type := get_attr "actor_type" (JStr "") actor in
  let* actor_id := get_attr "actor_id" (JStr "") actor in
  let label := py_str actor_type +:+ ":" +:+ py_str actor_id in
  if is_str "RepositoryRole" actor_type then
    ret (sanitized_actors ++ [actor], removed_actors)
  else if is_str "Team" actor_type then
    logger WARNING ("Removing bypass_actor " +:+ label
                    +:+ " - teams from source org may not exist in target org") ;;
    ret (sanitized_actors, removed_actors ++ [label])
  else
    logger INFO ("Keeping bypass_actor " +:+ label
                 +:+ " - please verify this exists in target org") ;;
    ret (sanitized_actors ++ [actor], removed_actors).

Definition sanitize_bypass_actors (bypass_actors : Json) (org repo : string) : M W Json :=
  if negb (truthy bypass_actors) then ret (JArr []) else
  if REMOVE_ALL_BYPASS_ACTORS then
    logger INFO "Removing all bypass_actors as per REMOVE_ALL_BYPASS_ACTORS configuration" ;;
    ret (JArr [])
  else if negb SANITIZE_BYPASS_ACTORS then
    logger INFO "Keeping original bypass_actors as per SANITIZE_BYPASS_ACTORS configuration" ;;
    ret bypass_actors
  else
    let* actors := iterate bypass_actors in
    let* r := for_each actors ([], []) sanitize_actor in
    let (sanitized_actors, removed_actors) := r in
    (match removed_actors with
     | [] => ret tt
     | _ => logger INFO ("Removed " +:+ pretty (length removed_actors)
                         +:+ " bypass_actors from ruleset: "
                         +:+ String.concat ", " removed_actors)
     end) ;;
    ret (JArr sanitized_actors).

(** [{k: ruleset.get(k) for k in keys if ruleset.get(k) is not None}] *)
Definition payload_of (ruleset : Json) (keys : list string) : list (string * Json) :=
  omap (fun k => match dict_get_none k ruleset with
                 | JNull => None
                 | v => Some (k, v)
                 end) keys.

(** [report_entry.update({...})] with the three result fields *)
Definition with_result (report_entry : list (string * Json))
    (migration_status : string) (target_ruleset_id : Json) (details : string)
  : list (string * Json) :=
  dict_set "details" (JStr details)
    (dict_set "target_ruleset_id" target_ruleset_id
       (dict_set "migration_status" (JStr migration_status) report_entry)).

(** The body of the loop of [import_rulesets_for_repo]. *)
Definition import_ruleset (org repo : string) (source_org source_repo : option string)
    (existing_rulesets : gmap Key Json) (report_entries : list Json) (ruleset : Json)
  : M W (list Json) :=
  let url := TARGET_API_URL +:+ "/repos/" +:+ org +:+ "/" +:+ repo +:+ "/rulesets" in
  let* ruleset_name := get_attr "name" (JStr "Unknown") ruleset in
  let source_info :=
    match token_or source_org None, token_or source_repo None with
    | Some so, Some sr => so +:+ "/" +:+ sr
    | _, _ => "Unknown"
    end in
  let report_entry :=
    [("source_repository", JStr source_info);
     ("target_repository", JStr (org +:+ "/" +:+ repo));
     ("ruleset_name", ruleset_name);
     ("source_ruleset_id", dict_get "id" (JStr "Unknown") ruleset);
     ("enforcement", dict_get "enforcement" (JStr "Unknown") ruleset);
     ("target", dict_get "target" (JStr "Unknown") ruleset)] in
  match to_key ruleset_name with
  | None => raise (TypeError ("unhashable type: '" +:+ type_name ruleset_name +:+ "'"))
  | Some k =>
  match existing_rulesets !! k with
  | Some existing_id =>
      logger WARNING ("Ruleset '" +:+ py_str ruleset_name +:+ "' already exists on '"
                      +:+ org +:+ "/" +:+ repo +:+ "' with ID " +:+ py_str existing_id
                      +:+ ". Skipping creation.") ;;
      ret (report_entries ++
             [JObj (with_result report_entry "Skipped" existing_id
                      "Ruleset already exists in target repository")])
  | None =>
      let enriched := dict_get_none "enriched_bypass_actors" ruleset in
      let plain := dict_get_none "bypass_actors" ruleset in
      let* r :=
        if truthy enriched then
          logger INFO ("Resolving enriched bypass actors for ruleset '"
                       +:+ py_str ruleset_name +:+ "'...") ;;
          let* resolved :=
            resolve_bypass_actors_for_target enriched org
              TARGET_GITHUB_TOKEN TARGET_API_URL in
          let* n := len_of enriched in
          ret (JArr resolved,
               ["Resolved " +:+ pretty (length resolved) +:+ " from " +:+ pretty n
                +:+ " enriched actors"])
        else if truthy plain then
          logger WARNING ("No enriched bypass actors found for '" +:+ py_str ruleset_name
                          +:+ "', falling back to sanitization") ;;
          let* resolved := sanitize_bypass_actors plain org repo in
          ret (resolved, ["Used sanitization fallback (no enriched data)"])
        else ret (JArr [], []) in
      let (resolved_bypass_actors, bypass_actor_details) := r in
      let payload :=
        payload_of ruleset ["name"; "target"; "enforcement"; "conditions"; "rules"] in
      let payload := if truthy resolved_bypass_actors
                     then dict_set "bypass_actors" resolved_bypass_actors payload
                     else payload in
      let report_entry :=
        match bypass_actor_details with
        | [] => report_entry
        | _ => dict_set "bypass_actors_info"
                 (JStr (String.concat "; " bypass_actor_details)) report_entry
        end in
      let* payload_name := subscript "name" (JObj payload) in
      let* n := len_of resolved_bypass_actors in
      logger INFO ("Attempting to create ruleset: '" +:+ py_str payload_name +:+ "' on '"
                   +:+ org +:+ "/" +:+ repo +:+ "' with " +:+ pretty n
                   +:+ " bypass actors...") ;;
      let* response :=
        make_api_request POST url TARGET_GITHUB_TOKEN [] (Some (JObj payload)) in
      let created :=
        match response with
        | Some response => if status_code response =? 201 then Some response else None
        | None => None
        end in
      match created with
      | Some response =>
          let* created_ruleset := response_json response in
          let* created_name := subscript "name" created_ruleset in
          let* created_id := subscript "id" created_ruleset in
          logger INFO ("Ruleset '" +:+ py_str created_name +:+ "' created successfully on '"
                       +:+ org +:+ "/" +:+ repo +:+ "' with ID " +:+ py_str created_id) ;;
          ret (report_entries ++
                 [JObj (with_result report_entry "Success" created_id
                          "Successfully migrated to target repository")])
      | None =>
          let error_details :=
            match response with
            | Some response => text response
            | None => "Request failed. Check console for API error."
            end in
          logger ERROR ("Failed to create ruleset '" +:+ py_str payload_name +:+ "' on '"
                        +:+ org +:+ "/" +:+ repo +:+ "': " +:+ error_details) ;;
          ret (report_entries ++
                 [JObj (with_result report_entry "Failed" (JStr "N/A") error_details)])
      end
  end
  end.

Definition import_rulesets_for_repo (org repo : string) (rulesets_to_create : list Json)
    (source_org source_repo : option string) : M W (list Json) :=
  logger INFO ("Starting ruleset import for '" +:+ org +:+ "/" +:+ repo +:+ "'...") ;;
  let* existing_rulesets :=
    check_existing_rulesets org (Some repo) TARGET_API_URL TARGET_GITHUB_TOKEN in
  for_each rulesets_to_create []
    (import_ruleset org repo source_org source_repo existing_rulesets).

End Script.

End Rulesets.

(** ** [Webhooks/migrate_webhooks.py]

    The script talks to the service through PyGithub.  Its calls are
    the constructors of [Call]; each names the API handle it goes
    through ([source_github_api] or [target_github_api]) and the full
    name of the repository.  The export file is the value
    [export_webhooks] returns and [import_webhooks] takes; the export
    date the file also carries, the log line that quotes it and the CSV
    report written at the end are not modelled. *)

Module Webhooks.

Inductive Api : Type := source_github_api | target_github_api.

Global Instance Api_eq_dec : EqDecision Api.
Proof. solve_decision. Defined.

(** A hook as PyGithub presents it. *)
Record Hook : Type := mkHook {
  config : Json;
  events : Json;
  active : bool
}.

(** An entry of the export: the dict [webhook_info]. *)
Record Webhook : Type := mkWebhook {
  wh_url : Json;
  wh_content_type : Json;
  wh_insecure_ssl : Json;
  wh_events : Json;
  wh_active : bool
}.

Inductive Call : Type :=
| GetRepo (api : Api) (repo_full_name : string)
| GetHooks (api : Api) (repo_full_name : string)
| CreateHook (api : Api) (repo_full_name : string) (name : string)
    (new_config : list (string * Json)) (hook_events : Json) (hook_active : bool).

Inductive Reply : Type :=
| Repository                      (* [get_repo] found the repository *)
| Hooks (hooks : list Hook)       (* the hooks [get_hooks] lists *)
| Created.                        (* [create_hook] succeeded *)

Definition is_read (c : Call) : bool :=
  match c with
  | GetRepo _ _ | GetHooks _ _ => true
  | CreateHook _ _ _ _ _ _ => false
  end.

Definition api_of (c : Call) : Api :=
  match c with
  | GetRepo api _ | GetHooks api _ | CreateHook api _ _ _ _ _ => api
  end.

(** A row of [migration_results]. *)
Record MigrationResult : Type := mkResult {
  r_source_org : string;
  r_source_repo : string;
  r_target_org : string;
  r_target_repo : string;
  r_webhook_url : Json;
  r_events : Json;
  r_status : string;
  r_reason : string;
  r_migration_date : string
}.

Record State (Server : Type) : Type := mkState {
  server : Server;
  trace : list Call;
  log : list (Level * string);
  migration_results : list MigrationResult
}.
Arguments mkState {Server}.
Arguments server {Server}.
Arguments trace {Server}.
Arguments log {Server}.
Arguments migration_results {Server}.

Definition init_state {Server} (s : Server) : State Server := mkState s [] [] [].

(** [exported_data['repositories']]: per source repository, the target
    repository and the webhooks.  A repository listed twice keeps its
    first place and its last value, as a Python dict does. *)
Fixpoint set_repository (source_repo : string) (entry : string * list Webhook)
    (repositories : list (string * (string * list Webhook)))
  : list (string * (string * list Webhook)) :=
  match repositories with
  | [] => [(source_repo, entry)]
  | (k, v) :: rest =>
      if String.eqb source_repo k then (source_repo, entry) :: rest
      else (k, v) :: set_repository source_repo entry rest
  end.

Section Script.

Context {Server : Type}.

(** One PyGithub call: its reply, or the exception it raises. *)
Variable serve : Call -> Server -> (Reply + Exn) * Server.

(** [GH_ORG] and [TARGET_GH_ORG] *)
Variables source_org target_org : string.

(** [datetime.now().strftime('%Y-%m-%d %H:%M:%S')] *)
Variable now : string.

(** The name of the export file. *)
Variable WEBHOOKS_EXPORT_FILE : string.

Local Abbreviation W := (State Server).

Definition logging (lvl : Level) (msg : string) : M W unit :=
  modify (fun w => mkState (server w) (trace w) (log w ++ [(lvl, msg)])
                     (migration_results w)).

Definition call (c : Call) : M W Reply :=
  fun w =>
    let w1 := mkState (server w) (trace w ++ [c]) (log w) (migration_results w) in
    match serve c (server w1) with
    | (inl reply, s') => (Ok reply, mkState s' (trace w1) (log w1) (migration_results w1))
    | (inr e, s') => (Raise e, mkState s' (trace w1) (log w1) (migration_results w1))
    end.

(** The result is the handle of the repository (the API it came from and
    its full name), [None] where the method returns [None]. *)
Definition _get_repository (github_api : Api) (org repo_name : string)
  : M W (option (Api * string)) :=
  let repo_full_name := org +:+ "/" +:+ repo_name in
  logging INFO ("Fetching repository: " +:+ repo_full_name) ;;
  try_except
    (call (GetRepo github_api repo_full_name) ;;
     logging INFO ("Repository found: " +:+ repo_full_name) ;;
     ret (Some (github_api, repo_full_name)))
    (fun e =>
       match e with
       | GithubException _ _ =>
           logging ERROR ("Could not find repository: " +:+ repo_full_name
                          +:+ ". Error: " +:+ exn_str e) ;;
           ret None
       | _ => raise e
       end).

(** [gh_repo.get_hooks()], listed *)
Definition get_hooks (gh_repo : Api * string) : M W (list Hook) :=
  let* reply := call (GetHooks (fst gh_repo) (snd gh_repo)) in
  match reply with
  | Hooks hooks => ret hooks
  | _ => ret []
  end.

Definition _get_webhooks (gh_repo : Api * string) (repo_full_name : string)
  : M W (list Hook) :=
  logging INFO ("Fetching webhooks from " +:+ repo_full_name +:+ "...") ;;
  try_except
    (let* hooks := get_hooks gh_repo in
     logging INFO ("Found " +:+ pretty (length hooks) +:+ " webhook(s) in the repository.") ;;
     ret hooks)
    (fun e =>
       match e with
       | GithubException _ _ =>
           logging ERROR ("Failed to fetch webhooks from repository: " +:+ exn_str e) ;;
           ret []
       | _ => raise e
       end).

(** [hook.config.get(k, default)] *)
Definition config_get (k : string) (default : Json) (hook : Hook) : M W Json :=
  Rulesets.get_attr k default (config hook).

(** The loop over [source_hooks] in [export_webhooks]. *)
Definition export_hook (webhook_data : list Webhook) (hook : Hook) : M W (list Webhook) :=
  if active hook then
    let* url := config_get "url" JNull hook in
    let* content_type := config_get "content_type" (JStr "json") hook in
    let* insecure_ssl := config_get "insecure_ssl" (JStr "0") hook in
    logging INFO ("Exported webhook: " +:+ py_str url) ;;
    ret (webhook_data ++ [mkWebhook url content_type insecure_ssl (events hook) (active hook)])
  else
    let* url := config_get "url" JNull hook in
    logging INFO ("Skipped inactive webhook: " +:+ py_str url) ;;
    ret webhook_data.

(** [repositories] is what [read_repositories_from_csv] returns: the
    pairs of source and target repository.  The result is the content
    of the export file, [None] when nothing is written. *)
Definition export_webhooks (repositories : list (string * string))
  : M W (option (list (string * (string * list Webhook)))) :=
  logging INFO "Starting webhook export process..." ;;
  match repositories with
  | [] =>
      logging ERROR "No valid repositories found in CSV file." ;;
      ret None
  | _ =>
      let* exported :=
        for_each repositories [] (fun exported repo_mapping =>
          let source_repo := fst repo_mapping in
          let* source_gh_repo := _get_repository source_github_api source_org source_repo in
          match source_gh_repo with
          | None =>
              logging ERROR ("Skipping " +:+ source_repo
                             +:+ " - could not access repository") ;;
              ret exported
          | Some source_gh_repo =>
              let* source_hooks :=
                _get_webhooks source_gh_repo (source_org +:+ "/" +:+ source_repo) in
              let* webhook_data := for_each source_hooks [] export_hook in
              logging INFO ("Exported " +:+ pretty (length webhook_data)
                            +:+ " active webhooks from " +:+ source_repo) ;;
              ret (set_repository source_repo (snd repo_mapping, webhook_data) exported)
          end) in
      logging INFO ("Webhooks exported successfully to " +:+ WEBHOOKS_EXPORT_FILE) ;;
      logging INFO ("Total repositories processed: " +:+ pretty (length exported)) ;;
      ret (Some exported)
  end.

Definition _add_migration_result (source_repo target_repo : string)
    (webhook_url hook_events : Json) (status reason : string) : M W unit :=
  modify (fun w =>
    mkState (server w) (trace w) (log w)
      (migration_results w ++
         [mkResult source_org source_repo target_org target_repo
            webhook_url hook_events status reason now])).

(** [{h.config.get('url') for h in hooks}] *)
Fixpoint url_set (hooks : list Hook) (acc : gset Key) : M W (gset Key) :=
  match hooks with
  | [] => ret acc
  | h :: rest =>
      let* url := config_get "url" JNull h in
      match to_key url with
      | Some k => url_set rest ({[k]} ∪ acc)
      | None => raise (TypeError ("unhashable type: '" +:+ type_name url +:+ "'"))
      end
  end.

(** The loop over [webhooks] in [import_webhooks]. *)
Definition import_webhook (source_repo target_repo : string) (target_gh_repo : Api * string)
    (existing_target_hooks : gset Key) (webhook : Webhook) : M W unit :=
  let webhook_url := wh_url webhook in
  match to_key webhook_url with
  | None => raise (TypeError ("unhashable type: '" +:+ type_name webhook_url +:+ "'"))
  | Some k =>
      if bool_decide (k ∈ existing_target_hooks) then
        logging WARNING ("Webhook already exists in target: " +:+ py_str webhook_url) ;;
        _add_migration_result source_repo target_repo webhook_url (wh_events webhook)
          "SKIPPED" "Webhook already exists in target"
      else
        let new_config := [("url", wh_url webhook);
                           ("content_type", wh_content_type webhook);
                           ("insecure_ssl", wh_insecure_ssl webhook)] in
        try_except
          (call (CreateHook (fst target_gh_repo) (snd target_gh_repo) "web" new_config
                   (wh_events webhook) (wh_active webhook)) ;;
           logging INFO ("Successfully imported webhook: " +:+ py_str webhook_url) ;;
           _add_migration_result source_repo target_repo webhook_url (wh_events webhook)
             "SUCCESS" "")
          (fun e =>
             match e with
             | GithubException _ _ =>
                 logging ERROR ("Failed to import webhook " +:+ py_str webhook_url +:+ ": "
                                +:+ exn_str e) ;;
                 _add_migration_result source_repo target_repo webhook_url
                   (wh_events webhook) "FAILED" (exn_str e)
             | _ => raise e
             end)
  end.

(** The body of the loop over the repositories of the export file. *)
Definition import_repository (entry : string * (string * list Webhook)) : M W unit :=
  let source_repo := fst entry in
  let target_repo := fst (snd entry) in
  let webhooks := snd (snd entry) in
  match webhooks with
  | [] =>
      logging INFO ("No webhooks to import for " +:+ source_repo +:+ " -> " +:+ target_repo)
  | _ =>
      let* target_gh_repo := _get_repository target_github_api target_org target_repo in
      match target_gh_repo with
      | None =>
          logging ERROR ("Skipping " +:+ target_repo +:+ " - could not access repository") ;;
          _add_migration_result source_repo target_repo (JStr "N/A") (JStr "N/A")
            "FAILED" "Could not access target repository"
      | Some target_gh_repo =>
          let* hooks := get_hooks target_gh_repo in
          let* existing_target_hooks := url_set hooks ∅ in
          logging INFO ("Importing " +:+ pretty (length webhooks) +:+ " webhooks to "
                        +:+ target_repo) ;;
          for_each webhooks tt (fun _ webhook =>
            import_webhook source_repo target_repo target_gh_repo
              existing_target_hooks webhook)
      end
  end.

(** [exported] is the content of the export file. *)
Definition import_webhooks (exported : list (string * (string * list Webhook)))
  : M W unit :=
  logging INFO "Starting webhook import process..." ;;
  for_each exported tt (fun _ entry => import_repository entry) ;;
  logging INFO "Webhook import process finished.".

End Script.

End Webhooks.
(** ** [Migration/Python New/migrate_repos.py]: the paginated requests

    The inventory script has a collector of its own,
    [_get_all_paginated_items], on top of [_make_github_request]. *)

Module Repos.

Record ApiRequest : Type := mkApiRequest {
  url : string;
  token : string;                 (* the token of the Authorization header *)
  params : list (string * Json)
}.

Record ApiResponse : Type := mkApiResponse {
  status_code : Z;
  json : Json + string;          (* [inr msg]: [response.json()] raises *)
  text : string
}.

Record State (Server : Type) : Type := mkState {
  server : Server;
  clock : Z;                      (* seconds *)
  trace : list ApiRequest;
  log : list (Level * string)
}.
Arguments mkState {Server}.
Arguments server {Server}.
Arguments clock {Server}.
Arguments trace {Server}.
Arguments log {Server}.

Definition init_state {Server} (s : Server) : State Server := mkState s 0 [] [].

(** [len(x)] *)
Definition len {W} (x : Json) : M W Z :=
  match py_iter x with
  | Some l => ret (Z.of_nat (length l))
  | None => raise (TypeError ("object of type '" +:+ type_name x +:+ "' has no len()"))
  end.

Definition max_retries : Z := 3.

Section Script.

Context {Server : Type}.

(** [requests.get(url, headers=headers, params=params)] *)
Variable serve : ApiRequest -> Server -> (ApiResponse + string) * Server.

Local Abbreviation W := (State Server).

Definition logger (lvl : Level) (msg : string) : M W unit :=
  modify (fun w => mkState (server w) (clock w) (trace w) (log w ++ [(lvl, msg)])).

(** [time.sleep(d)], [d] in seconds *)
Definition sleep (d : Z) : M W unit :=
  modify (fun w => mkState (server w) (clock w + d) (trace w) (log w)).

Definition requests_get (url token : string) (params : list (string * Json))
  : M W ApiResponse :=
  fun w =>
    let rq := mkApiRequest url token params in
    match serve rq (server w) with
    | (inl response, s') => (Ok response, mkState s' (clock w) (trace w ++ [rq]) (log w))
    | (inr msg, s') =>
        (Raise (RequestException msg), mkState s' (clock w) (trace w ++ [rq]) (log w))
    end.

Definition response_json (response : ApiResponse) : M W Json :=
  match json response with
  | inl j => ret j
  | inr msg => raise (ValueError msg)
  end.

(** The [for attempt in range(max_retries)] loop of
    [_make_github_request], entered at [attempt] with [remaining]
    attempts to go.  An attempt ends the loop with the value to return
    ([inl], [JNull] for [None]) or goes on to the next one ([inr]). *)
Fixpoint attempts (remaining : nat) (attempt : Z) (url token : string)
    (params : list (string * Json)) : M W Json :=
  match remaining with
  | O => ret JNull
  | S remaining' =>
      let* outcome :=
        try_except
          (let* response := requests_get url token params in
           if status_code response =? 200 then
             let* j := response_json response in
             ret (inl j)
           else if status_code response =? 403 then
             logger WARNING "Rate limit exceeded, waiting..." ;;
             sleep 60 ;;
             ret (inr tt)
           else if status_code response =? 404 then
             logger WARNING ("Resource not found: " +:+ url) ;;
             ret (inl JNull)
           else
             logger ERROR ("API request failed: " +:+ pretty (status_code response)
                           +:+ " - " +:+ text response) ;;
             ret (inl JNull))
          (fun e =>
             logger ERROR ("Request attempt " +:+ pretty (attempt + 1) +:+ " failed: "
                           +:+ exn_str e) ;;
             if attempt <? max_retries - 1 then
               sleep (2 ^ attempt) ;;
               ret (inr tt)
             else ret (inl JNull)) in
      match outcome with
      | inl result => ret result
      | inr _ => attempts remaining' (attempt + 1) url token params
      end
  end.

(** The result is [JNull] where the method returns [None]. *)
Definition _make_github_request (url token : string) (params : list (string * Json))
  : M W Json :=
  attempts (Z.to_nat max_retries) 0 url token params.

(** The [while True] loop of [_get_all_paginated_items], entered at
    [page] with [all_items] collected so far; [budget] bounds the number
    of iterations the model follows. *)
Fixpoint paginated_from (budget : nat) (url token : string) (params : list (string * Json))
    (page : Z) (all_items : list Json) : M W (list Json) :=
  match budget with
  | O => unfinished
  | S budget' =>
      let paginated_params :=
        dict_set "page" (JInt page) (dict_set "per_page" (JInt per_page) params) in
      let* items := _make_github_request url token paginated_params in
      if negb (truthy items) then ret all_items else
      let* n := len items in
      if n =? 0 then ret all_items else
      let* elements := iterate items in
      let all_items := all_items ++ elements in
      if n <? per_page then ret all_items else
      let page := page + 1 in
      if page >? 100 then
        logger WARNING ("Reached pagination limit for " +:+ url) ;;
        ret all_items
      else paginated_from budget' url token params page all_items
  end.

Definition _get_all_paginated_items (budget : nat) (url token : string)
    (params : list (string * Json)) : M W (list Json) :=
  paginated_from budget url token params 1 [].

End Script.

End Repos.

(** *** [safe_log_name]

    [re.sub(r"[^A-Za-z0-9._-]+", "_", name)]: every maximal run of
    characters outside the class becomes one underscore.  The text is
    followed byte by byte in its UTF-8 form: the bytes of a character
    beyond ASCII are all outside the class and adjacent, so they fall
    into the run the character falls into. *)

Definition name_char (c : Ascii.ascii) : bool :=
  let n := Ascii.nat_of_ascii c in
  ((65 <=? n)%nat && (n <=? 90)%nat)
  || ((97 <=? n)%nat && (n <=? 122)%nat)
  || ((48 <=? n)%nat && (n <=? 57)%nat)
  || Ascii.eqb c "." || Ascii.eqb c "_" || Ascii.eqb c "-".

(** The substitution from a position on; [in_run] tells that the
    character before the position was outside the class, so that the
    underscore of its run is written already. *)
Fixpoint sub_runs (in_run : bool) (name : string) : string :=
  match name with
  | EmptyString => EmptyString
  | String c rest =>
      if name_char c then String c (sub_runs false rest)
      else if in_run then sub_runs true rest
      else String "_" (sub_runs true rest)
  end.

Definition safe_log_name (name : string) : string := sub_runs false name.

(** *** [GitHubVariablesMigrator]: the export *)

Section VariablesExport.

Context {Server : Type}.
Variable serve : Request -> Server -> (Response + string) * Server.
Variable render_time : Z -> string.
Variable source_org : string.

Local Abbreviation W := (World Server).
Local Abbreviation make_request := (_make_request serve render_time).
Local Abbreviation paginated_data := (_get_paginated_data serve render_time "variables").

Definition get_variable_selected_repositories (budget : nat) (org var_name : string)
    (session : Session) : M W (list Json) :=
  let url := base_url +:+ "/orgs/" +:+ org +:+ "/actions/variables/" +:+ var_name
             +:+ "/repositories" in
  paginated_data budget session url.

(** [var_name] is the text of the name as the f-strings render it.  The
    result is [JNull] where the method returns [None]. *)
Definition get_organization_variable_details (budget : nat) (org var_name : string)
    (session : Session) : M W Json :=
  let url := base_url +:+ "/orgs/" +:+ org +:+ "/actions/variables/" +:+ var_name in
  let* response := make_request session GET url [] None in
  if negb (status_code response =? 200) then
    logger WARNING ("Failed to fetch detailed info for variable " +:+ var_name +:+ ": "
                    +:+ pretty (status_code response)) ;;
    ret JNull
  else
    try_except
      (let* var_details := response_json response in
       match var_details with
       | JObj kvs =>
           if is_str "selected" (dict_get_none "visibility" var_details) then
             let* selected_repos :=
               get_variable_selected_repositories budget org var_name session in
             let kvs := dict_set "selected_repository_ids"
                          (JArr (pluck "id" selected_repos)) kvs in
             let kvs := dict_set "selected_repository_names"
                          (JArr (pluck "name" selected_repos)) kvs in
             logger INFO ("Variable " +:+ var_name +:+ " has selected visibility for "
                          +:+ pretty (length selected_repos) +:+ " repositories") ;;
             ret (JObj kvs)
           else ret (JObj kvs)
       | _ =>
           logger ERROR ("Variable details for " +:+ var_name +:+ " is not a dict: "
                         +:+ py_type var_details) ;;
           ret JNull
       end)
      (fun e =>
         logger ERROR ("Error parsing variable details for " +:+ var_name +:+ ": "
                       +:+ exn_str e) ;;
         ret JNull).

(** The body of the loop of [get_organization_variables] for the item
    [var] at index [i]; [enhanced_variables] is the list built so far. *)
Definition enhance_variable (budget : nat) (org : string) (session : Session)
    (i : nat) (var : Json) (enhanced_variables : list Json) : M W (list Json) :=
  try_except
    (match var with
     | JObj kvs =>
         let var_name := dict_get_none "name" var in
         if negb (truthy var_name) then
           logger ERROR ("Variable " +:+ pretty i +:+ " has no name: " +:+ py_str var) ;;
           ret enhanced_variables
         else
           let* enhanced_var :=
             get_organization_variable_details budget org (py_str var_name) session in
           if truthy enhanced_var && is_dict enhanced_var then
             ret (enhanced_variables ++ [enhanced_var])
           else
             logger WARNING ("Using basic info for variable: " +:+ py_str var_name) ;;
             let kvs := match assoc "visibility" kvs with
                        | Some _ => kvs
                        | None => dict_set "visibility" (JStr "all") kvs
                        end in
             ret (enhanced_variables ++ [JObj kvs])
     | _ =>
         logger ERROR ("Variable " +:+ pretty i +:+ " is not a dict: " +:+ py_type var
                       +:+ " - " +:+ py_str var) ;;
         ret enhanced_variables
     end)
    (fun e =>
       logger ERROR ("Error processing variable " +:+ pretty i +:+ ": " +:+ exn_str e) ;;
       ret enhanced_variables).

(** [data.get('variables', [])] for a dict, [data] itself for a list;
    [None] for any other value. *)
Definition variables_of (data : Json) : option Json :=
  match data with
  | JObj _ => Some (dict_get "variables" (JArr []) data)
  | JArr _ => Some data
  | _ => None
  end.

Definition get_organization_variables (budget : nat) (org : string) (session : Session)
  : M W (list Json) :=
  logger INFO ("Fetching organization variables for: " +:+ org) ;;
  let url := base_url +:+ "/orgs/" +:+ org +:+ "/actions/variables" in
  let* response := make_request session GET url [] None in
  if negb (status_code response =? 200) then
    logger ERROR ("Failed to fetch org variables: " +:+ pretty (status_code response)) ;;
    (if status_code response =? 404
     then logger ERROR "Organization not found or no access to variables"
     else ret tt) ;;
    ret []
  else
  let* parsed :=
    try_except
      (let* data := response_json response in
       match variables_of data with
       | Some variables => ret (Some variables)
       | None =>
           logger ERROR ("Unexpected response format: " +:+ py_type data) ;;
           ret None
       end)
      (fun e =>
         logger ERROR ("Failed to parse JSON response: " +:+ exn_str e) ;;
         ret None) in
  match parsed with
  | None => ret []
  | Some variables =>
      if negb (truthy variables) then
        logger INFO "No organization variables found" ;;
        ret []
      else
        let* items := iterate variables in
        let* r :=
          for_each items (0%nat, []) (fun acc var =>
            let* enhanced_variables :=
              enhance_variable budget org session (fst acc) var (snd acc) in
            ret (S (fst acc), enhanced_variables)) in
        let enhanced_variables := snd r in
        logger INFO ("Found " +:+ pretty (length enhanced_variables)
                     +:+ " organization variables") ;;
        ret enhanced_variables
  end.

(** [len(x)] *)
Definition len (j : Json) : M W nat :=
  match py_iter j with
  | Some l => ret (length l)
  | None => raise (TypeError ("object of type '" +:+ type_name j +:+ "' has no len()"))
  end.

(** [repo] is the text of the repository name as the f-strings render
    it.  The result is the value the method returns: the list of
    variables, or whatever stands under ['variables']. *)
Definition get_repository_variables (org repo : string) (session : Session) : M W Json :=
  let url := base_url +:+ "/repos/" +:+ org +:+ "/" +:+ repo +:+ "/actions/variables" in
  let* response := make_request session GET url [] None in
  if negb (status_code response =? 200) then
    (if status_code response =? 404 then ret tt
     else logger WARNING ("Failed to fetch repo variables for " +:+ org +:+ "/" +:+ repo
                          +:+ ": " +:+ pretty (status_code response))) ;;
    ret (JArr [])
  else
  let* parsed :=
    try_except
      (let* data := response_json response in
       match variables_of data with
       | Some variables => ret (Some variables)
       | None =>
           logger ERROR ("Unexpected repo variables response format: " +:+ py_type data) ;;
           ret None
       end)
      (fun e =>
         logger ERROR ("Error parsing repo variables for " +:+ org +:+ "/" +:+ repo +:+ ": "
                       +:+ exn_str e) ;;
         ret None) in
  match parsed with
  | None => ret (JArr [])
  | Some variables =>
      (if truthy variables
       then let* n := len variables in
            logger INFO ("Found " +:+ pretty n +:+ " repository variables for "
                         +:+ org +:+ "/" +:+ repo)
       else ret tt) ;;
      ret variables
  end.

Definition org_variable_row (var : Json) : M W Row :=
  let selected_repos := dict_get "selected_repository_names" (JArr []) var in
  let* joined := if truthy selected_repos then comma_join selected_repos else ret "" in
  ret (mkRow "organization" ""
         (py_str (dict_get "name" (JStr "") var))
         (py_str (dict_get "value" (JStr "") var))
         (py_str (dict_get "visibility" (JStr "all") var))
         joined
         (py_str (dict_get "created_at" (JStr "") var))
         (py_str (dict_get "updated_at" (JStr "") var))).

Definition repo_variable_row (repo_name : string) (var : Json) : Row :=
  mkRow "repository" repo_name
    (py_str (dict_get "name" (JStr "") var))
    (py_str (dict_get "value" (JStr "") var))
    "" ""
    (py_str (dict_get "created_at" (JStr "") var))
    (py_str (dict_get "updated_at" (JStr "") var)).

Definition fetch_all_variables (budget : nat) : M W (list Row) :=
  let* org_variables := get_organization_variables budget source_org source_session in
  let* all_variables :=
    for_each org_variables [] (fun all_variables var =>
      if negb (is_dict var) then
        logger ERROR ("Org variable is not a dict: " +:+ py_type var +:+ " - "
                      +:+ py_str var) ;;
        ret all_variables
      else
        let* row := org_variable_row var in
        ret (all_variables ++ [row])) in
  let* repos :=
    get_organization_repositories serve render_time "variables" budget
      source_org source_session in
  for_each repos all_variables (fun all_variables repo =>
    match member "name" repo with
    | None => ret all_variables
    | Some repo_name =>
        let* repo_variables :=
          get_repository_variables source_org (py_str repo_name) source_session in
        let* items := iterate repo_variables in
        for_each items all_variables (fun all_variables var =>
          if negb (is_dict var) then
            logger ERROR ("Repo variable is not a dict: " +:+ py_type var +:+ " - "
                          +:+ py_str var) ;;
            ret all_variables
          else ret (all_variables ++ [repo_variable_row (py_str repo_name) var]))
    end).

End VariablesExport.

(** ** Simulated services

    The services the properties below are stated against: a paginated
    source that serves a fixed list in pages, a source that never runs
    out of full pages, and a target organization that keeps its secrets,
    variables and repositories. *)

(** The items of page [page] (counted from 1) of a listing of [items] in
    pages of [per_page]. *)
Definition chunk (items : list Json) (page : Z) : list Json :=
  take 100 (drop (100 * (Z.to_nat page - 1)) items).

(** The [page] parameter of a request, 1 when it has none. *)
Fixpoint param (k : string) (params : list (string * Z)) (default : Z) : Z :=
  match params with
  | [] => default
  | (k', v) :: rest => if String.eqb k k' then v else param k rest default
  end.

Definition ok_response (body : Json) : Response :=
  mkResponse 200 (Value 4999) (Value 0) (inl body) "".

(** A service that reports [remaining] quota and the reset time [reset]
    (epoch seconds) on every answer. *)
Definition throttled_response (remaining reset : Z) : Response :=
  mkResponse 200 (Value remaining) (Value reset) (inl (JArr [])) "".

Definition throttled_source (remaining reset : Z)
  : Request -> unit -> (Response + string) * unit :=
  fun _ _ => (inl (throttled_response remaining reset), tt).

(** A stateless source that serves [items] page by page, each page
    rendered by [wrap]: [JArr] for a bare array, [wrapped k] for an
    object that carries the page under the key [k]. *)
Definition paged_source (items : list Json) (wrap : list Json -> Json)
  : Request -> unit -> (Response + string) * unit :=
  fun rq _ => (inl (ok_response (wrap (chunk items (param "page" (rq_params rq) 1)))), tt).

Definition wrapped (k : string) (total : nat) (page_items : list Json) : Json :=
  JObj [("total_count", JInt (Z.of_nat total)); (k, JArr page_items)].

(** A listing of [n] repositories, numbered from 0. *)
Definition numbered (n : nat) : list Json :=
  map (fun i => JObj [("id", JInt (Z.of_nat i));
                      ("name", JStr ("repo-" +:+ pretty i))]) (seq 0 n).

(** A source that answers every page request with a full page. *)
Definition endless_source : Request -> unit -> (Response + string) * unit :=
  fun rq _ =>
    (inl (ok_response
            (JArr (replicate 100 (JObj [("page", JInt (param "page" (rq_params rq) 1))])))),
     tt).

(** What a page of the listing looks like on the wire: a bare array, or
    a non-empty object that holds the array under ['repositories'] or,
    when it has no such key, under the collection key. *)
Definition page_body (collection_key : string) (body : Json) (page_items : list Json)
  : Prop :=
  body = JArr page_items
  \/ exists kvs, body = JObj kvs
       /\ (assoc "repositories" kvs = Some (JArr page_items)
           \/ (assoc "repositories" kvs = None
               /\ assoc collection_key kvs = Some (JArr page_items))).

(** [serve] answers the page requests of [session] for [url] with the
    pages of [items], whatever its state. *)
Definition serves_pages {Server} (serve : Request -> Server -> (Response + string) * Server)
    (collection_key : string) (session : Session) (url : string) (items : list Json)
  : Prop :=
  forall (s : Server) (page : Z), 1 <= page ->
    exists response s' body,
      serve (mkRequest session GET url [("page", page); ("per_page", per_page)] None) s
        = (inl response, s')
      /\ status_code response = 200
      /\ (forall raw, ratelimit_remaining response <> Malformed raw)
      /\ (forall raw, ratelimit_reset response <> Malformed raw)
      /\ json response = inl body
      /\ page_body collection_key body (chunk items page).

(** The same of a service that answers so in the states [Inv] holds of,
    and stays in them. *)
Definition serves_pages_in {Server} (Inv : Server -> Prop)
    (serve : Request -> Server -> (Response + string) * Server)
    (collection_key : string) (session : Session) (url : string) (items : list Json)
  : Prop :=
  forall (s : Server) (page : Z), Inv s -> 1 <= page ->
    exists response s' body,
      serve (mkRequest session GET url [("page", page); ("per_page", per_page)] None) s
        = (inl response, s')
      /\ Inv s'
      /\ status_code response = 200
      /\ (forall raw, ratelimit_remaining response <> Malformed raw)
      /\ (forall raw, ratelimit_reset response <> Malformed raw)
      /\ json response = inl body
      /\ page_body collection_key body (chunk items page).

(** What a request that the service answers leaves behind: the new
    state of the service, the request on the trace with its time of
    issue, a clock that has not gone back, and caches left alone. *)
Definition answered {Server} (rq : Request) (s' : Server) (w w' : World Server) : Prop :=
  server w' = s'
  /\ trace w' = trace w ++ [(clock w, rq)]
  /\ clock w <= clock w'
  /\ rng w' = rng w
  /\ target_repo_mapping w' = target_repo_mapping w
  /\ org_public_key_cache w' = org_public_key_cache w
  /\ repo_public_key_cache w' = repo_public_key_cache w.

(** *** A simulated target organization

    The service keeps the organization secrets and variables by name and
    the list of repositories, and answers the requests of the migrators
    the way the REST API documents: a secret is read with GET (200 or 404)
    and written with PUT (201 when created, 204 when replaced); a variable
    is created with POST (201, or 409 when the name is taken), read with
    GET and changed with PATCH (204, or 404); the repositories are listed
    in pages. *)

(** [strip_prefix p s] is [Some rest] when [s] is [p] followed by [rest]. *)
Fixpoint strip_prefix (p s : string) : option string :=
  match p with
  | EmptyString => Some s
  | String c p' =>
      match s with
      | EmptyString => None
      | String d s' => if Ascii.eqb c d then strip_prefix p' s' else None
      end
  end.

Record Target : Type := mkTarget {
  secrets : gmap string Json;
  variables : gmap string Json;
  repositories : list Json
}.

Definition the_public_key : Json :=
  JObj [("key_id", JStr "568250167242549743"); ("key", JStr "c2VhbGVkLWJveC1rZXk=")].

Definition respond (status : Z) (body : Json) : Response :=
  mkResponse status (Value 4999) (Value 0) (inl body) "".

Definition not_found : Response :=
  respond 404 (JObj [("message", JStr "Not Found")]).

(** The path of [url] below [https://api.github.com/orgs/{org}]. *)
Definition target_route (org url : string) : option string :=
  match strip_prefix base_url url with
  | Some rest =>
      match strip_prefix "/orgs/" rest with
      | Some rest => strip_prefix org rest
      | None => None
      end
  | None => None
  end.

Definition serve_secret (secret_name : string) (rq : Request) (t : Target)
  : (Response + string) * Target :=
  match rq_method rq, rq_json rq with
  | GET, _ =>
      match secrets t !! secret_name with
      | Some stored => (inl (respond 200 stored), t)
      | None => (inl not_found, t)
      end
  | PUT, Some body =>
      (inl (respond (match secrets t !! secret_name with Some _ => 204 | None => 201 end)
                     JNull),
       mkTarget (<[secret_name := body]> (secrets t)) (variables t) (repositories t))
  | _, _ => (inl (respond 422 JNull), t)
  end.

Definition serve_new_variable (rq : Request) (t : Target) : (Response + string) * Target :=
  match rq_method rq, rq_json rq with
  | POST, Some body =>
      match dict_get_none "name" body with
      | JStr variable_name =>
          match variables t !! variable_name with
          | Some _ => (inl (respond 409 (JObj [("message", JStr "Already exists")])), t)
          | None =>
              (inl (respond 201 JNull),
               mkTarget (secrets t) (<[variable_name := body]> (variables t))
                 (repositories t))
          end
      | _ => (inl (respond 422 JNull), t)
      end
  | _, _ => (inl (respond 422 JNull), t)
  end.

Definition serve_variable (variable_name : string) (rq : Request) (t : Target)
  : (Response + string) * Target :=
  match rq_method rq, rq_json rq with
  | GET, _ =>
      match variables t !! variable_name with
      | Some stored => (inl (respond 200 stored), t)
      | None => (inl not_found, t)
      end
  | PATCH, Some body =>
      match variables t !! variable_name with
      | Some _ =>
          (inl (respond 204 JNull),
           mkTarget (secrets t) (<[variable_name := body]> (variables t)) (repositories t))
      | None => (inl not_found, t)
      end
  | _, _ => (inl (respond 422 JNull), t)
  end.

Definition target_service (org : string) (rq : Request) (t : Target)
  : (Response + string) * Target :=
  match target_route org (rq_url rq) with
  | None => (inl not_found, t)
  | Some path =>
      if String.eqb path "/repos" then
        match rq_method rq with
        | GET => (inl (respond 200
                         (JArr (chunk (repositories t) (param "page" (rq_params rq) 1)))), t)
        | _ => (inl (respond 422 JNull), t)
        end
      else
      match strip_prefix "/actions/secrets/" path with
      | Some secret_name =>
          if String.eqb secret_name "public-key" then
            match rq_method rq with
            | GET => (inl (respond 200 the_public_key), t)
            | _ => (inl (respond 422 JNull), t)
            end
          else serve_secret secret_name rq t
      | None =>
          if String.eqb path "/actions/variables" then serve_new_variable rq t
          else
          match strip_prefix "/actions/variables/" path with
          | Some variable_name => serve_variable variable_name rq t
          | None => (inl not_found, t)
          end
      end
  end.

(** A sealed box that always succeeds; the draw number goes into the
    text so that two sealings differ. *)
Definition toy_sealed_box (n : nat) (plain : string) (key : Json) : string + string :=
  inl ("sealed#" +:+ pretty n +:+ "(" +:+ plain +:+ ")").

(** The example of the specification: the target holds [svc-a] only. *)
Definition acme_target : Target :=
  mkTarget ∅ ∅ [JObj [("id", JInt 101); ("name", JStr "svc-a")]].

Definition empty_target : Target := mkTarget ∅ ∅ [].

(** A target that holds the variable [API_KEY] with a value of its own. *)
Definition holding_target : Target :=
  mkTarget ∅
    {[ "API_KEY" := JObj [("name", JStr "API_KEY"); ("value", JStr "kept");
                          ("visibility", JStr "all")] ]}
    [].

(** Rows of the export: the secret and the variable [API_KEY]. *)
Definition api_key_secret_row : Row :=
  mkRow "organization" "" "API_KEY" ENCRYPTED_SECRET_VALUE "selected" "svc-a,svc-b" "" "".

Definition api_key_variable_row : Row :=
  mkRow "organization" "" "API_KEY" "from-source" "all" "" "" "".

(** A target that already holds the secret [API_KEY]. *)
Definition keeping_target : Target :=
  mkTarget {[ "API_KEY" := JObj [("encrypted_value", JStr "kept")] ]} ∅ [].

(** A repository as the simulated target lists it. *)
Definition listed (entry : string * Z) : Json :=
  JObj [("id", JInt (snd entry)); ("name", JStr (fst entry))].

(** A simulated target for the rulesets script: it holds the teams of
    [teams] (slug and id), answers the probe of a team by its slug, and
    accepts every ruleset posted to it. *)
Definition team_directory (teams : list (string * Json)) (api_url org : string)
    (rq : Rulesets.ApiRequest) (s : unit) : (Rulesets.ApiResponse + string) * unit :=
  match Rulesets.method rq,
        strip_prefix (api_url +:+ "/orgs/" +:+ org +:+ "/teams/") (Rulesets.url rq) with
  | GET, Some slug =>
      match assoc slug teams with
      | Some id =>
          (inl (Rulesets.mkApiResponse 200 "OK" ""
                  (inl (JObj [("id", id); ("slug", JStr slug)]))), s)
      | None =>
          (inl (Rulesets.mkApiResponse 404 "Not Found" ""
                  (inl (JObj [("message", JStr "Not Found")]))), s)
      end
  | POST, None =>
      match Rulesets.body rq with
      | Some ruleset =>
          (inl (Rulesets.mkApiResponse 201 "Created" ""
                  (inl (JObj [("id", JInt 1); ("name", dict_get_none "name" ruleset)]))), s)
      | None => (inl (Rulesets.mkApiResponse 422 "Unprocessable Entity" "" (inl JNull)), s)
      end
  | GET, None => (inl (Rulesets.mkApiResponse 200 "OK" "" (inl (JArr []))), s)
  | _, _ => (inl (Rulesets.mkApiResponse 404 "Not Found" "" (inl JNull)), s)
  end.

(** An exported bypass actor, as [enrich_bypass_actors_with_details]
    writes it. *)
Definition enriched_actor (actor_type : string) (original_actor_id bypass_mode details : Json)
  : Json :=
  JObj [("original_actor_id", original_actor_id); ("actor_type", JStr actor_type);
        ("bypass_mode", bypass_mode); ("details", details)].

(** The exported ruleset of the example: the team [platform], which the
    target holds under another id, the team [ghosts], which it does not
    hold, and the repository role [admin]. *)
Definition guarded_ruleset : Json :=
  JObj [("id", JInt 42); ("name", JStr "main-protection"); ("target", JStr "branch");
        ("enforcement", JStr "active");
        ("enriched_bypass_actors",
         JArr [enriched_actor "Team" (JInt 11) (JStr "always")
                 (JObj [("id", JInt 11); ("slug", JStr "platform"); ("name", JStr "Platform")]);
               enriched_actor "Team" (JInt 12) (JStr "always")
                 (JObj [("id", JInt 12); ("slug", JStr "ghosts"); ("name", JStr "Ghosts")]);
               enriched_actor "RepositoryRole" (JInt 5) (JStr "pull_request")
                 (JObj [("id", JInt 5); ("name", JStr "admin");
                        ("type", JStr "repository_role")])])].

(** A simulated target for the webhooks script: the state holds the
    hooks of the repository, [create_hook] adds one. *)
Definition hook_store (c : Webhooks.Call) (hooks : list Webhooks.Hook)
  : (Webhooks.Reply + Exn) * list Webhooks.Hook :=
  match c with
  | Webhooks.GetRepo _ _ => (inl Webhooks.Repository, hooks)
  | Webhooks.GetHooks _ _ => (inl (Webhooks.Hooks hooks), hooks)
  | Webhooks.CreateHook _ _ _ new_config hook_events hook_active =>
      (inl Webhooks.Created, hooks ++ [Webhooks.mkHook (JObj new_config) hook_events hook_active])
  end.

(** A listing of repositories that answers every page request with a
    page of one repository, for the rulesets script. *)
Definition endless_repos : Rulesets.ApiRequest -> unit
                           -> (Rulesets.ApiResponse + string) * unit :=
  fun rq _ =>
    (inl (Rulesets.mkApiResponse 200 "OK" "" (inl (JArr [JObj [("name", JStr "svc")]]))), tt).

(** A source that answers every page request with a full page, for the
    inventory script. *)
Definition endless_items : Repos.ApiRequest -> unit -> (Repos.ApiResponse + string) * unit :=
  fun rq _ =>
    (inl (Repos.mkApiResponse 200
            (inl (JArr (replicate 100 (JObj [("page", dict_get_none "page"
                                                        (JObj (Repos.params rq)))])))) ""),
     tt).

(** A source that gives every request the same answer. *)
Definition fixed_source (response : Response)
  : Request -> unit -> (Response + string) * unit :=
  fun _ _ => (inl response, tt).

(** A repository as the listing of an organization gives it to the
    rulesets script. *)
Definition named (name : string) : Json := JObj [("name", JStr name)].

(** A listing of the repositories [names] for the rulesets script, 100
    to a page; a page past the end is empty. *)
Definition paged_repos (names : list string)
  : Rulesets.ApiRequest -> unit -> (Rulesets.ApiResponse + string) * unit :=
  fun rq _ =>
    let page := match dict_get_none "page" (JObj (Rulesets.params rq)) with
                | JInt p => p
                | _ => 1
                end in
    (inl (Rulesets.mkApiResponse 200 "OK" "" (inl (JArr (chunk (map named names) page)))),
     tt).

(** A target where every variable exists already: a POST is answered
    409, any other request 204. *)
Definition occupied_target : Request -> unit -> (Response + string) * unit :=
  fun rq _ =>
    (inl (respond (match rq_method rq with POST => 409 | _ => 204 end) JNull), tt).

(** A target whose every answer is the listing of the rulesets
    [entries]; [listed_as] is the shape of a listed ruleset. *)
Definition ruleset_listing (listed_as : string * Z -> Json) (entries : list (string * Z))
  : Rulesets.ApiRequest -> unit -> (Rulesets.ApiResponse + string) * unit :=
  fun _ _ => (inl (Rulesets.mkApiResponse 200 "OK" "" (inl (JArr (map listed_as entries)))), tt).

(** A service that knows no repository: every call raises a
    [GithubException] with status 404. *)
Definition no_repository (c : Webhooks.Call) (s : unit) : (Webhooks.Reply + Exn) * unit :=
  (inr (GithubException 404 "Not Found"), s).

(** The hooks of a source repository: an active one, whose config also
    holds a secret, and an inactive one. *)
Definition ci_hooks : list Webhooks.Hook :=
  [Webhooks.mkHook
     (JObj [("url", JStr "https://ci.example/hook"); ("content_type", JStr "form");
            ("secret", JStr "********")])
     (JArr [JStr "push"]) true;
   Webhooks.mkHook (JObj [("url", JStr "https://old.example/hook")])
     (JArr [JStr "issues"]) false].

(** For the inventory script: a service that answers every request 403,
    and one that breaks every connection. *)
Definition rate_limiting : Repos.ApiRequest -> unit -> (Repos.ApiResponse + string) * unit :=
  fun _ _ => (inl (Repos.mkApiResponse 403 (inl JNull) "API rate limit exceeded"), tt).

Definition breaking : Repos.ApiRequest -> unit -> (Repos.ApiResponse + string) * unit :=
  fun _ _ => (inr "Connection reset by peer", tt).

(** A target whose probes fail: a GET is answered 500, a write 204. *)
Definition failing_probes : Request -> unit -> (Response + string) * unit :=
  fun rq _ =>
    (inl (respond (match rq_method rq with GET => 500 | _ => 204 end) JNull), tt).

(** A target repository without rulesets that accepts what is posted:
    a GET is answered with an empty listing, any other request with 201
    and the ruleset [created]. *)
Definition accepting_target (created : Json)
  : Rulesets.ApiRequest -> unit -> (Rulesets.ApiResponse + string) * unit :=
  fun rq _ =>
    match Rulesets.method rq with
    | GET => (inl (Rulesets.mkApiResponse 200 "OK" "" (inl (JArr []))), tt)
    | _ => (inl (Rulesets.mkApiResponse 201 "Created" "" (inl created)), tt)
    end.

(** ** Specification vocabulary *)

(** [adds tr P m]: whatever the state, running [m] only appends to the
    trace [tr], and every entry it appends satisfies [P]. *)
Definition adds {W R A} (tr : W -> list R) (P : R -> Prop) (m : M W A) : Prop :=
  forall w, exists new, tr (snd (m w)) = tr w ++ new /\ Forall P new.

(** The entries [m] appends to the trace [tr] when run in [w]. *)
Definition added {W R A} (tr : W -> list R) (m : M W A) (w : W) : list R :=
  drop (length (tr w)) (tr (snd (m w))).

(** A request that only reads the source organization. *)
Definition reads_source (rq : Request) : Prop :=
  rq_session rq = source_session /\ rq_method rq = GET /\ rq_json rq = None.

(** A request that goes through the session of the target. *)
Definition on_target (rq : Request) : Prop := rq_session rq = target_session.

(** A request that leaves the source organization as it is: if it goes
    through the source session, it is a GET. *)
Definition source_untouched (rq : Request) : Prop :=
  rq_session rq = source_session -> rq_method rq = GET.

(** The payload of an organization variable with visibility ['selected']
    and no repository ids. *)
Definition selected_variable_payload (name value : string) : Json :=
  JObj [("name", JStr name); ("value", JStr value); ("visibility", JStr "selected")].

(** The payload of an organization secret with visibility ['selected']
    and no repository ids. *)
Definition selected_secret_payload (encrypted_value : string) (key_id : Json) : Json :=
  JObj [("encrypted_value", JStr encrypted_value); ("key_id", key_id);
        ("visibility", JStr "selected")].

(** [keeps f m]: running [m] leaves the component [f] of the state as it
    was, whatever the outcome. *)
Definition keeps {W X A} (f : W -> X) (m : M W A) : Prop :=
  forall w, f (snd (m w)) = f w.

(** [ensures m Q]: when [m] returns a value, [Q] holds of the value and
    of the state it returns in. *)
Definition ensures {W A} (m : M W A) (Q : A -> W -> Prop) : Prop :=
  forall w a w', m w = (Ok a, w') -> Q a w'.

(** The URL of an organization secret. *)
Definition secret_url (org name : string) : string :=
  base_url +:+ "/orgs/" +:+ org +:+ "/actions/secrets/" +:+ name.

(** The URL organization variables are posted to, and the URL of one. *)
Definition variables_url (org : string) : string :=
  base_url +:+ "/orgs/" +:+ org +:+ "/actions/variables".

Definition variable_url (org name : string) : string :=
  base_url +:+ "/orgs/" +:+ org +:+ "/actions/variables/" +:+ name.

(** A request that writes the organization secret [name] with an
    encrypted value the sealed box made of [plain]. *)
Definition puts_sealed (sealed_box : nat -> string -> Json -> string + string)
    (plain org name : string) (rq : Request) : Prop :=
  exists n public_key data encrypted,
    sealed_box n plain public_key = inl encrypted
    /\ rq_method rq = PUT
    /\ rq_url rq = secret_url org name
    /\ rq_json rq = Some (JObj data)
    /\ assoc "encrypted_value" data = Some (JStr encrypted).

(** What the collection of the pages of [items] from page [k + 1] on
    leaves behind: one request per page, a service still in the states of
    [Inv], and the repository mapping as it was. *)
Definition collected {Server} (Inv : Server -> Prop) (items : list Json) (k : nat)
    (w w' : World Server) : Prop :=
  length (trace w') = (length (trace w) + (length items / 100 + 1 - k))%nat
  /\ Inv (server w')
  /\ target_repo_mapping w' = target_repo_mapping w.

(** The URL the repositories of an organization are listed at. *)
Definition repos_url (org : string) : string := base_url +:+ "/orgs/" +:+ org +:+ "/repos".

(** The name-to-id mapping of a listing of repositories; of two
    repositories of one name the later one counts. *)
Definition recorded (mapping : gmap Key Json) (entries : list (string * Z))
  : gmap Key Json :=
  foldl (fun mapping entry => <[KStr (fst entry) := JInt (snd entry)]> mapping)
    mapping entries.

Definition name_to_id (entries : list (string * Z)) : gmap Key Json := recorded ∅ entries.

(** The ids of the names the mapping knows, and the names it does not
    know, in the order of the names. *)
Definition known_ids (mapping : gmap Key Json) (names : list string) : list Json :=
  omap (fun name => mapping !! KStr name) names.

Definition unknown_names (mapping : gmap Key Json) (names : list string) : list string :=
  List.filter (fun name => match mapping !! KStr name with Some _ => false | None => true end)
    names.

(** A request that lists the repositories of [org]. *)
Definition lists_repos (org : string) (rq : Request) : bool :=
  match rq_method rq with
  | GET => String.eqb (rq_url rq) (repos_url org)
  | _ => false
  end.

(** The state after the translation of [names] through the mapping of
    [w]: the names the mapping does not know are logged in one warning. *)
Definition warned {Server} (names : list string) (w : World Server) : World Server :=
  match unknown_names (target_repo_mapping w) names with
  | [] => w
  | missing =>
      set_log (log w ++ [(WARNING, "Repositories not found in target org: "
                                   +:+ String.concat ", " missing)]) w
  end.

(** The existence probe of a team of the target by its slug. *)
Definition team_probe (api_url target_org slug : string) (token : option string)
  : Rulesets.ApiRequest :=
  Rulesets.mkApiRequest GET (api_url +:+ "/orgs/" +:+ target_org +:+ "/teams/" +:+ slug)
    token [] None.

(** A bypass actor of a ruleset to create. *)
Definition resolved_actor (actor_id : Json) (actor_type : string) (bypass_mode : Json)
  : Json :=
  JObj [("actor_id", actor_id); ("actor_type", JStr actor_type);
        ("bypass_mode", bypass_mode)].

(** A request of the rulesets script that creates nothing but a ruleset
    of the repository: a GET, or the POST of a ruleset. *)
Definition reads_or_posts_ruleset (api_url org repo : string) (rq : Rulesets.ApiRequest)
  : Prop :=
  Rulesets.method rq = GET
  \/ (Rulesets.method rq = POST
      /\ Rulesets.url rq = api_url +:+ "/repos/" +:+ org +:+ "/" +:+ repo +:+ "/rulesets").

(** [hook.config.get('url')] of a hook whose config is a dict. *)
Definition hook_url (hook : Webhooks.Hook) : Json :=
  dict_get "url" JNull (Webhooks.config hook).

(** A hook as the service lists it: its config is a dict and its URL
    can be a member of a set. *)
Definition listed_hook (hook : Webhooks.Hook) : Prop :=
  is_dict (Webhooks.config hook) = true /\ is_Some (to_key (hook_url hook)).

(** The URL of the exported webhook is the URL of one of [hooks];
    nothing else of the hooks is looked at. *)
Definition url_among (hooks : list Webhooks.Hook) (webhook : Webhooks.Webhook) : bool :=
  existsb (fun hook => bool_decide (to_key (hook_url hook)
                                    = to_key (Webhooks.wh_url webhook))) hooks.

(** The call that creates the exported webhook on a repository. *)
Definition create_call (gh_repo : Webhooks.Api * string) (webhook : Webhooks.Webhook)
  : Webhooks.Call :=
  Webhooks.CreateHook (fst gh_repo) (snd gh_repo) "web"
    [("url", Webhooks.wh_url webhook);
     ("content_type", Webhooks.wh_content_type webhook);
     ("insecure_ssl", Webhooks.wh_insecure_ssl webhook)]
    (Webhooks.wh_events webhook) (Webhooks.wh_active webhook).

(** The record of an exported webhook, with its status and reason. *)
Definition result_of (source_org target_org now source_repo target_repo : string)
    (webhook : Webhooks.Webhook) (status reason : string) : Webhooks.MigrationResult :=
  Webhooks.mkResult source_org source_repo target_org target_repo
    (Webhooks.wh_url webhook) (Webhooks.wh_events webhook) status reason now.

(** What the import records for an exported webhook: SKIPPED when its
    URL is among the hooks of the target, and else SUCCESS, or FAILED
    with a reason. *)
Definition recorded_for (source_org target_org now source_repo target_repo : string)
    (hooks : list Webhooks.Hook) (webhook : Webhooks.Webhook)
    (result : Webhooks.MigrationResult) : Prop :=
  if url_among hooks webhook
  then result = result_of source_org target_org now source_repo target_repo webhook
                  "SKIPPED" "Webhook already exists in target"
  else result = result_of source_org target_org now source_repo target_repo webhook
                  "SUCCESS" ""
       \/ exists reason,
            result = result_of source_org target_org now source_repo target_repo webhook
                       "FAILED" reason.

(** [int(response.headers.get(name, 0))]: the number a rate-limit header
    stands for, [0] when the header is absent; none when its text is not
    a number. *)
Definition header_value (h : Header) : option Z :=
  match h with
  | Absent => Some 0
  | Value z => Some z
  | Malformed _ => None
  end.

(** The URLs of the public keys and of a repository secret. *)
Definition org_public_key_url (org : string) : string :=
  base_url +:+ "/orgs/" +:+ org +:+ "/actions/secrets/public-key".

Definition repo_public_key_url (org repo : string) : string :=
  base_url +:+ "/repos/" +:+ org +:+ "/" +:+ repo +:+ "/actions/secrets/public-key".

Definition repo_secret_url (org repo name : string) : string :=
  base_url +:+ "/repos/" +:+ org +:+ "/" +:+ repo +:+ "/actions/secrets/" +:+ name.

(** A request that writes the repository secret [name]: a PUT whose
    body holds an encrypted value and a key id, and nothing else. *)
Definition puts_repository_secret (org repo name : string) (rq : Request) : Prop :=
  rq_method rq = PUT
  /\ rq_url rq = repo_secret_url org repo name
  /\ rq_params rq = []
  /\ exists encrypted_value key_id,
       rq_json rq = Some (JObj [("encrypted_value", JStr encrypted_value);
                                ("key_id", key_id)]).

(** [finishes m]: the model of [m] never runs out of budget. *)
Definition finishes {W A} (m : M W A) : Prop :=
  forall w, fst (m w) <> Unfinished.

(** [never_raises m Q]: no exception leaves [m], and a value it returns
    satisfies [Q]. *)
Definition never_raises {W A} (m : M W A) (Q : A -> Prop) : Prop :=
  forall w, match fst (m w) with
            | Ok a => Q a
            | Raise _ => False
            | Unfinished => True
            end.

(** The rows counted by [(success_count, error_count, skipped_count)]. *)
Definition counted (counts : nat * nat * nat) : nat :=
  let '(success_count, error_count, skipped_count) := counts in
  (success_count + error_count + skipped_count)%nat.

(** A row whose migration asks for no listing of the target's
    repositories: an organization row with visibility ['selected'] names
    no repository. *)
Definition needs_no_listing (row : Row) : Prop :=
  scope row = "organization" -> visibility row = "selected" ->
  parse_selected_repositories (selected_repositories row) = [].

(** The URL of the listing of the secrets of an organization. *)
Definition secrets_url (org : string) : string :=
  base_url +:+ "/orgs/" +:+ org +:+ "/actions/secrets".

(** A request to a URL strictly below [url]. *)
Definition below (url : string) (rq : Request) : Prop :=
  (exists suffix, rq_url rq = url +:+ "/" +:+ suffix) /\ rq_url rq <> url.

(** A name that survives the comma-separated column of the export: it is
    not empty, has no comma and no white space around it. *)
Definition plain_name (name : string) : Prop :=
  name <> ""
  /\ strip name = name
  /\ Forall (fun c => c <> ","%char) (String.list_ascii_of_string name).

(** The URL repository variables are posted to, the URL of one, and the
    payload of both requests. *)
Definition repo_variables_url (org repo : string) : string :=
  base_url +:+ "/repos/" +:+ org +:+ "/" +:+ repo +:+ "/actions/variables".

Definition repo_variable_url (org repo name : string) : string :=
  base_url +:+ "/repos/" +:+ org +:+ "/" +:+ repo +:+ "/actions/variables/" +:+ name.

Definition repo_variable_payload (name value : string) : Json :=
  JObj [("name", JStr name); ("value", JStr value)].

(** A bypass actor that [sanitize_bypass_actors] keeps: its type is not
    ['Team']. *)
Definition not_a_team (actor : Json) : bool :=
  negb (is_str "Team" (dict_get "actor_type" (JStr "") actor)).

(** The URL of the rulesets of a repository. *)
Definition rulesets_url (api_url org repo : string) : string :=
  api_url +:+ "/repos/" +:+ org +:+ "/" +:+ repo +:+ "/rulesets".

(** A ruleset as the listing of a repository gives it, and the index
    [check_existing_rulesets] makes of a listing. *)
Definition listed_ruleset (entry : string * Z) : Json :=
  JObj [("id", JInt entry.2); ("name", JStr entry.1)].

Definition ruleset_ids (entries : list (string * Z)) (acc : gmap Key Json)
  : gmap Key Json :=
  foldl (fun acc entry => <[KStr entry.1 := JInt entry.2]> acc) acc entries.

(** A ruleset to import whose name is [name]. *)
Definition named_ruleset (name : string) (ruleset : Json) : Prop :=
  member "name" ruleset = Some (JStr name).

(** The status a report entry of the import carries. *)
Definition migration_status (report_entry : Json) : Json :=
  dict_get_none "migration_status" report_entry.

(** The entry [export_webhooks] writes for a hook whose config is a
    dict. *)
Definition exported_hook (hook : Webhooks.Hook) : Webhooks.Webhook :=
  Webhooks.mkWebhook (hook_url hook)
    (dict_get "content_type" (JStr "json") (Webhooks.config hook))
    (dict_get "insecure_ssl" (JStr "0") (Webhooks.config hook))
    (Webhooks.events hook) (Webhooks.active hook).

(** A bypass actor that belongs to no organization: a repository role
    or a user, with the three fields the API gives an actor. *)
Definition portable_actor (actor : Json) : Prop :=
  exists id actor_type bypass_mode,
    actor = JObj [("actor_id", JInt id); ("actor_type", JStr actor_type);
                  ("bypass_mode", bypass_mode)]
    /\ id <> 0
    /\ (actor_type = "RepositoryRole" \/ actor_type = "User").

(** The hook [create_hook] makes of an exported webhook. *)
Definition created_hook (webhook : Webhooks.Webhook) : Webhooks.Hook :=
  Webhooks.mkHook
    (JObj [("url", Webhooks.wh_url webhook);
           ("content_type", Webhooks.wh_content_type webhook);
           ("insecure_ssl", Webhooks.wh_insecure_ssl webhook)])
    (Webhooks.wh_events webhook) (Webhooks.wh_active webhook).

(** A request that writes a secret sealed: a PUT whose body carries an
    encrypted value the sealed box made of one of [plains], and no field
    named [value]. *)
Definition writes_sealed (sealed_box : nat -> string -> Json -> string + string)
    (plains : list string) (rq : Request) : Prop :=
  rq_method rq = PUT
  /\ exists n plain public_key data encrypted,
       In plain plains
       /\ sealed_box n plain public_key = inl encrypted
       /\ rq_json rq = Some (JObj data)
       /\ assoc "encrypted_value" data = Some (JStr encrypted)
       /\ assoc "value" data = None.

(** * Properties *)

(** ** The monad *)

Lemma bind_ok {W A B} (m : M W A) (k : A -> M W B) w a w' :
  m w = (Ok a, w') -> bind m k w = k a w'.
Proof. intros H. unfold bind. rewrite H. reflexivity. Qed.

Lemma bind_raise {W A B} (m : M W A) (k : A -> M W B) w e w' :
  m w = (Raise e, w') -> bind m k w = (Raise e, w').
Proof. intros H. unfold bind. rewrite H. reflexivity. Qed.

Lemma bind_unfinished {W A B} (m : M W A) (k : A -> M W B) w w' :
  m w = (Unfinished, w') -> bind m k w = (Unfinished, w').
Proof. intros H. unfold bind. rewrite H. reflexivity. Qed.

(** ** Requests and the rate limit *)

Section TransportFacts.

Context {Server : Type}.
Variable serve : Request -> Server -> (Response + string) * Server.
Variable render_time : Z -> string.

Local Abbreviation W := (World Server).

Lemma handle_rate_limit_ok (response : Response) (w : W) :
  (forall raw, ratelimit_remaining response <> Malformed raw) ->
  (forall raw, ratelimit_reset response <> Malformed raw) ->
  exists w', _handle_rate_limit render_time response w = (Ok tt, w')
    /\ server w' = server w /\ trace w' = trace w /\ clock w <= clock w'
    /\ rng w' = rng w
    /\ target_repo_mapping w' = target_repo_mapping w
    /\ org_public_key_cache w' = org_public_key_cache w
    /\ repo_public_key_cache w' = repo_public_key_cache w.
Proof.
  intros Hrem Hreset. unfold _handle_rate_limit.
  destruct (ratelimit_remaining response) as [|r|raw] eqn:Er;
    [| |exfalso; eapply Hrem; reflexivity];
  (destruct (ratelimit_reset response) as [|t|raw] eqn:Et;
    [| |exfalso; eapply Hreset; reflexivity]);
  cbn [int_header bind ret modify gets];
  match goal with
  | |- context [if ?c then _ else _] => destruct c
  end;
  cbn [bind ret modify gets];
  try (match goal with
       | |- context [if ?c then _ else _] => destruct c eqn:Ew
       end);
  cbn [bind ret modify gets logger sleep];
  eexists; (split; [reflexivity|]); cbn; repeat split; try reflexivity; try lia;
  cbn in Ew; apply Z.ltb_lt in Ew; lia.
Qed.

Lemma make_request_ok session method url params body (w : W) response s' :
  serve (mkRequest session method url params body) (server w) = (inl response, s') ->
  (forall raw, ratelimit_remaining response <> Malformed raw) ->
  (forall raw, ratelimit_reset response <> Malformed raw) ->
  exists w', _make_request serve render_time session method url params body w
               = (Ok response, w')
    /\ answered (mkRequest session method url params body) s' w w'.
Proof.
  intros Hs Hrem Hreset.
  unfold _make_request, try_except, session_request, bind.
  cbn [server set_trace]. rewrite Hs.
  match goal with
  | |- context [_handle_rate_limit _ _ ?w0] =>
      destruct (handle_rate_limit_ok response w0 Hrem Hreset)
        as (w' & Hh & Hsrv & Htr & Hclk & Hrng & Hmap & Hc1 & Hc2)
  end.
  rewrite Hh. cbn [ret]. eexists; split; [reflexivity|].
  unfold answered. cbn in *. repeat split; assumption.
Qed.

(** A response that leaves quota in hand is returned without a sleep
    and without a log line. *)
Lemma make_request_quiet session method url params body (w : W) response s' r t :
  serve (mkRequest session method url params body) (server w) = (inl response, s') ->
  ratelimit_remaining response = Value r -> 10 <= r ->
  ratelimit_reset response = Value t ->
  status_code response <> 429 ->
  _make_request serve render_time session method url params body w
    = (Ok response,
       set_rate_limit_reset (Some t)
         (set_rate_limit_remaining r
            (set_server s'
               (set_trace (trace w ++ [(clock w, mkRequest session method url params body)])
                  w)))).
Proof.
  intros Hs Hr Hr10 Ht Hst.
  unfold _make_request, try_except, session_request, bind.
  cbn [server set_trace]. rewrite Hs.
  unfold _handle_rate_limit, bind. rewrite Hr, Ht. cbn [int_header ret modify].
  apply Z.eqb_neq in Hst. rewrite Hst.
  apply Z.ltb_ge in Hr10. rewrite Hr10. reflexivity.
Qed.

End TransportFacts.

Section RateLimit.

Context {Server : Type}.
Variable serve : Request -> Server -> (Response + string) * Server.
Variable render_time : Z -> string.

Local Abbreviation W := (World Server).

(** Every call of [_make_request] puts its request on the trace, stamped
    with the clock at the time of the call, whatever comes back. *)
Lemma make_request_trace session method url params body (w : W) :
  trace (snd (_make_request serve render_time session method url params body w))
    = trace w ++ [(clock w, mkRequest session method url params body)].
Proof.
  unfold _make_request, try_except, session_request, bind.
  cbn [server set_trace].
  destruct (serve _ (server w)) as [[response|msg] s']; [|reflexivity].
  unfold _handle_rate_limit, bind.
  destruct (ratelimit_remaining response); cbn [int_header ret raise modify]; try reflexivity;
    (destruct (ratelimit_reset response); cbn [int_header ret raise modify gets];
     try reflexivity);
    repeat match goal with
           | |- context [if ?c then _ else _] => destruct c
           end; reflexivity.
Qed.

End RateLimit.


(** ** Traces *)

Section Adds.

Context {W R : Type}.
Variable tr : W -> list R.
Variable P : R -> Prop.

Lemma adds_ret {A} (a : A) : adds tr P (ret a).
Proof. intros w. exists []. rewrite app_nil_r. split; [reflexivity|constructor]. Qed.

Lemma adds_raise {A} (e : Exn) : adds tr P (@raise W A e).
Proof. intros w. exists []. rewrite app_nil_r. split; [reflexivity|constructor]. Qed.

Lemma adds_unfinished {A} : adds tr P (@unfinished W A).
Proof. intros w. exists []. rewrite app_nil_r. split; [reflexivity|constructor]. Qed.

Lemma adds_gets {A} (f : W -> A) : adds tr P (gets f).
Proof. intros w. exists []. rewrite app_nil_r. split; [reflexivity|constructor]. Qed.

Lemma adds_modify (f : W -> W) : (forall w, tr (f w) = tr w) -> adds tr P (modify f).
Proof.
  intros Hf w. exists []. rewrite app_nil_r. split; [apply Hf|constructor].
Qed.

Lemma adds_bind {A B} (m : M W A) (k : A -> M W B) :
  adds tr P m -> (forall a, adds tr P (k a)) -> adds tr P (bind m k).
Proof.
  intros Hm Hk w. unfold bind.
  destruct (Hm w) as (new1 & E1 & F1).
  destruct (m w) as [[a|e|] w1]; cbn [snd] in *.
  - destruct (Hk a w1) as (new2 & E2 & F2).
    exists (new1 ++ new2). rewrite E2, E1, app_assoc. split; [reflexivity|].
    apply Forall_app. split; assumption.
  - exists new1. split; assumption.
  - exists new1. split; assumption.
Qed.

(** The same with a fact [Q] known of every value [m] returns. *)
Lemma adds_bind_ok {A B} (Q : A -> Prop) (m : M W A) (k : A -> M W B) :
  adds tr P m -> (forall w a w', m w = (Ok a, w') -> Q a) ->
  (forall a, Q a -> adds tr P (k a)) -> adds tr P (bind m k).
Proof.
  intros Hm HQ Hk w. unfold bind.
  destruct (Hm w) as (new1 & E1 & F1).
  destruct (m w) as [[a|e|] w1] eqn:Em; cbn [snd] in *.
  - destruct (Hk a (HQ _ _ _ Em) w1) as (new2 & E2 & F2).
    exists (new1 ++ new2). rewrite E2, E1, app_assoc. split; [reflexivity|].
    apply Forall_app. split; assumption.
  - exists new1. split; assumption.
  - exists new1. split; assumption.
Qed.

Lemma adds_try_except {A} (m : M W A) (h : Exn -> M W A) :
  adds tr P m -> (forall e, adds tr P (h e)) -> adds tr P (try_except m h).
Proof.
  intros Hm Hh w. unfold try_except.
  destruct (Hm w) as (new1 & E1 & F1).
  destruct (m w) as [[a|e|] w1]; cbn [snd] in *.
  - exists new1. split; assumption.
  - destruct (Hh e w1) as (new2 & E2 & F2).
    exists (new1 ++ new2). rewrite E2, E1, app_assoc. split; [reflexivity|].
    apply Forall_app. split; assumption.
  - exists new1. split; assumption.
Qed.

Lemma adds_for_each {A B} (xs : list A) (acc : B) (body : B -> A -> M W B) :
  (forall acc x, adds tr P (body acc x)) -> adds tr P (for_each xs acc body).
Proof.
  intros Hbody. revert acc. induction xs as [|x xs IH]; intros acc; cbn [for_each].
  - apply adds_ret.
  - apply adds_bind; [apply Hbody|]. intros acc'. apply IH.
Qed.

Lemma adds_added {A} (m : M W A) (w : W) : adds tr P m -> Forall P (added tr m w).
Proof.
  intros Hm. unfold added. destruct (Hm w) as (new & E & F).
  rewrite E, drop_app_length. exact F.
Qed.

End Adds.

Lemma adds_weaken {W R A} (tr : W -> list R) (P Q : R -> Prop) (m : M W A) :
  (forall r, P r -> Q r) -> adds tr P m -> adds tr Q m.
Proof.
  intros HPQ Hm w. destruct (Hm w) as (new & E & F).
  exists new. split; [exact E|]. eapply Forall_impl; eassumption.
Qed.

(** One step of a proof of [adds]: the structure of the computation is
    followed, and the methods met on the way are looked up among the
    hints of [adds]. *)
Create HintDb adds discriminated.

Ltac adds_step :=
  lazymatch goal with
  | |- adds _ _ (bind _ _) => apply adds_bind; [|intros ?]
  | |- adds _ _ (ret _) => apply adds_ret
  | |- adds _ _ (raise _) => apply adds_raise
  | |- adds _ _ unfinished => apply adds_unfinished
  | |- adds _ _ (gets _) => apply adds_gets
  | |- adds _ _ (try_except _ _) => apply adds_try_except; [|intros ?]
  | |- adds _ _ (for_each _ _ _) => apply adds_for_each; intros ? ?
  | |- adds _ _ (if ?c then _ else _) => destruct c
  | |- adds _ _ (match ?x with _ => _ end) => destruct x
  | |- adds _ _ (let (_, _) := ?x in _) => destruct x
  | |- adds _ _ _ => solve [eauto with adds]
  end.

Ltac adds_auto := repeat adds_step.
(** ** Traces of the two migrators *)

Section MigratorTraces.

Context {Server : Type}.
Variable serve : Request -> Server -> (Response + string) * Server.
Variable render_time : Z -> string.
Variable sealed_box : nat -> string -> Json -> string + string.
Variable P : Request -> Prop.

Local Abbreviation W := (World Server).
Local Abbreviation adds_requests := (adds (@requests Server) P).

Lemma adds_logger lvl msg : adds_requests (logger lvl msg).
Proof. apply adds_modify. reflexivity. Qed.

Lemma adds_sleep d : adds_requests (sleep d).
Proof. apply adds_modify. reflexivity. Qed.

Lemma adds_subscript k j : adds_requests (subscript k j).
Proof. unfold subscript. adds_auto. Qed.

Lemma adds_iterate j : adds_requests (iterate j).
Proof. unfold iterate. adds_auto. Qed.

Lemma adds_response_json response : adds_requests (response_json response).
Proof. unfold response_json. adds_auto. Qed.

Lemma adds_int_header h : adds_requests (int_header h).
Proof. unfold int_header. adds_auto. Qed.

Hint Resolve adds_logger adds_sleep adds_subscript adds_iterate adds_response_json
  adds_int_header : adds.

Lemma adds_handle_rate_limit response :
  adds_requests (_handle_rate_limit render_time response).
Proof.
  unfold _handle_rate_limit. adds_auto; try (apply adds_modify; reflexivity).
Qed.

Lemma adds_session_request rq : P rq -> adds_requests (session_request serve rq).
Proof.
  intros HP w. exists [rq]. split; [|repeat constructor; exact HP].
  unfold session_request, requests. cbn [server set_trace].
  destruct (serve rq (server w)) as [[response|msg] s']; cbn; rewrite map_app; reflexivity.
Qed.

Hint Resolve adds_handle_rate_limit adds_session_request : adds.

Lemma adds_make_request session method url params body :
  P (mkRequest session method url params body) ->
  adds_requests (_make_request serve render_time session method url params body).
Proof. intros HP. unfold _make_request. adds_auto. Qed.

End MigratorTraces.

Section MigratorReads.

Context {Server : Type}.
Variable serve : Request -> Server -> (Response + string) * Server.
Variable render_time : Z -> string.
Variable sealed_box : nat -> string -> Json -> string + string.
Variable collection_key : string.
Variable target_org : string.
Variable P : Request -> Prop.
Variable allowed : Session -> Prop.

Hypothesis Hget : forall session url params,
  allowed session -> P (mkRequest session GET url params None).

Local Abbreviation W := (World Server).
Local Abbreviation adds_requests := (adds (@requests Server) P).

Hint Resolve adds_logger adds_sleep adds_subscript adds_iterate adds_response_json
  adds_int_header adds_handle_rate_limit adds_session_request adds_make_request : adds.

Lemma adds_get session url params :
  allowed session ->
  adds_requests (_make_request serve render_time session GET url params None).
Proof. intros Ha. apply adds_make_request. apply Hget. exact Ha. Qed.

Hint Resolve adds_get : adds.

Lemma adds_paginate budget session url page all_data :
  allowed session ->
  adds_requests (paginate serve render_time collection_key budget session url page all_data).
Proof.
  intros Ha. revert page all_data.
  induction budget as [|budget IH]; intros page all_data; cbn [paginate].
  - apply adds_unfinished.
  - adds_auto; apply IH.
Qed.

Lemma adds_get_paginated_data budget session url :
  allowed session ->
  adds_requests (_get_paginated_data serve render_time collection_key budget session url).
Proof. intros Ha. apply adds_paginate. exact Ha. Qed.

Hint Resolve adds_get_paginated_data : adds.

Lemma adds_get_organization_repositories budget org session :
  allowed session ->
  adds_requests
    (get_organization_repositories serve render_time collection_key budget org session).
Proof. intros Ha. unfold get_organization_repositories. adds_auto. Qed.

Lemma adds_record_repo repo : adds_requests (record_repo repo).
Proof. unfold record_repo. adds_auto. apply adds_modify. reflexivity. Qed.

Hint Resolve adds_get_organization_repositories adds_record_repo : adds.

Lemma adds_build_target_repo_mapping budget :
  allowed target_session ->
  adds_requests
    (build_target_repo_mapping serve render_time collection_key target_org budget).
Proof. intros Ha. unfold build_target_repo_mapping. adds_auto. Qed.

Hint Resolve adds_build_target_repo_mapping : adds.

Lemma adds_get_target_repository_ids budget repo_names :
  allowed target_session ->
  adds_requests
    (get_target_repository_ids serve render_time collection_key target_org budget repo_names).
Proof. intros Ha. unfold get_target_repository_ids. adds_auto. Qed.

Hint Resolve adds_get_target_repository_ids : adds.

Lemma adds_with_selected_repositories budget what name visibility names data :
  allowed target_session ->
  adds_requests
    (with_selected_repositories serve render_time collection_key target_org budget
       what name visibility names data).
Proof. intros Ha. unfold with_selected_repositories. adds_auto. Qed.

Lemma adds_check_organization_secret_exists org secret_name session :
  allowed session ->
  adds_requests (check_organization_secret_exists serve render_time org secret_name session).
Proof. intros Ha. unfold check_organization_secret_exists. adds_auto. Qed.

Lemma adds_check_repository_secret_exists org repo secret_name session :
  allowed session ->
  adds_requests
    (check_repository_secret_exists serve render_time org repo secret_name session).
Proof. intros Ha. unfold check_repository_secret_exists. adds_auto. Qed.

Lemma adds_get_organization_public_key org session :
  allowed session ->
  adds_requests (get_organization_public_key serve render_time org session).
Proof.
  intros Ha. unfold get_organization_public_key. adds_auto.
  apply adds_modify. reflexivity.
Qed.

Lemma adds_get_repository_public_key org repo session :
  allowed session ->
  adds_requests (get_repository_public_key serve render_time org repo session).
Proof.
  intros Ha. unfold get_repository_public_key. adds_auto.
  apply adds_modify. reflexivity.
Qed.

Lemma adds_encrypt_secret secret_value public_key :
  adds_requests (encrypt_secret sealed_box secret_value public_key).
Proof. unfold encrypt_secret. adds_auto. apply adds_modify. reflexivity. Qed.

End MigratorReads.
Section MigratorWrites.

Context {Server : Type}.
Variable serve : Request -> Server -> (Response + string) * Server.
Variable render_time : Z -> string.
Variable sealed_box : nat -> string -> Json -> string + string.
Variables source_org target_org : string.
Variable P : Request -> Prop.
Variable allowed : Session -> Prop.

Hypothesis Hget : forall session url params,
  allowed session -> P (mkRequest session GET url params None).
Hypothesis Hwrite : forall session method url body,
  allowed session -> P (mkRequest session method url [] (Some body)).
Hypothesis Htarget : allowed target_session.

Local Abbreviation W := (World Server).
Local Abbreviation adds_requests := (adds (@requests Server) P).

Hint Resolve adds_logger adds_sleep adds_subscript adds_iterate adds_response_json
  adds_get adds_get_paginated_data adds_get_organization_repositories
  adds_with_selected_repositories adds_check_organization_secret_exists
  adds_check_repository_secret_exists adds_get_organization_public_key
  adds_get_repository_public_key adds_encrypt_secret adds_make_request : adds.

Lemma adds_create_organization_secret key budget org name value visibility names session
    create_placeholder :
  allowed session ->
  adds_requests
    (create_organization_secret serve render_time sealed_box key target_org budget
       org name value visibility names session create_placeholder).
Proof. intros Ha. unfold create_organization_secret. adds_auto. Qed.

Lemma adds_create_repository_secret org repo name value session create_placeholder :
  allowed session ->
  adds_requests
    (create_repository_secret serve render_time sealed_box org repo name value session
       create_placeholder).
Proof. intros Ha. unfold create_repository_secret. adds_auto. Qed.

Lemma adds_update_organization_variable budget org name value visibility names session :
  allowed session ->
  adds_requests
    (update_organization_variable serve render_time target_org budget org name value
       visibility names session).
Proof. intros Ha. unfold update_organization_variable. adds_auto. Qed.

Hint Resolve adds_update_organization_variable : adds.

Lemma adds_create_organization_variable budget org name value visibility names session :
  allowed session ->
  adds_requests
    (create_organization_variable serve render_time target_org budget org name value
       visibility names session).
Proof. intros Ha. unfold create_organization_variable. adds_auto. Qed.

Lemma adds_update_repository_variable org repo name value session :
  allowed session ->
  adds_requests (update_repository_variable serve render_time org repo name value session).
Proof. intros Ha. unfold update_repository_variable. adds_auto. Qed.

Hint Resolve adds_update_repository_variable : adds.

Lemma adds_create_repository_variable org repo name value session :
  allowed session ->
  adds_requests (create_repository_variable serve render_time org repo name value session).
Proof. intros Ha. unfold create_repository_variable. adds_auto. Qed.

Hint Resolve adds_create_organization_secret adds_create_repository_secret
  adds_create_organization_variable adds_create_repository_variable : adds.

Lemma adds_migrate_secrets budget secrets_data create_placeholder :
  adds_requests
    (migrate_secrets serve render_time sealed_box target_org budget secrets_data
       create_placeholder).
Proof. unfold migrate_secrets. adds_auto. Qed.

Lemma adds_migrate_variables budget variables_data :
  adds_requests (migrate_variables serve render_time target_org budget variables_data).
Proof. unfold migrate_variables. adds_auto. Qed.

End MigratorWrites.

Section SecretsExportTrace.

Context {Server : Type}.
Variable serve : Request -> Server -> (Response + string) * Server.
Variable render_time : Z -> string.
Variables source_org : string.
Variable P : Request -> Prop.
Variable allowed : Session -> Prop.

Hypothesis Hget : forall session url params,
  allowed session -> P (mkRequest session GET url params None).

Local Abbreviation adds_requests := (adds (@requests Server) P).

Hint Resolve adds_logger adds_sleep adds_subscript adds_iterate adds_response_json
  adds_get adds_get_paginated_data adds_get_organization_repositories : adds.

Lemma adds_get_secret_selected_repositories budget org secret_name session :
  allowed session ->
  adds_requests
    (get_secret_selected_repositories serve render_time budget org secret_name session).
Proof. intros Ha. unfold get_secret_selected_repositories. adds_auto. Qed.

Hint Resolve adds_get_secret_selected_repositories : adds.

Lemma adds_get_organization_secret_details budget org secret_name session :
  allowed session ->
  adds_requests
    (get_organization_secret_details serve render_time budget org secret_name session).
Proof. intros Ha. unfold get_organization_secret_details. adds_auto. Qed.

Hint Resolve adds_get_organization_secret_details : adds.

Lemma adds_enhance_secret budget org session i secret enhanced_secrets :
  allowed session ->
  adds_requests
    (enhance_secret serve render_time budget org session i secret enhanced_secrets).
Proof. intros Ha. unfold enhance_secret. adds_auto. Qed.

Hint Resolve adds_enhance_secret : adds.

Lemma adds_get_organization_secrets budget org session :
  allowed session ->
  adds_requests (get_organization_secrets serve render_time budget org session).
Proof. intros Ha. unfold get_organization_secrets. adds_auto. Qed.

Lemma adds_get_repository_secrets org repo session :
  allowed session ->
  adds_requests (get_repository_secrets serve render_time org repo session).
Proof. intros Ha. unfold get_repository_secrets. adds_auto. Qed.

Lemma adds_join_items i items : adds_requests (join_items i items).
Proof.
  revert i. induction items as [|j items IH]; intros i; cbn [join_items].
  - apply adds_ret.
  - destruct j; adds_auto; apply IH.
Qed.

Hint Resolve adds_join_items : adds.

Lemma adds_comma_join x : adds_requests (comma_join x).
Proof. unfold comma_join. adds_auto. Qed.

Hint Resolve adds_comma_join : adds.

Lemma adds_org_secret_row secret : adds_requests (org_secret_row secret).
Proof. unfold org_secret_row. adds_auto. Qed.

Hint Resolve adds_get_organization_secrets adds_get_repository_secrets
  adds_org_secret_row : adds.

Lemma adds_fetch_all_secrets budget :
  allowed source_session ->
  adds_requests (fetch_all_secrets serve render_time source_org budget).
Proof. intros Ha. unfold fetch_all_secrets. adds_auto. Qed.

End SecretsExportTrace.
(** ** Traces of the rulesets script *)

Section RulesetsTraces.

Context {Server : Type}.
Variable serve : Rulesets.ApiRequest -> Server -> (Rulesets.ApiResponse + string) * Server.
Variables SOURCE_GITHUB_TOKEN TARGET_GITHUB_TOKEN ENV_GITHUB_TOKEN : option string.
Variables SOURCE_API_URL TARGET_API_URL : string.
Variables ENRICH_BYPASS_ACTORS SANITIZE_BYPASS_ACTORS REMOVE_ALL_BYPASS_ACTORS : bool.
Variable P : Rulesets.ApiRequest -> Prop.
Variable allowed : option string -> string -> Prop.

Local Abbreviation GITHUB_TOKEN :=
  (Rulesets.GITHUB_TOKEN SOURCE_GITHUB_TOKEN TARGET_GITHUB_TOKEN ENV_GITHUB_TOKEN).
Local Abbreviation api_request :=
  (Rulesets.make_api_request serve SOURCE_GITHUB_TOKEN TARGET_GITHUB_TOKEN ENV_GITHUB_TOKEN).

Hypothesis Hget : forall token api_url suffix params,
  allowed token api_url ->
  P (Rulesets.mkApiRequest GET (api_url +:+ suffix)
       (Rulesets.token_or token GITHUB_TOKEN) params None).

Local Abbreviation adds_calls := (adds (@Rulesets.trace Server) P).

Lemma adds_rulesets_logger lvl msg : adds_calls (Rulesets.logger lvl msg).
Proof. apply adds_modify. reflexivity. Qed.

Lemma adds_rulesets_subscript k j : adds_calls (subscript k j).
Proof. unfold subscript. adds_auto. Qed.

Lemma adds_rulesets_iterate j : adds_calls (iterate j).
Proof. unfold iterate. adds_auto. Qed.

Lemma adds_rulesets_get_attr k d x : adds_calls (Rulesets.get_attr k d x).
Proof. unfold Rulesets.get_attr. adds_auto. Qed.

Lemma adds_rulesets_response_json response : adds_calls (Rulesets.response_json response).
Proof. unfold Rulesets.response_json. adds_auto. Qed.

Lemma adds_rulesets_len_of x : adds_calls (Rulesets.len_of x).
Proof. unfold Rulesets.len_of. adds_auto. Qed.

Hint Resolve adds_rulesets_logger adds_rulesets_subscript adds_rulesets_iterate
  adds_rulesets_get_attr adds_rulesets_response_json adds_rulesets_len_of : adds.

Lemma adds_make_api_request method url token params body :
  P (Rulesets.mkApiRequest method url (Rulesets.token_or token GITHUB_TOKEN) params body) ->
  adds_calls (api_request method url token params body).
Proof.
  intros HP w. exists [Rulesets.mkApiRequest method url
                         (Rulesets.token_or token GITHUB_TOKEN) params body].
  split; [|repeat constructor; exact HP].
  unfold Rulesets.make_api_request. cbn [Rulesets.server Rulesets.trace Rulesets.log].
  destruct (serve _ (Rulesets.server w)) as [[response|msg] s']; [|reflexivity].
  repeat match goal with
         | |- context [if ?c then _ else _] => destruct c
         end; reflexivity.
Qed.

Lemma adds_api_get token api_url suffix params :
  allowed token api_url ->
  adds_calls (api_request GET (api_url +:+ suffix) token params None).
Proof. intros Ha. apply adds_make_api_request. apply Hget. exact Ha. Qed.

Hint Resolve adds_api_get : adds.

Lemma adds_names_of data : adds_calls (Rulesets.names_of data).
Proof. induction data as [|repo data IH]; cbn [Rulesets.names_of]; adds_auto. Qed.

Hint Resolve adds_names_of : adds.

Lemma adds_all_repos_from budget org api_url token page repos :
  allowed token api_url ->
  adds_calls
    (Rulesets.all_repos_from serve SOURCE_GITHUB_TOKEN TARGET_GITHUB_TOKEN ENV_GITHUB_TOKEN
       budget org api_url token page repos).
Proof.
  intros Ha. revert page repos.
  induction budget as [|budget IH]; intros page repos; cbn [Rulesets.all_repos_from].
  - apply adds_unfinished.
  - adds_auto; try apply IH.
Qed.

Lemma adds_index_rulesets rulesets acc : adds_calls (Rulesets.index_rulesets rulesets acc).
Proof.
  revert acc. induction rulesets as [|r rulesets IH]; intros acc;
    cbn [Rulesets.index_rulesets]; adds_auto; try apply IH.
Qed.

Hint Resolve adds_index_rulesets : adds.

Lemma adds_check_existing_rulesets org repo api_url token :
  allowed token api_url ->
  adds_calls
    (Rulesets.check_existing_rulesets serve SOURCE_GITHUB_TOKEN TARGET_GITHUB_TOKEN
       ENV_GITHUB_TOKEN org repo api_url token).
Proof.
  intros Ha. unfold Rulesets.check_existing_rulesets.
  destruct repo as [repo|]; [destruct (String.eqb repo "")|]; adds_auto.
Qed.

Lemma adds_get_bypass_actor_details actor_id actor_type org token api_url :
  allowed token api_url ->
  adds_calls
    (Rulesets.get_bypass_actor_details serve SOURCE_GITHUB_TOKEN TARGET_GITHUB_TOKEN
       ENV_GITHUB_TOKEN actor_id actor_type org token api_url).
Proof. intros Ha. unfold Rulesets.get_bypass_actor_details. adds_auto. Qed.

Lemma adds_find_existing_team_in_target team_details target_org token api_url :
  allowed token api_url ->
  adds_calls
    (Rulesets.find_existing_team_in_target serve SOURCE_GITHUB_TOKEN TARGET_GITHUB_TOKEN
       ENV_GITHUB_TOKEN team_details target_org token api_url).
Proof. intros Ha. unfold Rulesets.find_existing_team_in_target. adds_auto. Qed.

Lemma adds_find_user_in_target user_details target_org token api_url :
  adds_calls (Rulesets.find_user_in_target user_details target_org token api_url).
Proof. unfold Rulesets.find_user_in_target. adds_auto. Qed.

Hint Resolve adds_check_existing_rulesets adds_get_bypass_actor_details
  adds_find_existing_team_in_target adds_find_user_in_target : adds.

Lemma adds_enrich_actor org token api_url enriched_actors actor :
  allowed token api_url ->
  adds_calls
    (Rulesets.enrich_actor serve SOURCE_GITHUB_TOKEN TARGET_GITHUB_TOKEN ENV_GITHUB_TOKEN
       org token api_url enriched_actors actor).
Proof. intros Ha. unfold Rulesets.enrich_actor. adds_auto. Qed.

Lemma adds_resolve_actor target_org token api_url resolved_actors enriched_actor :
  allowed token api_url ->
  adds_calls
    (Rulesets.resolve_actor serve SOURCE_GITHUB_TOKEN TARGET_GITHUB_TOKEN ENV_GITHUB_TOKEN
       target_org token api_url resolved_actors enriched_actor).
Proof. intros Ha. unfold Rulesets.resolve_actor. adds_auto. Qed.

Hint Resolve adds_enrich_actor adds_resolve_actor : adds.

Lemma adds_enrich_bypass_actors_with_details bypass_actors org token api_url :
  allowed token api_url ->
  adds_calls
    (Rulesets.enrich_bypass_actors_with_details serve SOURCE_GITHUB_TOKEN
       TARGET_GITHUB_TOKEN ENV_GITHUB_TOKEN bypass_actors org token api_url).
Proof. intros Ha. unfold Rulesets.enrich_bypass_actors_with_details. adds_auto. Qed.

Lemma adds_resolve_bypass_actors_for_target enriched target_org token api_url :
  allowed token api_url ->
  adds_calls
    (Rulesets.resolve_bypass_actors_for_target serve SOURCE_GITHUB_TOKEN
       TARGET_GITHUB_TOKEN ENV_GITHUB_TOKEN enriched target_org token api_url).
Proof. intros Ha. unfold Rulesets.resolve_bypass_actors_for_target. adds_auto. Qed.

Lemma adds_sanitize_actor acc actor : adds_calls (Rulesets.sanitize_actor acc actor).
Proof. unfold Rulesets.sanitize_actor. adds_auto. Qed.

Hint Resolve adds_enrich_bypass_actors_with_details adds_resolve_bypass_actors_for_target
  adds_sanitize_actor : adds.

Lemma adds_sanitize_bypass_actors bypass_actors org repo :
  adds_calls
    (Rulesets.sanitize_bypass_actors SANITIZE_BYPASS_ACTORS REMOVE_ALL_BYPASS_ACTORS
       bypass_actors org repo).
Proof. unfold Rulesets.sanitize_bypass_actors. adds_auto. Qed.

Hint Resolve adds_sanitize_bypass_actors : adds.

Lemma adds_export_ruleset org repo detailed ruleset_summary :
  allowed SOURCE_GITHUB_TOKEN SOURCE_API_URL ->
  adds_calls
    (Rulesets.export_ruleset serve SOURCE_GITHUB_TOKEN TARGET_GITHUB_TOKEN ENV_GITHUB_TOKEN
       SOURCE_API_URL ENRICH_BYPASS_ACTORS org repo detailed ruleset_summary).
Proof. intros Ha. unfold Rulesets.export_ruleset. adds_auto. Qed.

Hint Resolve adds_export_ruleset : adds.

Lemma adds_export_rulesets_for_repo org repo :
  allowed SOURCE_GITHUB_TOKEN SOURCE_API_URL ->
  adds_calls
    (Rulesets.export_rulesets_for_repo serve SOURCE_GITHUB_TOKEN TARGET_GITHUB_TOKEN
       ENV_GITHUB_TOKEN SOURCE_API_URL ENRICH_BYPASS_ACTORS org repo).
Proof. intros Ha. unfold Rulesets.export_rulesets_for_repo. adds_auto. Qed.

Hypothesis Hpost : forall token api_url suffix body,
  allowed token api_url ->
  P (Rulesets.mkApiRequest POST (api_url +:+ suffix)
       (Rulesets.token_or token GITHUB_TOKEN) [] (Some body)).

Lemma adds_import_ruleset org repo source_org source_repo existing report_entries ruleset :
  allowed TARGET_GITHUB_TOKEN TARGET_API_URL ->
  adds_calls
    (Rulesets.import_ruleset serve SOURCE_GITHUB_TOKEN TARGET_GITHUB_TOKEN ENV_GITHUB_TOKEN
       TARGET_API_URL SANITIZE_BYPASS_ACTORS REMOVE_ALL_BYPASS_ACTORS org repo
       source_org source_repo existing report_entries ruleset).
Proof.
  intros Ha. unfold Rulesets.import_ruleset. adds_auto;
    apply adds_make_api_request; apply Hpost; exact Ha.
Qed.

Hint Resolve adds_import_ruleset : adds.

Lemma adds_import_rulesets_for_repo org repo rulesets_to_create source_org source_repo :
  allowed TARGET_GITHUB_TOKEN TARGET_API_URL ->
  adds_calls
    (Rulesets.import_rulesets_for_repo serve SOURCE_GITHUB_TOKEN TARGET_GITHUB_TOKEN
       ENV_GITHUB_TOKEN TARGET_API_URL SANITIZE_BYPASS_ACTORS REMOVE_ALL_BYPASS_ACTORS
       org repo rulesets_to_create source_org source_repo).
Proof. intros Ha. unfold Rulesets.import_rulesets_for_repo. adds_auto. Qed.

End RulesetsTraces.
(** ** Traces of the webhooks script *)

Section WebhooksTraces.

Context {Server : Type}.
Variable serve : Webhooks.Call -> Server -> (Webhooks.Reply + Exn) * Server.
Variables source_org target_org now WEBHOOKS_EXPORT_FILE : string.
Variable P : Webhooks.Call -> Prop.
Variable allowed : Webhooks.Api -> Prop.

Hypothesis Hrepo : forall api repo_full_name,
  allowed api -> P (Webhooks.GetRepo api repo_full_name).
Hypothesis Hhooks : forall api repo_full_name,
  allowed api -> P (Webhooks.GetHooks api repo_full_name).

Local Abbreviation adds_calls := (adds (@Webhooks.trace Server) P).

Lemma adds_logging lvl msg : adds_calls (Webhooks.logging lvl msg).
Proof. apply adds_modify. reflexivity. Qed.

Lemma adds_call c : P c -> adds_calls (Webhooks.call serve c).
Proof.
  intros HP w. exists [c]. split; [|repeat constructor; exact HP].
  unfold Webhooks.call. cbn [Webhooks.server Webhooks.trace].
  destruct (serve c (Webhooks.server w)) as [[reply|e] s']; reflexivity.
Qed.

Lemma adds_config_get k d hook : adds_calls (Webhooks.config_get k d hook).
Proof. unfold Webhooks.config_get, Rulesets.get_attr. adds_auto. Qed.

Hint Resolve adds_logging adds_call adds_config_get : adds.

Lemma adds_webhooks_get_repository api org repo_name :
  allowed api -> adds_calls (Webhooks._get_repository serve api org repo_name).
Proof. intros Ha. unfold Webhooks._get_repository. adds_auto. Qed.

Lemma adds_get_hooks gh_repo :
  allowed (fst gh_repo) -> adds_calls (Webhooks.get_hooks serve gh_repo).
Proof. intros Ha. unfold Webhooks.get_hooks. adds_auto. Qed.

Hint Resolve adds_webhooks_get_repository adds_get_hooks : adds.

Lemma adds_get_webhooks gh_repo repo_full_name :
  allowed (fst gh_repo) -> adds_calls (Webhooks._get_webhooks serve gh_repo repo_full_name).
Proof. intros Ha. unfold Webhooks._get_webhooks. adds_auto. Qed.

Lemma adds_export_hook webhook_data hook :
  adds_calls (Webhooks.export_hook webhook_data hook).
Proof. unfold Webhooks.export_hook. adds_auto. Qed.

Hint Resolve adds_get_webhooks adds_export_hook : adds.

(** The repository handle [_get_repository] returns belongs to the API
    it was asked through. *)
Lemma get_repository_handle api org repo_name (w : Webhooks.State Server) h w' :
  Webhooks._get_repository serve api org repo_name w = (Ok (Some h), w') -> fst h = api.
Proof.
  unfold Webhooks._get_repository, try_except, bind, Webhooks.logging, modify, ret.
  cbn. destruct (Webhooks.call serve _ _) as [[reply|e|] w1]; cbn.
  - intros [= <- _]. reflexivity.
  - destruct e; cbn; discriminate.
  - discriminate.
Qed.


Lemma adds_export_webhooks repositories :
  allowed Webhooks.source_github_api ->
  adds_calls (Webhooks.export_webhooks serve source_org WEBHOOKS_EXPORT_FILE repositories).
Proof.
  intros Ha. unfold Webhooks.export_webhooks.
  adds_step; [adds_auto|]. destruct repositories as [|r rs]; [adds_auto|].
  adds_step; [|adds_auto]. apply adds_for_each. intros exported repo_mapping.
  apply (adds_bind_ok _ _ (fun h => forall x, h = Some x -> fst x = Webhooks.source_github_api)).
  - adds_auto.
  - intros w [h|] w' E x [= <-]. eapply get_repository_handle. exact E.
  - intros [h|] Hh; [|adds_auto].
    pose proof (Hh h eq_refl) as Hfst.
    assert (allowed (fst h)) by (rewrite Hfst; exact Ha).
    adds_auto.
Qed.

Hypothesis Hcreate : forall api repo_full_name name new_config hook_events hook_active,
  allowed api ->
  P (Webhooks.CreateHook api repo_full_name name new_config hook_events hook_active).

Lemma adds_add_migration_result source_repo target_repo webhook_url hook_events status
    reason :
  adds_calls
    (Webhooks._add_migration_result source_org target_org now source_repo target_repo
       webhook_url hook_events status reason).
Proof. apply adds_modify. reflexivity. Qed.

Lemma adds_url_set hooks acc : adds_calls (Webhooks.url_set hooks acc).
Proof.
  revert acc. induction hooks as [|h hooks IH]; intros acc; cbn [Webhooks.url_set];
    adds_auto; try apply IH.
Qed.

Hint Resolve adds_add_migration_result adds_url_set : adds.

Lemma adds_import_webhook source_repo target_repo target_gh_repo existing webhook :
  allowed (fst target_gh_repo) ->
  adds_calls
    (Webhooks.import_webhook serve source_org target_org now source_repo target_repo
       target_gh_repo existing webhook).
Proof. intros Ha. unfold Webhooks.import_webhook. adds_auto. Qed.

Hint Resolve adds_import_webhook : adds.

Lemma adds_import_repository entry :
  allowed Webhooks.target_github_api ->
  adds_calls (Webhooks.import_repository serve source_org target_org now entry).
Proof.
  intros Ha. unfold Webhooks.import_repository.
  destruct (snd (snd entry)) as [|wh whs]; [adds_auto|].
  apply (adds_bind_ok _ _ (fun h => forall x, h = Some x -> fst x = Webhooks.target_github_api)).
  - adds_auto.
  - intros w [h|] w' E x [= <-]. eapply get_repository_handle. exact E.
  - intros [h|] Hh; [|adds_auto].
    pose proof (Hh h eq_refl) as Hfst.
    assert (allowed (fst h)) by (rewrite Hfst; exact Ha).
    adds_auto.
Qed.

Hint Resolve adds_import_repository : adds.

Lemma adds_import_webhooks exported :
  allowed Webhooks.target_github_api ->
  adds_calls (Webhooks.import_webhooks serve source_org target_org now exported).
Proof. intros Ha. unfold Webhooks.import_webhooks. adds_auto. Qed.

End WebhooksTraces.
(** ** Pagination *)

Section PaginationPages.

Context {Server : Type}.
Variable Inv : Server -> Prop.
Variable serve : Request -> Server -> (Response + string) * Server.
Variable render_time : Z -> string.
Variable collection_key : string.
Variable session : Session.
Variable url : string.
Variable items : list Json.

Hypothesis Hpages : serves_pages_in Inv serve collection_key session url items.

Local Abbreviation collected := (collected Inv items).

Lemma chunk_succ (k : nat) :
  chunk items (Z.of_nat k + 1) = take 100 (drop (100 * k) items).
Proof.
  unfold chunk. replace (Z.to_nat (Z.of_nat k + 1) - 1)%nat with k by lia. reflexivity.
Qed.

Lemma paginate_pages (budget k : nat) (w : World Server) :
  Inv (server w) ->
  (100 * k <= length items)%nat ->
  (length items / 100 - k < budget)%nat ->
  exists w',
    paginate serve render_time collection_key budget session url
      (Z.of_nat k + 1) (take (100 * k) items) w = (Ok items, w')
    /\ collected k w w'.
Proof.
  revert k w. induction budget as [|budget IH]; intros k w Hinv Hk Hb; [lia|].
  destruct (Hpages (server w) (Z.of_nat k + 1) Hinv ltac:(lia))
    as (response & s' & body & Hs & Hinv' & Hst & Hrem & Hreset & Hjson & Hbody).
  destruct (make_request_ok serve render_time _ _ _ _ _ w response s' Hs Hrem Hreset)
    as (w1 & Hreq & Hsrv & Htr & _ & _ & Hmap & _).
  rewrite <- Hsrv in Hinv'.
  cbn [paginate]. unfold bind at 1. rewrite Hreq, Hst. cbn [Z.eqb Pos.eqb negb].
  unfold response_json. rewrite Hjson. unfold bind at 1. cbn [ret].
  rewrite chunk_succ in Hbody.
  set (c := take 100 (drop (100 * k) items)) in *.
  assert (Hlen : length c = Nat.min 100 (length items - 100 * k)).
  { unfold c. rewrite length_take, length_drop. reflexivity. }
  assert (Happ : take (100 * k) items ++ c = take (100 * S k) items).
  { unfold c. rewrite take_take_drop. f_equal. lia. }
  assert (Hdiv : (100 * (length items / 100) <= length items
                  < 100 * (length items / 100) + 100)%nat).
  { pose proof (Nat.div_mod_eq (length items) 100).
    pose proof (Nat.mod_upper_bound (length items) 100). lia. }
  assert (Htr1 : length (trace w1) = S (length (trace w))).
  { rewrite Htr, length_app. cbn. lia. }
  assert (Hfinal : (length c < 100)%nat ->
             exists w' : World Server,
               (Ok (take (100 * k) items ++ c), w1) = (Ok items, w')
               /\ collected k w w').
  { intros Hc. exists w1. split.
    - rewrite Happ, take_ge by lia. reflexivity.
    - split; [|split; assumption].
      rewrite Htr1. assert (length items / 100 = k)%nat by nia. lia. }
  assert (Hstep : (100 <= length c)%nat ->
             exists w' : World Server,
               paginate serve render_time collection_key budget session url
                 (Z.of_nat k + 1 + 1) (take (100 * k) items ++ c) w1 = (Ok items, w')
               /\ collected k w w').
  { intros Hc. rewrite Happ.
    replace (Z.of_nat k + 1 + 1) with (Z.of_nat (S k) + 1) by lia.
    assert (S k <= length items / 100)%nat by nia.
    destruct (IH (S k) w1 Hinv' ltac:(lia) ltac:(lia)) as (w' & Hp & Hl & Hi & Hm).
    exists w'. split; [exact Hp|]. split; [|split; [exact Hi|congruence]].
    rewrite Hl, Htr1. lia. }
  destruct Hbody as [-> | (kvs & -> & Hkvs)].
  - (* a bare array *)
    destruct c as [|x c'] eqn:Ec.
    + cbn [truthy negb ret].
      destruct (Hfinal ltac:(cbn; lia)) as (w' & Hw' & Hl).
      rewrite app_nil_r in Hw'. exists w'. split; assumption.
    + cbn [truthy negb]. rewrite <- Ec in *.
      destruct (Z.of_nat (length c) <? per_page) eqn:Elt.
      * apply Z.ltb_lt in Elt. unfold per_page in Elt. apply Hfinal. lia.
      * apply Z.ltb_ge in Elt. unfold per_page in Elt. apply Hstep. lia.
  - (* an object that carries the page *)
    assert (Hget : dict_get "repositories" (dict_get collection_key (JArr []) (JObj kvs))
                     (JObj kvs) = JArr c).
    { unfold dict_get, member.
      destruct Hkvs as [-> | [-> ->]]; reflexivity. }
    assert (Hne : truthy (JObj kvs) = true).
    { destruct kvs; [|reflexivity]. destruct Hkvs as [H | [_ H]]; discriminate H. }
    rewrite Hne. cbn [negb]. rewrite Hget. unfold iterate. cbn [py_iter].
    unfold bind at 1. cbn [ret].
    destruct (Z.of_nat (length c) <? per_page) eqn:Elt.
    + apply Z.ltb_lt in Elt. unfold per_page in Elt. apply Hfinal. lia.
    + apply Z.ltb_ge in Elt. unfold per_page in Elt. apply Hstep. lia.
Qed.

(** The collector returns the listing when the page budget exceeds
    N / 100. *)
Lemma get_paginated_data_items (budget : nat) (w : World Server) :
  Inv (server w) ->
  (length items / 100 < budget)%nat ->
  exists w',
    _get_paginated_data serve render_time collection_key budget session url w
      = (Ok items, w')
    /\ length (requests w') = (length (requests w) + (length items / 100 + 1))%nat
    /\ Inv (server w')
    /\ target_repo_mapping w' = target_repo_mapping w.
Proof.
  intros Hinv Hb. unfold _get_paginated_data.
  destruct (paginate_pages budget 0 w Hinv ltac:(lia) ltac:(lia))
    as (w' & Hp & Hl & Hi & Hm).
  cbn [Z.of_nat Z.add Nat.mul take] in Hp.
  exists w'. split; [exact Hp|]. split; [|split; assumption].
  unfold requests. rewrite !length_map, Hl. lia.
Qed.

End PaginationPages.

Lemma serves_pages_always {Server} (serve : Request -> Server -> (Response + string) * Server)
    key session url items :
  serves_pages serve key session url items ->
  serves_pages_in (fun _ => True) serve key session url items.
Proof.
  intros H s page _ Hp.
  destruct (H s page Hp) as (response & s' & body & Hs & Hrest).
  exists response, s', body. split; [exact Hs|]. split; [exact I|exact Hrest].
Qed.

Section PaginationComplete.

Context {Server : Type}.
Variable serve : Request -> Server -> (Response + string) * Server.
Variable render_time : Z -> string.
Variable collection_key : string.
Variable session : Session.
Variable url : string.
Variable items : list Json.

Hypothesis Hpages : serves_pages serve collection_key session url items.

(** C2.  Pagination completeness of [_get_paginated_data]: when the
    service answers the page requests for [url] with the pages of a
    listing of N items, 100 to a page, as bare arrays or as objects that
    carry the page under ['repositories'] or the collection key, the
    collector returns exactly the N items in their order, for every N
    (N = 0, N = 100 and N = 101 included), after N / 100 + 1 requests.
    It returns as soon as the page budget exceeds N / 100. *)
Theorem get_paginated_data_complete (budget : nat) (w : World Server) :
  (length items / 100 < budget)%nat ->
  exists w',
    _get_paginated_data serve render_time collection_key budget session url w
      = (Ok items, w')
    /\ length (requests w') = (length (requests w) + (length items / 100 + 1))%nat.
Proof.
  intros Hb.
  destruct (get_paginated_data_items (fun _ => True) serve render_time collection_key
              session url items (serves_pages_always _ _ _ _ _ Hpages) budget w I Hb)
    as (w' & Hp & Hl & _).
  exists w'. split; assumption.
Qed.

End PaginationComplete.

Lemma paged_source_serves_bare key session url items :
  serves_pages (paged_source items JArr) key session url items.
Proof.
  intros s page Hp. unfold paged_source.
  eexists (ok_response (JArr (chunk items page))), tt, (JArr (chunk items page)).
  cbn.
  repeat split; try discriminate. left. reflexivity.
Qed.

Lemma paged_source_serves_wrapped key session url items total :
  key <> "total_count" ->
  serves_pages (paged_source items (wrapped key total)) key session url items.
Proof.
  intros Hkey s page Hp. unfold paged_source.
  eexists (ok_response _), tt, _.
  cbn -[String.eqb].
  repeat split; try discriminate. right. eexists. split; [reflexivity|].
  cbn -[String.eqb]. change (String.eqb "repositories" "total_count") with false.
  change (String.eqb key "total_count") with (String.eqb key "total_count").
  cbv iota. destruct (String.eqb "repositories" key) eqn:E.
  - left. reflexivity.
  - right. split; [reflexivity|].
    destruct (String.eqb key "total_count") eqn:E2; [|rewrite String.eqb_refl; reflexivity].
    apply String.eqb_eq in E2. contradiction.
Qed.

(** A listing of [n] repositories, numbered from 0. *)
Lemma numbered_length n : length (numbered n) = n.
Proof. unfold numbered. rewrite length_map, length_seq. reflexivity. Qed.

(** C2 on a listing of 101 items (N = P + 1) served as bare arrays. *)
Lemma get_paginated_data_complete_witness :
  exists w',
    _get_paginated_data (paged_source (numbered 101) JArr) (fun _ => "") "secrets" 2
      source_session "https://api.github.com/orgs/acme/repos" (init_world tt 0)
      = (Ok (numbered 101), w')
    /\ length (requests w') = (0 + (length (numbered 101) / 100 + 1))%nat.
Proof.
  apply (get_paginated_data_complete (paged_source (numbered 101) JArr) (fun _ => "")
           "secrets" source_session "https://api.github.com/orgs/acme/repos"
           (numbered 101) (paged_source_serves_bare _ _ _ _) 2 (init_world tt 0)).
  rewrite numbered_length. vm_compute. lia.
Defined.

(** The boundary cases N = 0, N = 100 and N = 101, evaluated, for both
    shapes of response. *)
Example get_paginated_data_boundaries :
  Forall (fun n =>
            fst (_get_paginated_data (paged_source (numbered n) JArr) (fun _ => "")
                   "secrets" 3 source_session "u" (init_world tt 0))
              = Ok (numbered n)
            /\ fst (_get_paginated_data
                      (paged_source (numbered n) (wrapped "secrets" n)) (fun _ => "")
                      "secrets" 3 source_session "u" (init_world tt 0))
                 = Ok (numbered n))
         [0; 100; 101; 200]%nat.
Proof. repeat constructor; vm_compute; reflexivity. Qed.

Lemma all_repos_from_unbounded (S T E : option string) (budget : nat) (org api_url : string)
    (token : option string) (page : Z) (repos : list Json) (w : Rulesets.State unit) :
  exists w',
    Rulesets.all_repos_from endless_repos S T E budget org api_url token page repos w
      = (Unfinished, w')
    /\ length (Rulesets.trace w') = (length (Rulesets.trace w) + budget)%nat
    /\ Rulesets.log w' = Rulesets.log w.
Proof.
  revert page repos w. induction budget as [|budget IH]; intros page repos w.
  - exists w. cbn. repeat split. lia.
  - cbn [Rulesets.all_repos_from]. unfold bind at 1.
    unfold Rulesets.make_api_request, endless_repos.
    cbn [Rulesets.status_code Z.leb Z.ltb Z.compare Pos.compare Pos.compare_cont andb
         Rulesets.server Rulesets.trace Rulesets.log].
    unfold Rulesets.response_json. cbn [Rulesets.json]. unfold bind at 1. cbn [ret truthy negb].
    unfold bind at 1. cbn [iterate py_iter ret].
    unfold bind at 1. cbn [Rulesets.names_of subscript assoc String.eqb Ascii.eqb Bool.eqb
                           bind ret].
    match goal with
    | |- context [Rulesets.all_repos_from _ _ _ _ _ _ _ _ ?p ?r ?w0] =>
        destruct (IH p r w0) as (w' & Hrun & Hl & Hlog)
    end.
    exists w'. split; [exact Hrun|]. split.
    + rewrite Hl. cbn [Rulesets.trace]. rewrite length_app. cbn. lia.
    + rewrite Hlog. reflexivity.
Qed.

(** C3.  Neither [_get_paginated_data] nor [get_all_repos] has a bound on
    the number of pages: against a service that answers every page request
    with a full page ([_get_paginated_data]) or with a page that is not
    empty ([get_all_repos]) they are still running after any number of
    pages, one request per page issued and no warning logged. *)
Theorem paginated_collectors_are_unbounded (render_time : Z -> string) (key : string)
    (session : Session) (url : string) (budget : nat) (w : World unit)
    (SOURCE_GITHUB_TOKEN TARGET_GITHUB_TOKEN ENV_GITHUB_TOKEN : option string)
    (org api_url : string) (token : option string) (v : Rulesets.State unit) :
  (exists w',
      _get_paginated_data endless_source render_time key budget session url w
        = (Unfinished, w')
      /\ length (requests w') = (length (requests w) + budget)%nat
      /\ log w' = log w)
  /\ (exists v',
        Rulesets.get_all_repos endless_repos SOURCE_GITHUB_TOKEN TARGET_GITHUB_TOKEN
          ENV_GITHUB_TOKEN budget org api_url token v = (Unfinished, v')
        /\ length (Rulesets.trace v') = (length (Rulesets.trace v) + budget)%nat
        /\ Rulesets.log v'
           = Rulesets.log v
             ++ [(INFO, "Fetching all repositories for organization '" +:+ org +:+ "'...")]).
Proof.
  split.
  2: { unfold Rulesets.get_all_repos. unfold bind at 1. cbn [Rulesets.logger modify].
       unfold bind at 1.
       match goal with
       | |- context [Rulesets.all_repos_from _ _ _ _ _ _ _ _ ?p ?r ?w0] =>
           destruct (all_repos_from_unbounded SOURCE_GITHUB_TOKEN TARGET_GITHUB_TOKEN
                       ENV_GITHUB_TOKEN budget org api_url token p r w0)
             as (v' & Hrun & Hl & Hlog)
       end.
       exists v'. rewrite Hrun. split; [reflexivity|].
       split; [exact Hl|exact Hlog]. }
  unfold _get_paginated_data. generalize 1 at 1. generalize (@nil Json).
  revert w. induction budget as [|budget IH]; intros w all_data page.
  - exists w. cbn. repeat split. lia.
  - cbn [paginate].
    pose proof (make_request_quiet endless_source render_time session GET url
                [("page", page); ("per_page", per_page)] None w
                (ok_response (JArr (replicate 100
                   (JObj [("page", JInt (param "page"
                      [("page", page); ("per_page", per_page)] 1))])))) tt 4999 0
                eq_refl eq_refl ltac:(lia) eq_refl ltac:(discriminate)) as Hreq.
    match type of Hreq with _ = (_, ?w0) => set (w1 := w0) in * end.
    assert (Htr : trace w1 = trace w ++
                    [(clock w, mkRequest session GET url
                                 [("page", page); ("per_page", per_page)] None)])
      by reflexivity.
    assert (Hlog1 : log w1 = log w) by reflexivity.
    clearbody w1.
    unfold bind at 1. rewrite Hreq.
    cbn [status_code ok_response Z.eqb Pos.eqb negb response_json json].
    unfold bind at 1. cbn [ret].
    change (truthy (JArr (replicate 100 ?x))) with true. cbn [negb].
    rewrite length_replicate. change (Z.of_nat 100 <? per_page) with false. cbn iota.
    destruct (IH w1 (all_data ++ replicate 100
                (JObj [("page", JInt (param "page"
                   [("page", page); ("per_page", per_page)] 1))])) (page + 1))
      as (w' & Hp & Hl & Hlog).
    exists w'. split; [exact Hp|]. split.
    + rewrite Hl. unfold requests. rewrite !length_map, Htr, length_app. cbn. lia.
    + rewrite Hlog. exact Hlog1.
Qed.
(** ** The source organization is only read *)

Lemma adds_run_complete_migration {Server}
    (serve : Request -> Server -> (Response + string) * Server)
    render_time sealed_box source_org target_org budget :
  adds (@requests Server) source_untouched
    (run_complete_migration serve render_time sealed_box source_org target_org budget).
Proof.
  unfold run_complete_migration. apply adds_bind.
  - apply adds_weaken with (P := reads_source); [intros r (_ & H & _) _; exact H|].
    apply adds_fetch_all_secrets with (allowed := fun s => s = source_session);
      [|reflexivity].
    intros session url params ->. repeat split.
  - intros [|row rows]; [apply adds_ret|].
    apply adds_bind; [|intros ?; apply adds_ret].
    apply adds_weaken with (P := on_target).
    { intros r Hr Hs. unfold on_target in Hr. congruence. }
    apply adds_migrate_secrets with (allowed := fun s => s = target_session);
      [intros ? ? ? ->; reflexivity | intros ? ? ? ? ->; reflexivity | reflexivity].
Qed.

(** C8.  The engine never mutates the source scope.  In the secrets
    migrator every request of the export ([fetch_all_secrets]) is a GET
    without a body through the source session, every request of the
    migration ([migrate_secrets], and [migrate_variables] of the variables
    migrator) goes through the target session, and so a complete run sends
    nothing but GETs through the source session.  In the rulesets script
    every request of [export_rulesets_for_repo] is a GET without a body,
    and every request of [import_rulesets_for_repo] carries the target
    token to a URL under [TARGET_API_URL].  In the webhooks script
    [export_webhooks] only gets repositories and lists hooks, through the
    source API, and every call of [import_webhooks], the creation of hooks
    included, goes through the target API. *)
Theorem source_scope_is_only_read
    {S1 S2 S3 : Type}
    (serve : Request -> S1 -> (Response + string) * S1)
    (render_time : Z -> string) (sealed_box : nat -> string -> Json -> string + string)
    (source_org target_org : string) (budget : nat) (rows : list Row)
    (create_placeholder : bool) (w : World S1)
    (rserve : Rulesets.ApiRequest -> S2 -> (Rulesets.ApiResponse + string) * S2)
    (SOURCE_GITHUB_TOKEN TARGET_GITHUB_TOKEN ENV_GITHUB_TOKEN : option string)
    (SOURCE_API_URL TARGET_API_URL : string)
    (ENRICH_BYPASS_ACTORS SANITIZE_BYPASS_ACTORS REMOVE_ALL_BYPASS_ACTORS : bool)
    (org repo : string) (rulesets_to_create : list Json)
    (from_org from_repo : option string) (rw : Rulesets.State S2)
    (hserve : Webhooks.Call -> S3 -> (Webhooks.Reply + Exn) * S3)
    (now WEBHOOKS_EXPORT_FILE : string) (repositories : list (string * string))
    (exported : list (string * (string * list Webhooks.Webhook)))
    (hw : Webhooks.State S3) :
  Forall reads_source
    (added requests (fetch_all_secrets serve render_time source_org budget) w)
  /\ Forall on_target
       (added requests
          (migrate_secrets serve render_time sealed_box target_org budget rows
             create_placeholder) w)
  /\ Forall on_target
       (added requests (migrate_variables serve render_time target_org budget rows) w)
  /\ Forall source_untouched
       (added requests
          (run_complete_migration serve render_time sealed_box source_org target_org
             budget) w)
  /\ Forall (fun rq => Rulesets.method rq = GET /\ Rulesets.body rq = None)
       (added Rulesets.trace
          (Rulesets.export_rulesets_for_repo rserve SOURCE_GITHUB_TOKEN
             TARGET_GITHUB_TOKEN ENV_GITHUB_TOKEN SOURCE_API_URL ENRICH_BYPASS_ACTORS
             org repo) rw)
  /\ Forall (fun rq =>
               Rulesets.token rq
                 = Rulesets.token_or TARGET_GITHUB_TOKEN
                     (Rulesets.GITHUB_TOKEN SOURCE_GITHUB_TOKEN TARGET_GITHUB_TOKEN
                        ENV_GITHUB_TOKEN)
               /\ exists suffix, Rulesets.url rq = TARGET_API_URL +:+ suffix)
       (added Rulesets.trace
          (Rulesets.import_rulesets_for_repo rserve SOURCE_GITHUB_TOKEN
             TARGET_GITHUB_TOKEN ENV_GITHUB_TOKEN TARGET_API_URL SANITIZE_BYPASS_ACTORS
             REMOVE_ALL_BYPASS_ACTORS org repo rulesets_to_create from_org from_repo) rw)
  /\ Forall (fun c => Webhooks.api_of c = Webhooks.source_github_api
                      /\ Webhooks.is_read c = true)
       (added Webhooks.trace
          (Webhooks.export_webhooks hserve source_org WEBHOOKS_EXPORT_FILE repositories) hw)
  /\ Forall (fun c => Webhooks.api_of c = Webhooks.target_github_api)
       (added Webhooks.trace
          (Webhooks.import_webhooks hserve source_org target_org now exported) hw).
Proof.
  repeat split.
  - apply adds_added.
    apply adds_fetch_all_secrets with (allowed := fun s => s = source_session);
      [|reflexivity].
    intros session url params ->. repeat split.
  - apply adds_added.
    apply adds_migrate_secrets with (allowed := fun s => s = target_session);
      [intros ? ? ? ->; reflexivity | intros ? ? ? ? ->; reflexivity | reflexivity].
  - apply adds_added.
    apply adds_migrate_variables with (allowed := fun s => s = target_session);
      [intros ? ? ? ->; reflexivity | intros ? ? ? ? ->; reflexivity | reflexivity].
  - apply adds_added. apply adds_run_complete_migration.
  - apply adds_added.
    apply adds_export_rulesets_for_repo with (allowed := fun _ _ => True);
      [|exact I].
    intros. split; reflexivity.
  - apply adds_added.
    apply adds_import_rulesets_for_repo
      with (allowed := fun t u => t = TARGET_GITHUB_TOKEN /\ u = TARGET_API_URL);
      [| |split; reflexivity].
    + intros token api_url suffix params [-> ->]. split; [reflexivity|]. eexists. reflexivity.
    + intros token api_url suffix body [-> ->]. split; [reflexivity|]. eexists. reflexivity.
  - apply adds_added.
    apply adds_export_webhooks with (allowed := fun a => a = Webhooks.source_github_api);
      [| |reflexivity].
    + intros api n ->. split; reflexivity.
    + intros api n ->. split; reflexivity.
  - apply adds_added.
    apply adds_import_webhooks with (allowed := fun a => a = Webhooks.target_github_api);
      [| | |reflexivity].
    + intros api n ->. reflexivity.
    + intros api n ->. reflexivity.
    + intros api ? ? ? ? ? ->. reflexivity.
Qed.
(** ** Selected visibility *)

Lemma bind_ret_l {W A B} (a : A) (k : A -> M W B) : bind (ret a) k = k a.
Proof. reflexivity. Qed.

Section SelectedVisibility.

Context {Server : Type}.
Variable serve : Request -> Server -> (Response + string) * Server.
Variable render_time : Z -> string.
Variable sealed_box : nat -> string -> Json -> string + string.
Variable target_org : string.

Local Abbreviation W := (World Server).

(** With an empty name list the payload is left as it is. *)
Lemma with_selected_no_names key budget what name visibility data :
  with_selected_repositories serve render_time key target_org budget
    what name visibility [] data = ret data.
Proof.
  unfold with_selected_repositories. rewrite andb_false_r. reflexivity.
Qed.

(** A computation that begins with a request puts that request first. *)
Lemma added_request_first {A} (P : Request -> Prop) session method url params body
    (k : Response -> M W A) (w : W) :
  (forall response, adds requests P (k response)) ->
  exists rest,
    added requests
      (bind (_make_request serve render_time session method url params body) k) w
      = mkRequest session method url params body :: rest
    /\ Forall P rest.
Proof.
  intros Hk. unfold added, bind.
  pose proof (make_request_trace serve render_time session method url params body w) as Htr.
  destruct (_make_request serve render_time session method url params body w)
    as [[response|e|] w1]; cbn [snd] in *.
  - destruct (Hk response w1) as (new & E & F).
    exists new. split; [|exact F].
    rewrite E. unfold requests at 2. rewrite Htr, map_app, <- app_assoc.
    apply drop_app_length.
  - exists []. split; [|constructor].
    unfold requests. rewrite Htr, map_app. apply drop_app_length.
  - exists []. split; [|constructor].
    unfold requests. rewrite Htr, map_app. apply drop_app_length.
Qed.

Lemma adds_update_selected_no_names budget org name value session :
  adds requests (fun rq => rq_method rq = PATCH
                           /\ rq_json rq = Some (selected_variable_payload name value))
    (update_organization_variable serve render_time target_org budget org name value
       "selected" [] session).
Proof.
  unfold update_organization_variable.
  rewrite with_selected_no_names, bind_ret_l.
  pose proof (@adds_logger Server) as Hlog.
  adds_auto. apply adds_make_request. split; reflexivity.
Qed.


End SelectedVisibility.
(** ** Components of the state that a computation keeps *)

Section Keeps.

Context {W X : Type}.
Variable f : W -> X.

Lemma keeps_ret {A} (a : A) : keeps f (ret a).
Proof. intros w. reflexivity. Qed.

Lemma keeps_raise {A} (e : Exn) : keeps f (@raise W A e).
Proof. intros w. reflexivity. Qed.

Lemma keeps_unfinished {A} : keeps f (@unfinished W A).
Proof. intros w. reflexivity. Qed.

Lemma keeps_gets {A} (g : W -> A) : keeps f (gets g).
Proof. intros w. reflexivity. Qed.

Lemma keeps_modify (g : W -> W) : (forall w, f (g w) = f w) -> keeps f (modify g).
Proof. intros Hg w. apply Hg. Qed.

Lemma keeps_bind {A B} (m : M W A) (k : A -> M W B) :
  keeps f m -> (forall a, keeps f (k a)) -> keeps f (bind m k).
Proof.
  intros Hm Hk w. unfold bind. specialize (Hm w).
  destruct (m w) as [[a|e|] w1]; cbn [snd] in *; try exact Hm.
  rewrite Hk. exact Hm.
Qed.

Lemma keeps_try_except {A} (m : M W A) (h : Exn -> M W A) :
  keeps f m -> (forall e, keeps f (h e)) -> keeps f (try_except m h).
Proof.
  intros Hm Hh w. unfold try_except. specialize (Hm w).
  destruct (m w) as [[a|e|] w1]; cbn [snd] in *; try exact Hm.
  rewrite Hh. exact Hm.
Qed.

Lemma keeps_for_each {A B} (xs : list A) (acc : B) (body : B -> A -> M W B) :
  (forall acc x, keeps f (body acc x)) -> keeps f (for_each xs acc body).
Proof.
  intros Hbody. revert acc. induction xs as [|x xs IH]; intros acc; cbn [for_each].
  - apply keeps_ret.
  - apply keeps_bind; [apply Hbody|]. intros acc'. apply IH.
Qed.

Lemma keeps_ok {A} (m : M W A) w r w' : keeps f m -> m w = (r, w') -> f w' = f w.
Proof. intros Hm E. specialize (Hm w). rewrite E in Hm. exact Hm. Qed.

End Keeps.

Create HintDb keeps discriminated.

Ltac keeps_step :=
  lazymatch goal with
  | |- keeps _ (bind _ _) => apply keeps_bind; [|intros ?]
  | |- keeps _ (ret _) => apply keeps_ret
  | |- keeps _ (raise _) => apply keeps_raise
  | |- keeps _ unfinished => apply keeps_unfinished
  | |- keeps _ (gets _) => apply keeps_gets
  | |- keeps _ (try_except _ _) => apply keeps_try_except; [|intros ?]
  | |- keeps _ (for_each _ _ _) => apply keeps_for_each; intros ? ?
  | |- keeps _ (if ?c then _ else _) => destruct c
  | |- keeps _ (match ?x with _ => _ end) => destruct x
  | |- keeps _ (let (_, _) := ?x in _) => destruct x
  | |- keeps _ _ => solve [eauto with keeps]
  end.

Ltac keeps_auto := repeat keeps_step.

(** ** Reads leave the service alone *)

Section ReadsKeepServer.

Context {Server : Type}.
Variable serve : Request -> Server -> (Response + string) * Server.
Variable render_time : Z -> string.
Variable collection_key : string.
Variable target_org : string.

(** The service does not change its state on a GET. *)
Hypothesis Hread : forall rq s, rq_method rq = GET -> snd (serve rq s) = s.

Local Abbreviation W := (World Server).
Local Abbreviation keeps_server := (keeps (@server Server)).

Lemma keeps_logger lvl msg : keeps_server (logger lvl msg).
Proof. apply keeps_modify. reflexivity. Qed.

Lemma keeps_sleep d : keeps_server (sleep d).
Proof. apply keeps_modify. reflexivity. Qed.

Lemma keeps_subscript k j : keeps_server (subscript k j).
Proof. unfold subscript. keeps_auto. Qed.

Lemma keeps_iterate j : keeps_server (iterate j).
Proof. unfold iterate. keeps_auto. Qed.

Lemma keeps_response_json response : keeps_server (response_json response).
Proof. unfold response_json. keeps_auto. Qed.

Lemma keeps_int_header h : keeps_server (int_header h).
Proof. unfold int_header. keeps_auto. Qed.

Hint Resolve keeps_logger keeps_sleep keeps_subscript keeps_iterate keeps_response_json
  keeps_int_header : keeps.

Lemma keeps_handle_rate_limit response :
  keeps_server (_handle_rate_limit render_time response).
Proof.
  unfold _handle_rate_limit. keeps_auto; try (apply keeps_modify; reflexivity).
Qed.

Hint Resolve keeps_handle_rate_limit : keeps.

Lemma keeps_get session url params :
  keeps_server (_make_request serve render_time session GET url params None).
Proof.
  unfold _make_request. keeps_auto.
  intros w. unfold session_request. cbn [server set_trace].
  pose proof (Hread (mkRequest session GET url params None) (server w) eq_refl) as H.
  destruct (serve _ (server w)) as [[response|msg] s']; cbn in *; exact H.
Qed.

Hint Resolve keeps_get : keeps.

Lemma keeps_paginate budget session url page all_data :
  keeps_server (paginate serve render_time collection_key budget session url page all_data).
Proof.
  revert page all_data.
  induction budget as [|budget IH]; intros page all_data; cbn [paginate].
  - apply keeps_unfinished.
  - keeps_auto; apply IH.
Qed.

Lemma keeps_get_paginated_data budget session url :
  keeps_server (_get_paginated_data serve render_time collection_key budget session url).
Proof. apply keeps_paginate. Qed.

Hint Resolve keeps_get_paginated_data : keeps.

Lemma keeps_get_organization_repositories budget org session :
  keeps_server
    (get_organization_repositories serve render_time collection_key budget org session).
Proof. unfold get_organization_repositories. keeps_auto. Qed.

Lemma keeps_record_repo repo : keeps_server (record_repo repo).
Proof. unfold record_repo. keeps_auto. apply keeps_modify. reflexivity. Qed.

Hint Resolve keeps_get_organization_repositories keeps_record_repo : keeps.

Lemma keeps_build_target_repo_mapping budget :
  keeps_server
    (build_target_repo_mapping serve render_time collection_key target_org budget).
Proof. unfold build_target_repo_mapping. keeps_auto. Qed.

Hint Resolve keeps_build_target_repo_mapping : keeps.

Lemma keeps_get_target_repository_ids budget repo_names :
  keeps_server
    (get_target_repository_ids serve render_time collection_key target_org budget repo_names).
Proof. unfold get_target_repository_ids. keeps_auto. Qed.

Hint Resolve keeps_get_target_repository_ids : keeps.

Lemma keeps_with_selected_repositories budget what name visibility names data :
  keeps_server
    (with_selected_repositories serve render_time collection_key target_org budget
       what name visibility names data).
Proof. unfold with_selected_repositories. keeps_auto. Qed.

Lemma keeps_check_organization_secret_exists org secret_name session :
  keeps_server (check_organization_secret_exists serve render_time org secret_name session).
Proof. unfold check_organization_secret_exists. keeps_auto. Qed.

End ReadsKeepServer.

(** The payloads [with_selected_repositories] returns differ from the one
    it is given in the visibility and the repository ids only. *)
Lemma with_selected_other_keys {Server}
    (serve : Request -> Server -> (Response + string) * Server)
    render_time key target_org budget what name visibility names data k :
  k <> "visibility" -> k <> "selected_repository_ids" ->
  ensures
    (with_selected_repositories serve render_time key target_org budget what name
       visibility names data)
    (fun data' _ => assoc k data' = assoc k data).
Proof.
  intros Hv Hs.
  assert (Hset : forall k' v kvs, k <> k' -> assoc k (dict_set k' v kvs) = assoc k kvs).
  { intros k' v kvs Hk. induction kvs as [|[k0 v0] kvs IH]; cbn -[String.eqb].
    - apply String.eqb_neq in Hk. rewrite Hk. reflexivity.
    - destruct (String.eqb k' k0) eqn:E; cbn -[String.eqb].
      + apply String.eqb_eq in E. subst k0.
        apply String.eqb_neq in Hk. rewrite Hk. reflexivity.
      + destruct (String.eqb k k0); [reflexivity|exact IH]. }
  intros w data' w'. unfold with_selected_repositories.
  destruct (_ && _).
  - unfold bind. destruct (get_target_repository_ids _ _ _ _ _ _ _) as [[ids|e|] w1];
      try discriminate.
    destruct ids; cbn; intros [= <- _]; apply Hset; assumption.
  - intros [= <- _]. reflexivity.
Qed.
(** ** The simulated target organization *)

Lemma strip_prefix_app p s : strip_prefix p (p +:+ s) = Some s.
Proof.
  induction p as [|c p IH]; [reflexivity|].
  change (String c p +:+ s) with (String c (p +:+ s)). cbn [strip_prefix].
  rewrite Ascii.eqb_refl. exact IH.
Qed.

Lemma target_route_path org path :
  target_route org (base_url +:+ "/orgs/" +:+ org +:+ path) = Some path.
Proof.
  unfold target_route. rewrite strip_prefix_app.
  change (strip_prefix "/orgs/" ("/orgs/" +:+ org +:+ path)) with (Some (org +:+ path)).
  apply strip_prefix_app.
Qed.

Lemma target_service_get org rq t :
  rq_method rq = GET -> snd (target_service org rq t) = t.
Proof.
  intros Hm. unfold target_service, serve_secret, serve_new_variable, serve_variable.
  rewrite Hm.
  repeat match goal with
         | |- context [match ?x with _ => _ end] => destruct x
         end; reflexivity.
Qed.

Section TargetRoutes.

Variable org : string.
Variable session : Session.

Lemma target_probe_secret name params t :
  name <> "public-key" ->
  target_service org (mkRequest session GET (secret_url org name) params None) t
    = (inl (match secrets t !! name with
            | Some stored => respond 200 stored
            | None => not_found
            end), t).
Proof.
  intros Hn. unfold target_service, secret_url. cbn [rq_url].
  rewrite target_route_path.
  change (String.eqb ("/actions/secrets/" +:+ name) "/repos") with false. cbv iota.
  change (strip_prefix "/actions/secrets/" ("/actions/secrets/" +:+ name)) with (Some name).
  cbv iota. apply String.eqb_neq in Hn. rewrite Hn.
  unfold serve_secret. cbn [rq_method]. destruct (secrets t !! name); reflexivity.
Qed.

Lemma target_put_secret name body t :
  name <> "public-key" ->
  target_service org (mkRequest session PUT (secret_url org name) [] (Some body)) t
    = (inl (respond (match secrets t !! name with Some _ => 204 | None => 201 end) JNull),
       mkTarget (<[name := body]> (secrets t)) (variables t) (repositories t)).
Proof.
  intros Hn. unfold target_service, secret_url. cbn [rq_url].
  rewrite target_route_path.
  change (String.eqb ("/actions/secrets/" +:+ name) "/repos") with false. cbv iota.
  change (strip_prefix "/actions/secrets/" ("/actions/secrets/" +:+ name)) with (Some name).
  cbv iota. apply String.eqb_neq in Hn. rewrite Hn. reflexivity.
Qed.

Lemma target_post_variable data name t :
  assoc "name" data = Some (JStr name) ->
  target_service org
    (mkRequest session POST (variables_url org) []
       (Some (JObj data))) t
    = match variables t !! name with
      | Some _ => (inl (respond 409 (JObj [("message", JStr "Already exists")])), t)
      | None => (inl (respond 201 JNull),
                 mkTarget (secrets t) (<[name := JObj data]> (variables t)) (repositories t))
      end.
Proof.
  intros Hd. unfold target_service, variables_url, variable_url. cbn [rq_url].
  rewrite target_route_path.
  change (String.eqb "/actions/variables" "/repos") with false. cbv iota.
  change (strip_prefix "/actions/secrets/" "/actions/variables") with (@None string).
  cbv iota. change (String.eqb "/actions/variables" "/actions/variables") with true.
  cbv iota. unfold serve_new_variable. cbn [rq_method rq_json].
  unfold dict_get_none, dict_get, member. rewrite Hd. reflexivity.
Qed.

Lemma target_patch_variable name body t :
  target_service org
    (mkRequest session PATCH
       (variable_url org name) [] (Some body)) t
    = match variables t !! name with
      | Some _ => (inl (respond 204 JNull),
                   mkTarget (secrets t) (<[name := body]> (variables t)) (repositories t))
      | None => (inl not_found, t)
      end.
Proof.
  unfold target_service, variables_url, variable_url. cbn [rq_url].
  rewrite target_route_path.
  change (String.eqb ("/actions/variables/" +:+ name) "/repos") with false. cbv iota.
  change (strip_prefix "/actions/secrets/" ("/actions/variables/" +:+ name))
    with (@None string).
  cbv iota.
  change (String.eqb ("/actions/variables/" +:+ name) "/actions/variables") with false.
  cbv iota.
  change (strip_prefix "/actions/variables/" ("/actions/variables/" +:+ name))
    with (Some name).
  cbv iota. unfold serve_variable. cbn [rq_method rq_json].
  destruct (variables t !! name); reflexivity.
Qed.

End TargetRoutes.

Lemma target_public_key org session params t :
  target_service org
    (mkRequest session GET (base_url +:+ "/orgs/" +:+ org +:+ "/actions/secrets/public-key")
       params None) t
    = (inl (respond 200 the_public_key), t).
Proof.
  unfold target_service. cbn [rq_url].
  change (base_url +:+ "/orgs/" +:+ org +:+ "/actions/secrets/public-key")
    with (secret_url org "public-key").
  unfold secret_url. rewrite target_route_path.
  reflexivity.
Qed.
(** ** What a returned value tells *)

Section Ensures.

Context {W : Type}.

Lemma ensures_ret {A} (a : A) (Q : A -> W -> Prop) : (forall w, Q a w) -> ensures (ret a) Q.
Proof. intros H w a' w' [= <- <-]. apply H. Qed.

Lemma ensures_bind {A B} (m : M W A) (k : A -> M W B) (Q : B -> W -> Prop) :
  (forall a, ensures (k a) Q) -> ensures (bind m k) Q.
Proof.
  intros Hk w b w'. unfold bind.
  destruct (m w) as [[a|e|] w1]; try discriminate. apply Hk.
Qed.

Lemma ensures_raise {A} (e : Exn) (Q : A -> W -> Prop) : ensures (raise e) Q.
Proof. intros w a w'. discriminate. Qed.

End Ensures.

Ltac ensures_step :=
  lazymatch goal with
  | |- ensures (bind (_make_request _ _ _ PUT _ _ _) _) _ => fail
  | |- ensures (bind _ _) _ => apply ensures_bind; intros ?
  | |- ensures (ret _) _ => apply ensures_ret; intros ?; try discriminate
  | |- ensures (raise _) _ => apply ensures_raise
  | |- ensures (if ?c then _ else _) _ => destruct c
  | |- ensures (match ?x with _ => _ end) _ => destruct x
  end.

(** ** Idempotence *)

Section Idempotence.

Context {Server : Type}.
Variable serve : Request -> Server -> (Response + string) * Server.
Variable render_time : Z -> string.
Variable sealed_box : nat -> string -> Json -> string + string.

Local Abbreviation W := (World Server).

(** A request that returned a response was answered with it, and the
    state of the service is the one the answer left. *)
Lemma make_request_inv session method url params body (w w' : W) response :
  _make_request serve render_time session method url params body w = (Ok response, w') ->
  serve (mkRequest session method url params body) (server w) = (inl response, server w').
Proof.
  unfold _make_request, try_except, bind, session_request. cbn [server set_trace].
  destruct (serve _ (server w)) as [[r|msg] s'].
  - match goal with
    | |- context [_handle_rate_limit _ _ ?w0] =>
        pose proof (keeps_handle_rate_limit render_time r w0) as Hk;
        destruct (_handle_rate_limit render_time r w0) as [[[]|e|] w1]
    end; cbn [snd ret] in *.
    + intros [= <- <-]. rewrite Hk. reflexivity.
    + destruct e; cbn; unfold bind; cbn; discriminate.
    + discriminate.
  - cbn. discriminate.
Qed.

(** When [create_organization_secret] returns [True], the last thing the
    service did was to accept a PUT of the secret. *)
Lemma created_secret_was_put key target_org budget org name value visibility names session
    create_placeholder :
  ensures
    (create_organization_secret serve render_time sealed_box key target_org budget org
       name value visibility names session create_placeholder)
    (fun r w' => r = Some true ->
       exists s body response,
         serve (mkRequest session PUT (secret_url org name) [] (Some body)) s
           = (inl response, server w')).
Proof.
  unfold create_organization_secret. cbv zeta.
  repeat ensures_step.
  intros w r w'. unfold bind at 1.
  destruct (_make_request _ _ _ _ _ _ _ w) as [[response|e|] w1] eqn:E; try discriminate.
  apply make_request_inv in E.
  destruct (_ || _); unfold bind, logger, modify, ret; intros [= <- <-]; [|discriminate].
  intros _. eexists _, _, _. exact E.
Qed.

End Idempotence.

Section TargetIdempotence.

Variable org : string.
Variable render_time : Z -> string.
Variable sealed_box : nat -> string -> Json -> string + string.

Local Abbreviation W := (World Target).
Local Abbreviation create_secret :=
  (create_organization_secret (target_service org) render_time sealed_box "secrets" org).
Local Abbreviation create_variable :=
  (create_organization_variable (target_service org) render_time org).

(** The existence probe against the simulated target. *)
Lemma probe_on_target name session (w : W) :
  name <> "public-key" ->
  exists w',
    check_organization_secret_exists (target_service org) render_time org name session w
      = (Ok (match secrets (server w) !! name with Some _ => true | None => false end), w')
    /\ server w' = server w
    /\ requests w' = requests w ++ [mkRequest session GET (secret_url org name) [] None]
    /\ org_public_key_cache w' = org_public_key_cache w
    /\ rng w' = rng w.
Proof.
  intros Hn. unfold check_organization_secret_exists.
  unfold bind at 1. cbn [logger modify].
  set (w0 := set_log _ w).
  pose proof (target_probe_secret org session name [] (server w0) Hn) as Hs.
  unfold bind at 1.
  destruct (secrets (server w) !! name) as [stored|] eqn:El;
    change (secrets (server w0) !! name) with (secrets (server w) !! name) in Hs;
    rewrite El in Hs.
  - rewrite (make_request_quiet _ _ _ _ _ _ _ w0 _ _ 4999 0 Hs eq_refl ltac:(lia) eq_refl
               ltac:(discriminate)).
    cbn [respond status_code Z.eqb Pos.eqb]. unfold bind, logger, modify, ret.
    eexists. split; [reflexivity|]. split; [reflexivity|].
    split; [|split; reflexivity].
    unfold requests. cbn. rewrite map_app. reflexivity.
  - rewrite (make_request_quiet _ _ _ _ _ _ _ w0 _ _ 4999 0 Hs eq_refl ltac:(lia) eq_refl
               ltac:(discriminate)).
    cbn [not_found respond status_code Z.eqb Pos.eqb]. unfold bind, logger, modify, ret.
    eexists. split; [reflexivity|]. split; [reflexivity|].
    split; [|split; reflexivity].
    unfold requests. cbn. rewrite map_app. reflexivity.
Qed.

(** A secret the target already holds is skipped: one GET, no write. *)
Lemma existing_secret_is_skipped budget name value visibility names session
    create_placeholder (w : W) stored :
  name <> "public-key" ->
  secrets (server w) !! name = Some stored ->
  exists w',
    create_secret budget org name value visibility names session create_placeholder w
      = (Ok None, w')
    /\ server w' = server w
    /\ requests w' = requests w ++ [mkRequest session GET (secret_url org name) [] None].
Proof.
  intros Hn Hl. unfold create_organization_secret.
  destruct (probe_on_target name session w Hn) as (w1 & Hp & Hs & Hr & _).
  rewrite Hl in Hp. unfold bind at 1. rewrite Hp.
  unfold bind, logger, modify, ret. eexists. split; [reflexivity|].
  split; [exact Hs|exact Hr].
Qed.

(** A PUT of a secret leaves the secret in the target. *)
Lemma put_leaves_secret name session body s response s' :
  name <> "public-key" ->
  target_service org (mkRequest session PUT (secret_url org name) [] (Some body)) s
    = (inl response, s') ->
  secrets s' !! name = Some body.
Proof.
  intros Hn. rewrite target_put_secret by exact Hn.
  intros [= _ <-]. cbn. apply lookup_insert_eq.
Qed.

(** A variable the target already holds is not skipped: the POST is
    answered 409, the variable is updated with a PATCH, and the result is
    [True] again. *)
Lemma existing_variable_is_overwritten budget name value visibility names session
    (w w' : W) old r :
  variables (server w) !! name = Some old ->
  create_variable budget org name value visibility names session w = (Ok r, w') ->
  r = Some true
  /\ exists data,
       variables (server w') !! name = Some (JObj data)
       /\ assoc "value" data = Some (JStr value)
       /\ In (mkRequest session PATCH (variable_url org name) [] (Some (JObj data)))
            (requests w').
Proof.
  intros Hold. unfold create_organization_variable. unfold bind at 1.
  destruct (with_selected_repositories _ _ _ _ _ _ _ _ _ _ w) as [[data|e|] wa] eqn:E1;
    try discriminate.
  pose proof (keeps_ok _ _ _ _ _
                (keeps_with_selected_repositories (target_service org) render_time
                   "variables" org (target_service_get org) _ _ _ _ _ _) E1) as Hsa.
  pose proof (with_selected_other_keys _ _ _ _ _ _ _ _ _ _ "name"
                ltac:(discriminate) ltac:(discriminate) _ _ _ E1) as Hname.
  cbn in Hname.
  assert (Hpost := target_post_variable org session data name (server wa) Hname).
  rewrite Hsa, Hold in Hpost. rewrite <- Hsa in Hpost.
  unfold bind at 1.
  rewrite (make_request_quiet _ _ _ _ _ _ _ wa _ _ 4999 0 Hpost eq_refl ltac:(lia) eq_refl
             ltac:(discriminate)).
  cbn [respond status_code Z.eqb Pos.eqb]. unfold bind at 1. cbn [logger modify].
  set (wc := set_log _ _).
  assert (Hsc : server wc = server w) by (cbn; exact Hsa).
  assert (Hrc : requests wc = requests wa ++ [mkRequest session POST (variables_url org) []
                                               (Some (JObj data))]).
  { unfold requests. cbn. rewrite map_app. reflexivity. }
  clearbody wc.
  unfold update_organization_variable. unfold bind at 1.
  destruct (with_selected_repositories _ _ _ _ _ _ _ _ _ _ wc) as [[data2|e|] wd] eqn:E2;
    try discriminate.
  pose proof (keeps_ok _ _ _ _ _
                (keeps_with_selected_repositories (target_service org) render_time
                   "variables" org (target_service_get org) _ _ _ _ _ _) E2) as Hsd.
  pose proof (with_selected_other_keys _ _ _ _ _ _ _ _ _ _ "value"
                ltac:(discriminate) ltac:(discriminate) _ _ _ E2) as Hvalue.
  cbn in Hvalue.
  assert (Hpatch := target_patch_variable org session name (JObj data2) (server wd)).
  rewrite Hsd, Hsc, Hold in Hpatch. rewrite <- Hsc, <- Hsd in Hpatch.
  fold (variable_url org name).
  unfold bind at 1.
  rewrite (make_request_quiet _ _ _ _ _ _ _ wd _ _ 4999 0 Hpatch eq_refl ltac:(lia) eq_refl
             ltac:(discriminate)).
  cbn [respond status_code Z.eqb Pos.eqb]. unfold bind, logger, modify, ret.
  intros [= <- <-]. split; [reflexivity|]. exists data2.
  split; [cbn; apply lookup_insert_eq|]. split; [exact Hvalue|].
  unfold requests. cbn. rewrite map_app. apply in_or_app. right. left. reflexivity.
Qed.

(** The migration of one organization secret, in terms of
    [create_organization_secret]. *)
Lemma migrate_one_secret budget row create_placeholder (w : W) :
  scope row = "organization" ->
  exists w0,
    server w0 = server w
    /\ match create_secret budget org (name row) (value row) (visibility row)
               (parse_selected_repositories (selected_repositories row))
               target_session create_placeholder w0 with
       | (Ok r, w1) =>
           exists w2,
             migrate_secrets (target_service org) render_time sealed_box org budget [row]
               create_placeholder w = (Ok (count_result (0, 0, 0)%nat r), w2)
             /\ server w2 = server w1
       | (Raise e, w1) =>
           exists w2,
             migrate_secrets (target_service org) render_time sealed_box org budget [row]
               create_placeholder w = (Ok (0, 1, 0)%nat, w2)
             /\ server w2 = server w1
       | (Unfinished, w1) =>
           migrate_secrets (target_service org) render_time sealed_box org budget [row]
             create_placeholder w = (Unfinished, w1)
       end.
Proof.
  intros Hscope. unfold migrate_secrets.
  unfold bind at 1. cbn [logger modify].
  set (w0 := set_log _ w). exists w0. split; [reflexivity|].
  cbn [for_each]. rewrite Hscope.
  change (String.eqb "organization" "organization") with true. cbv iota.
  unfold bind, try_except, ret, logger, modify. subst w0.
  destruct (create_organization_secret _ _ _ _ _ _ _ _ _ _ _ _ _ _) as [[r|e|] w1].
  - eexists. split; reflexivity.
  - eexists. split; reflexivity.
  - reflexivity.
Qed.

(** C1, as the code has it.  Against the simulated target, for a row of
    an organization secret: a secret the target already holds is skipped
    (one Skipped, the target as it was); and when a run of the migration
    created the secret (one Created), the same run again skips it (one
    Skipped, never a second Created) and leaves the target as the first
    run left it.  Organization variables follow the other discipline: a
    variable the target already holds is not skipped, the conflict (409)
    is answered with an update (PATCH) that stores the migrated value, and
    the outcome is a success again. *)
Theorem secrets_are_skipped_variables_are_updated budget row create_placeholder session
    (w : W) :
  scope row = "organization" ->
  name row <> "public-key" ->
  (forall stored,
     secrets (server w) !! name row = Some stored ->
     exists w',
       migrate_secrets (target_service org) render_time sealed_box org budget [row]
         create_placeholder w = (Ok (0, 0, 1)%nat, w')
       /\ server w' = server w)
  /\ (forall w1,
        migrate_secrets (target_service org) render_time sealed_box org budget [row]
          create_placeholder w = (Ok (1, 0, 0)%nat, w1) ->
        exists w2,
          migrate_secrets (target_service org) render_time sealed_box org budget [row]
            create_placeholder w1 = (Ok (0, 0, 1)%nat, w2)
          /\ server w2 = server w1)
  /\ (forall old r w',
        variables (server w) !! name row = Some old ->
        create_variable budget org (name row) (value row) (visibility row)
          (parse_selected_repositories (selected_repositories row)) session w = (Ok r, w') ->
        r = Some true
        /\ exists data,
             variables (server w') !! name row = Some (JObj data)
             /\ assoc "value" data = Some (JStr (value row))
             /\ In (mkRequest session PATCH (variable_url org (name row)) []
                      (Some (JObj data))) (requests w')).
Proof.
  intros Hscope Hname.
  assert (Hskip : forall (w : W) stored,
             secrets (server w) !! name row = Some stored ->
             exists w',
               migrate_secrets (target_service org) render_time sealed_box org budget [row]
                 create_placeholder w = (Ok (0, 0, 1)%nat, w')
               /\ server w' = server w).
  { clear w. intros w stored Hl.
    destruct (migrate_one_secret budget row create_placeholder w Hscope) as (w0 & Hs0 & Hm).
    rewrite <- Hs0 in Hl.
    destruct (existing_secret_is_skipped budget (name row) (value row) (visibility row)
                (parse_selected_repositories (selected_repositories row)) target_session
                create_placeholder w0 stored Hname Hl) as (w1 & Hc & Hs1 & _).
    rewrite Hc in Hm. destruct Hm as (w2 & Hm & Hs2).
    exists w2. split; [exact Hm|]. congruence. }
  split; [exact (Hskip w)|]. split.
  - intros w1 Hrun.
    destruct (migrate_one_secret budget row create_placeholder w Hscope) as (w0 & Hs0 & Hm).
    destruct (create_organization_secret _ _ _ _ _ _ _ _ _ _ _ _ _ w0)
      as [[r|e|] wc] eqn:Ec.
    + destruct Hm as (w2 & Hm & Hs2). rewrite Hm in Hrun.
      injection Hrun as Hcount <-.
      assert (r = Some true) as -> by (destruct r as [[]|]; cbn in Hcount; congruence).
      destruct (created_secret_was_put _ _ _ _ _ _ _ _ _ _ _ _ _ _ _ _ Ec eq_refl)
        as (s & body & response & Hput).
      apply put_leaves_secret in Hput; [|exact Hname].
      apply (Hskip w2 body). rewrite Hs2. exact Hput.
    + destruct Hm as (w2 & Hm & _). rewrite Hm in Hrun. discriminate.
    + rewrite Hm in Hrun. discriminate.
  - intros old r w' Hold Hrun.
    exact (existing_variable_is_overwritten budget _ _ _ _ session w w' old r Hold Hrun).
Qed.

End TargetIdempotence.

(** C1 on the example: the first migration of [API_KEY] to a target that
    does not hold it creates it, the second one skips it. *)
Lemma secrets_are_skipped_variables_are_updated_witness :
  exists w1 w2,
    migrate_secrets (target_service "acme") (fun _ => "") toy_sealed_box "acme" 5
      [api_key_secret_row] true (init_world acme_target 0) = (Ok (1, 0, 0)%nat, w1)
    /\ migrate_secrets (target_service "acme") (fun _ => "") toy_sealed_box "acme" 5
         [api_key_secret_row] true w1 = (Ok (0, 0, 1)%nat, w2)
    /\ server w2 = server w1.
Proof.
  set (run1 := migrate_secrets (target_service "acme") (fun _ => "") toy_sealed_box "acme" 5
                 [api_key_secret_row] true (init_world acme_target 0)).
  assert (E : run1 = (Ok (1, 0, 0)%nat, snd run1)) by (vm_compute; reflexivity).
  destruct (secrets_are_skipped_variables_are_updated "acme" (fun _ => "") toy_sealed_box 5
              api_key_secret_row true target_session (init_world acme_target 0)
              eq_refl ltac:(discriminate)) as (_ & H & _).
  destruct (H (snd run1) E) as (w2 & H2 & Hs).
  exists (snd run1), w2. split; [exact E|]. split; [exact H2|exact Hs].
Defined.

(** C1 fails for organization variables: migrating the same row twice to
    an empty target succeeds twice and skips nothing, and a variable the
    target holds is overwritten with the migrated value. *)
Lemma variables_are_created_twice_and_overwritten :
  fst (migrate_variables (target_service "acme") (fun _ => "") "acme" 5
         [api_key_variable_row] (init_world empty_target 0)) = Ok (1, 0, 0)%nat
  /\ fst (migrate_variables (target_service "acme") (fun _ => "") "acme" 5
            [api_key_variable_row]
            (snd (migrate_variables (target_service "acme") (fun _ => "") "acme" 5
                    [api_key_variable_row] (init_world empty_target 0))))
       = Ok (1, 0, 0)%nat
  /\ variables holding_target !! "API_KEY"
       = Some (JObj [("name", JStr "API_KEY"); ("value", JStr "kept");
                     ("visibility", JStr "all")])
  /\ variables
       (server (snd (migrate_variables (target_service "acme") (fun _ => "") "acme" 5
                       [api_key_variable_row] (init_world holding_target 0))))
       !! "API_KEY"
       = Some (JObj [("name", JStr "API_KEY"); ("value", JStr "from-source");
                     ("visibility", JStr "all")]).
Proof. vm_compute. repeat split; reflexivity. Qed.

(** ** Placeholder values *)

Section Placeholder.

Context {Server : Type}.
Variable serve : Request -> Server -> (Response + string) * Server.
Variable render_time : Z -> string.
Variable sealed_box : nat -> string -> Json -> string + string.
Variable key : string.
Variable target_org : string.

Local Abbreviation W := (World Server).
Local Abbreviation create_secret :=
  (create_organization_secret serve render_time sealed_box key target_org).

(** What [encrypt_secret] returns is what the sealed box made of the
    value. *)
Lemma encrypt_secret_sealed secret_value public_key :
  ensures (encrypt_secret (Server:=Server) sealed_box secret_value public_key)
    (fun encrypted _ => exists n, sealed_box n secret_value public_key = inl encrypted).
Proof.
  intros w encrypted w'. unfold encrypt_secret, try_except, bind, gets, modify.
  destruct (sealed_box (rng w) secret_value public_key) as [c|msg] eqn:E; cbn.
  - intros [= <- _]. exists (rng w). exact E.
  - discriminate.
Qed.

Lemma sealed_or_none public_key_info secret_value name :
  ensures
    (try_except
       (bind (subscript (W:=W) "key" public_key_info) (fun pk =>
          bind (encrypt_secret sealed_box secret_value pk) (fun encrypted_value =>
            ret (Some encrypted_value))))
       (fun e =>
          bind (logger ERROR ("Failed to encrypt secret " +:+ name +:+ ": " +:+ exn_str e))
            (fun _ => ret None)))
    (fun encrypted _ =>
       forall c, encrypted = Some c -> exists n pk, sealed_box n secret_value pk = inl c).
Proof.
  intros w encrypted w'. unfold try_except, bind at 1.
  destruct (subscript "key" public_key_info w) as [[pk|e|] w1].
  - unfold bind at 1.
    destruct (encrypt_secret sealed_box secret_value pk w1) as [[c|e|] w2] eqn:E.
    + cbn. intros [= <- _] c' [= <-].
      destruct (encrypt_secret_sealed _ _ _ _ _ E) as (n & Hn). eauto.
    + unfold bind, logger, modify, ret. intros [= <- _]. discriminate.
    + discriminate.
  - unfold bind, logger, modify, ret. intros [= <- _]. discriminate.
  - discriminate.
Qed.

Lemma placeholder_requests budget org name value visibility names session :
  no_actual_value value = true ->
  adds requests
    (fun rq => rq_method rq = GET
               \/ puts_sealed sealed_box PLACEHOLDER_VALUE_SET_MANUALLY org name rq)
    (create_secret budget org name value visibility names session true).
Proof.
  intros Hno. unfold create_organization_secret. cbv zeta. rewrite Hno.
  cbn [negb andb].
  set (P := fun rq : Request => _ \/ _).
  assert (Hget : forall session url params,
             (fun _ : Session => True) session -> P (mkRequest session GET url params None))
    by (intros; left; reflexivity).
  pose proof (@adds_logger Server P) as Hlog.
  pose proof (adds_check_organization_secret_exists serve render_time P _ Hget) as H1.
  pose proof (adds_get_organization_public_key serve render_time P _ Hget) as H2.
  pose proof (adds_encrypt_secret (Server:=Server) sealed_box P) as H3.
  pose proof (@adds_subscript Server P) as H4.
  pose proof (adds_with_selected_repositories serve render_time key target_org P _ Hget)
    as H5.
  adds_step; [apply H1; exact I|].
  adds_step; [adds_auto|].
  adds_step; [adds_auto|].
  adds_step; [apply H2; exact I|].
  adds_step; [adds_auto|].
  eapply adds_bind_ok with
    (Q := fun encrypted => forall c, encrypted = Some c ->
            exists n pk, sealed_box n PLACEHOLDER_VALUE_SET_MANUALLY pk = inl c);
    [adds_auto | intros ? ? ? E; exact (sealed_or_none _ _ _ _ _ _ E) |].
  intros [c|] Hc; [|adds_auto].
  destruct (Hc c eq_refl) as (n & pk & Hseal).
  adds_step; [adds_auto|].
  eapply adds_bind_ok with
    (Q := fun data => assoc "encrypted_value" data = Some (JStr c));
    [apply H5; exact I
    |intros ? ? ? E;
     exact (with_selected_other_keys serve render_time key target_org _ _ _ _ _ _
              "encrypted_value" ltac:(discriminate) ltac:(discriminate) _ _ _ E)|].
  intros data Hdata.
  adds_step; [|adds_auto].
  apply adds_make_request. right. exists n, pk, data, c.
  repeat split; assumption.
Qed.

(** The log line of a created secret. *)
Lemma created_secret_log budget org name value visibility names session create_placeholder :
  ensures (create_secret budget org name value visibility names session create_placeholder)
    (fun r w' =>
       r = Some true ->
       last (log w')
         = Some (INFO,
                 ("Created/Updated" +:+
                  (if String.eqb
                        (if no_actual_value value then PLACEHOLDER_VALUE_SET_MANUALLY
                         else value) PLACEHOLDER_VALUE_SET_MANUALLY
                   then " [PLACEHOLDER]" else ""))
                 +:+ " organization secret: " +:+ name
                 +:+ visibility_info visibility names)).
Proof.
  unfold create_organization_secret. cbv zeta.
  repeat ensures_step.
  intros w r w'. unfold bind at 1.
  destruct (_make_request _ _ _ _ _ _ _ w) as [[response|e|] w1]; try discriminate.
  destruct (_ || _); unfold bind, logger, modify, ret; intros [= <- <-]; [|discriminate].
  intros _. cbn [log set_log]. apply last_snoc.
Qed.

(** Without a value and without placeholders nothing is written. *)
Lemma no_placeholder_requests budget org name value visibility names session :
  no_actual_value value = true ->
  adds requests (fun rq => rq_method rq = GET)
    (create_secret budget org name value visibility names session false)
  /\ ensures (create_secret budget org name value visibility names session false)
       (fun r _ => r = None \/ r = Some false).
Proof.
  intros Hno. unfold create_organization_secret. cbv zeta. rewrite Hno.
  cbn [negb andb]. split.
  - set (P := fun rq : Request => _).
    assert (Hget : forall session url params,
               (fun _ : Session => True) session -> P (mkRequest session GET url params None))
      by (intros; reflexivity).
    pose proof (@adds_logger Server P) as Hlog.
    pose proof (adds_check_organization_secret_exists serve render_time P _ Hget) as H1.
    adds_step; [apply H1; exact I|]. adds_auto.
  - ensures_step. ensures_step; ensures_step; ensures_step; auto.
Qed.

End Placeholder.

Section PlaceholderOnTarget.

Variable org : string.
Variable render_time : Z -> string.
Variable sealed_box : nat -> string -> Json -> string + string.

Local Abbreviation W := (World Target).
Local Abbreviation create_secret :=
  (create_organization_secret (target_service org) render_time sealed_box "secrets" org).

(** A secret the target took with a placeholder holds the sealed
    sentinel. *)
Lemma created_placeholder_is_stored budget name value visibility names session (w w' : W) :
  name <> "public-key" ->
  no_actual_value value = true ->
  create_secret budget org name value visibility names session true w
    = (Ok (Some true), w') ->
  exists data encrypted n public_key,
    secrets (server w') !! name = Some (JObj data)
    /\ assoc "encrypted_value" data = Some (JStr encrypted)
    /\ sealed_box n PLACEHOLDER_VALUE_SET_MANUALLY public_key = inl encrypted.
Proof.
  intros Hn Hno. unfold create_organization_secret. cbv zeta. rewrite Hno.
  cbn [negb andb].
  unfold bind at 1.
  destruct (check_organization_secret_exists _ _ _ _ _ w) as [[[]|e|] w1];
    try discriminate.
  unfold bind at 1. cbn [logger modify]. set (w2 := set_log _ w1). clearbody w2.
  unfold bind at 1.
  destruct (get_organization_public_key _ _ _ _ w2) as [[pki|e|] w3]; try discriminate.
  destruct (negb (truthy pki)); [discriminate|].
  unfold bind at 1.
  match goal with
  | |- context [try_except ?m ?h w3] =>
      destruct (try_except m h w3) as [[[c|]|e|] w4] eqn:Eenc; try discriminate
  end.
  destruct (sealed_or_none sealed_box _ _ _ _ _ _ Eenc c eq_refl) as (n & pk & Hseal).
  unfold bind at 1.
  destruct (subscript "key_id" pki w4) as [[key_id|e|] w5]; try discriminate.
  unfold bind at 1.
  destruct (with_selected_repositories _ _ _ _ _ _ _ _ _ _ w5) as [[data|e|] w6] eqn:Esel;
    try discriminate.
  pose proof (with_selected_other_keys _ _ _ _ _ _ _ _ _ _ "encrypted_value"
                ltac:(discriminate) ltac:(discriminate) _ _ _ Esel) as Hdata.
  cbn in Hdata.
  unfold bind at 1.
  destruct (_make_request _ _ _ _ _ _ _ w6) as [[response|e|] w7] eqn:Ereq;
    try discriminate.
  apply make_request_inv in Ereq. apply put_leaves_secret in Ereq; [|exact Hn].
  destruct (_ || _); unfold bind, logger, modify, ret; intros [= <-].
  cbn [server set_log]. exists data, c, n, pk. repeat split; assumption.
Qed.

(** Against a target that does not hold the secret, with a sealed box
    that seals the sentinel, the secret is created. *)
Lemma placeholder_is_created budget name value visibility names session (w : W) :
  name <> "public-key" ->
  no_actual_value value = true ->
  secrets (server w) !! name = None ->
  org_public_key_cache w !! org = None ->
  String.eqb visibility "selected"
    && match names with [] => false | _ => true end = false ->
  (forall n public_key,
      exists encrypted,
        sealed_box n PLACEHOLDER_VALUE_SET_MANUALLY public_key = inl encrypted) ->
  exists w', create_secret budget org name value visibility names session true w
             = (Ok (Some true), w').
Proof.
  intros Hn Hno Habsent Hcache Hvis Hbox.
  unfold create_organization_secret. cbv zeta. rewrite Hno. cbn [negb andb].
  destruct (probe_on_target org render_time name session w Hn)
    as (w1 & Hp & Hs1 & _ & Hc1 & _).
  rewrite Habsent in Hp. unfold bind at 1. rewrite Hp.
  unfold bind at 1. cbn [logger modify]. set (w2 := set_log _ w1).
  assert (Hs2 : server w2 = server w) by exact Hs1.
  assert (Hc2 : org_public_key_cache w2 !! org = None) by (cbn; rewrite Hc1; exact Hcache).
  clearbody w2.
  unfold get_organization_public_key. unfold bind at 1. unfold bind at 1.
  cbn [gets]. rewrite Hc2. unfold bind at 1.
  rewrite (make_request_quiet _ _ _ _ _ _ _ w2 _ _ 4999 0
             (target_public_key org session [] (server w2)) eq_refl ltac:(lia) eq_refl
             ltac:(discriminate)).
  cbn [respond status_code Z.eqb Pos.eqb negb].
  unfold try_except at 1, response_json. cbn [respond json bind ret modify].
  cbn [the_public_key truthy negb].
  set (w3 := set_org_public_key_cache _ _).
  assert (Hs3 : server w3 = server w) by exact Hs2.
  clearbody w3.
  unfold bind at 1. unfold try_except at 1. unfold bind at 1.
  change (subscript "key" the_public_key w3) with (Ok (JStr "c2VhbGVkLWJveC1rZXk="), w3).
  cbv iota. unfold bind at 1. unfold encrypt_secret, try_except at 1. cbn [bind gets modify].
  destruct (Hbox (rng w3) (JStr "c2VhbGVkLWJveC1rZXk=")) as (c & Hc). rewrite Hc.
  cbn [ret]. set (w4 := set_rng _ w3).
  assert (Hs4 : server w4 = server w) by exact Hs3.
  clearbody w4.
  unfold bind at 1.
  change (subscript "key_id" the_public_key w4) with (Ok (JStr "568250167242549743"), w4).
  cbv iota.
  unfold with_selected_repositories. rewrite Hvis. unfold bind at 1. cbn [ret].
  fold (secret_url org name).
  assert (Hput := target_put_secret org session name
                    (JObj [("encrypted_value", JStr c);
                           ("key_id", JStr "568250167242549743");
                           ("visibility", JStr visibility)]) (server w4) Hn).
  rewrite Hs4, Habsent in Hput. rewrite <- Hs4 in Hput.
  unfold bind at 1.
  rewrite (make_request_quiet _ _ _ _ _ _ _ w4 _ _ 4999 0 Hput eq_refl ltac:(lia) eq_refl
             ltac:(discriminate)).
  cbn [respond status_code Z.eqb Pos.eqb orb]. unfold bind, logger, modify, ret.
  eexists. reflexivity.
Qed.

(** Without a value and without placeholders the attempt is a failure
    that leaves the target as it was. *)
Lemma no_placeholder_fails budget name value visibility names session (w : W) :
  name <> "public-key" ->
  no_actual_value value = true ->
  secrets (server w) !! name = None ->
  exists w',
    create_secret budget org name value visibility names session false w
      = (Ok (Some false), w')
    /\ server w' = server w
    /\ requests w' = requests w ++ [mkRequest session GET (secret_url org name) [] None].
Proof.
  intros Hn Hno Habsent.
  unfold create_organization_secret. cbv zeta. rewrite Hno. cbn [negb andb].
  destruct (probe_on_target org render_time name session w Hn)
    as (w1 & Hp & Hs1 & Hr1 & _).
  rewrite Habsent in Hp. unfold bind at 1. rewrite Hp.
  unfold bind, logger, modify, ret. eexists. split; [reflexivity|].
  split; [exact Hs1|exact Hr1].
Qed.


End PlaceholderOnTarget.



(** ** Selected repositories *)

Lemma translate_known_unknown mapping names :
  translate mapping names = (known_ids mapping names, unknown_names mapping names).
Proof.
  induction names as [|name names IH]; [reflexivity|].
  cbn [translate known_ids unknown_names omap List.filter list_omap]. rewrite IH.
  destruct (mapping !! KStr name); reflexivity.
Qed.

Lemma name_to_id_lookup entries name :
  name_to_id entries !! KStr name = None <-> name ∉ map fst entries.
Proof.
  unfold name_to_id.
  assert (H : forall acc : gmap Key Json,
             recorded acc entries !! KStr name = None
             <-> acc !! KStr name = None /\ name ∉ map fst entries).
  { induction entries as [|[n i] entries IH]; intros acc; unfold recorded; cbn [foldl map fst snd]; fold (recorded acc).
    - split; [intros H; split; [exact H|apply not_elem_of_nil]|intros [H _]; exact H].
    - rewrite IH, not_elem_of_cons. destruct (decide (name = n)) as [->|Hne].
      + rewrite lookup_insert_eq. split; [intros [H _]; discriminate H|intros [_ [H _]]; contradiction].
      + rewrite lookup_insert_ne by congruence. tauto. }
  rewrite H. rewrite lookup_empty. tauto.
Qed.

Lemma name_to_id_holds entries name id :
  name_to_id entries !! KStr name = Some id ->
  exists i, id = JInt i /\ In (name, i) entries.
Proof.
  unfold name_to_id.
  assert (H : forall acc : gmap Key Json,
             recorded acc entries !! KStr name = Some id ->
             acc !! KStr name = Some id \/ exists i, id = JInt i /\ In (name, i) entries).
  { induction entries as [|[n i] entries IH]; intros acc; unfold recorded;
      cbn [foldl map fst snd]; fold (recorded acc).
    - intros H. left. exact H.
    - intros H. destruct (IH _ H) as [Hacc|(i' & -> & Hin)].
      + destruct (decide (name = n)) as [->|Hne].
        * rewrite lookup_insert_eq in Hacc. injection Hacc as <-.
          right. exists i. split; [reflexivity|left; reflexivity].
        * rewrite lookup_insert_ne in Hacc by congruence. left. exact Hacc.
      + right. exists i'. split; [reflexivity|right; exact Hin]. }
  intros Hl. destruct (H ∅ Hl) as [He|Hr]; [|exact Hr].
  rewrite lookup_empty in He. discriminate He.
Qed.

Lemma known_unknown_length mapping names :
  (length (known_ids mapping names) + length (unknown_names mapping names))%nat
  = length names.
Proof.
  induction names as [|n names IH]; [reflexivity|].
  cbn [known_ids unknown_names omap list_omap List.filter].
  destruct (mapping !! KStr n); cbn [length]; fold (known_ids mapping names);
    fold (unknown_names mapping names); lia.
Qed.

Lemma known_ids_in mapping names id :
  In id (known_ids mapping names) <-> exists n, In n names /\ mapping !! KStr n = Some id.
Proof.
  induction names as [|n names IH].
  - split; [intros []|intros (n & [] & _)].
  - cbn [known_ids omap list_omap]. fold (known_ids mapping names).
    destruct (mapping !! KStr n) as [j|] eqn:E.
    + cbn [In]. rewrite IH. split.
      * intros [->|(m & Hin & Hm)].
        { exists n. split; [left; reflexivity|exact E]. }
        { exists m. split; [right; exact Hin|exact Hm]. }
      * intros (m & [->|Hin] & Hm).
        { left. congruence. }
        { right. exists m. split; assumption. }
    + rewrite IH. split.
      * intros (m & Hin & Hm). exists m. split; [right; exact Hin|exact Hm].
      * intros (m & [->|Hin] & Hm).
        { congruence. }
        { exists m. split; assumption. }
Qed.

Lemma target_serves_repos org key session t :
  serves_pages_in (fun s => s = t) (target_service org) key session (repos_url org)
    (repositories t).
Proof.
  intros s page -> Hp.
  exists (respond 200 (JArr (chunk (repositories t) page))), t,
    (JArr (chunk (repositories t) page)).
  split.
  - unfold target_service, repos_url. cbn [rq_url]. rewrite target_route_path.
    reflexivity.
  - split; [reflexivity|]. split; [reflexivity|]. cbn.
    repeat split; try discriminate. left. reflexivity.
Qed.

Section TranslationFacts.

Context {Server : Type}.
Variable serve : Request -> Server -> (Response + string) * Server.
Variable render_time : Z -> string.
Variable key : string.
Variable target_org : string.

Local Abbreviation W := (World Server).
Local Abbreviation build := (build_target_repo_mapping serve render_time key target_org).
Local Abbreviation target_ids := (get_target_repository_ids serve render_time key target_org).
Local Abbreviation selected := (with_selected_repositories serve render_time key target_org).

(** A mapping that holds a repository is not built again. *)
Lemma build_target_repo_mapping_built budget (w : W) :
  target_repo_mapping w <> ∅ -> build budget w = (Ok tt, w).
Proof.
  intros Hne. unfold build_target_repo_mapping, bind, gets.
  rewrite bool_decide_eq_true_2 by exact Hne. reflexivity.
Qed.

Lemma get_target_repository_ids_after_build budget names (w w1 : W) :
  build budget w = (Ok tt, w1) ->
  target_ids budget names w
    = (Ok (known_ids (target_repo_mapping w1) names), warned names w1).
Proof.
  intros Hb. unfold get_target_repository_ids. unfold bind at 1. rewrite Hb.
  unfold bind at 1. cbn [gets]. rewrite translate_known_unknown. unfold warned.
  destruct (unknown_names (target_repo_mapping w1) names); reflexivity.
Qed.

Lemma with_selected_after_build budget what name names data (w w1 : W) :
  build budget w = (Ok tt, w1) ->
  names <> [] ->
  exists w2,
    selected budget what name "selected" names data w
      = (Ok (match known_ids (target_repo_mapping w1) names with
             | [] => dict_set "visibility" (JStr "private") data
             | ids => dict_set "selected_repository_ids" (JArr ids) data
             end), w2)
    /\ server w2 = server w1
    /\ target_repo_mapping w2 = target_repo_mapping w1
    /\ requests w2 = requests w1
    /\ (forall entry, In entry (log (warned names w1)) -> In entry (log w2)).
Proof.
  intros Hb Hne. unfold with_selected_repositories.
  change (String.eqb "selected" "selected") with true.
  destruct names as [|n names]; [contradiction|]. cbn [andb].
  unfold bind at 1. rewrite (get_target_repository_ids_after_build _ _ _ _ Hb).
  assert (Hw : server (warned (n :: names) w1) = server w1
               /\ target_repo_mapping (warned (n :: names) w1) = target_repo_mapping w1
               /\ requests (warned (n :: names) w1) = requests w1).
  { unfold warned. destruct (unknown_names _ _); repeat split. }
  destruct Hw as (Hs & Hm & Hr).
  destruct (known_ids (target_repo_mapping w1) (n :: names)) as [|i ids].
  - unfold bind, logger, modify, ret. eexists. split; [reflexivity|].
    cbn [server target_repo_mapping set_log]. repeat split; try assumption.
    intros entry Hin. cbn [log set_log]. apply in_or_app. left. exact Hin.
  - unfold ret. eexists. split; [reflexivity|]. repeat split; auto.
Qed.

End TranslationFacts.

Section SelectedOnTarget.

Variable org : string.
Variable render_time : Z -> string.
Variable key : string.

Local Abbreviation W := (World Target).
Local Abbreviation build := (build_target_repo_mapping (target_service org) render_time key org).

Lemma record_listed (entries : list (string * Z)) (w : W) :
  for_each (map listed entries) tt (fun _ repo => record_repo repo) w
    = (Ok tt, set_target_repo_mapping (recorded (target_repo_mapping w) entries) w).
Proof.
  revert w. induction entries as [|[n i] entries IH]; intros w.
  - destruct w. reflexivity.
  - cbn [map for_each]. unfold recorded. cbn [foldl fst snd].
    fold (recorded (<[KStr n := JInt i]> (target_repo_mapping w)) entries).
    unfold bind at 1.
    change (record_repo (listed (n, i)) w)
      with (Ok tt, set_target_repo_mapping (<[KStr n := JInt i]> (target_repo_mapping w)) w).
    cbv iota. rewrite IH. reflexivity.
Qed.

(** The first use of the mapping lists the repositories of the target
    and records them. *)
Lemma build_on_target budget entries (w : W) :
  repositories (server w) = map listed entries ->
  target_repo_mapping w = ∅ ->
  (length entries / 100 < budget)%nat ->
  exists w',
    build budget w = (Ok tt, w')
    /\ target_repo_mapping w' = name_to_id entries
    /\ server w' = server w
    /\ length (requests w') = (length (requests w) + (length entries / 100 + 1))%nat.
Proof.
  intros Hrepos Hmap Hb. unfold build_target_repo_mapping.
  unfold bind at 1. cbn [gets]. rewrite Hmap.
  rewrite bool_decide_eq_false_2 by (intros H; apply H; reflexivity).
  unfold bind at 1. cbn [logger modify]. set (w0 := set_log _ w).
  unfold get_organization_repositories.
  unfold bind at 1. unfold bind at 1. cbn [logger modify]. set (w1 := set_log _ w0).
  destruct (get_paginated_data_items (fun s => s = server w) (target_service org) render_time
              key target_session (repos_url org) (repositories (server w))
              (target_serves_repos org key target_session (server w)) budget w1 eq_refl)
    as (w2 & Hp & Hl & Hs & Hm).
  { rewrite Hrepos, length_map. exact Hb. }
  unfold repos_url in Hp. unfold bind at 1. rewrite Hp.
  unfold bind at 1. cbn [logger modify ret].
  unfold bind at 1. rewrite Hrepos, record_listed.
  unfold bind, gets, logger, modify.
  eexists. split; [reflexivity|].
  cbn [target_repo_mapping server set_target_repo_mapping set_log].
  split; [rewrite Hm; cbn; rewrite Hmap; reflexivity|]. split; [exact Hs|].
  unfold requests in *. cbn [trace set_target_repo_mapping set_log].
  rewrite Hl, Hrepos, !length_map. reflexivity.
Qed.

(** A target without repositories leaves the mapping empty: one page is
    listed and nothing is recorded. *)
Lemma build_on_empty_target budget (w : W) :
  repositories (server w) = [] ->
  target_repo_mapping w = ∅ ->
  exists w',
    build (S budget) w = (Ok tt, w')
    /\ target_repo_mapping w' = ∅
    /\ server w' = server w
    /\ requests w' = requests w ++ [mkRequest target_session GET (repos_url org)
                                      [("page", 1); ("per_page", per_page)] None].
Proof.
  intros Hrepos Hmap. unfold build_target_repo_mapping.
  unfold bind at 1. cbn [gets]. rewrite Hmap.
  rewrite bool_decide_eq_false_2 by (intros H; apply H; reflexivity).
  unfold bind at 1. cbn [logger modify]. set (w0 := set_log _ w).
  unfold get_organization_repositories.
  unfold bind at 1. unfold bind at 1. cbn [logger modify]. set (w1 := set_log _ w0).
  unfold _get_paginated_data. cbn [paginate]. unfold bind at 1.
  assert (Hs : target_service org
                 (mkRequest target_session GET (repos_url org)
                    [("page", 1); ("per_page", per_page)] None) (server w1)
               = (inl (respond 200 (JArr [])), server w1)).
  { unfold target_service, repos_url. cbn [rq_url]. rewrite target_route_path.
    change (server w1) with (server w). cbn. rewrite Hrepos. reflexivity. }
  unfold repos_url in Hs. unfold bind at 1.
  rewrite (make_request_quiet _ _ _ _ _ _ _ w1 _ _ 4999 0 Hs eq_refl ltac:(lia) eq_refl
             ltac:(discriminate)).
  cbn [respond status_code Z.eqb Pos.eqb negb response_json json bind ret truthy].
  cbn [logger modify for_each ret gets].
  eexists. split; [reflexivity|]. split; [exact Hmap|]. split; [reflexivity|].
  unfold requests. cbn. rewrite map_app. reflexivity.
Qed.

(** The mapping in use for an entity of the run: that of the
    repositories of the target. *)
Lemma build_during_run budget entries (w : W) :
  repositories (server w) = map listed entries ->
  target_repo_mapping w = ∅ \/ target_repo_mapping w = name_to_id entries ->
  (length entries / 100 < budget)%nat ->
  exists w',
    build budget w = (Ok tt, w')
    /\ target_repo_mapping w' = name_to_id entries
    /\ server w' = server w.
Proof.
  intros Hrepos Hmap Hb. destruct (decide (target_repo_mapping w = ∅)) as [He|Hne].
  - destruct (build_on_target budget entries w Hrepos He Hb) as (w' & H1 & H2 & H3 & _).
    exists w'. repeat split; assumption.
  - destruct Hmap as [He|Hm]; [contradiction|].
    exists w. split; [|split; [exact Hm|reflexivity]].
    apply build_target_repo_mapping_built. exact Hne.
Qed.

End SelectedOnTarget.

Section SelectedVariables.

Variable org : string.
Variable render_time : Z -> string.

Local Abbreviation W := (World Target).
Local Abbreviation target_ids :=
  (get_target_repository_ids (target_service org) render_time "variables" org).
Local Abbreviation create_variable :=
  (create_organization_variable (target_service org) render_time org).

(** The translation of the selected repositories of an organization
    variable.  Against the simulated target, whose repositories are those of
    [entries], during a run (the mapping not built yet, or built from
    [entries]): the variable is created by a POST whose payload carries
    visibility ['selected'] and exactly the ids of the names the target
    holds, in the order of the names, or visibility ['private'] when it
    holds none of them; the names the target does not hold are named in a
    warning; and the mapping is that of the target from then on. *)
Theorem selected_names_are_translated budget entries name value names session (w : W) :
  repositories (server w) = map listed entries ->
  target_repo_mapping w = ∅ \/ target_repo_mapping w = name_to_id entries ->
  (length entries / 100 < budget)%nat ->
  names <> [] ->
  variables (server w) !! name = None ->
  exists w' payload,
    create_variable budget org name value "selected" names session w = (Ok (Some true), w')
    /\ payload
       = JObj (match known_ids (name_to_id entries) names with
               | [] => [("name", JStr name); ("value", JStr value);
                        ("visibility", JStr "private")]
               | ids => [("name", JStr name); ("value", JStr value);
                         ("visibility", JStr "selected");
                         ("selected_repository_ids", JArr ids)]
               end)
    /\ last (requests w') = Some (mkRequest session POST (variables_url org) [] (Some payload))
    /\ variables (server w') !! name = Some payload
    /\ target_repo_mapping w' = name_to_id entries
    /\ (unknown_names (name_to_id entries) names <> [] ->
        In (WARNING, "Repositories not found in target org: "
                     +:+ String.concat ", " (unknown_names (name_to_id entries) names))
          (log w'))
    /\ (forall n, In n (unknown_names (name_to_id entries) names)
                  <-> In n names /\ n ∉ map fst entries)
    /\ (forall id, In id (known_ids (name_to_id entries) names)
                   -> exists n i, In n names /\ In (n, i) entries /\ id = JInt i)
    /\ (length (known_ids (name_to_id entries) names)
        + length (unknown_names (name_to_id entries) names))%nat = length names.
Proof.
  intros Hrepos Hmap Hb Hne Habsent.
  destruct (build_during_run org render_time "variables" budget entries w Hrepos Hmap Hb)
    as (w1 & Hbuild & Hm1 & Hs1).
  unfold create_organization_variable. cbv zeta.
  destruct (with_selected_after_build (target_service org) render_time "variables" org
              budget "variable" name names
              [("name", JStr name); ("value", JStr value); ("visibility", JStr "selected")]
              w w1 Hbuild Hne) as (w2 & Hsel & Hs2 & Hm2 & Hr2 & Hlog2).
  rewrite Hm1 in Hsel. unfold bind at 1. rewrite Hsel.
  set (payload := match known_ids (name_to_id entries) names with
                  | [] => dict_set "visibility" (JStr "private") _
                  | ids => dict_set "selected_repository_ids" (JArr ids) _
                  end).
  assert (Hname : assoc "name" payload = Some (JStr name)).
  { unfold payload. destruct (known_ids (name_to_id entries) names); reflexivity. }
  assert (Hpost := target_post_variable org session payload name (server w2) Hname).
  rewrite Hs2, Hs1, Habsent in Hpost. rewrite <- Hs1, <- Hs2 in Hpost.
  unfold bind at 1.
  rewrite (make_request_quiet _ _ _ _ _ _ _ w2 _ _ 4999 0 Hpost eq_refl ltac:(lia) eq_refl
             ltac:(discriminate)).
  cbn [respond status_code Z.eqb Pos.eqb]. unfold bind, logger, modify, ret.
  eexists. exists (JObj payload). split; [reflexivity|].
  split; [unfold payload; destruct (known_ids (name_to_id entries) names); reflexivity|].
  split; [unfold requests; cbn; rewrite map_app; apply last_snoc|].
  split; [cbn; apply lookup_insert_eq|].
  split; [cbn; congruence|].
  split; [|split; [|split]].
  - intros Hmiss. cbn [log set_log set_rate_limit_reset set_rate_limit_remaining set_server
                         set_trace].
    apply in_or_app. left. apply Hlog2. unfold warned. rewrite Hm1.
    destruct (unknown_names (name_to_id entries) names) as [|m ms] eqn:E; [contradiction|].
    cbn [log set_log]. apply in_or_app. right. left. reflexivity.
  - intros n. unfold unknown_names. rewrite filter_In.
    pose proof (name_to_id_lookup entries n) as Hl.
    destruct (name_to_id entries !! KStr n) as [j|]; split; intros [Hin H]; split;
      try exact Hin; try discriminate H; try reflexivity.
    + apply Hl in H. discriminate H.
    + apply Hl. reflexivity.
  - intros id Hin. apply known_ids_in in Hin. destruct Hin as (n & Hn & Hl).
    destruct (name_to_id_holds _ _ _ Hl) as (i & -> & Hi). exists n, i. auto.
  - apply known_unknown_length.
Qed.

(** C4, the cache.  The mapping counts as built only while it holds a
    repository: against a target without repositories it stays empty, and
    every translation lists the repositories of the target again; a
    mapping that holds a repository is used as it is, without a request. *)
Theorem empty_mapping_is_built_again budget names names' (w : W) :
  repositories (server w) = [] ->
  target_repo_mapping w = ∅ ->
  (exists w1 w2,
      target_ids (S budget) names w = (Ok [], w1)
      /\ target_ids (S budget) names' w1 = (Ok [], w2)
      /\ target_repo_mapping w2 = ∅
      /\ requests w2
         = requests w
           ++ [mkRequest target_session GET (repos_url org)
                 [("page", 1); ("per_page", per_page)] None;
               mkRequest target_session GET (repos_url org)
                 [("page", 1); ("per_page", per_page)] None])
  /\ (forall w0 : W,
        target_repo_mapping w0 <> ∅ ->
        requests (snd (target_ids budget names w0)) = requests w0).
Proof.
  intros Hrepos Hmap. split.
  - assert (Hcall : forall names (w : W),
               repositories (server w) = [] ->
               target_repo_mapping w = ∅ ->
               exists w1,
                 target_ids (S budget) names w = (Ok [], w1)
                 /\ target_repo_mapping w1 = ∅
                 /\ server w1 = server w
                 /\ requests w1
                    = requests w ++ [mkRequest target_session GET (repos_url org)
                                       [("page", 1); ("per_page", per_page)] None]).
    { clear. intros names w Hrepos Hmap.
      destruct (build_on_empty_target org render_time "variables" budget w Hrepos Hmap)
        as (w1 & Hb & Hm & Hs & Hr).
      rewrite (get_target_repository_ids_after_build _ _ _ _ _ _ _ _ Hb).
      assert (Hk : known_ids (target_repo_mapping w1) names = []).
      { rewrite Hm. clear. induction names as [|n names IH]; [reflexivity|].
        cbn. rewrite lookup_empty. exact IH. }
      rewrite Hk. eexists. split; [reflexivity|].
      unfold warned. destruct (unknown_names _ _); repeat split; assumption. }
    destruct (Hcall names w Hrepos Hmap) as (w1 & H1 & Hm1 & Hs1 & Hr1).
    rewrite <- Hs1 in Hrepos.
    destruct (Hcall names' w1 Hrepos Hm1) as (w2 & H2 & Hm2 & Hs2 & Hr2).
    exists w1, w2. split; [exact H1|]. split; [exact H2|]. split; [exact Hm2|].
    rewrite Hr2, Hr1, <- app_assoc. reflexivity.
  - intros w0 Hne.
    rewrite (get_target_repository_ids_after_build _ _ _ _ _ _ _ _
               (build_target_repo_mapping_built _ _ _ _ budget w0 Hne)).
    unfold warned. cbn [snd]. destruct (unknown_names _ _); reflexivity.
Qed.

End SelectedVariables.

(** The example of the specification: [API_KEY], visible to [svc-a] and
    [svc-b], goes to a target that holds [svc-a] (id 101) only. *)
Lemma selected_names_are_translated_witness :
  exists w',
    create_organization_variable (target_service "acme") (fun _ => "") "acme" 5 "acme"
      "API_KEY" "from-source" "selected" ["svc-a"; "svc-b"] target_session
      (init_world acme_target 0) = (Ok (Some true), w')
    /\ variables (server w') !! "API_KEY"
       = Some (JObj [("name", JStr "API_KEY"); ("value", JStr "from-source");
                     ("visibility", JStr "selected");
                     ("selected_repository_ids", JArr [JInt 101])])
    /\ In (WARNING, "Repositories not found in target org: svc-b") (log w').
Proof.
  destruct (selected_names_are_translated "acme" (fun _ => "") 5 [("svc-a", 101)]
              "API_KEY" "from-source" ["svc-a"; "svc-b"] target_session
              (init_world acme_target 0)
              eq_refl (or_introl eq_refl) ltac:(vm_compute; lia) ltac:(discriminate)
              eq_refl)
    as (w' & payload & Hrun & Hpay & _ & Hvar & _ & Hwarn & _).
  exists w'. split; [exact Hrun|]. split.
  - rewrite Hvar, Hpay. vm_compute. reflexivity.
  - exact (Hwarn ltac:(vm_compute; discriminate)).
Defined.

(** C4 on a target without repositories: two translations, two
    listings. *)
Lemma empty_mapping_is_built_again_witness :
  exists w1 w2,
    get_target_repository_ids (target_service "acme") (fun _ => "") "variables" "acme" 5
      ["svc-a"] (init_world empty_target 0) = (Ok [], w1)
    /\ get_target_repository_ids (target_service "acme") (fun _ => "") "variables" "acme" 5
         ["svc-b"] w1 = (Ok [], w2)
    /\ length (requests w2) = 2%nat.
Proof.
  destruct (empty_mapping_is_built_again "acme" (fun _ => "") 4 ["svc-a"] ["svc-b"]
              (init_world empty_target 0) eq_refl eq_refl)
    as ((w1 & w2 & H1 & H2 & _ & Hr) & _).
  exists w1, w2. split; [exact H1|]. split; [exact H2|]. rewrite Hr. reflexivity.
Defined.

(** The listings of a run that migrates two variables of visibility
    ['selected']: one against a target that holds a repository, two
    against a target that holds none. *)
Example listings_of_a_run :
  length (List.filter (lists_repos "acme")
            (requests (snd (migrate_variables (target_service "acme") (fun _ => "") "acme" 5
                              [mkRow "organization" "" "API_KEY" "from-source" "selected"
                                 "svc-a,svc-b" "" "";
                               mkRow "organization" "" "REGION" "eu" "selected"
                                 "svc-a" "" ""]
                              (init_world acme_target 0))))) = 1%nat
  /\ length (List.filter (lists_repos "acme")
               (requests (snd (migrate_variables (target_service "acme") (fun _ => "")
                                 "acme" 5
                                 [mkRow "organization" "" "API_KEY" "from-source" "selected"
                                    "svc-a,svc-b" "" "";
                                  mkRow "organization" "" "REGION" "eu" "selected"
                                    "svc-a" "" ""]
                                 (init_world empty_target 0))))) = 2%nat.
Proof. vm_compute. split; reflexivity. Qed.

(** ** Bypass actors *)

Section BypassActors.

Context {Server : Type}.
Variable serve : Rulesets.ApiRequest -> Server -> (Rulesets.ApiResponse + string) * Server.
Variables SOURCE_GITHUB_TOKEN TARGET_GITHUB_TOKEN ENV_GITHUB_TOKEN : option string.
Variables SOURCE_API_URL TARGET_API_URL : string.
Variables SANITIZE_BYPASS_ACTORS REMOVE_ALL_BYPASS_ACTORS : bool.

Local Abbreviation W := (Rulesets.State Server).
Local Abbreviation GITHUB_TOKEN :=
  (Rulesets.GITHUB_TOKEN SOURCE_GITHUB_TOKEN TARGET_GITHUB_TOKEN ENV_GITHUB_TOKEN).
Local Abbreviation api_request :=
  (Rulesets.make_api_request serve SOURCE_GITHUB_TOKEN TARGET_GITHUB_TOKEN ENV_GITHUB_TOKEN).
Local Abbreviation resolve_actor :=
  (Rulesets.resolve_actor serve SOURCE_GITHUB_TOKEN TARGET_GITHUB_TOKEN ENV_GITHUB_TOKEN).

(** A request that is refused, or fails, gives no response. *)
Lemma make_api_request_none method url token params body (w : W) :
  match serve (Rulesets.mkApiRequest method url (Rulesets.token_or token GITHUB_TOKEN)
                 params body) (Rulesets.server w) with
  | (inl response, _) =>
      400 <= Rulesets.status_code response < 600
  | (inr _, _) => True
  end ->
  exists w',
    api_request method url token params body w = (Ok None, w')
    /\ Rulesets.trace w'
       = Rulesets.trace w
         ++ [Rulesets.mkApiRequest method url (Rulesets.token_or token GITHUB_TOKEN)
               params body]
    /\ Rulesets.server w'
       = snd (serve (Rulesets.mkApiRequest method url (Rulesets.token_or token GITHUB_TOKEN)
                       params body) (Rulesets.server w)).
Proof.
  unfold Rulesets.make_api_request. cbn [Rulesets.server Rulesets.trace Rulesets.log].
  destruct (serve _ (Rulesets.server w)) as [[response|msg] s'].
  - intros [Hlo Hhi]. apply Z.leb_le in Hlo. apply Z.ltb_lt in Hhi. rewrite Hlo, Hhi.
    cbn [andb]. destruct (Rulesets.status_code response =? 404);
      unfold bind, Rulesets.logger, modify, ret; eexists; repeat split.
  - intros _. unfold bind, Rulesets.logger, modify, ret. eexists. repeat split.
Qed.

(** A request that is answered below 400 gives the response. *)
Lemma make_api_request_some method url token params body (w : W) response s' :
  serve (Rulesets.mkApiRequest method url (Rulesets.token_or token GITHUB_TOKEN)
           params body) (Rulesets.server w) = (inl response, s') ->
  Rulesets.status_code response < 400 ->
  api_request method url token params body w
    = (Ok (Some response),
       Rulesets.mkState s'
         (Rulesets.trace w
          ++ [Rulesets.mkApiRequest method url (Rulesets.token_or token GITHUB_TOKEN)
                params body])
         (Rulesets.log w)).
Proof.
  intros Hs Hst. unfold Rulesets.make_api_request.
  cbn [Rulesets.server Rulesets.trace Rulesets.log]. rewrite Hs.
  assert (H : (400 <=? Rulesets.status_code response) = false) by (apply Z.leb_gt; exact Hst).
  rewrite H. reflexivity.
Qed.

Section Actor.

Variables (target_org api_url : string) (token : option string).
Variable kvs : list (string * Json).
Variable details : list (string * Json).
Variable resolved_actors : list Json.

Hypothesis Hdetails : assoc "details" kvs = Some (JObj details).

Local Abbreviation bypass_mode := (dict_get_none "bypass_mode" (JObj kvs)).

Section Team.

Variable slug : string.

Hypothesis Htype : assoc "actor_type" kvs = Some (JStr "Team").
Hypothesis Hslug : assoc "slug" details = Some (JStr slug).
Hypothesis Hslug_ne : slug <> "".

Local Abbreviation probe :=
  (team_probe api_url target_org slug (Rulesets.token_or token GITHUB_TOKEN)).

Lemma details_truthy : truthy (JObj details) = true.
Proof. destruct details; [discriminate Hslug|reflexivity]. Qed.

(** A team whose probe gets no response is dropped. *)
Lemma team_without_counterpart (w : W) :
  match serve probe (Rulesets.server w) with
  | (inl response, _) => 400 <= Rulesets.status_code response < 600
  | (inr _, _) => True
  end ->
  exists w',
    resolve_actor target_org token api_url resolved_actors (JObj kvs) w
      = (Ok resolved_actors, w')
    /\ Rulesets.trace w' = Rulesets.trace w ++ [probe]
    /\ Rulesets.server w' = snd (serve probe (Rulesets.server w)).
Proof.
  intros Hprobe. unfold Rulesets.resolve_actor, Rulesets.get_attr.
  unfold dict_get, member. rewrite Htype, Hdetails.
  rewrite !bind_ret_l. rewrite details_truthy. cbn [negb is_str].
  change (String.eqb "Team" "Team") with true. cbv iota.
  unfold Rulesets.find_existing_team_in_target, Rulesets.get_attr.
  unfold dict_get, member. rewrite Hslug. rewrite bind_ret_l. cbn [truthy py_str].
  apply String.eqb_neq in Hslug_ne. rewrite Hslug_ne. cbn [negb].
  destruct (make_api_request_none GET
              (api_url +:+ "/orgs/" +:+ target_org +:+ "/teams/" +:+ slug) token [] None w
              Hprobe) as (w1 & Hreq & Htr & Hsrv).
  unfold bind at 1. unfold bind at 1. rewrite Hreq.
  unfold bind, Rulesets.logger, modify, ret. cbn [truthy].
  eexists. split; [reflexivity|]. cbn [Rulesets.trace Rulesets.server].
  split; assumption.
Qed.

(** A team whose probe is answered is resolved to the id of the
    answer. *)
Lemma team_with_counterpart (w : W) response s' team id :
  serve probe (Rulesets.server w) = (inl response, s') ->
  Rulesets.status_code response < 400 ->
  Rulesets.json response = inl (JObj team) ->
  assoc "id" team = Some id ->
  truthy id = true ->
  exists w',
    resolve_actor target_org token api_url resolved_actors (JObj kvs) w
      = (Ok (resolved_actors ++ [resolved_actor id "Team" bypass_mode]), w')
    /\ Rulesets.trace w' = Rulesets.trace w ++ [probe]
    /\ Rulesets.server w' = s'.
Proof.
  intros Hs Hst Hjson Hid Htruthy. unfold Rulesets.resolve_actor, Rulesets.get_attr.
  unfold dict_get_none, dict_get, member. rewrite Htype, Hdetails.
  rewrite !bind_ret_l. rewrite details_truthy. cbn [negb is_str].
  change (String.eqb "Team" "Team") with true. cbv iota.
  unfold Rulesets.find_existing_team_in_target, Rulesets.get_attr.
  unfold dict_get, member. rewrite Hslug. rewrite bind_ret_l. cbn [truthy py_str].
  apply String.eqb_neq in Hslug_ne. rewrite Hslug_ne. cbn [negb].
  unfold bind at 1. unfold bind at 1.
  rewrite (make_api_request_some GET _ token [] None w response s' Hs Hst).
  unfold Rulesets.response_json. rewrite Hjson. cbn [bind ret subscript]. rewrite Hid.
  unfold bind, Rulesets.logger, modify, ret. rewrite Htruthy.
  eexists. split; [reflexivity|]. split; reflexivity.
Qed.

End Team.

(** A repository role is passed through with its id, without a
    request. *)
Lemma repository_role_passes (w : W) original_id :
  assoc "actor_type" kvs = Some (JStr "RepositoryRole") ->
  details <> [] ->
  assoc "original_actor_id" kvs = Some original_id ->
  truthy original_id = true ->
  exists w',
    resolve_actor target_org token api_url resolved_actors (JObj kvs) w
      = (Ok (resolved_actors ++ [resolved_actor original_id "RepositoryRole" bypass_mode]),
         w')
    /\ Rulesets.trace w' = Rulesets.trace w
    /\ Rulesets.server w' = Rulesets.server w.
Proof.
  intros Htype Hne Hid Htruthy. unfold Rulesets.resolve_actor, Rulesets.get_attr.
  unfold dict_get_none, dict_get, member. rewrite Htype, Hdetails, Hid.
  cbn [bind ret].
  assert (Ht : truthy (JObj details) = true) by (destruct details; [contradiction|reflexivity]).
  rewrite Ht. cbn [negb is_str].
  change (String.eqb "RepositoryRole" "Team") with false.
  change (String.eqb "RepositoryRole" "User") with false.
  change (String.eqb "RepositoryRole" "RepositoryRole") with true. cbv iota.
  cbn [bind ret]. rewrite Htruthy.
  unfold bind, Rulesets.logger, modify, ret.
  eexists. split; [reflexivity|]. split; reflexivity.
Qed.

End Actor.

(** The import of the rulesets of a repository reads, and posts
    rulesets to the repository: it creates nothing else. *)
Lemma import_posts_rulesets_only org repo rulesets_to_create source_org source_repo :
  adds (@Rulesets.trace Server) (reads_or_posts_ruleset TARGET_API_URL org repo)
    (Rulesets.import_rulesets_for_repo serve SOURCE_GITHUB_TOKEN TARGET_GITHUB_TOKEN
       ENV_GITHUB_TOKEN TARGET_API_URL SANITIZE_BYPASS_ACTORS REMOVE_ALL_BYPASS_ACTORS
       org repo rulesets_to_create source_org source_repo).
Proof.
  set (P := reads_or_posts_ruleset TARGET_API_URL org repo).
  assert (Hget : forall token api_url suffix params,
             (fun (_ : option string) (_ : string) => True) token api_url ->
             P (Rulesets.mkApiRequest GET (api_url +:+ suffix)
                  (Rulesets.token_or token GITHUB_TOKEN) params None))
    by (intros; left; reflexivity).
  pose proof (adds_check_existing_rulesets serve SOURCE_GITHUB_TOKEN TARGET_GITHUB_TOKEN
                ENV_GITHUB_TOKEN P _ Hget) as H1.
  pose proof (adds_resolve_bypass_actors_for_target serve SOURCE_GITHUB_TOKEN
                TARGET_GITHUB_TOKEN ENV_GITHUB_TOKEN P _ Hget) as H2.
  pose proof (adds_sanitize_bypass_actors (Server:=Server) SANITIZE_BYPASS_ACTORS
                REMOVE_ALL_BYPASS_ACTORS P) as H3.
  pose proof (@adds_rulesets_logger Server P) as H4.
  pose proof (@adds_rulesets_len_of Server P) as H5.
  pose proof (@adds_rulesets_get_attr Server P) as H6.
  pose proof (@adds_rulesets_response_json Server P) as H7.
  pose proof (@adds_rulesets_subscript Server P) as H8.
  unfold Rulesets.import_rulesets_for_repo.
  adds_step; [apply H4|]. adds_step; [apply H1; exact I|].
  adds_step. unfold Rulesets.import_ruleset.
  adds_auto; try (apply H2; exact I);
    apply adds_make_api_request; right; split; reflexivity.
Qed.


End BypassActors.


(** The import of the ruleset of the example: the ruleset is posted
    with the team [platform] under its id in the target and the role
    [admin]; the team [ghosts] is not among its actors, and nothing but
    the ruleset is posted. *)
Example guarded_ruleset_import :
  Rulesets.trace
    (snd (Rulesets.import_rulesets_for_repo
            (team_directory [("platform", JInt 7)] "https://api.github.com" "acme-new")
            None (Some "t") None "https://api.github.com" true false
            "acme-new" "svc-a" [guarded_ruleset] (Some "acme") (Some "svc-a")
            (Rulesets.init_state tt)))
  = [Rulesets.mkApiRequest GET "https://api.github.com/repos/acme-new/svc-a/rulesets"
       (Some "t") [("include_parents", JStr "false")] None;
     team_probe "https://api.github.com" "acme-new" "platform" (Some "t");
     team_probe "https://api.github.com" "acme-new" "ghosts" (Some "t");
     Rulesets.mkApiRequest POST "https://api.github.com/repos/acme-new/svc-a/rulesets"
       (Some "t") []
       (Some (JObj [("name", JStr "main-protection"); ("target", JStr "branch");
                    ("enforcement", JStr "active");
                    ("bypass_actors",
                     JArr [resolved_actor (JInt 7) "Team" (JStr "always");
                           resolved_actor (JInt 5) "RepositoryRole"
                             (JStr "pull_request")])]))].
Proof. vm_compute. reflexivity. Qed.

(** ** Webhooks are deduplicated by URL *)

Section WebhookImport.

Context {Server : Type}.
Variable serve : Webhooks.Call -> Server -> (Webhooks.Reply + Exn) * Server.
Variables source_org target_org now : string.

Local Abbreviation W := (Webhooks.State Server).
Local Abbreviation import_webhook :=
  (Webhooks.import_webhook serve source_org target_org now).

(** The set of the URLs of the hooks of the target. *)
Lemma url_set_members hooks (acc : gset Key) (w : W) :
  Forall listed_hook hooks ->
  exists existing,
    Webhooks.url_set hooks acc w = (Ok existing, w)
    /\ forall k, k ∈ existing
                 <-> k ∈ acc \/ exists hook, In hook hooks /\ to_key (hook_url hook) = Some k.
Proof.
  intros Hhooks. revert acc. induction Hhooks as [|h hooks [Hdict [k Hk]] _ IH]; intros acc.
  - exists acc. split; [reflexivity|]. intros k. split; [auto|].
    intros [H|(h & [] & _)]. exact H.
  - cbn [Webhooks.url_set]. unfold Webhooks.config_get, Rulesets.get_attr.
    unfold hook_url in Hk. destruct (Webhooks.config h) as [| | | | |kvs] eqn:Ec;
      try discriminate Hdict.
    rewrite bind_ret_l, Hk.
    destruct (IH ({[k]} ∪ acc)) as (existing & Hrun & Hmem).
    exists existing. split; [exact Hrun|]. intros k'. rewrite Hmem.
    rewrite elem_of_union, elem_of_singleton. split.
    + intros [[->|H]|(h' & Hin & Hk')].
      * right. exists h. split; [left; reflexivity|]. unfold hook_url. rewrite Ec. exact Hk.
      * left. exact H.
      * right. exists h'. split; [right; exact Hin|exact Hk'].
    + intros [H|(h' & [<-|Hin] & Hk')].
      * left. right. exact H.
      * left. left. unfold hook_url in Hk'. rewrite Ec in Hk'. congruence.
      * right. exists h'. split; assumption.
Qed.

Lemma url_among_members hooks webhook k :
  to_key (Webhooks.wh_url webhook) = Some k ->
  url_among hooks webhook = true
  <-> exists hook, In hook hooks /\ to_key (hook_url hook) = Some k.
Proof.
  intros Hk. unfold url_among. rewrite existsb_exists. rewrite Hk.
  split; intros (hook & Hin & H); exists hook; split; try exact Hin.
  - apply bool_decide_eq_true_1 in H. exact H.
  - apply bool_decide_eq_true_2. exact H.
Qed.

Section Loop.

Variables source_repo target_repo : string.
Variable gh_repo : Webhooks.Api * string.
Variable existing : gset Key.
Variable hooks : list Webhooks.Hook.

Hypothesis Hexisting : forall k,
  k ∈ existing <-> exists hook, In hook hooks /\ to_key (hook_url hook) = Some k.

(** PyGithub raises [GithubException]. *)
Hypothesis Hraises : forall c s e s',
  serve c s = (inr e, s') -> exists status msg, e = GithubException status msg.

Lemma member_is_among webhook k :
  to_key (Webhooks.wh_url webhook) = Some k ->
  bool_decide (k ∈ existing) = url_among hooks webhook.
Proof.
  intros Hk. pose proof (url_among_members hooks webhook k Hk) as H.
  destruct (url_among hooks webhook).
  - apply bool_decide_eq_true_2. apply Hexisting. apply H. reflexivity.
  - apply bool_decide_eq_false_2. intros Hin. apply Hexisting in Hin.
    apply H in Hin. discriminate Hin.
Qed.

(** One webhook of the export. *)
Lemma import_one webhook (w : W) :
  is_Some (to_key (Webhooks.wh_url webhook)) ->
  exists w' result,
    import_webhook source_repo target_repo gh_repo existing webhook w = (Ok tt, w')
    /\ Webhooks.trace w'
       = Webhooks.trace w
         ++ (if url_among hooks webhook then [] else [create_call gh_repo webhook])
    /\ Webhooks.migration_results w' = Webhooks.migration_results w ++ [result]
    /\ recorded_for source_org target_org now source_repo target_repo hooks webhook result.
Proof.
  intros [k Hk]. unfold Webhooks.import_webhook. rewrite Hk.
  rewrite (member_is_among webhook k Hk). unfold recorded_for.
  destruct (url_among hooks webhook).
  - unfold bind, Webhooks.logging, Webhooks._add_migration_result, modify.
    eexists. eexists. split; [reflexivity|]. cbn [Webhooks.trace Webhooks.migration_results].
    split; [rewrite app_nil_r; reflexivity|]. split; reflexivity.
  - unfold try_except, bind at 1, Webhooks.call. cbn [Webhooks.server].
    fold (create_call gh_repo webhook).
    destruct (serve (create_call gh_repo webhook) (Webhooks.server w)) as [[reply|e] s']
      eqn:Es.
    + unfold bind, Webhooks.logging, Webhooks._add_migration_result, modify.
      eexists. eexists. split; [reflexivity|].
      cbn [Webhooks.trace Webhooks.migration_results].
      split; [reflexivity|]. split; [reflexivity|]. left. reflexivity.
    + destruct (Hraises _ _ _ _ Es) as (status & msg & ->).
      unfold bind, Webhooks.logging, Webhooks._add_migration_result, modify.
      eexists. eexists. split; [reflexivity|].
      cbn [Webhooks.trace Webhooks.migration_results].
      split; [reflexivity|]. split; [reflexivity|]. right. eexists. reflexivity.
Qed.

(** The loop over the webhooks of a repository. *)
Lemma import_loop webhooks (w : W) :
  Forall (fun webhook => is_Some (to_key (Webhooks.wh_url webhook))) webhooks ->
  exists w' results,
    for_each webhooks tt
      (fun _ webhook => import_webhook source_repo target_repo gh_repo existing webhook) w
      = (Ok tt, w')
    /\ Webhooks.trace w'
       = Webhooks.trace w
         ++ map (create_call gh_repo)
              (List.filter (fun webhook => negb (url_among hooks webhook)) webhooks)
    /\ Webhooks.migration_results w' = Webhooks.migration_results w ++ results
    /\ Forall2 (recorded_for source_org target_org now source_repo target_repo hooks)
         webhooks results.
Proof.
  intros Hkeys. revert w. induction Hkeys as [|webhook webhooks Hk _ IH]; intros w.
  - exists w, []. cbn. rewrite !app_nil_r. repeat split. constructor.
  - destruct (import_one webhook w Hk) as (w1 & result & Hrun & Htr & Hres & Hrec).
    destruct (IH w1) as (w' & results & Hrun' & Htr' & Hres' & Hrec').
    exists w', (result :: results). cbn [for_each]. unfold bind at 1. rewrite Hrun.
    split; [exact Hrun'|]. split; [|split].
    + rewrite Htr', Htr. cbn [List.filter].
      destruct (url_among hooks webhook); cbn [negb map];
        rewrite <- app_assoc; reflexivity.
    + rewrite Hres', Hres, <- app_assoc. reflexivity.
    + constructor; assumption.
Qed.

End Loop.

(** C10.  The import of the webhooks of a repository, when the target
    repository is found and lists [hooks]: the calls are the two reads and
    then one [create_hook] (name [web], the exported URL, content type and
    insecure-ssl setting, the exported events and active flag) for each
    exported webhook whose URL is not the URL of one of [hooks], in the
    order of the export, and no call for the others; and one record is
    added per exported webhook, SKIPPED when its URL is the URL of one of
    [hooks], whatever the events, content type, insecure-ssl setting and
    active flag of that hook, and else SUCCESS or FAILED.  The hooks are
    those listed once, before the first webhook is imported. *)
Theorem webhooks_are_deduplicated_by_url source_repo target_repo hooks webhooks
    (w : W) s1 s2 :
  webhooks <> [] ->
  serve (Webhooks.GetRepo Webhooks.target_github_api (target_org +:+ "/" +:+ target_repo))
    (Webhooks.server w) = (inl Webhooks.Repository, s1) ->
  serve (Webhooks.GetHooks Webhooks.target_github_api (target_org +:+ "/" +:+ target_repo))
    s1 = (inl (Webhooks.Hooks hooks), s2) ->
  Forall listed_hook hooks ->
  (forall c s e s',
      serve c s = (inr e, s') -> exists status msg, e = GithubException status msg) ->
  Forall (fun webhook => is_Some (to_key (Webhooks.wh_url webhook))) webhooks ->
  exists w' results,
    Webhooks.import_repository serve source_org target_org now
      (source_repo, (target_repo, webhooks)) w = (Ok tt, w')
    /\ Webhooks.trace w'
       = Webhooks.trace w
         ++ [Webhooks.GetRepo Webhooks.target_github_api
               (target_org +:+ "/" +:+ target_repo);
             Webhooks.GetHooks Webhooks.target_github_api
               (target_org +:+ "/" +:+ target_repo)]
         ++ map (create_call (Webhooks.target_github_api,
                              target_org +:+ "/" +:+ target_repo))
              (List.filter (fun webhook => negb (url_among hooks webhook)) webhooks)
    /\ Webhooks.migration_results w' = Webhooks.migration_results w ++ results
    /\ Forall2 (recorded_for source_org target_org now source_repo target_repo hooks)
         webhooks results.
Proof.
  intros Hne Hrepo Hhooks Hlisted Hraises Hkeys.
  unfold Webhooks.import_repository. cbn [fst snd].
  destruct webhooks as [|webhook rest] eqn:Ew; [contradiction|]. rewrite <- Ew in *.
  unfold Webhooks._get_repository. unfold bind at 1. unfold bind at 1.
  cbn [Webhooks.logging modify]. unfold try_except, bind at 1, Webhooks.call.
  cbn [Webhooks.server Webhooks.trace Webhooks.log Webhooks.migration_results].
  rewrite Hrepo. unfold bind at 1. cbn [Webhooks.logging modify ret].
  unfold Webhooks.get_hooks. cbn [fst snd]. unfold bind at 1. unfold bind at 1.
  unfold Webhooks.call.
  cbn [Webhooks.server Webhooks.trace Webhooks.log Webhooks.migration_results].
  rewrite Hhooks. cbn [ret].
  match goal with
  | |- context [bind (Webhooks.url_set hooks ∅) _ ?w0] =>
      destruct (url_set_members hooks ∅ w0 Hlisted) as (existing & Hset & Hmem);
      set (w2 := w0) in *
  end.
  unfold bind at 1. rewrite Hset. unfold bind at 1. cbn [Webhooks.logging modify].
  assert (Hexisting : forall k,
             k ∈ existing
             <-> exists hook, In hook hooks /\ to_key (hook_url hook) = Some k).
  { intros k. rewrite Hmem. split; [intros [H|H]; [|exact H]|intros H; right; exact H].
    apply not_elem_of_empty in H. contradiction. }
  match goal with
  | |- context [for_each _ tt _ ?w0] =>
      destruct (import_loop source_repo target_repo
                  (Webhooks.target_github_api, target_org +:+ "/" +:+ target_repo)
                  existing hooks Hexisting Hraises webhooks w0 Hkeys)
        as (w' & results & Hrun & Htr & Hres & Hrec)
  end.
  exists w', results. split; [exact Hrun|]. split; [|split; assumption].
  rewrite Htr. cbn [Webhooks.trace]. unfold w2. cbn [Webhooks.trace].
  rewrite <- !app_assoc. reflexivity.
Qed.

End WebhookImport.

(** C10 on an example: the target holds a hook for
    [https://ci.example/hook] that differs from the exported one in its
    events, content type, insecure-ssl setting and active flag; the
    exported webhook of that URL is skipped, the other one is created. *)
Lemma webhooks_are_deduplicated_by_url_witness :
  exists w',
    Webhooks.import_repository hook_store "acme" "acme-new" "2026-01-01 00:00:00"
      ("svc-a", ("svc-a",
                 [Webhooks.mkWebhook (JStr "https://ci.example/hook") (JStr "json") (JStr "0")
                    (JArr [JStr "push"]) true;
                  Webhooks.mkWebhook (JStr "https://chat.example/hook") (JStr "json")
                    (JStr "0") (JArr [JStr "push"]) true]))
      (Webhooks.init_state
         [Webhooks.mkHook
            (JObj [("url", JStr "https://ci.example/hook"); ("content_type", JStr "form");
                   ("insecure_ssl", JStr "1")])
            (JArr [JStr "issues"]) false]) = (Ok tt, w')
    /\ Webhooks.trace w'
       = [Webhooks.GetRepo Webhooks.target_github_api "acme-new/svc-a";
          Webhooks.GetHooks Webhooks.target_github_api "acme-new/svc-a";
          Webhooks.CreateHook Webhooks.target_github_api "acme-new/svc-a" "web"
            [("url", JStr "https://chat.example/hook"); ("content_type", JStr "json");
             ("insecure_ssl", JStr "0")] (JArr [JStr "push"]) true]
    /\ map Webhooks.r_status (Webhooks.migration_results w') = ["SKIPPED"; "SUCCESS"].
Proof.
  set (ci := Webhooks.mkWebhook (JStr "https://ci.example/hook") (JStr "json") (JStr "0")
               (JArr [JStr "push"]) true).
  set (chat := Webhooks.mkWebhook (JStr "https://chat.example/hook") (JStr "json")
                 (JStr "0") (JArr [JStr "push"]) true).
  set (held := Webhooks.mkHook
                 (JObj [("url", JStr "https://ci.example/hook");
                        ("content_type", JStr "form"); ("insecure_ssl", JStr "1")])
                 (JArr [JStr "issues"]) false).
  destruct (webhooks_are_deduplicated_by_url hook_store "acme" "acme-new"
              "2026-01-01 00:00:00" "svc-a" "svc-a" [held] [ci; chat]
              (Webhooks.init_state [held]) [held] [held]
              ltac:(discriminate) eq_refl eq_refl)
    as (w' & results & Hrun & Htr & Hres & Hrec).
  - repeat constructor. eexists. reflexivity.
  - intros c s e s' H. destruct c; discriminate H.
  - repeat constructor; eexists; reflexivity.
  - exists w'. split; [exact Hrun|]. split; [exact Htr|].
    replace w' with (snd (Webhooks.import_repository hook_store "acme" "acme-new"
                            "2026-01-01 00:00:00" ("svc-a", ("svc-a", [ci; chat]))
                            (Webhooks.init_state [held])))
      by (rewrite Hrun; reflexivity).
    vm_compute. reflexivity.
Defined.

(** ** The collector of the inventory script is bounded *)

Section ReposPagination.

Context {Server : Type}.
Variable serve : Repos.ApiRequest -> Server -> (Repos.ApiResponse + string) * Server.

Local Abbreviation W := (Repos.State Server).

(** A request returns after at most as many GETs as it has attempts. *)
Lemma attempts_return remaining attempt url token params (w : W) :
  exists result w',
    Repos.attempts serve remaining attempt url token params w = (Ok result, w')
    /\ (length (Repos.trace w') <= length (Repos.trace w) + remaining)%nat.
Proof.
  revert attempt w. induction remaining as [|remaining IH]; intros attempt w.
  - exists JNull, w. split; [reflexivity|lia].
  - cbn [Repos.attempts]. unfold bind at 1, try_except, bind at 1, Repos.requests_get.
    assert (Hnext : forall (w1 : W),
               length (Repos.trace w1) = S (length (Repos.trace w)) ->
               exists result w',
                 Repos.attempts serve remaining (attempt + 1) url token params w1
                   = (Ok result, w')
                 /\ (length (Repos.trace w') <= length (Repos.trace w) + S remaining)%nat).
    { intros w1 Hw1. destruct (IH (attempt + 1) w1) as (result & w' & Hrun & Hl).
      exists result, w'. split; [exact Hrun|lia]. }
    assert (Hlen : forall (s' : Server) c l,
               length (Repos.trace (Repos.mkState s' c (Repos.trace w ++ [Repos.mkApiRequest
                         url token params]) l)) = S (length (Repos.trace w))).
    { intros. cbn. rewrite length_app. cbn. lia. }
    destruct (serve _ (Repos.server w)) as [[response|msg] s'].
    + destruct (Repos.status_code response =? 200).
      * unfold Repos.response_json. destruct (Repos.json response) as [j|msg].
        -- cbn. eexists. eexists. split; [reflexivity|]. cbn. rewrite length_app. cbn. lia.
        -- unfold bind, raise, Repos.logger, modify.
           destruct (attempt <? Repos.max_retries - 1).
           ++ unfold Repos.sleep, modify, ret. apply Hnext. apply Hlen.
           ++ unfold ret. eexists. eexists. split; [reflexivity|]. rewrite Hlen. lia.
      * destruct (Repos.status_code response =? 403).
        -- unfold bind, Repos.logger, Repos.sleep, modify, ret. apply Hnext. apply Hlen.
        -- destruct (Repos.status_code response =? 404);
             unfold bind, Repos.logger, modify, ret;
             eexists; eexists; (split; [reflexivity|]); rewrite Hlen; lia.
    + unfold bind, Repos.logger, modify.
      destruct (attempt <? Repos.max_retries - 1).
      * unfold Repos.sleep, modify, ret. apply Hnext. apply Hlen.
      * unfold ret. eexists. eexists. split; [reflexivity|]. rewrite Hlen. lia.
Qed.

(** From [page] on, the collector is done after at most [101 - page]
    pages. *)
Lemma paginated_from_returns budget url token params page all_items (w : W) :
  page <= 100 ->
  (Z.to_nat (101 - page) <= budget)%nat ->
  exists outcome w',
    Repos.paginated_from serve budget url token params page all_items w = (outcome, w')
    /\ outcome <> Unfinished
    /\ (length (Repos.trace w') <= length (Repos.trace w) + 3 * Z.to_nat (101 - page))%nat.
Proof.
  revert page all_items w. induction budget as [|budget IH]; intros page all_items w Hp Hb;
    [lia|].
  cbn [Repos.paginated_from]. unfold Repos._make_github_request.
  destruct (attempts_return (Z.to_nat Repos.max_retries) 0 url token
              (dict_set "page" (JInt page) (dict_set "per_page" (JInt per_page) params)) w)
    as (items & w1 & Hrun & Hl).
  change (Z.to_nat Repos.max_retries) with 3%nat in *.
  unfold bind at 1. rewrite Hrun.
  assert (Hdone : forall (outcome : Outcome (list Json)),
             outcome <> Unfinished ->
             exists outcome' w',
               (outcome, w1) = (outcome', w')
               /\ outcome' <> Unfinished
               /\ (length (Repos.trace w') <= length (Repos.trace w)
                                              + 3 * Z.to_nat (101 - page))%nat).
  { intros outcome Ho. exists outcome, w1. split; [reflexivity|]. split; [exact Ho|lia]. }
  destruct (negb (truthy items)); [apply Hdone; discriminate|].
  unfold bind at 1. unfold Repos.len. destruct (py_iter items) as [l|] eqn:El;
    [|apply Hdone; discriminate].
  cbn [ret]. destruct (Z.of_nat (length l) =? 0); [apply Hdone; discriminate|].
  unfold bind at 1. unfold iterate. rewrite El. cbn [ret].
  destruct (Z.of_nat (length l) <? per_page); [apply Hdone; discriminate|].
  destruct (page + 1 >? 100) eqn:Elt.
  - unfold bind, Repos.logger, modify, ret. eexists. eexists. split; [reflexivity|].
    split; [discriminate|]. cbn [Repos.trace]. lia.
  - assert (page + 1 <= 100) by lia.
    destruct (IH (page + 1) (all_items ++ l) w1 ltac:(lia) ltac:(lia))
      as (outcome & w' & Hrun' & Ho & Hl').
    exists outcome, w'. split; [exact Hrun'|]. split; [exact Ho|]. lia.
Qed.

End ReposPagination.

(** Against a source of full pages the collector stops at page 100 with
    a warning. *)
Lemma paginated_from_endless (n budget : nat) url token params all_items
    (w : Repos.State unit) :
  (n < 100)%nat ->
  (S n <= budget)%nat ->
  exists items w',
    Repos.paginated_from endless_items budget url token params (100 - Z.of_nat n)
      all_items w = (Ok (all_items ++ items), w')
    /\ length items = (100 * S n)%nat
    /\ length (Repos.trace w') = (length (Repos.trace w) + S n)%nat
    /\ Repos.log w'
       = Repos.log w ++ [(WARNING, "Reached pagination limit for " +:+ url)].
Proof.
  revert budget all_items w. induction n as [|n IH]; intros budget all_items w Hn Hb;
    (destruct budget as [|budget]; [lia|]); cbn [Repos.paginated_from].
  - unfold bind at 1. cbn. eexists. eexists. split; [reflexivity|].
    split; [reflexivity|]. split; [cbn [Repos.trace]; rewrite length_app; cbn; lia|reflexivity].
  - unfold bind at 1.
    set (page := 100 - Z.of_nat (S n)) in *.
    change (Repos._make_github_request endless_items url token
              (dict_set "page" (JInt page) (dict_set "per_page" (JInt per_page) params)) w)
      with (Ok (JArr (replicate 100
                        (JObj [("page", dict_get_none "page"
                                          (JObj (dict_set "page" (JInt page)
                                                   (dict_set "per_page" (JInt per_page)
                                                      params))))]))),
            Repos.mkState tt (Repos.clock w)
              (Repos.trace w
               ++ [Repos.mkApiRequest url token
                     (dict_set "page" (JInt page) (dict_set "per_page" (JInt per_page)
                                                     params))])
              (Repos.log w)).
    cbv iota. set (items := replicate 100 _).
    change (truthy (JArr items)) with true. cbn [negb].
    unfold bind at 1. unfold Repos.len. cbn [py_iter ret].
    assert (Hlen : length items = 100%nat) by apply length_replicate.
    rewrite Hlen. change (Z.of_nat 100 =? 0) with false.
    change (Z.of_nat 100 <? per_page) with false. cbv iota.
    unfold bind at 1. cbn [iterate py_iter ret].
    assert (Hpage : (page + 1 >? 100) = false).
    { unfold page. rewrite Z.gtb_ltb. apply Z.ltb_ge. lia. }
    rewrite Hpage.
    replace (page + 1) with (100 - Z.of_nat n) by (unfold page; lia).
    match goal with
    | |- context [Repos.paginated_from _ _ _ _ _ _ _ ?w0] =>
        destruct (IH budget (all_items ++ items) w0 ltac:(lia) ltac:(lia))
          as (more & w' & Hrun & Hl & Htr & Hlog)
    end.
    exists (items ++ more), w'. rewrite app_assoc. split; [exact Hrun|].
    split; [rewrite length_app, Hlen, Hl; lia|].
    split; [rewrite Htr; cbn [Repos.trace]; rewrite length_app; cbn; lia|exact Hlog].
Qed.

(** The collector [_get_all_paginated_items] of the inventory script has
    the bound: whatever the service answers it is done after at most 100
    pages (300 requests, three attempts to a page), and against a source
    that answers every page request with a full page it returns the
    10,000 items of 100 pages after 100 requests and logs the warning
    [Reached pagination limit for {url}]. *)
Theorem get_all_paginated_items_is_bounded {Server}
    (serve : Repos.ApiRequest -> Server -> (Repos.ApiResponse + string) * Server)
    (budget : nat) (url token : string) (params : list (string * Json))
    (w : Repos.State Server) (v : Repos.State unit) :
  (100 <= budget)%nat ->
  (exists outcome w',
      Repos._get_all_paginated_items serve budget url token params w = (outcome, w')
      /\ outcome <> Unfinished
      /\ (length (Repos.trace w') <= length (Repos.trace w) + 300)%nat)
  /\ (exists items v',
        Repos._get_all_paginated_items endless_items budget url token params v
          = (Ok items, v')
        /\ length items = (100 * 100)%nat
        /\ length (Repos.trace v') = (length (Repos.trace v) + 100)%nat
        /\ Repos.log v'
           = Repos.log v ++ [(WARNING, "Reached pagination limit for " +:+ url)]).
Proof.
  intros Hb. unfold Repos._get_all_paginated_items. split.
  - destruct (paginated_from_returns serve budget url token params 1 [] w ltac:(lia)
                ltac:(lia)) as (outcome & w' & Hrun & Ho & Hl).
    exists outcome, w'. split; [exact Hrun|]. split; [exact Ho|].
    change (3 * Z.to_nat (101 - 1))%nat with 300%nat in Hl. exact Hl.
  - destruct (paginated_from_endless 99 budget url token params [] v ltac:(lia) ltac:(lia))
      as (items & v' & Hrun & Hl & Htr & Hlog).
    exists items, v'. split; [exact Hrun|]. split; [exact Hl|]. split; [exact Htr|exact Hlog].
Qed.

(** The bound, on an endless listing of issues. *)
Lemma get_all_paginated_items_is_bounded_witness :
  exists items v',
    Repos._get_all_paginated_items endless_items 100
      "https://api.github.com/repos/acme/svc-a/issues" "t" [("state", JStr "all")]
      (Repos.init_state tt) = (Ok items, v')
    /\ length items = (100 * 100)%nat
    /\ length (Repos.trace v') = 100%nat
    /\ Repos.log v'
       = [(WARNING,
           "Reached pagination limit for https://api.github.com/repos/acme/svc-a/issues")].
Proof.
  exact (proj2 (get_all_paginated_items_is_bounded endless_items 100
                  "https://api.github.com/repos/acme/svc-a/issues" "t"
                  [("state", JStr "all")] (Repos.init_state tt) (Repos.init_state tt)
                  ltac:(lia))).
Defined.

(** * Further properties of the code *)

(** ** The rate limit: the cases without a wait, and the failures *)

Section RateLimitEdges.

Context {Server : Type}.
Variable serve : Request -> Server -> (Response + string) * Server.
Variable render_time : Z -> string.

Local Abbreviation W := (World Server).

Lemma int_header_value (h : Header) z (w : W) :
  header_value h = Some z -> int_header h w = (Ok z, w).
Proof. destruct h; cbn; intros [= <-]; reflexivity. Qed.



(** A rate-limit header that is not a number makes [_make_request] raise
    [ValueError] after the request has been served: the service is in the
    state the request left it in, and nothing is logged. *)
Theorem malformed_header_raises_after_the_request session method url params body (w : W)
    response s' raw :
  serve (mkRequest session method url params body) (server w) = (inl response, s') ->
  ratelimit_remaining response = Malformed raw
  \/ (header_value (ratelimit_remaining response) <> None
      /\ ratelimit_reset response = Malformed raw) ->
  exists w',
    _make_request serve render_time session method url params body w
      = (Raise (ValueError ("invalid literal for int() with base 10: '" +:+ raw +:+ "'")),
         w')
    /\ server w' = s'
    /\ requests w' = requests w ++ [mkRequest session method url params body]
    /\ log w' = log w
    /\ clock w' = clock w.
Proof.
  intros Hs Hbad.
  unfold _make_request, try_except, session_request, bind.
  cbn [server set_trace]. rewrite Hs.
  unfold _handle_rate_limit, bind.
  destruct Hbad as [Hrem|[Hrem Hreset]].
  - rewrite Hrem. cbn [int_header raise]. eexists. split; [reflexivity|].
    unfold requests. cbn. rewrite map_app. repeat split.
  - destruct (ratelimit_remaining response) as [|r|raw'] eqn:Er;
      [| |exfalso; apply Hrem; reflexivity];
      rewrite Hreset; cbn [int_header ret modify raise];
      (eexists; split; [reflexivity|]); unfold requests; cbn; rewrite map_app;
      repeat split.
Qed.

End RateLimitEdges.



(** A header [X-RateLimit-Remaining: many] on the answer to a PUT. *)
Lemma malformed_header_raises_after_the_request_witness :
  exists w',
    _make_request
      (fixed_source (mkResponse 201 (Malformed "many") (Value 0) (inl JNull) ""))
      (fun _ => "") target_session PUT
      "https://api.github.com/orgs/acme/actions/secrets/API_KEY" [] (Some (JObj []))
      (init_world tt 0)
      = (Raise (ValueError ("invalid literal for int() with base 10: '" +:+ "many" +:+ "'")),
         w')
    /\ server w' = tt
    /\ requests w'
       = [] ++ [mkRequest target_session PUT
                  "https://api.github.com/orgs/acme/actions/secrets/API_KEY" []
                  (Some (JObj []))]
    /\ log w' = []
    /\ clock w' = 0.
Proof.
  apply (malformed_header_raises_after_the_request
           (fixed_source (mkResponse 201 (Malformed "many") (Value 0) (inl JNull) ""))
           (fun _ => "") target_session PUT
           "https://api.github.com/orgs/acme/actions/secrets/API_KEY" [] (Some (JObj []))
           (init_world tt 0) _ tt "many" eq_refl).
  left. reflexivity.
Defined.

(** ** What a request leaves of the state *)

Section RequestFrame.

Context {Server : Type}.
Variable serve : Request -> Server -> (Response + string) * Server.
Variable render_time : Z -> string.

Local Abbreviation W := (World Server).

(** What [_handle_rate_limit] changes: the two recorded numbers, the
    clock and the log. *)
Lemma handle_rate_limit_frame response (w : W) remaining reset :
  header_value (ratelimit_remaining response) = Some remaining ->
  header_value (ratelimit_reset response) = Some reset ->
  exists w',
    _handle_rate_limit render_time response w = (Ok tt, w')
    /\ trace w' = trace w /\ server w' = server w /\ rng w' = rng w
    /\ target_repo_mapping w' = target_repo_mapping w
    /\ org_public_key_cache w' = org_public_key_cache w
    /\ repo_public_key_cache w' = repo_public_key_cache w.
Proof.
  intros Hrem Hreset.
  unfold _handle_rate_limit, bind.
  rewrite (int_header_value _ _ _ Hrem). cbn [modify].
  rewrite (int_header_value _ _ _ Hreset). cbn [modify].
  unfold logger, sleep, modify, gets, ret.
  repeat match goal with |- context [if ?c then _ else _] => destruct c end;
    eexists; (split; [reflexivity|]); cbn; auto 10.
Qed.

(** A request the service answers with well-formed rate-limit headers
    returns the answer; of the state, only the clock, the log and the
    recorded rate limit may differ besides the trace and the service. *)
Lemma make_request_answered session method url params body (w : W) response s'
    remaining reset :
  serve (mkRequest session method url params body) (server w) = (inl response, s') ->
  header_value (ratelimit_remaining response) = Some remaining ->
  header_value (ratelimit_reset response) = Some reset ->
  exists w',
    _make_request serve render_time session method url params body w = (Ok response, w')
    /\ trace w' = trace w ++ [(clock w, mkRequest session method url params body)]
    /\ server w' = s' /\ rng w' = rng w
    /\ target_repo_mapping w' = target_repo_mapping w
    /\ org_public_key_cache w' = org_public_key_cache w
    /\ repo_public_key_cache w' = repo_public_key_cache w.
Proof.
  intros Hs Hrem Hreset.
  unfold _make_request, try_except, session_request, bind.
  cbn [server set_trace]. rewrite Hs.
  match goal with |- context [_handle_rate_limit _ _ ?w0] =>
    destruct (handle_rate_limit_frame response w0 _ _ Hrem Hreset)
      as (w' & -> & Ht & Hsv & Hrng & Hm & Ho & Hr)
  end.
  exists w'. split; [reflexivity|]. cbn in *. auto 10.
Qed.

Lemma requests_snoc (w w' : W) t rq :
  trace w' = trace w ++ [(t, rq)] -> requests w' = requests w ++ [rq].
Proof. intros E. unfold requests. rewrite E, map_app. reflexivity. Qed.

End RequestFrame.

(** ** Listings: errors, and the collector of the rulesets script *)

Section ListingErrors.

Context {Server : Type}.
Variable serve : Request -> Server -> (Response + string) * Server.
Variable render_time : Z -> string.
Variable collection_key : string.

Local Abbreviation W := (World Server).


End ListingErrors.


(** The collector of the rulesets script *)

Lemma names_of_named {Server} (names : list string) (w : Rulesets.State Server) :
  Rulesets.names_of (map named names) w = (Ok (map JStr names), w).
Proof.
  induction names as [|n names IH]; [reflexivity|].
  cbn [map Rulesets.names_of]. unfold bind at 1.
  change (subscript "name" (named n) w) with (Ok (JStr n), w). cbv iota.
  unfold bind at 1. rewrite IH. reflexivity.
Qed.

Lemma all_repos_from_pages (S T E : option string) (names : list string)
    (budget k : nat) (org api_url : string) (token : option string)
    (w : Rulesets.State unit) :
  (100 * k < length names + 100)%nat ->
  ((length names + 99) / 100 + 1 - k <= budget)%nat ->
  exists w',
    Rulesets.all_repos_from (paged_repos names) S T E budget org api_url token
      (Z.of_nat k + 1) (map JStr (take (100 * k) names)) w
      = (Ok (map JStr names), w')
    /\ length (Rulesets.trace w')
       = (length (Rulesets.trace w) + ((length names + 99) / 100 + 1 - k))%nat
    /\ Rulesets.log w' = Rulesets.log w.
Proof.
  revert k w. induction budget as [|budget IH]; intros k w Hk Hb.
  { assert (100 * ((length names + 99) / 100) <= length names + 99
            < 100 * ((length names + 99) / 100) + 100)%nat.
    { pose proof (Nat.div_mod_eq (length names + 99) 100).
      pose proof (Nat.mod_upper_bound (length names + 99) 100). lia. }
    lia. }
  assert (Hdiv : (100 * ((length names + 99) / 100) <= length names + 99
                  < 100 * ((length names + 99) / 100) + 100)%nat).
  { pose proof (Nat.div_mod_eq (length names + 99) 100).
    pose proof (Nat.mod_upper_bound (length names + 99) 100). lia. }
  cbn [Rulesets.all_repos_from]. unfold bind at 1.
  unfold Rulesets.make_api_request, paged_repos.
  cbn [Rulesets.params Rulesets.status_code Z.leb Z.ltb Z.compare Pos.compare
       Pos.compare_cont andb Rulesets.server Rulesets.trace Rulesets.log].
  change (dict_get_none "page" (JObj [("per_page", JInt 100); ("page", JInt (Z.of_nat k + 1))]))
    with (JInt (Z.of_nat k + 1)).
  cbv iota. unfold Rulesets.response_json. cbn [Rulesets.json]. unfold bind at 1. cbn [ret].
  unfold chunk. replace (Z.to_nat (Z.of_nat k + 1) - 1)%nat with k by lia.
  rewrite skipn_map, firstn_map.
  set (c := take 100 (drop (100 * k) names)).
  assert (Hlen : length c = Nat.min 100 (length names - 100 * k)).
  { unfold c. rewrite length_take, length_drop. reflexivity. }
  destruct c as [|n c'] eqn:Ec.
  - cbn [map truthy negb ret]. cbn [length] in Hlen.
    eexists. split; [rewrite take_ge by lia; reflexivity|].
    split; [|reflexivity].
    cbn [Rulesets.trace]. rewrite length_app. cbn [length].
    assert ((length names + 99) / 100 = k)%nat by nia. lia.
  - rewrite <- Ec in *. assert (Hpos : (0 < length c)%nat) by (rewrite Ec; cbn; lia).
    replace (truthy (JArr (map named c))) with true by (rewrite Ec; reflexivity).
    cbn [negb iterate py_iter]. unfold bind at 1. cbn [ret].
    unfold bind at 1. rewrite names_of_named.
    rewrite <- map_app.
    assert (Happ : take (100 * k) names ++ c = take (100 * Datatypes.S k) names).
    { unfold c. rewrite take_take_drop. f_equal. lia. }
    rewrite Happ.
    replace (Z.of_nat k + 1 + 1) with (Z.of_nat (Datatypes.S k) + 1) by lia.
    match goal with
    | |- context [Rulesets.all_repos_from _ _ _ _ _ _ _ _ _ _ ?w0] =>
        destruct (IH (Datatypes.S k) w0 ltac:(lia) ltac:(lia)) as (w' & Hrun & Hl & Hlog)
    end.
    exists w'. split; [exact Hrun|]. split; [|rewrite Hlog; reflexivity].
    rewrite Hl. cbn [Rulesets.trace]. rewrite length_app. cbn [length].
    assert (Datatypes.S k <= (length names + 99) / 100)%nat by nia. lia.
Qed.

(** [get_all_repos] against a listing of N repositories, 100 to a page:
    it returns the N names in their order after N / 100 pages that are
    not empty (the last one possibly short) and one more request, which
    is answered with the empty page that ends the loop. *)
Theorem get_all_repos_complete (SOURCE_GITHUB_TOKEN TARGET_GITHUB_TOKEN ENV_GITHUB_TOKEN
      : option string) (names : list string) (budget : nat) (org api_url : string)
    (token : option string) (w : Rulesets.State unit) :
  ((length names + 99) / 100 + 1 <= budget)%nat ->
  exists w',
    Rulesets.get_all_repos (paged_repos names) SOURCE_GITHUB_TOKEN TARGET_GITHUB_TOKEN
      ENV_GITHUB_TOKEN budget org api_url token w = (Ok (map JStr names), w')
    /\ length (Rulesets.trace w')
       = (length (Rulesets.trace w) + ((length names + 99) / 100 + 1))%nat.
Proof.
  intros Hb. unfold Rulesets.get_all_repos. unfold bind at 1.
  cbn [Rulesets.logger modify]. unfold bind at 1.
  match goal with
  | |- context [Rulesets.all_repos_from _ _ _ _ _ _ _ _ _ _ ?w0] =>
      destruct (all_repos_from_pages SOURCE_GITHUB_TOKEN TARGET_GITHUB_TOKEN
                  ENV_GITHUB_TOKEN names budget 0 org api_url token w0 ltac:(lia)
                  ltac:(lia)) as (w' & Hrun & Hl & Hlog)
  end.
  change (Z.of_nat 0 + 1) with 1 in Hrun.
  change (map JStr (take (100 * 0) names)) with (@nil Json) in Hrun. rewrite Hrun.
  unfold bind, Rulesets.logger, modify, ret. eexists. split; [reflexivity|].
  cbn [Rulesets.trace]. rewrite Hl. cbn [Rulesets.trace]. lia.
Qed.

(** A listing of exactly 100 repositories takes two requests. *)
Lemma get_all_repos_complete_witness :
  exists w',
    Rulesets.get_all_repos (paged_repos (map pretty (seq 0 100))) None (Some "t") None 2
      "acme" "https://api.github.com" (Some "t") (Rulesets.init_state tt)
      = (Ok (map JStr (map pretty (seq 0 100))), w')
    /\ length (Rulesets.trace w') = 2%nat.
Proof.
  destruct (get_all_repos_complete None (Some "t") None (map pretty (seq 0 100)) 2 "acme"
              "https://api.github.com" (Some "t") (Rulesets.init_state tt))
    as (w' & Hrun & Hl).
  - rewrite length_map, length_seq. vm_compute. lia.
  - exists w'. split; [exact Hrun|]. rewrite Hl, length_map, length_seq. reflexivity.
Defined.

(** ** The public keys and the repository secrets *)

Section PublicKeys.

Context {Server : Type}.
Variable serve : Request -> Server -> (Response + string) * Server.
Variable render_time : Z -> string.
Variable sealed_box : nat -> string -> Json -> string + string.

Local Abbreviation W := (World Server).

(** The public key of an organization is fetched once: an answer with
    status 200 and a JSON body is returned and put into the cache, and
    every later call for this organization returns it without a request,
    whichever session it is given. *)
Theorem organization_public_key_is_fetched_once org session (w : W) response s'
    remaining reset key :
  org_public_key_cache w !! org = None ->
  serve (mkRequest session GET (org_public_key_url org) [] None) (server w)
    = (inl response, s') ->
  header_value (ratelimit_remaining response) = Some remaining ->
  header_value (ratelimit_reset response) = Some reset ->
  status_code response = 200 ->
  json response = inl key ->
  exists w1,
    get_organization_public_key serve render_time org session w = (Ok key, w1)
    /\ requests w1
       = requests w ++ [mkRequest session GET (org_public_key_url org) [] None]
    /\ org_public_key_cache w1 = <[org := key]> (org_public_key_cache w)
    /\ forall session', get_organization_public_key serve render_time org session' w1
                        = (Ok key, w1).
Proof.
  intros Hmiss Hs Hrem Hreset Hst Hjson.
  destruct (make_request_answered serve render_time _ _ _ _ _ w _ _ _ _ Hs Hrem Hreset)
    as (w0 & Hrq & Ht & _ & _ & _ & Hc & _).
  eexists. split; [|split; [|split]].
  - unfold get_organization_public_key. unfold bind at 1. cbn [gets].
    rewrite Hmiss. unfold bind at 1.
    change (base_url +:+ "/orgs/" +:+ org +:+ "/actions/secrets/public-key")
      with (org_public_key_url org).
    rewrite Hrq, Hst. cbn [Z.eqb Pos.eqb negb].
    unfold try_except, bind, response_json. rewrite Hjson. cbn [ret modify].
    reflexivity.
  - apply (requests_snoc _ _ (clock w)). exact Ht.
  - cbn. rewrite Hc. reflexivity.
  - intros session'. unfold get_organization_public_key, bind, gets.
    cbn [org_public_key_cache set_org_public_key_cache].
    rewrite lookup_insert_eq. reflexivity.
Qed.

(** A public key of a repository that could not be fetched is not
    cached: after an answer other than 200, or a 200 whose body is not
    JSON, the result is [None], an error is logged and the cache is as
    before, so the next secret of the repository asks again. *)
Theorem failed_repository_public_key_is_not_cached org repo session (w : W) response s'
    remaining reset :
  repo_public_key_cache w !! (org +:+ "/" +:+ repo) = None ->
  serve (mkRequest session GET (repo_public_key_url org repo) [] None) (server w)
    = (inl response, s') ->
  header_value (ratelimit_remaining response) = Some remaining ->
  header_value (ratelimit_reset response) = Some reset ->
  status_code response <> 200 \/ (exists msg, json response = inr msg) ->
  exists w1 line,
    get_repository_public_key serve render_time org repo session w = (Ok JNull, w1)
    /\ requests w1
       = requests w ++ [mkRequest session GET (repo_public_key_url org repo) [] None]
    /\ last (log w1) = Some (ERROR, line)
    /\ repo_public_key_cache w1 = repo_public_key_cache w.
Proof.
  intros Hmiss Hs Hrem Hreset Hfail.
  destruct (make_request_answered serve render_time _ _ _ _ _ w _ _ _ _ Hs Hrem Hreset)
    as (w0 & Hrq & Ht & _ & _ & _ & _ & Hc).
  apply (requests_snoc _ _ (clock w)) in Ht.
  unfold get_repository_public_key. unfold bind at 1. cbn [gets].
  rewrite Hmiss. unfold bind at 1.
  change (base_url +:+ "/repos/" +:+ org +:+ "/" +:+ repo +:+ "/actions/secrets/public-key")
    with (repo_public_key_url org repo).
  rewrite Hrq.
  destruct (status_code response =? 200) eqn:Hst; cbn [negb].
  - destruct Hfail as [Hne|[msg Hjson]]; [apply Z.eqb_eq in Hst; contradiction|].
    unfold try_except, bind, response_json. rewrite Hjson. cbn [raise logger modify ret].
    do 2 eexists. split; [reflexivity|]. cbn. rewrite last_snoc. auto.
  - unfold bind, logger, modify, ret.
    do 2 eexists. split; [reflexivity|]. cbn. rewrite last_snoc. auto.
Qed.

(** A repository secret that the target already holds is skipped: when
    the probe is answered with 200, [create_repository_secret] returns
    [None] after this one request, whatever the value and the placeholder
    option; no key is fetched and nothing is encrypted. *)
Theorem existing_repository_secret_is_skipped org repo name value session create_placeholder
    (w : W) response s' remaining reset :
  serve (mkRequest session GET (repo_secret_url org repo name) [] None) (server w)
    = (inl response, s') ->
  header_value (ratelimit_remaining response) = Some remaining ->
  header_value (ratelimit_reset response) = Some reset ->
  status_code response = 200 ->
  exists w',
    create_repository_secret serve render_time sealed_box org repo name value session
      create_placeholder w = (Ok None, w')
    /\ requests w'
       = requests w ++ [mkRequest session GET (repo_secret_url org repo name) [] None]
    /\ server w' = s'
    /\ rng w' = rng w
    /\ repo_public_key_cache w' = repo_public_key_cache w.
Proof.
  intros Hs Hrem Hreset Hst.
  unfold create_repository_secret, check_repository_secret_exists.
  unfold bind at 1. unfold bind at 1.
  change (base_url +:+ "/repos/" +:+ org +:+ "/" +:+ repo +:+ "/actions/secrets/" +:+ name)
    with (repo_secret_url org repo name).
  unfold logger at 1, modify at 1.
  match goal with |- context [bind (_make_request _ _ _ _ _ _ _) _ ?w0] =>
    destruct (make_request_answered serve render_time session GET
                (repo_secret_url org repo name) [] None w0 _ _ _ _ Hs Hrem Hreset)
      as (w1 & Hrq & Ht & Hsv & Hrng & _ & _ & Hc)
  end.
  apply (requests_snoc _ _ (clock w)) in Ht.
  unfold bind at 1. rewrite Hrq, Hst. cbn [Z.eqb Pos.eqb].
  unfold bind, logger, modify, ret.
  eexists. split; [reflexivity|]. cbn in *. auto.
Qed.

#[local] Hint Resolve adds_logger adds_subscript adds_response_json : adds.

(** Whatever the answers, [create_repository_secret] writes nothing but
    the secret itself: each of its requests is a GET or the PUT of this
    secret, whose body carries an encrypted value and the key id and
    nothing else (no name, no visibility). *)
Theorem repository_secret_is_the_only_write org repo name value session create_placeholder :
  adds (@requests Server)
    (fun rq => rq_method rq = GET \/ puts_repository_secret org repo name rq)
    (create_repository_secret serve render_time sealed_box org repo name value session
       create_placeholder).
Proof.
  pose proof (fun org repo secret_name session =>
    adds_check_repository_secret_exists serve render_time
      (fun rq => rq_method rq = GET \/ puts_repository_secret org repo name rq)
      (fun _ => True) (fun _ _ _ _ => or_introl eq_refl) org repo secret_name session I)
    as Hcheck.
  pose proof (fun org repo session =>
    adds_get_repository_public_key serve render_time
      (fun rq => rq_method rq = GET \/ puts_repository_secret org repo name rq)
      (fun _ => True) (fun _ _ _ _ => or_introl eq_refl) org repo session I)
    as Hkey.
  unfold create_repository_secret. adds_auto.
  - apply adds_encrypt_secret.
  - apply adds_make_request. right.
    repeat split. eauto.
Qed.

End PublicKeys.

(** The key of [acme] on the simulated target: one request, and the
    second call is answered from the cache. *)
Lemma organization_public_key_is_fetched_once_witness :
  exists w1,
    get_organization_public_key (target_service "acme") (fun _ => "") "acme" target_session
      (init_world acme_target 0) = (Ok the_public_key, w1)
    /\ requests w1
       = requests (init_world acme_target 0)
         ++ [mkRequest target_session GET (org_public_key_url "acme") [] None]
    /\ org_public_key_cache w1
       = <["acme" := the_public_key]> (org_public_key_cache (init_world acme_target 0))
    /\ forall session',
         get_organization_public_key (target_service "acme") (fun _ => "") "acme" session' w1
         = (Ok the_public_key, w1).
Proof.
  apply (organization_public_key_is_fetched_once (target_service "acme") (fun _ => "")
           "acme" target_session (init_world acme_target 0)
           (respond 200 the_public_key) acme_target 4999 0 the_public_key).
  - reflexivity.
  - vm_compute. reflexivity.
  - reflexivity.
  - reflexivity.
  - reflexivity.
  - reflexivity.
Defined.

(** A repository the target does not have: the key request is answered
    404 and nothing is cached. *)
Lemma failed_repository_public_key_is_not_cached_witness :
  exists w1 line,
    get_repository_public_key (fixed_source not_found) (fun _ => "") "acme" "svc-a"
      target_session (init_world tt 0) = (Ok JNull, w1)
    /\ requests w1
       = requests (init_world tt 0)
         ++ [mkRequest target_session GET (repo_public_key_url "acme" "svc-a") [] None]
    /\ last (log w1) = Some (ERROR, line)
    /\ repo_public_key_cache w1 = repo_public_key_cache (init_world tt 0).
Proof.
  apply (failed_repository_public_key_is_not_cached (fixed_source not_found) (fun _ => "")
           "acme" "svc-a" target_session (init_world tt 0) not_found tt 4999 0).
  - reflexivity.
  - reflexivity.
  - reflexivity.
  - reflexivity.
  - left. vm_compute. discriminate.
Defined.

(** A probe answered 200: the secret is skipped although a value is
    given. *)
Lemma existing_repository_secret_is_skipped_witness :
  exists w',
    create_repository_secret (fixed_source (respond 200 (JObj [("name", JStr "TOKEN")])))
      (fun _ => "") toy_sealed_box "acme" "svc-a" "TOKEN" "s3cret" target_session true
      (init_world tt 0) = (Ok None, w')
    /\ requests w'
       = requests (init_world tt 0)
         ++ [mkRequest target_session GET (repo_secret_url "acme" "svc-a" "TOKEN") [] None]
    /\ server w' = tt
    /\ rng w' = rng (init_world tt 0)
    /\ repo_public_key_cache w' = repo_public_key_cache (init_world tt 0).
Proof.
  apply (existing_repository_secret_is_skipped
           (fixed_source (respond 200 (JObj [("name", JStr "TOKEN")]))) (fun _ => "")
           toy_sealed_box "acme" "svc-a" "TOKEN" "s3cret" target_session true
           (init_world tt 0) (respond 200 (JObj [("name", JStr "TOKEN")])) tt 4999 0);
    reflexivity.
Defined.

(** ** The migration loops *)

Section Finishes.

Context {W : Type}.

Lemma finishes_ret {A} (a : A) : finishes (@ret W A a).
Proof. intros w. discriminate. Qed.

Lemma finishes_raise {A} (e : Exn) : finishes (@raise W A e).
Proof. intros w. discriminate. Qed.

Lemma finishes_gets {A} (g : W -> A) : finishes (gets g).
Proof. intros w. discriminate. Qed.

Lemma finishes_modify (g : W -> W) : finishes (modify g).
Proof. intros w. discriminate. Qed.

Lemma finishes_bind {A B} (m : M W A) (k : A -> M W B) :
  finishes m -> (forall a, finishes (k a)) -> finishes (bind m k).
Proof.
  intros Hm Hk w. unfold bind. specialize (Hm w).
  destruct (m w) as [[a|e|] w']; cbn in *; [apply Hk|discriminate|congruence].
Qed.

Lemma finishes_try_except {A} (m : M W A) (h : Exn -> M W A) :
  finishes m -> (forall e, finishes (h e)) -> finishes (try_except m h).
Proof.
  intros Hm Hh w. unfold try_except. specialize (Hm w).
  destruct (m w) as [[a|e|] w']; cbn in *; [discriminate|apply Hh|congruence].
Qed.

Lemma finishes_for_each {A B} (xs : list A) (acc : B) (body : B -> A -> M W B) :
  Forall (fun x => forall acc, finishes (body acc x)) xs -> finishes (for_each xs acc body).
Proof.
  intros H. revert acc. induction H as [|x xs Hx _ IH]; intros acc; cbn [for_each].
  - apply finishes_ret.
  - apply finishes_bind; [apply Hx|exact IH].
Qed.

End Finishes.

Create HintDb finishes discriminated.

Ltac finishes_step :=
  lazymatch goal with
  | |- finishes (bind _ _) => apply finishes_bind; [|intros ?]
  | |- finishes (ret _) => apply finishes_ret
  | |- finishes (raise _) => apply finishes_raise
  | |- finishes (gets _) => apply finishes_gets
  | |- finishes (modify _) => apply finishes_modify
  | |- finishes (try_except _ _) => apply finishes_try_except; [|intros ?]
  | |- finishes (if ?c then _ else _) => destruct c
  | |- finishes (match ?x with _ => _ end) => destruct x
  | |- finishes _ => solve [eauto with finishes]
  end.

Ltac finishes_auto := repeat finishes_step.

Section MigrationLoops.

Context {Server : Type}.
Variable serve : Request -> Server -> (Response + string) * Server.
Variable render_time : Z -> string.
Variable sealed_box : nat -> string -> Json -> string + string.
Variables source_org target_org : string.

Local Abbreviation W := (World Server).

Lemma finishes_logger lvl msg : finishes (@logger Server lvl msg).
Proof. apply finishes_modify. Qed.

Lemma finishes_sleep d : finishes (@sleep Server d).
Proof. apply finishes_modify. Qed.

Lemma finishes_subscript k j : finishes (@subscript W k j).
Proof. unfold subscript. finishes_auto. Qed.

Lemma finishes_response_json response : finishes (@response_json Server response).
Proof. unfold response_json. finishes_auto. Qed.

Lemma finishes_int_header h : finishes (@int_header Server h).
Proof. unfold int_header. finishes_auto. Qed.

Lemma finishes_session_request rq : finishes (session_request serve rq).
Proof.
  intros w. unfold session_request.
  destruct (serve rq _) as [[response|msg] s']; discriminate.
Qed.

Hint Resolve finishes_logger finishes_sleep finishes_subscript finishes_response_json
  finishes_int_header finishes_session_request : finishes.

Lemma finishes_handle_rate_limit response :
  finishes (_handle_rate_limit (Server := Server) render_time response).
Proof. unfold _handle_rate_limit. finishes_auto. Qed.

Hint Resolve finishes_handle_rate_limit : finishes.

Lemma finishes_make_request session method url params body :
  finishes (_make_request serve render_time session method url params body).
Proof. unfold _make_request. finishes_auto. Qed.

Hint Resolve finishes_make_request : finishes.

Lemma finishes_check_organization_secret_exists org secret_name session :
  finishes (check_organization_secret_exists serve render_time org secret_name session).
Proof. unfold check_organization_secret_exists. finishes_auto. Qed.

Lemma finishes_check_repository_secret_exists org repo secret_name session :
  finishes (check_repository_secret_exists serve render_time org repo secret_name session).
Proof. unfold check_repository_secret_exists. finishes_auto. Qed.

Lemma finishes_get_organization_public_key org session :
  finishes (get_organization_public_key serve render_time org session).
Proof. unfold get_organization_public_key. finishes_auto. Qed.

Lemma finishes_get_repository_public_key org repo session :
  finishes (get_repository_public_key serve render_time org repo session).
Proof. unfold get_repository_public_key. finishes_auto. Qed.

Lemma finishes_encrypt_secret secret_value public_key :
  finishes (encrypt_secret (Server := Server) sealed_box secret_value public_key).
Proof. unfold encrypt_secret. finishes_auto. Qed.

Hint Resolve finishes_check_organization_secret_exists
  finishes_check_repository_secret_exists finishes_get_organization_public_key
  finishes_get_repository_public_key finishes_encrypt_secret : finishes.

(** Without names to translate the payload is ready at once. *)
Lemma finishes_with_selected_repositories key budget what name visibility names data :
  (visibility = "selected" -> names = []) ->
  finishes (with_selected_repositories serve render_time key target_org budget what name
              visibility names data).
Proof.
  intros H. unfold with_selected_repositories.
  destruct (String.eqb_spec visibility "selected") as [E|E]; cbn [andb].
  - rewrite (H E). apply finishes_ret.
  - apply finishes_ret.
Qed.

Lemma finishes_create_organization_secret key budget org name value visibility names session
    create_placeholder :
  (visibility = "selected" -> names = []) ->
  finishes (create_organization_secret serve render_time sealed_box key target_org budget
              org name value visibility names session create_placeholder).
Proof.
  intros H. pose proof (finishes_with_selected_repositories key budget "secret" name
                          visibility names) as Hsel.
  unfold create_organization_secret. finishes_auto.
Qed.

Lemma finishes_create_repository_secret org repo name value session create_placeholder :
  finishes (create_repository_secret serve render_time sealed_box org repo name value
              session create_placeholder).
Proof. unfold create_repository_secret. finishes_auto. Qed.

Lemma counted_count_result counts success :
  counted (count_result counts success) = S (counted counts).
Proof. destruct counts as [[s e] k], success as [[]|]; cbn; lia. Qed.

Lemma counted_count_error counts : counted (count_error counts) = S (counted counts).
Proof. destruct counts as [[s e] k]; cbn; lia. Qed.

(** A loop whose body counts one row, whatever happens to the row. *)
Lemma for_each_counts {A} (Q : nat * nat * nat -> Prop) (xs : list A) counts
    (body : nat * nat * nat -> A -> M W (nat * nat * nat)) :
  (forall counts x,
     Q counts ->
     never_raises (body counts x)
       (fun counts' => counted counts' = S (counted counts) /\ Q counts')) ->
  Q counts ->
  never_raises (for_each xs counts body)
    (fun counts' => counted counts' = (counted counts + length xs)%nat /\ Q counts').
Proof.
  intros Hbody. revert counts. induction xs as [|x xs IH]; intros counts HQ w;
    cbn [for_each length].
  - cbn. split; [lia|exact HQ].
  - unfold bind. specialize (Hbody counts x HQ w).
    destruct (body counts x w) as [[counts'|e|] w']; cbn in Hbody |- *; try exact Hbody.
    destruct Hbody as [Hc HQ'].
    specialize (IH counts' HQ' w').
    destruct (for_each xs counts' body w') as [[counts''|e|] w'']; cbn in IH |- *;
      try exact IH.
    destruct IH as [IH HQ'']. split; [lia|exact HQ''].
Qed.

(** A row that is counted from the result of its migration, and as an
    error when the migration raises. *)
Lemma counted_row (Q : nat * nat * nat -> Prop) (R : option bool -> Prop) counts
    (m : M W (option bool)) (h : Exn -> string) :
  (forall w a w', m w = (Ok a, w') -> R a) ->
  (forall success, R success -> Q counts -> Q (count_result counts success)) ->
  (Q counts -> Q (count_error counts)) ->
  Q counts ->
  never_raises
    (try_except
       (let* success := m in ret (count_result counts success))
       (fun e => logger ERROR (h e) ;; ret (count_error counts)))
    (fun counts' => counted counts' = S (counted counts) /\ Q counts').
Proof.
  intros Hm Hres Herr HQ w. unfold try_except, bind.
  destruct (m w) as [[success|e|] w'] eqn:E; cbn.
  - split; [apply counted_count_result|]. eauto.
  - split; [apply counted_count_error|]. eauto.
  - exact I.
Qed.

(** [migrate_secrets] lets no exception out and accounts for every row:
    the three counts it returns add up to the number of rows, a row whose
    migration raised being counted as an error.  When no row needs a
    listing of the target's repositories, it does return. *)
Theorem migrate_secrets_counts_every_row budget secrets_data create_placeholder :
  never_raises
    (migrate_secrets serve render_time sealed_box target_org budget secrets_data
       create_placeholder)
    (fun counts => counted counts = length secrets_data)
  /\ (Forall needs_no_listing secrets_data ->
      finishes (migrate_secrets serve render_time sealed_box target_org budget secrets_data
                  create_placeholder)).
Proof.
  split.
  - intros w. unfold migrate_secrets. unfold bind at 1. cbn [logger modify].
    unfold bind at 1.
    match goal with |- context [for_each _ _ ?body ?w0] =>
      pose proof (for_each_counts (fun _ => True) secrets_data (0, 0, 0)%nat body) as H;
      specialize (H ltac:(intros counts x _;
                          apply (counted_row (fun _ => True) (fun _ => True)); auto) I w0);
      destruct (for_each secrets_data (0, 0, 0)%nat body w0) as [[counts|e|] w']
    end; cbn in H |- *; try exact H.
    destruct H as [H _]. exact H.
  - intros Hrows. unfold migrate_secrets.
    apply finishes_bind; [apply finishes_logger|intros _].
    apply finishes_bind; [|intros counts; finishes_auto].
    apply finishes_for_each.
    eapply Forall_impl; [exact Hrows|].
    intros row Hrow counts. cbv beta.
    apply finishes_try_except; [|intros e; finishes_auto].
    apply finishes_bind; [|intros success; apply finishes_ret].
    destruct (String.eqb_spec (scope row) "organization") as [Eo|Eo].
    + apply finishes_create_organization_secret. exact (Hrow Eo).
    + destruct (String.eqb (scope row) "repository").
      * apply finishes_create_repository_secret.
      * finishes_auto.
Qed.

(** The variable calls return [True] or [False], never [None]. *)
Lemma update_organization_variable_result budget org name value visibility names session :
  ensures (update_organization_variable serve render_time target_org budget org name value
             visibility names session)
    (fun success _ => success <> None).
Proof. unfold update_organization_variable. repeat ensures_step. Qed.

Lemma create_organization_variable_result budget org name value visibility names session :
  ensures (create_organization_variable serve render_time target_org budget org name value
             visibility names session)
    (fun success _ => success <> None).
Proof.
  unfold create_organization_variable. repeat ensures_step.
  apply update_organization_variable_result.
Qed.

Lemma update_repository_variable_result org repo name value session :
  ensures (update_repository_variable serve render_time org repo name value session)
    (fun success _ => success <> None).
Proof. unfold update_repository_variable. repeat ensures_step. Qed.

Lemma create_repository_variable_result org repo name value session :
  ensures (create_repository_variable serve render_time org repo name value session)
    (fun success _ => success <> None).
Proof.
  unfold create_repository_variable. repeat ensures_step.
  apply update_repository_variable_result.
Qed.

Lemma finishes_update_organization_variable budget org name value visibility names session :
  (visibility = "selected" -> names = []) ->
  finishes (update_organization_variable serve render_time target_org budget org name value
              visibility names session).
Proof.
  intros H. pose proof (finishes_with_selected_repositories "variables" budget "variable"
                          name visibility names) as Hsel.
  unfold update_organization_variable. finishes_auto.
Qed.

Lemma finishes_create_organization_variable budget org name value visibility names session :
  (visibility = "selected" -> names = []) ->
  finishes (create_organization_variable serve render_time target_org budget org name value
              visibility names session).
Proof.
  intros H. pose proof (finishes_with_selected_repositories "variables" budget "variable"
                          name visibility names) as Hsel.
  pose proof (finishes_update_organization_variable budget org name value visibility names
                session H) as Hup.
  unfold create_organization_variable. finishes_auto.
Qed.

Lemma finishes_update_repository_variable org repo name value session :
  finishes (update_repository_variable serve render_time org repo name value session).
Proof. unfold update_repository_variable. finishes_auto. Qed.

Hint Resolve finishes_update_repository_variable : finishes.

Lemma finishes_create_repository_variable org repo name value session :
  finishes (create_repository_variable serve render_time org repo name value session).
Proof. unfold create_repository_variable. finishes_auto. Qed.

(** [migrate_variables] lets no exception out and never counts a row as
    skipped: a variable is created, updated or failed, so the successes
    and the errors add up to the number of rows and the third count is 0.
    When no row needs a listing of the target's repositories, it does
    return. *)
Theorem migrate_variables_never_skips budget variables_data :
  never_raises
    (migrate_variables serve render_time target_org budget variables_data)
    (fun counts => (counts.1.1 + counts.1.2)%nat = length variables_data
                   /\ counts.2 = 0%nat)
  /\ (Forall needs_no_listing variables_data ->
      finishes (migrate_variables serve render_time target_org budget variables_data)).
Proof.
  split.
  - intros w. unfold migrate_variables. unfold bind at 1. cbn [logger modify].
    unfold bind at 1.
    match goal with |- context [for_each _ _ ?body ?w0] =>
      pose proof (for_each_counts (fun counts => counts.2 = 0%nat) variables_data
                    (0, 0, 0)%nat body) as H;
      assert (Hbody : forall counts x,
                counts.2 = 0%nat ->
                never_raises (body counts x)
                  (fun counts' => counted counts' = S (counted counts)
                                  /\ counts'.2 = 0%nat));
      [|specialize (H Hbody eq_refl w0);
        destruct (for_each variables_data (0, 0, 0)%nat body w0) as [[counts|e|] w']]
    end.
    + intros counts var Hk.
      apply (counted_row (fun counts => counts.2 = 0%nat) (fun success => success <> None)).
      * intros w1 a w1'.
        destruct (String.eqb (scope var) "organization");
          [apply create_organization_variable_result|].
        destruct (String.eqb (scope var) "repository");
          [apply create_repository_variable_result|].
        unfold bind, logger, modify, ret. intros [= <- _]. discriminate.
      * intros [[]|] Hs; [| |congruence]; destruct counts as [[s e] k]; cbn; auto.
      * destruct counts as [[s e] k]; cbn; auto.
      * exact Hk.
    + cbn in H |- *. destruct H as [H Hk]. split; [|exact Hk].
      destruct counts as [[s e] k]. cbn in *. lia.
    + cbn in H |- *. exact H.
    + exact I.
  - intros Hrows. unfold migrate_variables.
    apply finishes_bind; [apply finishes_logger|intros _].
    apply finishes_bind; [|intros counts; finishes_auto].
    apply finishes_for_each.
    eapply Forall_impl; [exact Hrows|].
    intros row Hrow counts. cbv beta.
    apply finishes_try_except; [|intros e; finishes_auto].
    apply finishes_bind; [|intros success; apply finishes_ret].
    destruct (String.eqb_spec (scope row) "organization") as [Eo|Eo].
    + apply finishes_create_organization_variable. exact (Hrow Eo).
    + destruct (String.eqb (scope row) "repository").
      * apply finishes_create_repository_variable.
      * finishes_auto.
Qed.

End MigrationLoops.

(** Three rows: a repository secret, a row of unknown scope and an
    organization secret visible to all repositories. *)
Lemma migrate_secrets_counts_every_row_witness :
  never_raises
    (migrate_secrets (target_service "acme") (fun _ => "") toy_sealed_box "acme" 0
       [mkRow "repository" "svc-a" "TOKEN" "s3cret" "" "" "" "";
        mkRow "team" "" "TOKEN" "s3cret" "" "" "" "";
        mkRow "organization" "" "TOKEN" "s3cret" "all" "" "" ""] true)
    (fun counts => counted counts = 3%nat)
  /\ finishes
       (migrate_secrets (target_service "acme") (fun _ => "") toy_sealed_box "acme" 0
          [mkRow "repository" "svc-a" "TOKEN" "s3cret" "" "" "" "";
           mkRow "team" "" "TOKEN" "s3cret" "" "" "" "";
           mkRow "organization" "" "TOKEN" "s3cret" "all" "" "" ""] true).
Proof.
  destruct (migrate_secrets_counts_every_row (target_service "acme") (fun _ => "")
              toy_sealed_box "acme" 0
              [mkRow "repository" "svc-a" "TOKEN" "s3cret" "" "" "" "";
               mkRow "team" "" "TOKEN" "s3cret" "" "" "" "";
               mkRow "organization" "" "TOKEN" "s3cret" "all" "" "" ""] true)
    as [Hcounts Hfinishes].
  split; [exact Hcounts|].
  apply Hfinishes.
  repeat constructor; intros Hscope Hvisibility; discriminate.
Defined.

(** The same rows as variables. *)
Lemma migrate_variables_never_skips_witness :
  never_raises
    (migrate_variables (target_service "acme") (fun _ => "") "acme" 0
       [mkRow "repository" "svc-a" "REGION" "eu" "" "" "" "";
        mkRow "team" "" "REGION" "eu" "" "" "" "";
        mkRow "organization" "" "REGION" "eu" "all" "" "" ""])
    (fun counts => (counts.1.1 + counts.1.2)%nat = 3%nat /\ counts.2 = 0%nat)
  /\ finishes
       (migrate_variables (target_service "acme") (fun _ => "") "acme" 0
          [mkRow "repository" "svc-a" "REGION" "eu" "" "" "" "";
           mkRow "team" "" "REGION" "eu" "" "" "" "";
           mkRow "organization" "" "REGION" "eu" "all" "" "" ""]).
Proof.
  destruct (migrate_variables_never_skips (target_service "acme") (fun _ => "") "acme" 0
              [mkRow "repository" "svc-a" "REGION" "eu" "" "" "" "";
               mkRow "team" "" "REGION" "eu" "" "" "" "";
               mkRow "organization" "" "REGION" "eu" "all" "" "" ""])
    as [Hcounts Hfinishes].
  split; [exact Hcounts|].
  apply Hfinishes.
  repeat constructor; intros Hscope Hvisibility; discriminate.
Defined.

(** ** The export *)

Lemma append_assoc (a b c : string) : (a +:+ b) +:+ c = a +:+ b +:+ c.
Proof.
  induction a as [|x a IH]; [reflexivity|].
  change (String x ((a +:+ b) +:+ c) = String x (a +:+ b +:+ c)). f_equal. exact IH.
Qed.

Lemma append_length (a b : string) :
  String.length (a +:+ b) = (String.length a + String.length b)%nat.
Proof.
  induction a as [|x a IH]; [reflexivity|].
  change (S (String.length (a +:+ b)) = S (String.length a + String.length b)).
  f_equal. exact IH.
Qed.

Lemma below_suffix url suffix session method params body :
  below url (mkRequest session method (url +:+ "/" +:+ suffix) params body).
Proof.
  split; [exists suffix; reflexivity|].
  cbn [rq_url]. intros E. apply (f_equal String.length) in E.
  rewrite !append_length in E. cbn [String.length] in E. lia.
Qed.

Section ExportListings.

Context {Server : Type}.
Variable serve : Request -> Server -> (Response + string) * Server.
Variable render_time : Z -> string.

Local Abbreviation W := (World Server).

#[local] Hint Resolve adds_logger adds_sleep adds_subscript adds_iterate adds_response_json
  adds_int_header adds_handle_rate_limit adds_session_request adds_make_request : adds.

Lemma adds_paginate_url (P : Request -> Prop) key budget session url page all_data :
  (forall params, P (mkRequest session GET url params None)) ->
  adds (@requests Server) P
    (paginate serve render_time key budget session url page all_data).
Proof.
  intros HP. revert page all_data.
  induction budget as [|budget IH]; intros page all_data; cbn [paginate].
  - apply adds_unfinished.
  - adds_auto; apply IH.
Qed.

Lemma adds_secret_details budget org secret_name session :
  adds (@requests Server) (below (secrets_url org))
    (get_organization_secret_details serve render_time budget org secret_name session).
Proof.
  unfold get_organization_secret_details, get_secret_selected_repositories,
    _get_paginated_data.
  apply adds_bind.
  { apply adds_make_request.
    replace (base_url +:+ "/orgs/" +:+ org +:+ "/actions/secrets/" +:+ secret_name)
      with (secrets_url org +:+ "/" +:+ secret_name)
      by (unfold secrets_url; rewrite !append_assoc; reflexivity).
    apply below_suffix. }
  intros response. adds_auto.
  apply adds_paginate_url. intros params.
  replace (base_url +:+ "/orgs/" +:+ org +:+ "/actions/secrets/" +:+ secret_name
           +:+ "/repositories")
    with (secrets_url org +:+ "/" +:+ secret_name +:+ "/repositories")
    by (unfold secrets_url; rewrite !append_assoc; reflexivity).
  apply below_suffix.
Qed.

Lemma adds_variable_details budget org var_name session :
  adds (@requests Server) (below (variables_url org))
    (get_organization_variable_details serve render_time budget org var_name session).
Proof.
  unfold get_organization_variable_details, get_variable_selected_repositories,
    _get_paginated_data.
  apply adds_bind.
  { apply adds_make_request.
    replace (base_url +:+ "/orgs/" +:+ org +:+ "/actions/variables/" +:+ var_name)
      with (variables_url org +:+ "/" +:+ var_name)
      by (unfold variables_url; rewrite !append_assoc; reflexivity).
    apply below_suffix. }
  intros response. adds_auto.
  apply adds_paginate_url. intros params.
  replace (base_url +:+ "/orgs/" +:+ org +:+ "/actions/variables/" +:+ var_name
           +:+ "/repositories")
    with (variables_url org +:+ "/" +:+ var_name +:+ "/repositories")
    by (unfold variables_url; rewrite !append_assoc; reflexivity).
  apply below_suffix.
Qed.

(** A computation that logs a line and then sends a request puts that
    request first. *)
Lemma added_logged_request_first {A} (P : Request -> Prop) lvl msg session method url
    params body (k : Response -> M W A) (w : W) :
  (forall response, adds requests P (k response)) ->
  exists rest,
    added requests
      (logger lvl msg ;;
       bind (_make_request serve render_time session method url params body) k) w
      = mkRequest session method url params body :: rest
    /\ Forall P rest.
Proof.
  intros Hk.
  exact (added_request_first serve render_time P session method url params body k
           (set_log (log w ++ [(lvl, msg)]) w) Hk).
Qed.

(** The organization listings of the export are not paginated: whatever
    the service answers, [get_organization_secrets] and
    [get_organization_variables] send one GET without parameters to the
    listing (no page is asked for, so no second page is), and every other
    request goes to a URL strictly below it, for the details of one of
    the listed items. *)
Theorem organization_listings_are_one_request budget org session (w : W) :
  (exists rest,
     added requests (get_organization_secrets serve render_time budget org session) w
     = mkRequest session GET (secrets_url org) [] None :: rest
     /\ Forall (below (secrets_url org)) rest)
  /\ (exists rest,
        added requests (get_organization_variables serve render_time budget org session) w
        = mkRequest session GET (variables_url org) [] None :: rest
        /\ Forall (below (variables_url org)) rest).
Proof.
  pose proof adds_secret_details as Hs.
  pose proof adds_variable_details as Hv.
  split.
  - apply added_logged_request_first. intros response.
    adds_auto; unfold enhance_secret; cbv zeta; adds_auto.
  - apply added_logged_request_first. intros response.
    adds_auto; unfold enhance_variable; cbv zeta; adds_auto.
Qed.

End ExportListings.

Section VariablesExportReads.

Context {Server : Type}.
Variable serve : Request -> Server -> (Response + string) * Server.
Variable render_time : Z -> string.
Variable source_org : string.
Variable P : Request -> Prop.
Variable allowed : Session -> Prop.

Hypothesis Hget : forall session url params,
  allowed session -> P (mkRequest session GET url params None).

Local Abbreviation W := (World Server).
Local Abbreviation adds_requests := (adds (@requests Server) P).

Lemma adds_get_organization_variable_details budget org var_name session :
  allowed session ->
  adds_requests
    (get_organization_variable_details serve render_time budget org var_name session).
Proof.
  intros Ha.
  pose proof (adds_logger (Server := Server) P) as Hlog.
  pose proof (adds_response_json (Server := Server) P) as Hjson.
  pose proof (fun url params => adds_get serve render_time P allowed Hget session url params
                                  Ha) as Hrq.
  pose proof (fun budget url => adds_get_paginated_data serve render_time "variables" P
                                  allowed Hget budget session url Ha) as Hpages.
  unfold get_organization_variable_details, get_variable_selected_repositories.
  adds_auto.
Qed.

Lemma adds_enhance_variable budget org session i var enhanced_variables :
  allowed session ->
  adds_requests (enhance_variable serve render_time budget org session i var
                   enhanced_variables).
Proof.
  intros Ha.
  pose proof (adds_logger (Server := Server) P) as Hlog.
  pose proof (fun var_name => adds_get_organization_variable_details budget org var_name
                                session Ha) as Hdetails.
  unfold enhance_variable. adds_auto.
Qed.

Lemma adds_get_organization_variables budget org session :
  allowed session ->
  adds_requests (get_organization_variables serve render_time budget org session).
Proof.
  intros Ha.
  pose proof (adds_logger (Server := Server) P) as Hlog.
  pose proof (adds_response_json (Server := Server) P) as Hjson.
  pose proof (adds_iterate (Server := Server) P) as Hiter.
  pose proof (fun url params => adds_get serve render_time P allowed Hget session url params
                                  Ha) as Hrq.
  pose proof (fun i var acc => adds_enhance_variable budget org session i var acc Ha)
    as Henhance.
  unfold get_organization_variables. adds_auto; cbv zeta; adds_auto.
Qed.

Lemma adds_len j : adds_requests (len (Server := Server) j).
Proof. unfold len. adds_auto. Qed.

Lemma adds_get_repository_variables org repo session :
  allowed session ->
  adds_requests (get_repository_variables serve render_time org repo session).
Proof.
  intros Ha.
  pose proof (adds_logger (Server := Server) P) as Hlog.
  pose proof (adds_response_json (Server := Server) P) as Hjson.
  pose proof adds_len as Hlen.
  pose proof (fun url params => adds_get serve render_time P allowed Hget session url params
                                  Ha) as Hrq.
  unfold get_repository_variables. adds_auto.
Qed.

Lemma adds_org_variable_row var : adds_requests (org_variable_row (Server := Server) var).
Proof.
  pose proof (adds_comma_join (Server := Server) P) as Hjoin.
  unfold org_variable_row. adds_auto.
Qed.

Lemma adds_fetch_all_variables budget :
  allowed source_session ->
  adds_requests (fetch_all_variables serve render_time source_org budget).
Proof.
  intros Ha.
  pose proof (adds_logger (Server := Server) P) as Hlog.
  pose proof (adds_iterate (Server := Server) P) as Hiter.
  pose proof adds_org_variable_row as Hrow.
  pose proof (fun budget org => adds_get_organization_variables budget org source_session Ha)
    as Horg.
  pose proof (fun org repo => adds_get_repository_variables org repo source_session Ha)
    as Hrepo.
  pose proof (fun budget org =>
                adds_get_organization_repositories serve render_time "variables" P allowed
                  Hget budget org source_session Ha) as Hrepos.
  unfold fetch_all_variables. adds_auto.
Qed.

End VariablesExportReads.

(** The export of the variables only reads the source: whatever the
    service answers and however far the export gets, every request of
    [fetch_all_variables] is a GET without a body through the session of
    the source; the target is not contacted. *)
Theorem variables_export_only_reads_the_source {Server}
    (serve : Request -> Server -> (Response + string) * Server)
    (render_time : Z -> string) (source_org : string) (budget : nat) (w : World Server) :
  Forall reads_source
    (added requests (fetch_all_variables serve render_time source_org budget) w).
Proof.
  apply adds_added.
  apply adds_fetch_all_variables with (allowed := fun s => s = source_session);
    [|reflexivity].
  intros session url params ->. repeat split.
Qed.

(** ** The column of selected repositories *)

Lemma append_cons c (a b : string) : String c a +:+ b = String c (a +:+ b).
Proof. reflexivity. Qed.

Lemma split_no_comma (x : string) :
  Forall (fun c => c <> ","%char) (String.list_ascii_of_string x) -> split "," x = [x].
Proof.
  induction x as [|c x IH]; cbn [String.list_ascii_of_string split]; intros H; [reflexivity|].
  inversion H as [|? ? Hc Hx]; subst.
  destruct (Ascii.eqb_spec c ","); [contradiction|].
  rewrite (IH Hx). reflexivity.
Qed.

Lemma split_append_comma (x rest : string) :
  Forall (fun c => c <> ","%char) (String.list_ascii_of_string x) ->
  split "," (x +:+ "," +:+ rest) = x :: split "," rest.
Proof.
  induction x as [|c x IH]; cbn [String.list_ascii_of_string]; intros H.
  - reflexivity.
  - inversion H as [|? ? Hc Hx]; subst.
    rewrite append_cons. cbn [split].
    destruct (Ascii.eqb_spec c ","); [contradiction|].
    rewrite (IH Hx). reflexivity.
Qed.

Lemma split_concat (name : string) (names : list string) :
  Forall plain_name (name :: names) ->
  split "," (String.concat "," (name :: names)) = name :: names.
Proof.
  revert name. induction names as [|name' names IH]; intros name H.
  - inversion H as [|? ? (_ & _ & Hc) _]; subst. apply split_no_comma. exact Hc.
  - inversion H as [|? ? (_ & _ & Hc) H']; subst.
    change (String.concat "," (name :: name' :: names))
      with (name +:+ "," +:+ String.concat "," (name' :: names)).
    rewrite (split_append_comma _ _ Hc), (IH _ H'). reflexivity.
Qed.

Lemma concat_not_empty (name : string) (names : list string) :
  name <> "" -> String.concat "," (name :: names) <> "".
Proof.
  intros Hn. destruct names as [|name' names]; [exact Hn|].
  change (String.concat "," (name :: name' :: names))
    with (name +:+ "," +:+ String.concat "," (name' :: names)).
  destruct name as [|c name]; [congruence|]. rewrite append_cons. discriminate.
Qed.

Lemma strip_plain_names (names : list string) :
  Forall plain_name names ->
  map strip (filter (fun repo => strip repo ≠ "") names) = names.
Proof.
  induction 1 as [|name names (Hn & Hs & _) _ IH]; [reflexivity|].
  rewrite filter_cons_True by (rewrite Hs; exact Hn).
  cbn [map]. rewrite Hs, IH. reflexivity.
Qed.

Lemma parse_concat (names : list string) :
  Forall plain_name names ->
  parse_selected_repositories (String.concat "," names) = names.
Proof.
  intros H. unfold parse_selected_repositories.
  destruct names as [|name names]; [reflexivity|].
  assert (Hne : String.concat "," (name :: names) <> "").
  { apply concat_not_empty. inversion H as [|? ? (Hn & _) _]; exact Hn. }
  apply String.eqb_neq in Hne. rewrite Hne.
  rewrite (split_concat _ _ H). apply strip_plain_names. exact H.
Qed.

Lemma join_items_strings {Server} (i : nat) (names : list string) (w : World Server) :
  join_items i (map JStr names) w = (Ok names, w).
Proof.
  revert i. induction names as [|name names IH]; intros i; [reflexivity|].
  cbn [map join_items]. unfold bind. rewrite IH. reflexivity.
Qed.



(** ** Repository variables *)

Section RepositoryVariables.

Context {Server : Type}.
Variable serve : Request -> Server -> (Response + string) * Server.
Variable render_time : Z -> string.

Local Abbreviation W := (World Server).

(** A repository variable that the target already holds is overwritten:
    when the POST is answered 409, [create_repository_variable] sends a
    PATCH with the same name and value to the URL of the variable, and
    its result is whether the PATCH was answered 204. *)
Theorem existing_repository_variable_is_overwritten org repo name value session (w : W)
    conflict s1 remaining1 reset1 response s2 remaining2 reset2 :
  serve (mkRequest session POST (repo_variables_url org repo) []
           (Some (repo_variable_payload name value))) (server w) = (inl conflict, s1) ->
  header_value (ratelimit_remaining conflict) = Some remaining1 ->
  header_value (ratelimit_reset conflict) = Some reset1 ->
  status_code conflict = 409 ->
  serve (mkRequest session PATCH (repo_variable_url org repo name) []
           (Some (repo_variable_payload name value))) s1 = (inl response, s2) ->
  header_value (ratelimit_remaining response) = Some remaining2 ->
  header_value (ratelimit_reset response) = Some reset2 ->
  exists w',
    create_repository_variable serve render_time org repo name value session w
      = (Ok (Some (status_code response =? 204)), w')
    /\ requests w'
       = requests w
         ++ [mkRequest session POST (repo_variables_url org repo) []
               (Some (repo_variable_payload name value));
             mkRequest session PATCH (repo_variable_url org repo name) []
               (Some (repo_variable_payload name value))]
    /\ server w' = s2.
Proof.
  intros Hpost Hrem1 Hreset1 Hst Hpatch Hrem2 Hreset2.
  destruct (make_request_answered serve render_time _ _ _ _ _ w _ _ _ _
              Hpost Hrem1 Hreset1) as (w1 & Hrq1 & Ht1 & Hs1 & _).
  unfold create_repository_variable. unfold bind at 1.
  change (base_url +:+ "/repos/" +:+ org +:+ "/" +:+ repo +:+ "/actions/variables")
    with (repo_variables_url org repo).
  change (JObj [("name", JStr name); ("value", JStr value)])
    with (repo_variable_payload name value).
  rewrite Hrq1, Hst. cbn [Z.eqb Pos.eqb].
  unfold bind at 1. cbn [logger modify].
  unfold update_repository_variable.
  change (base_url +:+ "/repos/" +:+ org +:+ "/" +:+ repo +:+ "/actions/variables/"
          +:+ name)
    with (repo_variable_url org repo name).
  change (JObj [("name", JStr name); ("value", JStr value)])
    with (repo_variable_payload name value).
  match goal with |- context [bind (_make_request _ _ _ _ _ _ _) _ ?w0] =>
    assert (Hpatch' : serve (mkRequest session PATCH (repo_variable_url org repo name) []
                               (Some (repo_variable_payload name value))) (server w0)
                      = (inl response, s2)) by (cbn [server set_log]; rewrite Hs1; exact Hpatch);
    destruct (make_request_answered serve render_time _ _ _ _ _ w0 _ _ _ _
                Hpatch' Hrem2 Hreset2) as (w2 & Hrq2 & Ht2 & Hs2 & _)
  end.
  unfold bind at 1. rewrite Hrq2.
  cbn [trace set_log clock] in Ht2.
  assert (Hreqs : requests w2
                  = requests w
                    ++ [mkRequest session POST (repo_variables_url org repo) []
                          (Some (repo_variable_payload name value));
                        mkRequest session PATCH (repo_variable_url org repo name) []
                          (Some (repo_variable_payload name value))]).
  { unfold requests. rewrite Ht2, Ht1, !map_app, <- app_assoc. reflexivity. }
  destruct (status_code response =? 204); unfold bind, logger, modify, ret;
    eexists; (split; [reflexivity|]); cbn; auto.
Qed.

End RepositoryVariables.

(** The variable [REGION] of [acme/svc-a] exists: the POST is answered
    409 and the PATCH 204. *)
Lemma existing_repository_variable_is_overwritten_witness :
  exists w',
    create_repository_variable
      occupied_target (fun _ => "") "acme" "svc-a" "REGION" "eu" target_session (init_world tt 0)
      = (Ok (Some true), w')
    /\ requests w'
       = requests (init_world tt 0)
         ++ [mkRequest target_session POST (repo_variables_url "acme" "svc-a") []
               (Some (repo_variable_payload "REGION" "eu"));
             mkRequest target_session PATCH (repo_variable_url "acme" "svc-a" "REGION") []
               (Some (repo_variable_payload "REGION" "eu"))]
    /\ server w' = tt.
Proof.
  apply (existing_repository_variable_is_overwritten
           occupied_target (fun _ => "") "acme" "svc-a" "REGION" "eu" target_session (init_world tt 0)
           (respond 409 JNull) tt 4999 0 (respond 204 JNull) tt 4999 0);
    reflexivity.
Defined.

(** ** The import of rulesets *)

Section RulesetsImport.

Context {Server : Type}.
Variable serve : Rulesets.ApiRequest -> Server -> (Rulesets.ApiResponse + string) * Server.
Variables SOURCE_GITHUB_TOKEN TARGET_GITHUB_TOKEN ENV_GITHUB_TOKEN : option string.
Variables SOURCE_API_URL TARGET_API_URL : string.
Variables SANITIZE_BYPASS_ACTORS REMOVE_ALL_BYPASS_ACTORS : bool.

Local Abbreviation W := (Rulesets.State Server).
Local Abbreviation GITHUB_TOKEN :=
  (Rulesets.GITHUB_TOKEN SOURCE_GITHUB_TOKEN TARGET_GITHUB_TOKEN ENV_GITHUB_TOKEN).

Lemma sanitize_actor_step (kvs : list (string * Json)) (sanitized_actors : list Json)
    (removed_actors : list string) (w : W) :
  exists removed w',
    Rulesets.sanitize_actor (sanitized_actors, removed_actors) (JObj kvs) w
      = (Ok (sanitized_actors ++ List.filter not_a_team [JObj kvs], removed), w')
    /\ Rulesets.trace w' = Rulesets.trace w
    /\ Rulesets.server w' = Rulesets.server w.
Proof.
  unfold Rulesets.sanitize_actor, Rulesets.get_attr. rewrite !bind_ret_l.
  cbn [List.filter]. unfold not_a_team.
  destruct (is_str "RepositoryRole" (dict_get "actor_type" (JStr "") (JObj kvs)))
    eqn:Erole.
  - assert (Eteam : is_str "Team" (dict_get "actor_type" (JStr "") (JObj kvs)) = false).
    { destruct (dict_get "actor_type" (JStr "") (JObj kvs)); try reflexivity.
      cbn in Erole |- *. apply String.eqb_eq in Erole. subst. reflexivity. }
    rewrite Eteam. cbn [ret negb]. eauto.
  - destruct (is_str "Team" (dict_get "actor_type" (JStr "") (JObj kvs))) eqn:Eteam;
      cbn [negb]; unfold bind, Rulesets.logger, modify, ret; do 2 eexists;
      (split; [try rewrite app_nil_r; reflexivity|]); auto.
Qed.

Lemma sanitize_loop (actors : list Json) (sanitized_actors : list Json)
    (removed_actors : list string) (w : W) :
  Forall (fun actor => is_dict actor = true) actors ->
  exists removed w',
    for_each actors (sanitized_actors, removed_actors) Rulesets.sanitize_actor w
      = (Ok (sanitized_actors ++ List.filter not_a_team actors, removed), w')
    /\ Rulesets.trace w' = Rulesets.trace w
    /\ Rulesets.server w' = Rulesets.server w.
Proof.
  intros H. revert sanitized_actors removed_actors w.
  induction H as [|actor actors Hd _ IH]; intros sanitized_actors removed_actors w.
  - exists removed_actors, w. cbn. rewrite app_nil_r. auto.
  - destruct actor as [| | | | |kvs]; try discriminate Hd.
    cbn [for_each]. unfold bind at 1.
    destruct (sanitize_actor_step kvs sanitized_actors removed_actors w)
      as (removed1 & w1 & -> & Ht1 & Hs1).
    destruct (IH (sanitized_actors ++ List.filter not_a_team [JObj kvs]) removed1 w1)
      as (removed & w' & -> & Ht & Hs).
    exists removed, w'. split; [|split; congruence].
    rewrite <- app_assoc. do 3 f_equal.
    change (JObj kvs :: actors) with ([JObj kvs] ++ actors).
    rewrite List.filter_app. reflexivity.
Qed.

(** Without enriched data, [sanitize_bypass_actors] decides which bypass
    actors a ruleset keeps, and asks the target nothing: all are removed
    with [REMOVE_ALL_BYPASS_ACTORS]; otherwise all are kept as they are
    when [SANITIZE_BYPASS_ACTORS] is off, and exactly the team actors are
    dropped, the others staying in order, when it is on. *)
Theorem sanitize_bypass_actors_drops_teams (actors : list Json) (org repo : string) (w : W) :
  Forall (fun actor => is_dict actor = true) actors ->
  exists w',
    Rulesets.sanitize_bypass_actors SANITIZE_BYPASS_ACTORS REMOVE_ALL_BYPASS_ACTORS
      (JArr actors) org repo w
    = (Ok (JArr (if REMOVE_ALL_BYPASS_ACTORS then []
                 else if SANITIZE_BYPASS_ACTORS then List.filter not_a_team actors
                 else actors)), w')
    /\ Rulesets.trace w' = Rulesets.trace w
    /\ Rulesets.server w' = Rulesets.server w.
Proof.
  intros H. unfold Rulesets.sanitize_bypass_actors.
  destruct actors as [|actor actors].
  { exists w. cbn [truthy negb ret].
    destruct REMOVE_ALL_BYPASS_ACTORS, SANITIZE_BYPASS_ACTORS; auto. }
  cbn [truthy negb].
  destruct REMOVE_ALL_BYPASS_ACTORS.
  { unfold bind, Rulesets.logger, modify, ret. eexists. split; [reflexivity|]. auto. }
  destruct SANITIZE_BYPASS_ACTORS; cbn [negb].
  2:{ unfold bind, Rulesets.logger, modify, ret. eexists. split; [reflexivity|]. auto. }
  unfold iterate. cbn [py_iter]. rewrite bind_ret_l. unfold bind at 1.
  destruct (sanitize_loop (actor :: actors) [] [] w H) as (removed & w' & -> & Ht & Hs).
  cbn [app]. destruct removed as [|label removed];
    unfold bind, Rulesets.logger, modify, ret; eexists; (split; [reflexivity|]); auto.
Qed.

Lemma index_listed (entries : list (string * Z)) (acc : gmap Key Json) (w : W) :
  Rulesets.index_rulesets (map listed_ruleset entries) acc w
    = (Ok (ruleset_ids entries acc), w).
Proof.
  revert acc. induction entries as [|[name id] entries IH]; intros acc; [reflexivity|].
  cbn [map Rulesets.index_rulesets]. unfold listed_ruleset, subscript.
  cbn [assoc String.eqb Ascii.eqb Bool.eqb fst snd].
  rewrite !bind_ret_l. cbn [to_key]. rewrite IH. reflexivity.
Qed.

Lemma ruleset_ids_lookup (entries : list (string * Z)) (acc : gmap Key Json) name :
  (exists id, acc !! KStr name = Some (JInt id)) \/ In name (map fst entries) ->
  exists id, ruleset_ids entries acc !! KStr name = Some (JInt id).
Proof.
  revert acc. induction entries as [|[name' id'] entries IH]; intros acc H.
  - destruct H as [H|[]]. exact H.
  - cbn [ruleset_ids foldl fst snd]. apply IH.
    destruct (decide (name' = name)) as [->|Hne].
    + left. exists id'. apply lookup_insert_eq.
    + destruct H as [[id H]|[H|H]]; [left|contradiction|right; exact H].
      exists id. rewrite lookup_insert_ne by congruence. exact H.
Qed.

(** A ruleset whose name the target has already is reported as skipped,
    without a request. *)
Lemma import_ruleset_skips org repo source_org source_repo existing report_entries ruleset
    name id (w : W) :
  named_ruleset name ruleset ->
  existing !! KStr name = Some id ->
  exists entry w',
    Rulesets.import_ruleset serve SOURCE_GITHUB_TOKEN TARGET_GITHUB_TOKEN ENV_GITHUB_TOKEN
      TARGET_API_URL SANITIZE_BYPASS_ACTORS REMOVE_ALL_BYPASS_ACTORS org repo
      source_org source_repo existing report_entries ruleset w
    = (Ok (report_entries ++ [entry]), w')
    /\ migration_status entry = JStr "Skipped"
    /\ Rulesets.trace w' = Rulesets.trace w
    /\ Rulesets.server w' = Rulesets.server w.
Proof.
  intros Hname Hid. unfold Rulesets.import_ruleset, Rulesets.get_attr.
  destruct ruleset as [| | | | |kvs]; try discriminate Hname.
  rewrite bind_ret_l. unfold dict_get at 1. rewrite Hname. cbn [to_key].
  rewrite Hid. unfold bind, Rulesets.logger, modify, ret.
  do 2 eexists. split; [reflexivity|]. split; [reflexivity|]. auto.
Qed.

Lemma import_loop_skips org repo source_org source_repo entries rulesets report_entries
    (w : W) :
  Forall (fun ruleset => exists name, named_ruleset name ruleset
                                      /\ In name (map fst entries)) rulesets ->
  exists skipped w',
    for_each rulesets report_entries
      (Rulesets.import_ruleset serve SOURCE_GITHUB_TOKEN TARGET_GITHUB_TOKEN
         ENV_GITHUB_TOKEN TARGET_API_URL SANITIZE_BYPASS_ACTORS REMOVE_ALL_BYPASS_ACTORS
         org repo source_org source_repo (ruleset_ids entries ∅)) w
    = (Ok (report_entries ++ skipped), w')
    /\ length skipped = length rulesets
    /\ Forall (fun entry => migration_status entry = JStr "Skipped") skipped
    /\ Rulesets.trace w' = Rulesets.trace w
    /\ Rulesets.server w' = Rulesets.server w.
Proof.
  intros H. revert report_entries w.
  induction H as [|ruleset rulesets (name & Hname & Hin) _ IH]; intros report_entries w.
  - exists [], w. cbn. rewrite app_nil_r. auto.
  - destruct (ruleset_ids_lookup entries ∅ name (or_intror Hin)) as (id & Hid).
    destruct (import_ruleset_skips org repo source_org source_repo _ report_entries
                ruleset name (JInt id) w Hname Hid) as (entry & w1 & E1 & Hst & Ht1 & Hs1).
    destruct (IH (report_entries ++ [entry]) w1) as (skipped & w' & E & Hlen & Hall & Ht & Hs).
    exists (entry :: skipped), w'. cbn [for_each]. unfold bind. rewrite E1, E.
    split; [rewrite <- app_assoc; reflexivity|].
    split; [cbn; congruence|]. split; [constructor; assumption|].
    split; congruence.
Qed.

(** Importing rulesets that the target repository has already creates
    nothing: when the listing of the target answers with rulesets of
    these names, [import_rulesets_for_repo] sends the listing request and
    no other, and reports every ruleset as skipped. *)
Theorem existing_rulesets_are_skipped org repo rulesets source_org source_repo
    (entries : list (string * Z)) (w : W) response s' :
  repo <> "" ->
  serve (Rulesets.mkApiRequest GET (rulesets_url TARGET_API_URL org repo)
           (Rulesets.token_or TARGET_GITHUB_TOKEN GITHUB_TOKEN)
           [("include_parents", JStr "false")] None) (Rulesets.server w)
    = (inl response, s') ->
  Rulesets.status_code response < 400 ->
  Rulesets.json response = inl (JArr (map listed_ruleset entries)) ->
  Forall (fun ruleset => exists name, named_ruleset name ruleset
                                      /\ In name (map fst entries)) rulesets ->
  exists report w',
    Rulesets.import_rulesets_for_repo serve SOURCE_GITHUB_TOKEN TARGET_GITHUB_TOKEN
      ENV_GITHUB_TOKEN TARGET_API_URL SANITIZE_BYPASS_ACTORS REMOVE_ALL_BYPASS_ACTORS
      org repo rulesets source_org source_repo w = (Ok report, w')
    /\ length report = length rulesets
    /\ Forall (fun entry => migration_status entry = JStr "Skipped") report
    /\ Rulesets.trace w'
       = Rulesets.trace w
         ++ [Rulesets.mkApiRequest GET (rulesets_url TARGET_API_URL org repo)
               (Rulesets.token_or TARGET_GITHUB_TOKEN GITHUB_TOKEN)
               [("include_parents", JStr "false")] None]
    /\ Rulesets.server w' = s'.
Proof.
  intros Hrepo Hs Hst Hjson Hrulesets.
  unfold Rulesets.import_rulesets_for_repo. unfold bind at 1.
  cbn [Rulesets.logger modify].
  unfold Rulesets.check_existing_rulesets.
  apply String.eqb_neq in Hrepo. rewrite Hrepo.
  change (TARGET_API_URL +:+ "/repos/" +:+ org +:+ "/" +:+ repo +:+ "/rulesets")
    with (rulesets_url TARGET_API_URL org repo).
  unfold bind at 1. unfold bind at 1.
  erewrite make_api_request_some by (cbn [Rulesets.server]; eassumption).
  unfold bind at 1. unfold Rulesets.response_json. rewrite Hjson. cbn [ret].
  unfold bind at 1. cbn [iterate py_iter ret].
  unfold bind at 1. rewrite index_listed.
  unfold bind at 1. cbn [Rulesets.logger modify ret].
  match goal with |- context [for_each rulesets [] _ ?w0] =>
    destruct (import_loop_skips org repo source_org source_repo entries rulesets [] w0
                Hrulesets) as (skipped & w' & -> & Hlen & Hall & Ht & Hsv)
  end.
  exists skipped, w'. cbn in *. auto.
Qed.

Lemma ruleset_ids_missing (entries : list (string * Z)) (acc : gmap Key Json) k :
  acc !! k = None ->
  (forall name, k = KStr name -> ~ In name (map fst entries)) ->
  ruleset_ids entries acc !! k = None.
Proof.
  revert acc. induction entries as [|[name' id'] entries IH]; intros acc Hacc Hk.
  - exact Hacc.
  - cbn [ruleset_ids foldl fst snd]. apply IH.
    + rewrite lookup_insert_ne; [exact Hacc|].
      intros <-. apply (Hk name' eq_refl). left. reflexivity.
    + intros name E Hin. apply (Hk name E). right. exact Hin.
Qed.

Lemma payload_without (ruleset : Json) (k : string) (keys : list string) :
  dict_get_none k ruleset = JNull -> assoc k (Rulesets.payload_of ruleset keys) = None.
Proof.
  intros Hk. unfold Rulesets.payload_of.
  induction keys as [|k' keys IH]; [reflexivity|].
  cbn [omap list_omap].
  destruct (dict_get_none k' ruleset) eqn:E; try exact IH;
    cbn [assoc]; destruct (String.eqb_spec k k') as [->|Hne]; try exact IH;
    rewrite Hk in E; discriminate E.
Qed.

(** A ruleset without a name stops the import: when the ruleset to
    import has no name (or a null one) and no bypass actors,
    [import_rulesets_for_repo] raises [KeyError('name')] while it builds
    the log line of the creation, before any POST; the rulesets that
    follow are not attempted and no report is returned. *)
Theorem ruleset_without_a_name_stops_the_import org repo ruleset rulesets source_org
    source_repo (entries : list (string * Z)) (w : W) response s' :
  repo <> "" ->
  serve (Rulesets.mkApiRequest GET (rulesets_url TARGET_API_URL org repo)
           (Rulesets.token_or TARGET_GITHUB_TOKEN GITHUB_TOKEN)
           [("include_parents", JStr "false")] None) (Rulesets.server w)
    = (inl response, s') ->
  Rulesets.status_code response < 400 ->
  Rulesets.json response = inl (JArr (map listed_ruleset entries)) ->
  ~ In "Unknown" (map fst entries) ->
  is_dict ruleset = true ->
  dict_get_none "name" ruleset = JNull ->
  truthy (dict_get_none "enriched_bypass_actors" ruleset) = false ->
  truthy (dict_get_none "bypass_actors" ruleset) = false ->
  exists w',
    Rulesets.import_rulesets_for_repo serve SOURCE_GITHUB_TOKEN TARGET_GITHUB_TOKEN
      ENV_GITHUB_TOKEN TARGET_API_URL SANITIZE_BYPASS_ACTORS REMOVE_ALL_BYPASS_ACTORS
      org repo (ruleset :: rulesets) source_org source_repo w
    = (Raise (KeyError "name"), w')
    /\ Rulesets.trace w'
       = Rulesets.trace w
         ++ [Rulesets.mkApiRequest GET (rulesets_url TARGET_API_URL org repo)
               (Rulesets.token_or TARGET_GITHUB_TOKEN GITHUB_TOKEN)
               [("include_parents", JStr "false")] None]
    /\ Rulesets.server w' = s'.
Proof.
  intros Hrepo Hs Hst Hjson Hunknown Hdict Hname Henriched Hplain.
  unfold Rulesets.import_rulesets_for_repo. unfold bind at 1.
  cbn [Rulesets.logger modify].
  unfold Rulesets.check_existing_rulesets.
  apply String.eqb_neq in Hrepo. rewrite Hrepo.
  change (TARGET_API_URL +:+ "/repos/" +:+ org +:+ "/" +:+ repo +:+ "/rulesets")
    with (rulesets_url TARGET_API_URL org repo).
  unfold bind at 1. unfold bind at 1.
  erewrite make_api_request_some by (cbn [Rulesets.server]; eassumption).
  unfold bind at 1. unfold Rulesets.response_json. rewrite Hjson. cbn [ret].
  unfold bind at 1. cbn [iterate py_iter ret].
  unfold bind at 1. rewrite index_listed.
  unfold bind at 1. cbn [Rulesets.logger modify ret].
  cbn [for_each]. unfold bind at 1.
  destruct ruleset as [| | | | |kvs]; try discriminate Hdict.
  unfold Rulesets.import_ruleset, Rulesets.get_attr. rewrite bind_ret_l.
  assert (Hkey : exists k,
             to_key (dict_get "name" (JStr "Unknown") (JObj kvs)) = Some k
             /\ ruleset_ids entries ∅ !! k = None).
  { unfold dict_get_none, dict_get in Hname. unfold dict_get.
    destruct (member "name" (JObj kvs)) as [v|].
    - subst v. exists KNone. split; [reflexivity|].
      apply ruleset_ids_missing; [apply lookup_empty|discriminate].
    - exists (KStr "Unknown"). split; [reflexivity|].
      apply ruleset_ids_missing; [apply lookup_empty|].
      intros name [= <-]. exact Hunknown. }
  destruct Hkey as (k & -> & ->).
  rewrite Henriched, Hplain. rewrite bind_ret_l. cbn [truthy].
  unfold subscript at 1. rewrite (payload_without _ _ _ Hname).
  unfold bind, raise. eexists. split; [reflexivity|]. cbn. auto.
Qed.

End RulesetsImport.

(** A team, a repository role and an integration: the team goes. *)
Lemma sanitize_bypass_actors_drops_teams_witness :
  exists w',
    Rulesets.sanitize_bypass_actors true false
      (JArr [JObj [("actor_id", JInt 7); ("actor_type", JStr "Team")];
             JObj [("actor_id", JInt 5); ("actor_type", JStr "RepositoryRole")];
             JObj [("actor_id", JInt 9); ("actor_type", JStr "Integration")]])
      "acme" "svc-a" (Rulesets.init_state tt)
    = (Ok (JArr [JObj [("actor_id", JInt 5); ("actor_type", JStr "RepositoryRole")];
                 JObj [("actor_id", JInt 9); ("actor_type", JStr "Integration")]]), w')
    /\ Rulesets.trace w' = Rulesets.trace (Rulesets.init_state tt)
    /\ Rulesets.server w' = Rulesets.server (Rulesets.init_state tt).
Proof.
  apply (sanitize_bypass_actors_drops_teams true false
           [JObj [("actor_id", JInt 7); ("actor_type", JStr "Team")];
            JObj [("actor_id", JInt 5); ("actor_type", JStr "RepositoryRole")];
            JObj [("actor_id", JInt 9); ("actor_type", JStr "Integration")]]
           "acme" "svc-a" (Rulesets.init_state tt)).
  repeat constructor.
Defined.

(** The target has [protect-main]; importing it again is a skip. *)
Lemma existing_rulesets_are_skipped_witness :
  exists report w',
    Rulesets.import_rulesets_for_repo
      (ruleset_listing listed_ruleset [("protect-main", 7)]) None (Some "t0ken") None
      "https://api.github.com" true false "acme" "svc-a"
      [JObj [("id", JInt 3); ("name", JStr "protect-main"); ("enforcement", JStr "active")]]
      (Some "initech") (Some "svc-a") (Rulesets.init_state tt) = (Ok report, w')
    /\ length report = 1%nat
    /\ Forall (fun entry => migration_status entry = JStr "Skipped") report
    /\ Rulesets.trace w'
       = Rulesets.trace (Rulesets.init_state tt)
         ++ [Rulesets.mkApiRequest GET (rulesets_url "https://api.github.com" "acme" "svc-a")
               (Rulesets.token_or (Some "t0ken") (Rulesets.GITHUB_TOKEN None (Some "t0ken") None))
               [("include_parents", JStr "false")] None]
    /\ Rulesets.server w' = tt.
Proof.
  apply (existing_rulesets_are_skipped
           (ruleset_listing listed_ruleset [("protect-main", 7)]) None (Some "t0ken") None
           "https://api.github.com" true false "acme" "svc-a"
           [JObj [("id", JInt 3); ("name", JStr "protect-main");
                  ("enforcement", JStr "active")]]
           (Some "initech") (Some "svc-a") [("protect-main", 7)] (Rulesets.init_state tt)
           (Rulesets.mkApiResponse 200 "OK" ""
              (inl (JArr (map listed_ruleset [("protect-main", 7)])))) tt).
  - discriminate.
  - reflexivity.
  - cbn. lia.
  - reflexivity.
  - repeat constructor. exists "protect-main". split; [reflexivity|]. left. reflexivity.
Defined.

(** A ruleset that has only rules: the import raises after the listing. *)
Lemma ruleset_without_a_name_stops_the_import_witness :
  exists w',
    Rulesets.import_rulesets_for_repo
      (ruleset_listing listed_ruleset [("protect-main", 7)]) None (Some "t0ken") None
      "https://api.github.com" true false "acme" "svc-a"
      [JObj [("id", JInt 3); ("enforcement", JStr "active")];
       JObj [("id", JInt 4); ("name", JStr "protect-tags")]]
      (Some "initech") (Some "svc-a") (Rulesets.init_state tt)
    = (Raise (KeyError "name"), w')
    /\ Rulesets.trace w'
       = Rulesets.trace (Rulesets.init_state tt)
         ++ [Rulesets.mkApiRequest GET (rulesets_url "https://api.github.com" "acme" "svc-a")
               (Rulesets.token_or (Some "t0ken") (Rulesets.GITHUB_TOKEN None (Some "t0ken") None))
               [("include_parents", JStr "false")] None]
    /\ Rulesets.server w' = tt.
Proof.
  apply (ruleset_without_a_name_stops_the_import
           (ruleset_listing listed_ruleset [("protect-main", 7)]) None (Some "t0ken") None
           "https://api.github.com" true false "acme" "svc-a"
           (JObj [("id", JInt 3); ("enforcement", JStr "active")])
           [JObj [("id", JInt 4); ("name", JStr "protect-tags")]]
           (Some "initech") (Some "svc-a") [("protect-main", 7)] (Rulesets.init_state tt)
           (Rulesets.mkApiResponse 200 "OK" ""
              (inl (JArr (map listed_ruleset [("protect-main", 7)])))) tt).
  - discriminate.
  - reflexivity.
  - cbn. lia.
  - reflexivity.
  - intros [H|[]]. discriminate H.
  - reflexivity.
  - reflexivity.
  - reflexivity.
  - reflexivity.
Defined.

(** ** The export of webhooks and the repositories that cannot be reached *)

Section WebhookExport.

Context {Server : Type}.
Variable serve : Webhooks.Call -> Server -> (Webhooks.Reply + Exn) * Server.
Variables source_org target_org : string.
Variable now : string.
Variable WEBHOOKS_EXPORT_FILE : string.

Local Abbreviation W := (Webhooks.State Server).

Lemma export_loop (hooks : list Webhooks.Hook) (webhook_data : list Webhooks.Webhook)
    (w : W) :
  Forall (fun hook => is_dict (Webhooks.config hook) = true) hooks ->
  exists w',
    for_each hooks webhook_data Webhooks.export_hook w
      = (Ok (webhook_data ++ map exported_hook (List.filter Webhooks.active hooks)), w')
    /\ Webhooks.trace w' = Webhooks.trace w
    /\ Webhooks.server w' = Webhooks.server w.
Proof.
  intros H. revert webhook_data w.
  induction H as [|hook hooks Hd _ IH]; intros webhook_data w.
  - exists w. cbn. rewrite app_nil_r. auto.
  - cbn [for_each List.filter]. unfold bind at 1.
    assert (Hstep : exists w1,
               Webhooks.export_hook webhook_data hook w
               = (Ok (webhook_data ++ (if Webhooks.active hook then [exported_hook hook]
                                       else [])), w1)
               /\ Webhooks.trace w1 = Webhooks.trace w
               /\ Webhooks.server w1 = Webhooks.server w).
    { unfold Webhooks.export_hook, Webhooks.config_get, Rulesets.get_attr, exported_hook,
        hook_url.
      destruct hook as [cfg ev act]. cbn [Webhooks.config Webhooks.events Webhooks.active]
        in *.
      destruct cfg as [| | | | |kvs]; try discriminate Hd.
      destruct act; rewrite !bind_ret_l; unfold bind, Webhooks.logging, modify, ret;
        eexists; (split; [try rewrite app_nil_r; reflexivity|]); auto. }
    destruct Hstep as (w1 & -> & Ht1 & Hs1).
    destruct (IH (webhook_data ++ (if Webhooks.active hook then [exported_hook hook]
                                   else [])) w1) as (w' & -> & Ht & Hs).
    exists w'. split; [|split; congruence].
    rewrite <- app_assoc. destruct (Webhooks.active hook); reflexivity.
Qed.

(** Only the active hooks of a repository are exported: when the source
    repository is found and lists [hooks], [export_webhooks] writes, for
    this repository, one entry per active hook, in the order of the
    listing, with the URL, the content type (default [json]), the
    insecure-ssl setting (default [0]) and the events of the hook; the
    inactive hooks are left out, and so is whatever else the config of a
    hook holds.  The calls are the two reads. *)
Theorem only_active_hooks_are_exported source_repo target_repo hooks (w : W) reply s1 s2 :
  serve (Webhooks.GetRepo Webhooks.source_github_api (source_org +:+ "/" +:+ source_repo))
    (Webhooks.server w) = (inl reply, s1) ->
  serve (Webhooks.GetHooks Webhooks.source_github_api (source_org +:+ "/" +:+ source_repo))
    s1 = (inl (Webhooks.Hooks hooks), s2) ->
  Forall (fun hook => is_dict (Webhooks.config hook) = true) hooks ->
  exists w',
    Webhooks.export_webhooks serve source_org WEBHOOKS_EXPORT_FILE
      [(source_repo, target_repo)] w
    = (Ok (Some [(source_repo,
                  (target_repo, map exported_hook (List.filter Webhooks.active hooks)))]),
       w')
    /\ Webhooks.trace w'
       = Webhooks.trace w
         ++ [Webhooks.GetRepo Webhooks.source_github_api
               (source_org +:+ "/" +:+ source_repo);
             Webhooks.GetHooks Webhooks.source_github_api
               (source_org +:+ "/" +:+ source_repo)]
    /\ Webhooks.server w' = s2.
Proof.
  intros Hrepo Hhooks Hdicts.
  unfold Webhooks.export_webhooks. unfold bind at 1. cbn [Webhooks.logging modify].
  unfold bind at 1. cbn [for_each fst snd]. unfold bind at 1.
  unfold Webhooks._get_repository. unfold bind at 1. unfold bind at 1.
  cbn [Webhooks.logging modify]. unfold try_except, bind at 1, Webhooks.call.
  cbn [Webhooks.server Webhooks.trace Webhooks.log Webhooks.migration_results].
  rewrite Hrepo. unfold bind at 1. cbn [Webhooks.logging modify ret].
  unfold Webhooks._get_webhooks. unfold bind at 1. unfold bind at 1.
  cbn [Webhooks.logging modify]. unfold try_except, Webhooks.get_hooks. cbn [fst snd].
  unfold bind at 1. unfold bind at 1. unfold Webhooks.call.
  cbn [Webhooks.server Webhooks.trace Webhooks.log Webhooks.migration_results].
  rewrite Hhooks. cbn [ret]. unfold bind at 1. cbn [Webhooks.logging modify ret].
  unfold bind at 1.
  match goal with |- context [for_each hooks [] _ ?w0] =>
    destruct (export_loop hooks [] w0 Hdicts) as (w1 & -> & Ht & Hs)
  end.
  cbn [app]. unfold bind, Webhooks.logging, modify, ret. cbn [Webhooks.set_repository].
  eexists. split; [reflexivity|].
  cbn [Webhooks.trace Webhooks.server] in *. rewrite Ht, Hs, <- app_assoc. auto.
Qed.

(** A target repository that cannot be reached costs one record, not one
    per webhook: when [get_repo] raises a [GithubException], the import of
    the repository makes no other call, creates nothing and adds a single
    FAILED record with [N/A] for the URL and the events, however many
    webhooks the export holds for it. *)
Theorem unreachable_target_repository_is_one_failure source_repo target_repo webhooks
    (w : W) status msg s' :
  webhooks <> [] ->
  serve (Webhooks.GetRepo Webhooks.target_github_api (target_org +:+ "/" +:+ target_repo))
    (Webhooks.server w) = (inr (GithubException status msg), s') ->
  exists w',
    Webhooks.import_repository serve source_org target_org now
      (source_repo, (target_repo, webhooks)) w = (Ok tt, w')
    /\ Webhooks.trace w'
       = Webhooks.trace w
         ++ [Webhooks.GetRepo Webhooks.target_github_api
               (target_org +:+ "/" +:+ target_repo)]
    /\ Webhooks.server w' = s'
    /\ Webhooks.migration_results w'
       = Webhooks.migration_results w
         ++ [Webhooks.mkResult source_org source_repo target_org target_repo
               (JStr "N/A") (JStr "N/A") "FAILED" "Could not access target repository"
               now].
Proof.
  intros Hne Hrepo.
  unfold Webhooks.import_repository. cbn [fst snd].
  destruct webhooks as [|webhook rest]; [contradiction|].
  unfold Webhooks._get_repository. unfold bind at 1. unfold bind at 1.
  cbn [Webhooks.logging modify]. unfold try_except, bind at 1, Webhooks.call.
  cbn [Webhooks.server Webhooks.trace Webhooks.log Webhooks.migration_results].
  rewrite Hrepo.
  unfold bind, Webhooks.logging, Webhooks._add_migration_result, modify, ret.
  eexists. split; [reflexivity|]. cbn. auto.
Qed.

End WebhookExport.

(** A repository with an active and an inactive hook; the active one
    has a secret in its config. *)
Lemma only_active_hooks_are_exported_witness :
  exists w',
    Webhooks.export_webhooks hook_store "initech" "webhooks_export.json"
      [("svc-a", "svc-a-new")] (Webhooks.init_state ci_hooks)
    = (Ok (Some [("svc-a",
                  ("svc-a-new", map exported_hook (List.filter Webhooks.active ci_hooks)))]),
       w')
    /\ Webhooks.trace w'
       = Webhooks.trace (Webhooks.init_state ci_hooks)
         ++ [Webhooks.GetRepo Webhooks.source_github_api ("initech" +:+ "/" +:+ "svc-a");
             Webhooks.GetHooks Webhooks.source_github_api ("initech" +:+ "/" +:+ "svc-a")]
    /\ Webhooks.server w' = ci_hooks.
Proof.
  apply (only_active_hooks_are_exported hook_store "initech" "webhooks_export.json"
           "svc-a" "svc-a-new" ci_hooks (Webhooks.init_state ci_hooks)
           Webhooks.Repository ci_hooks ci_hooks).
  - reflexivity.
  - reflexivity.
  - repeat constructor.
Defined.

(** Two webhooks for a repository the target does not have. *)
Lemma unreachable_target_repository_is_one_failure_witness :
  exists w',
    Webhooks.import_repository no_repository "initech" "acme" "2026-01-01 00:00:00"
      ("svc-a", ("svc-a-new",
                 [Webhooks.mkWebhook (JStr "https://ci.example/hook") (JStr "json") (JStr "0")
                    (JArr [JStr "push"]) true;
                  Webhooks.mkWebhook (JStr "https://chat.example/hook") (JStr "json")
                    (JStr "0") (JArr [JStr "push"]) true]))
      (Webhooks.init_state tt) = (Ok tt, w')
    /\ Webhooks.trace w'
       = Webhooks.trace (Webhooks.init_state tt)
         ++ [Webhooks.GetRepo Webhooks.target_github_api ("acme" +:+ "/" +:+ "svc-a-new")]
    /\ Webhooks.server w' = tt
    /\ Webhooks.migration_results w'
       = Webhooks.migration_results (Webhooks.init_state tt)
         ++ [Webhooks.mkResult "initech" "svc-a" "acme" "svc-a-new"
               (JStr "N/A") (JStr "N/A") "FAILED" "Could not access target repository"
               "2026-01-01 00:00:00"].
Proof.
  apply (unreachable_target_repository_is_one_failure no_repository "initech" "acme"
           "2026-01-01 00:00:00" "svc-a" "svc-a-new" _ (Webhooks.init_state tt)
           404 "Not Found" tt).
  - discriminate.
  - reflexivity.
Defined.

(** ** The retries of the inventory script *)

Section ReposRetries.

Context {Server : Type}.
Variable serve : Repos.ApiRequest -> Server -> (Repos.ApiResponse + string) * Server.

Local Abbreviation W := (Repos.State Server).

Lemma attempts_rate_limited remaining attempt url token params (w : W) :
  (forall s, exists response s',
      serve (Repos.mkApiRequest url token params) s = (inl response, s')
      /\ Repos.status_code response = 403) ->
  exists w',
    Repos.attempts serve remaining attempt url token params w = (Ok JNull, w')
    /\ Repos.trace w'
       = Repos.trace w ++ replicate remaining (Repos.mkApiRequest url token params)
    /\ Repos.clock w' = Repos.clock w + 60 * Z.of_nat remaining
    /\ length (Repos.log w') = (length (Repos.log w) + remaining)%nat.
Proof.
  intros H. revert attempt w. induction remaining as [|remaining IH]; intros attempt w.
  - exists w. cbn [Repos.attempts replicate]. rewrite app_nil_r.
    split; [reflexivity|]. split; [reflexivity|]. split; lia.
  - cbn [Repos.attempts]. unfold bind at 1, try_except, bind at 1, Repos.requests_get.
    destruct (H (Repos.server w)) as (response & s' & -> & Hst). rewrite Hst.
    cbn [Z.eqb Pos.eqb]. unfold bind at 1. cbn [Repos.logger modify].
    unfold bind at 1. cbn [Repos.sleep modify ret].
    match goal with |- context [Repos.attempts _ _ _ _ _ _ ?w0] =>
      destruct (IH (attempt + 1) w0) as (w' & -> & Ht & Hc & Hl)
    end.
    exists w'. split; [reflexivity|].
    cbn [Repos.trace Repos.clock Repos.log] in *.
    rewrite Ht, Hc, Hl, <- app_assoc, length_app. cbn [replicate app length].
    split; [reflexivity|]. split; lia.
Qed.

(** A request that is answered 403 every time is sent three times and
    gives [None]; each answer, the last one included, is followed by a
    wait of 60 seconds, 180 seconds in all, and a warning. *)
Theorem rate_limited_request_is_sent_three_times url token params (w : W) :
  (forall s, exists response s',
      serve (Repos.mkApiRequest url token params) s = (inl response, s')
      /\ Repos.status_code response = 403) ->
  exists w',
    Repos._make_github_request serve url token params w = (Ok JNull, w')
    /\ Repos.trace w'
       = Repos.trace w ++ replicate 3 (Repos.mkApiRequest url token params)
    /\ Repos.clock w' = Repos.clock w + 180
    /\ length (Repos.log w') = (length (Repos.log w) + 3)%nat.
Proof.
  intros H. unfold Repos._make_github_request.
  destruct (attempts_rate_limited (Z.to_nat Repos.max_retries) 0 url token params w H)
    as (w' & Hrun & Ht & Hc & Hl).
  exists w'. split; [exact Hrun|]. split; [exact Ht|]. split; [|exact Hl].
  rewrite Hc. reflexivity.
Qed.

(** A request that fails every time (the connection breaks, or a 200
    comes with a body that is not JSON) is tried three times with waits of
    1 and 2 seconds in between and none after the last attempt; the
    result is [None] and each failure is logged as an error. *)
Theorem failing_request_backs_off url token params (w : W) :
  (forall s,
      (exists msg s', serve (Repos.mkApiRequest url token params) s = (inr msg, s'))
      \/ (exists response msg s',
            serve (Repos.mkApiRequest url token params) s = (inl response, s')
            /\ Repos.status_code response = 200
            /\ Repos.json response = inr msg)) ->
  exists w',
    Repos._make_github_request serve url token params w = (Ok JNull, w')
    /\ Repos.trace w'
       = Repos.trace w ++ replicate 3 (Repos.mkApiRequest url token params)
    /\ Repos.clock w' = Repos.clock w + 3
    /\ map fst (drop (length (Repos.log w)) (Repos.log w')) = [ERROR; ERROR; ERROR].
Proof.
  intros H. unfold Repos._make_github_request.
  change (Z.to_nat Repos.max_retries) with 3%nat.
  assert (Hstep : forall attempt (w0 : W),
             exists line s',
               try_except
                 (let* response := Repos.requests_get serve url token params in
                  if Repos.status_code response =? 200 then
                    let* j := Repos.response_json response in
                    ret (inl j)
                  else if Repos.status_code response =? 403 then
                    Repos.logger WARNING "Rate limit exceeded, waiting..." ;;
                    Repos.sleep 60 ;;
                    ret (inr tt)
                  else if Repos.status_code response =? 404 then
                    Repos.logger WARNING ("Resource not found: " +:+ url) ;;
                    ret (inl JNull)
                  else
                    Repos.logger ERROR ("API request failed: "
                                        +:+ pretty (Repos.status_code response)
                                        +:+ " - " +:+ Repos.text response) ;;
                    ret (inl JNull))
                 (fun e =>
                    Repos.logger ERROR ("Request attempt " +:+ pretty (attempt + 1)
                                        +:+ " failed: " +:+ exn_str e) ;;
                    if attempt <? Repos.max_retries - 1 then
                      Repos.sleep (2 ^ attempt) ;;
                      ret (inr tt)
                    else ret (inl JNull)) w0
               = (Ok (if attempt <? Repos.max_retries - 1 then inr tt else inl JNull),
                  Repos.mkState s'
                    (Repos.clock w0
                     + (if attempt <? Repos.max_retries - 1 then 2 ^ attempt else 0))
                    (Repos.trace w0 ++ [Repos.mkApiRequest url token params])
                    (Repos.log w0 ++ [(ERROR, line)]))).
  { intros attempt w0. unfold try_except, bind at 1, Repos.requests_get.
    destruct (H (Repos.server w0)) as [(msg & s' & ->)|(response & msg & s' & -> & Hst & Hj)].
    - unfold bind, Repos.logger, Repos.sleep, modify, ret.
      destruct (attempt <? Repos.max_retries - 1); do 2 eexists; cbn;
        [reflexivity|rewrite Z.add_0_r; reflexivity].
    - rewrite Hst. cbn [Z.eqb Pos.eqb]. unfold bind at 1, Repos.response_json.
      rewrite Hj. unfold bind, raise, Repos.logger, Repos.sleep, modify, ret.
      destruct (attempt <? Repos.max_retries - 1); do 2 eexists; cbn;
        [reflexivity|rewrite Z.add_0_r; reflexivity]. }
  cbn [Repos.attempts].
  unfold bind at 1. destruct (Hstep 0 w) as (line1 & s1 & ->).
  change (0 <? Repos.max_retries - 1) with true. cbv iota.
  unfold bind at 1.
  match goal with |- context [try_except _ _ ?w0] =>
    destruct (Hstep (0 + 1) w0) as (line2 & s2 & ->)
  end.
  change (0 + 1 <? Repos.max_retries - 1) with true. cbv iota.
  unfold bind at 1.
  match goal with |- context [try_except _ _ ?w0] =>
    destruct (Hstep (0 + 1 + 1) w0) as (line3 & s3 & ->)
  end.
  change (0 + 1 + 1 <? Repos.max_retries - 1) with false. cbv iota.
  eexists. split; [reflexivity|].
  cbn [Repos.trace Repos.clock Repos.log].
  split; [rewrite <- !app_assoc; reflexivity|].
  split; [change (2 ^ 0) with 1; change (2 ^ (0 + 1)) with 2; lia|].
  rewrite <- !app_assoc, drop_app_length. reflexivity.
Qed.

End ReposRetries.

(** Three requests and three minutes for a repository behind a rate
    limit. *)
Lemma rate_limited_request_is_sent_three_times_witness :
  exists w',
    Repos._make_github_request rate_limiting "https://api.github.com/repos/acme/svc-a"
      "t0ken" [] (Repos.init_state tt) = (Ok JNull, w')
    /\ Repos.trace w'
       = Repos.trace (Repos.init_state tt)
         ++ replicate 3 (Repos.mkApiRequest "https://api.github.com/repos/acme/svc-a"
                           "t0ken" [])
    /\ Repos.clock w' = Repos.clock (Repos.init_state tt) + 180
    /\ length (Repos.log w') = (length (Repos.log (Repos.init_state tt)) + 3)%nat.
Proof.
  apply (rate_limited_request_is_sent_three_times rate_limiting
           "https://api.github.com/repos/acme/svc-a" "t0ken" [] (Repos.init_state tt)).
  intros []. do 2 eexists. split; reflexivity.
Defined.

(** Three requests and three seconds over a broken connection. *)
Lemma failing_request_backs_off_witness :
  exists w',
    Repos._make_github_request breaking "https://api.github.com/repos/acme/svc-a"
      "t0ken" [] (Repos.init_state tt) = (Ok JNull, w')
    /\ Repos.trace w'
       = Repos.trace (Repos.init_state tt)
         ++ replicate 3 (Repos.mkApiRequest "https://api.github.com/repos/acme/svc-a"
                           "t0ken" [])
    /\ Repos.clock w' = Repos.clock (Repos.init_state tt) + 3
    /\ map fst (drop (length (Repos.log (Repos.init_state tt))) (Repos.log w'))
       = [ERROR; ERROR; ERROR].
Proof.
  apply (failing_request_backs_off breaking "https://api.github.com/repos/acme/svc-a"
           "t0ken" [] (Repos.init_state tt)).
  intros []. left. do 2 eexists. reflexivity.
Defined.

(** ** A probe that fails *)

Section FailedProbe.

Context {Server : Type}.
Variable serve : Request -> Server -> (Response + string) * Server.
Variable render_time : Z -> string.
Variable sealed_box : nat -> string -> Json -> string + string.

Local Abbreviation W := (World Server).


End FailedProbe.


(** ** Bypass actors that need no lookup *)

Section PortableActors.

Context {Server : Type}.
Variable serve : Rulesets.ApiRequest -> Server -> (Rulesets.ApiResponse + string) * Server.
Variables SOURCE_GITHUB_TOKEN TARGET_GITHUB_TOKEN ENV_GITHUB_TOKEN : option string.

Local Abbreviation W := (Rulesets.State Server).
Local Abbreviation enrich_actor :=
  (Rulesets.enrich_actor serve SOURCE_GITHUB_TOKEN TARGET_GITHUB_TOKEN ENV_GITHUB_TOKEN).
Local Abbreviation resolve_actor :=
  (Rulesets.resolve_actor serve SOURCE_GITHUB_TOKEN TARGET_GITHUB_TOKEN ENV_GITHUB_TOKEN).

(** The export of a portable actor and its import give the actor back,
    without a request. *)
Lemma portable_actor_steps actor org token api_url target_org token' api_url'
    enriched_actors resolved_actors (w w1 : W) :
  portable_actor actor ->
  exists enriched w',
    enrich_actor org token api_url enriched_actors actor w
      = (Ok (enriched_actors ++ [enriched]), w')
    /\ Rulesets.trace w' = Rulesets.trace w
    /\ Rulesets.server w' = Rulesets.server w
    /\ exists w1',
         resolve_actor target_org token' api_url' resolved_actors enriched w1
           = (Ok (resolved_actors ++ [actor]), w1')
         /\ Rulesets.trace w1' = Rulesets.trace w1
         /\ Rulesets.server w1' = Rulesets.server w1.
Proof.
  intros (id & actor_type & bypass_mode & -> & Hid & Htype).
  assert (Htruthy : truthy (JInt id) = true)
    by (cbn; apply Z.eqb_neq in Hid; rewrite Hid; reflexivity).
  assert (Henrich : exists enriched w',
             enrich_actor org token api_url enriched_actors
               (JObj [("actor_id", JInt id); ("actor_type", JStr actor_type);
                      ("bypass_mode", bypass_mode)]) w
             = (Ok (enriched_actors ++ [enriched]), w')
             /\ Rulesets.trace w' = Rulesets.trace w
             /\ Rulesets.server w' = Rulesets.server w
             /\ exists details,
                  enriched = JObj [("original_actor_id", JInt id);
                                   ("actor_type", JStr actor_type);
                                   ("bypass_mode", bypass_mode);
                                   ("details", JObj (("id", JInt id) :: details))]).
  { unfold Rulesets.enrich_actor, Rulesets.get_attr.
    cbn [dict_get member assoc String.eqb Ascii.eqb Bool.eqb]. rewrite !bind_ret_l.
    unfold Rulesets.get_bypass_actor_details.
    destruct Htype as [-> | ->]; cbn [is_str String.eqb Ascii.eqb Bool.eqb to_key];
      unfold try_except, bind, Rulesets.logger, modify, ret; cbn [truthy];
      do 2 eexists; (split; [reflexivity|]); (split; [reflexivity|]);
      (split; [reflexivity|]); eexists; reflexivity. }
  destruct Henrich as (enriched & w' & E & Ht & Hs & details & ->).
  eexists; exists w'. split; [exact E|]. split; [exact Ht|]. split; [exact Hs|].
  unfold Rulesets.resolve_actor, Rulesets.get_attr.
  cbn [dict_get member assoc String.eqb Ascii.eqb Bool.eqb]. rewrite !bind_ret_l.
  cbn [truthy negb].
  unfold Rulesets.find_user_in_target, Rulesets.get_attr.
  cbn [dict_get member assoc String.eqb Ascii.eqb Bool.eqb]. rewrite ?bind_ret_l.
  destruct Htype as [-> | ->]; cbn [is_str String.eqb Ascii.eqb Bool.eqb];
    rewrite ?Htruthy; cbn [negb];
    unfold bind, Rulesets.logger, modify, ret; rewrite ?Htruthy;
    eexists; (split; [reflexivity|]); auto.
Qed.

Lemma portable_actors_loops actors org token api_url target_org token' api_url'
    enriched_actors resolved_actors (w w1 : W) :
  Forall portable_actor actors ->
  exists enriched w',
    for_each actors enriched_actors (enrich_actor org token api_url) w
      = (Ok (enriched_actors ++ enriched), w')
    /\ length enriched = length actors
    /\ Rulesets.trace w' = Rulesets.trace w
    /\ Rulesets.server w' = Rulesets.server w
    /\ exists w1',
         for_each enriched resolved_actors (resolve_actor target_org token' api_url') w1
           = (Ok (resolved_actors ++ actors), w1')
         /\ Rulesets.trace w1' = Rulesets.trace w1
         /\ Rulesets.server w1' = Rulesets.server w1.
Proof.
  intros H. revert enriched_actors resolved_actors w w1.
  induction H as [|actor actors Ha _ IH]; intros enriched_actors resolved_actors w w1.
  - exists [], w. cbn [for_each]. unfold ret.
    split; [rewrite app_nil_r; reflexivity|]. repeat (split; [reflexivity|]).
    exists w1. rewrite app_nil_r. repeat split.
  - destruct (portable_actor_steps actor org token api_url target_org token' api_url'
                enriched_actors resolved_actors w w1 Ha)
      as (e & wa & E1 & Ht1 & Hs1 & wb & E2 & Ht2 & Hs2).
    destruct (IH (enriched_actors ++ [e]) (resolved_actors ++ [actor]) wa wb)
      as (es & wa' & E3 & Hlen & Ht3 & Hs3 & wb' & E4 & Ht4 & Hs4).
    exists (e :: es), wa'. cbn [for_each]. unfold bind at 1. rewrite E1, E3.
    split; [rewrite <- app_assoc; reflexivity|].
    split; [cbn; congruence|]. split; [congruence|]. split; [congruence|].
    exists wb'. unfold bind at 1. rewrite E2, E4.
    split; [rewrite <- app_assoc; reflexivity|]. split; congruence.
Qed.

(** Repository roles and users cross organizations unchanged: for
    bypass actors of these two types, what
    [enrich_bypass_actors_with_details] exports,
    [resolve_bypass_actors_for_target] resolves to the original actors,
    in order and with their ids and bypass modes, and neither of the two
    sends a request (the id of a user is taken over without a check in the
    target). *)
Theorem portable_bypass_actors_round_trip (actors : list Json) org token api_url
    target_org token' api_url' (w w1 : W) :
  Forall portable_actor actors ->
  exists enriched w' w1',
    Rulesets.enrich_bypass_actors_with_details serve SOURCE_GITHUB_TOKEN
      TARGET_GITHUB_TOKEN ENV_GITHUB_TOKEN (JArr actors) org token api_url w
    = (Ok enriched, w')
    /\ Rulesets.trace w' = Rulesets.trace w
    /\ Rulesets.resolve_bypass_actors_for_target serve SOURCE_GITHUB_TOKEN
         TARGET_GITHUB_TOKEN ENV_GITHUB_TOKEN (JArr enriched) target_org token' api_url' w1
       = (Ok actors, w1')
    /\ Rulesets.trace w1' = Rulesets.trace w1.
Proof.
  intros H.
  destruct (portable_actors_loops actors org token api_url target_org token' api_url'
              [] [] w w1 H)
    as (enriched & w' & E1 & Hlen & Ht1 & _ & w1' & E2 & Ht2 & _).
  unfold Rulesets.enrich_bypass_actors_with_details,
    Rulesets.resolve_bypass_actors_for_target.
  destruct actors as [|actor actors].
  - destruct enriched; [|discriminate Hlen].
    exists [], w, w1. cbn. auto.
  - destruct enriched as [|e enriched]; [discriminate Hlen|].
    exists (e :: enriched), w', w1'.
    cbn [truthy negb iterate py_iter]. rewrite !bind_ret_l.
    cbn [app] in E1, E2. rewrite E1, E2. auto.
Qed.

End PortableActors.

(** The admin role and a user. *)
Lemma portable_bypass_actors_round_trip_witness :
  exists enriched w' w1',
    Rulesets.enrich_bypass_actors_with_details endless_repos None None None
      (JArr [JObj [("actor_id", JInt 5); ("actor_type", JStr "RepositoryRole");
                   ("bypass_mode", JStr "always")];
             JObj [("actor_id", JInt 4242); ("actor_type", JStr "User");
                   ("bypass_mode", JStr "pull_request")]])
      "initech" None "https://api.github.com" (Rulesets.init_state tt)
    = (Ok enriched, w')
    /\ Rulesets.trace w' = Rulesets.trace (Rulesets.init_state tt)
    /\ Rulesets.resolve_bypass_actors_for_target endless_repos None None None
         (JArr enriched) "acme" None "https://api.github.com" (Rulesets.init_state tt)
       = (Ok [JObj [("actor_id", JInt 5); ("actor_type", JStr "RepositoryRole");
                    ("bypass_mode", JStr "always")];
              JObj [("actor_id", JInt 4242); ("actor_type", JStr "User");
                    ("bypass_mode", JStr "pull_request")]], w1')
    /\ Rulesets.trace w1' = Rulesets.trace (Rulesets.init_state tt).
Proof.
  apply (portable_bypass_actors_round_trip endless_repos None None None
           [JObj [("actor_id", JInt 5); ("actor_type", JStr "RepositoryRole");
                  ("bypass_mode", JStr "always")];
            JObj [("actor_id", JInt 4242); ("actor_type", JStr "User");
                  ("bypass_mode", JStr "pull_request")]]
           "initech" None "https://api.github.com" "acme" None "https://api.github.com"
           (Rulesets.init_state tt) (Rulesets.init_state tt)).
  repeat constructor.
  - exists 5, "RepositoryRole", (JStr "always"). split; [reflexivity|].
    split; [discriminate|left; reflexivity].
  - exists 4242, "User", (JStr "pull_request"). split; [reflexivity|].
    split; [discriminate|right; reflexivity].
Defined.

(** ** The names of the log files *)

Lemma sub_runs_chars in_run name :
  Forall (fun c => name_char c = true) (String.list_ascii_of_string (sub_runs in_run name)).
Proof.
  revert in_run. induction name as [|c name IH]; intros in_run; cbn [sub_runs].
  - constructor.
  - destruct (name_char c) eqn:E.
    + cbn [String.list_ascii_of_string]. constructor; [exact E|apply IH].
    + destruct in_run; [apply IH|].
      cbn [String.list_ascii_of_string]. constructor; [reflexivity|apply IH].
Qed.

Lemma sub_runs_fixed in_run name :
  Forall (fun c => name_char c = true) (String.list_ascii_of_string name) ->
  sub_runs in_run name = name.
Proof.
  revert in_run. induction name as [|c name IH]; intros in_run H; [reflexivity|].
  cbn [String.list_ascii_of_string] in H. inversion H as [|? ? Hc Hrest]; subst.
  cbn [sub_runs]. rewrite Hc, (IH false Hrest). reflexivity.
Qed.

Lemma sub_runs_length in_run name :
  (String.length (sub_runs in_run name) <= String.length name)%nat.
Proof.
  revert in_run. induction name as [|c name IH]; intros in_run; cbn [sub_runs]; [lia|].
  destruct (name_char c); [|destruct in_run]; cbn [String.length];
    match goal with |- context [sub_runs ?b name] => specialize (IH b) end; lia.
Qed.

Lemma sub_runs_collide in_run (a b : string) c d :
  name_char c = false -> name_char d = false ->
  sub_runs in_run (a +:+ String c b) = sub_runs in_run (a +:+ String d b).
Proof.
  intros Hc Hd. revert in_run. induction a as [|x a IH]; intros in_run.
  - change ("" +:+ String c b) with (String c b).
    change ("" +:+ String d b) with (String d b).
    cbn [sub_runs]. rewrite Hc, Hd. reflexivity.
  - change (String x a +:+ String c b) with (String x (a +:+ String c b)).
    change (String x a +:+ String d b) with (String x (a +:+ String d b)).
    cbn [sub_runs]. rewrite !IH. reflexivity.
Qed.

(** [safe_log_name] gives a name made of letters, digits, dots, dashes
    and underscores only, never longer than the name it was given;
    applying it again changes nothing.  It is not injective: two names
    that differ in one character outside the class get the same log
    name. *)
Theorem safe_log_name_is_safe_and_collides (name : string) :
  Forall (fun c => name_char c = true) (String.list_ascii_of_string (safe_log_name name))
  /\ safe_log_name (safe_log_name name) = safe_log_name name
  /\ (String.length (safe_log_name name) <= String.length name)%nat
  /\ (forall a b c d,
        name_char c = false -> name_char d = false ->
        safe_log_name (a +:+ String c b) = safe_log_name (a +:+ String d b)).
Proof.
  unfold safe_log_name. split; [apply sub_runs_chars|].
  split; [apply sub_runs_fixed, sub_runs_chars|].
  split; [apply sub_runs_length|].
  intros a b c d. apply sub_runs_collide.
Qed.

(** [acme/svc a] and [acme svc a] both log to [acme_svc_a]. *)
Lemma safe_log_name_is_safe_and_collides_witness :
  safe_log_name "acme/svc a" = "acme_svc_a"
  /\ safe_log_name ("acme" +:+ String "/" "svc a")
     = safe_log_name ("acme" +:+ String " " "svc a").
Proof.
  split; [reflexivity|].
  apply (safe_log_name_is_safe_and_collides "acme/svc a"); reflexivity.
Defined.

(** ** The creation of a ruleset *)

Section RulesetCreation.

Context {Server : Type}.
Variable serve : Rulesets.ApiRequest -> Server -> (Rulesets.ApiResponse + string) * Server.
Variables SOURCE_GITHUB_TOKEN TARGET_GITHUB_TOKEN ENV_GITHUB_TOKEN : option string.
Variables SOURCE_API_URL TARGET_API_URL : string.
Variables SANITIZE_BYPASS_ACTORS REMOVE_ALL_BYPASS_ACTORS : bool.

Local Abbreviation W := (Rulesets.State Server).
Local Abbreviation GITHUB_TOKEN :=
  (Rulesets.GITHUB_TOKEN SOURCE_GITHUB_TOKEN TARGET_GITHUB_TOKEN ENV_GITHUB_TOKEN).

Lemma payload_with (ruleset : Json) (k : string) (keys : list string) v :
  In k keys -> dict_get_none k ruleset = v -> v <> JNull ->
  assoc k (Rulesets.payload_of ruleset keys) = Some v.
Proof.
  intros Hin Hk Hv. unfold Rulesets.payload_of.
  induction keys as [|k' keys IH]; [destruct Hin|].
  cbn [omap list_omap].
  destruct (String.eqb_spec k k') as [<-|Hne].
  - rewrite Hk. destruct v; try contradiction; cbn [assoc]; rewrite String.eqb_refl;
      reflexivity.
  - destruct Hin as [->|Hin]; [contradiction|].
    destruct (dict_get_none k' ruleset); cbn [assoc];
      try (apply String.eqb_neq in Hne; rewrite Hne); exact (IH Hin).
Qed.

(** A ruleset the target repository does not list is created from five
    of its fields: after the listing, [import_rulesets_for_repo] posts the
    name, target, enforcement, conditions and rules of the ruleset, those
    that are not null, and nothing else of it (no id, no links, no dates);
    a 201 answer is reported as a success with the id the target gave. *)
Theorem new_ruleset_is_posted_with_five_fields org repo ruleset name source_org source_repo
    (entries : list (string * Z)) (w : W) response s1 created s2 created_ruleset
    created_name created_id :
  repo <> "" ->
  serve (Rulesets.mkApiRequest GET (rulesets_url TARGET_API_URL org repo)
           (Rulesets.token_or TARGET_GITHUB_TOKEN GITHUB_TOKEN)
           [("include_parents", JStr "false")] None) (Rulesets.server w)
    = (inl response, s1) ->
  Rulesets.status_code response < 400 ->
  Rulesets.json response = inl (JArr (map listed_ruleset entries)) ->
  named_ruleset name ruleset ->
  ~ In name (map fst entries) ->
  truthy (dict_get_none "enriched_bypass_actors" ruleset) = false ->
  truthy (dict_get_none "bypass_actors" ruleset) = false ->
  serve (Rulesets.mkApiRequest POST (rulesets_url TARGET_API_URL org repo)
           (Rulesets.token_or TARGET_GITHUB_TOKEN GITHUB_TOKEN) []
           (Some (JObj (Rulesets.payload_of ruleset
                          ["name"; "target"; "enforcement"; "conditions"; "rules"])))) s1
    = (inl created, s2) ->
  Rulesets.status_code created = 201 ->
  Rulesets.json created = inl created_ruleset ->
  member "name" created_ruleset = Some created_name ->
  member "id" created_ruleset = Some created_id ->
  exists entry w',
    Rulesets.import_rulesets_for_repo serve SOURCE_GITHUB_TOKEN TARGET_GITHUB_TOKEN
      ENV_GITHUB_TOKEN TARGET_API_URL SANITIZE_BYPASS_ACTORS REMOVE_ALL_BYPASS_ACTORS
      org repo [ruleset] source_org source_repo w = (Ok [JObj entry], w')
    /\ migration_status (JObj entry) = JStr "Success"
    /\ dict_get_none "target_ruleset_id" (JObj entry) = created_id
    /\ Rulesets.trace w'
       = Rulesets.trace w
         ++ [Rulesets.mkApiRequest GET (rulesets_url TARGET_API_URL org repo)
               (Rulesets.token_or TARGET_GITHUB_TOKEN GITHUB_TOKEN)
               [("include_parents", JStr "false")] None;
             Rulesets.mkApiRequest POST (rulesets_url TARGET_API_URL org repo)
               (Rulesets.token_or TARGET_GITHUB_TOKEN GITHUB_TOKEN) []
               (Some (JObj (Rulesets.payload_of ruleset
                              ["name"; "target"; "enforcement"; "conditions"; "rules"])))]
    /\ Rulesets.server w' = s2.
Proof.
  intros Hrepo Hs Hst Hjson Hname Hnew Henriched Hplain Hpost Hcreated Hcjson Hcname Hcid.
  unfold Rulesets.import_rulesets_for_repo. unfold bind at 1.
  cbn [Rulesets.logger modify].
  unfold Rulesets.check_existing_rulesets.
  apply String.eqb_neq in Hrepo. rewrite Hrepo.
  change (TARGET_API_URL +:+ "/repos/" +:+ org +:+ "/" +:+ repo +:+ "/rulesets")
    with (rulesets_url TARGET_API_URL org repo).
  unfold bind at 1. unfold bind at 1.
  erewrite make_api_request_some by (cbn [Rulesets.server]; eassumption).
  unfold bind at 1. unfold Rulesets.response_json at 1. rewrite Hjson. cbn [ret].
  unfold bind at 1. cbn [iterate py_iter ret].
  unfold bind at 1. rewrite index_listed.
  unfold bind at 1. cbn [Rulesets.logger modify ret].
  cbn [for_each]. unfold bind at 1.
  destruct ruleset as [| | | | |kvs]; try discriminate Hname.
  unfold Rulesets.import_ruleset, Rulesets.get_attr. rewrite bind_ret_l.
  change (TARGET_API_URL +:+ "/repos/" +:+ org +:+ "/" +:+ repo +:+ "/rulesets")
    with (rulesets_url TARGET_API_URL org repo).
  assert (Hget : dict_get "name" (JStr "Unknown") (JObj kvs) = JStr name)
    by (unfold dict_get; rewrite Hname; reflexivity).
  rewrite Hget. cbn [to_key].
  rewrite (ruleset_ids_missing entries ∅ (KStr name) (lookup_empty _))
    by (intros n [= <-]; exact Hnew).
  rewrite Henriched, Hplain. rewrite bind_ret_l. cbn [truthy].
  assert (Hpayload_name :
            assoc "name" (Rulesets.payload_of (JObj kvs)
                            ["name"; "target"; "enforcement"; "conditions"; "rules"])
            = Some (JStr name)).
  { apply payload_with; [left; reflexivity| |discriminate].
    unfold dict_get_none, dict_get. rewrite Hname. reflexivity. }
  unfold subscript at 1. rewrite Hpayload_name. rewrite bind_ret_l.
  unfold Rulesets.len_of at 1. cbn [py_iter length]. rewrite bind_ret_l.
  unfold bind at 1. cbn [Rulesets.logger modify].
  unfold bind at 1.
  erewrite make_api_request_some
    by (cbn [Rulesets.server]; first [exact Hpost | rewrite Hcreated; lia]).
  rewrite Hcreated. cbn [Z.eqb Pos.eqb].
  unfold bind at 1, Rulesets.response_json. rewrite Hcjson. cbn [ret].
  destruct created_ruleset as [| | | | |ckvs]; try discriminate Hcname.
  cbn [member] in Hcname, Hcid.
  unfold bind at 1, subscript at 1. rewrite Hcname. cbn [ret].
  unfold bind at 1, subscript at 1. rewrite Hcid. cbn [ret].
  unfold bind, Rulesets.logger, modify, ret.
  eexists. eexists. split; [reflexivity|].
  split; [reflexivity|]. split; [reflexivity|].
  cbn [Rulesets.trace Rulesets.server]. rewrite <- app_assoc. auto.
Qed.

End RulesetCreation.

(** The ruleset [protect-main] with an id and a node id of the source:
    the payload holds its name, target and enforcement. *)
Lemma new_ruleset_is_posted_with_five_fields_witness :
  exists entry w',
    Rulesets.import_rulesets_for_repo
      (accepting_target (JObj [("id", JInt 11); ("name", JStr "protect-main")]))
      None (Some "t0ken") None "https://api.github.com" true false "acme" "svc-a"
      [JObj [("id", JInt 3); ("name", JStr "protect-main"); ("target", JStr "branch");
             ("enforcement", JStr "active"); ("node_id", JStr "RRS_lACkVXNl")]]
      (Some "initech") (Some "svc-a") (Rulesets.init_state tt) = (Ok [JObj entry], w')
    /\ migration_status (JObj entry) = JStr "Success"
    /\ dict_get_none "target_ruleset_id" (JObj entry) = JInt 11
    /\ Rulesets.trace w'
       = Rulesets.trace (Rulesets.init_state tt)
         ++ [Rulesets.mkApiRequest GET (rulesets_url "https://api.github.com" "acme" "svc-a")
               (Rulesets.token_or (Some "t0ken")
                  (Rulesets.GITHUB_TOKEN None (Some "t0ken") None))
               [("include_parents", JStr "false")] None;
             Rulesets.mkApiRequest POST (rulesets_url "https://api.github.com" "acme" "svc-a")
               (Rulesets.token_or (Some "t0ken")
                  (Rulesets.GITHUB_TOKEN None (Some "t0ken") None)) []
               (Some (JObj (Rulesets.payload_of
                              (JObj [("id", JInt 3); ("name", JStr "protect-main");
                                     ("target", JStr "branch");
                                     ("enforcement", JStr "active");
                                     ("node_id", JStr "RRS_lACkVXNl")])
                              ["name"; "target"; "enforcement"; "conditions"; "rules"])))]
    /\ Rulesets.server w' = tt.
Proof.
  apply (new_ruleset_is_posted_with_five_fields
           (accepting_target (JObj [("id", JInt 11); ("name", JStr "protect-main")]))
           None (Some "t0ken") None "https://api.github.com" true false "acme" "svc-a"
           (JObj [("id", JInt 3); ("name", JStr "protect-main"); ("target", JStr "branch");
                  ("enforcement", JStr "active"); ("node_id", JStr "RRS_lACkVXNl")])
           "protect-main" (Some "initech") (Some "svc-a") [] (Rulesets.init_state tt)
           (Rulesets.mkApiResponse 200 "OK" "" (inl (JArr []))) tt
           (Rulesets.mkApiResponse 201 "Created" ""
              (inl (JObj [("id", JInt 11); ("name", JStr "protect-main")]))) tt
           (JObj [("id", JInt 11); ("name", JStr "protect-main")])
           (JStr "protect-main") (JInt 11)); try reflexivity.
  - discriminate.
  - intros [].
Defined.

(** ** A second import of the webhooks *)

Section WebhookStore.

Variables source_org target_org now : string.

Local Abbreviation W := (Webhooks.State (list Webhooks.Hook)).
Local Abbreviation import_webhook :=
  (Webhooks.import_webhook hook_store source_org target_org now).

Section Loop.

Variables source_repo target_repo : string.
Variable gh_repo : Webhooks.Api * string.
Variable existing : gset Key.
Variable hooks : list Webhooks.Hook.

Hypothesis Hexisting : forall k,
  k ∈ existing <-> exists hook, In hook hooks /\ to_key (hook_url hook) = Some k.

Lemma import_one_on_store webhook (w : W) :
  is_Some (to_key (Webhooks.wh_url webhook)) ->
  exists w',
    import_webhook source_repo target_repo gh_repo existing webhook w = (Ok tt, w')
    /\ Webhooks.server w'
       = Webhooks.server w
         ++ (if url_among hooks webhook then [] else [created_hook webhook])
    /\ Webhooks.trace w'
       = Webhooks.trace w
         ++ (if url_among hooks webhook then [] else [create_call gh_repo webhook])
    /\ map Webhooks.r_status (Webhooks.migration_results w')
       = map Webhooks.r_status (Webhooks.migration_results w)
         ++ [if url_among hooks webhook then "SKIPPED" else "SUCCESS"].
Proof.
  intros [k Hk]. unfold Webhooks.import_webhook. rewrite Hk.
  rewrite (member_is_among existing hooks Hexisting webhook k Hk).
  destruct (url_among hooks webhook).
  - unfold bind, Webhooks.logging, Webhooks._add_migration_result, modify.
    eexists. split; [reflexivity|].
    cbn [Webhooks.server Webhooks.trace Webhooks.migration_results].
    rewrite !app_nil_r, map_app. auto.
  - unfold try_except, bind, Webhooks.call, Webhooks.logging,
      Webhooks._add_migration_result, modify. cbn [Webhooks.server hook_store].
    eexists. split; [reflexivity|].
    cbn [Webhooks.server Webhooks.trace Webhooks.migration_results fst snd].
    rewrite map_app. auto.
Qed.

Lemma import_loop_on_store webhooks (w : W) :
  Forall (fun webhook => is_Some (to_key (Webhooks.wh_url webhook))) webhooks ->
  exists w',
    for_each webhooks tt
      (fun _ webhook => import_webhook source_repo target_repo gh_repo existing webhook) w
      = (Ok tt, w')
    /\ Webhooks.server w'
       = Webhooks.server w
         ++ map created_hook
              (List.filter (fun webhook => negb (url_among hooks webhook)) webhooks)
    /\ Webhooks.trace w'
       = Webhooks.trace w
         ++ map (create_call gh_repo)
              (List.filter (fun webhook => negb (url_among hooks webhook)) webhooks)
    /\ map Webhooks.r_status (Webhooks.migration_results w')
       = map Webhooks.r_status (Webhooks.migration_results w)
         ++ map (fun webhook => if url_among hooks webhook then "SKIPPED" else "SUCCESS")
              webhooks.
Proof.
  intros Hkeys. revert w. induction Hkeys as [|webhook webhooks Hk _ IH]; intros w.
  - exists w. cbn. rewrite !app_nil_r. auto.
  - destruct (import_one_on_store webhook w Hk) as (w1 & Hrun & Hsv & Htr & Hres).
    destruct (IH w1) as (w' & Hrun' & Hsv' & Htr' & Hres').
    exists w'. cbn [for_each]. unfold bind at 1. rewrite Hrun.
    split; [exact Hrun'|].
    rewrite Hsv', Hsv, Htr', Htr, Hres', Hres. cbn [List.filter map].
    destruct (url_among hooks webhook); cbn [negb map]; rewrite <- !app_assoc; auto.
Qed.

End Loop.

(** The import of the webhooks of a repository into the store that
    holds [hooks]. *)
Lemma import_repository_on_store source_repo target_repo hooks webhooks (w : W) :
  webhooks <> [] ->
  Webhooks.server w = hooks ->
  Forall listed_hook hooks ->
  Forall (fun webhook => is_Some (to_key (Webhooks.wh_url webhook))) webhooks ->
  exists w',
    Webhooks.import_repository hook_store source_org target_org now
      (source_repo, (target_repo, webhooks)) w = (Ok tt, w')
    /\ Webhooks.server w'
       = hooks ++ map created_hook
                    (List.filter (fun webhook => negb (url_among hooks webhook)) webhooks)
    /\ Webhooks.trace w'
       = Webhooks.trace w
         ++ [Webhooks.GetRepo Webhooks.target_github_api
               (target_org +:+ "/" +:+ target_repo);
             Webhooks.GetHooks Webhooks.target_github_api
               (target_org +:+ "/" +:+ target_repo)]
         ++ map (create_call (Webhooks.target_github_api,
                              target_org +:+ "/" +:+ target_repo))
              (List.filter (fun webhook => negb (url_among hooks webhook)) webhooks)
    /\ map Webhooks.r_status (Webhooks.migration_results w')
       = map Webhooks.r_status (Webhooks.migration_results w)
         ++ map (fun webhook => if url_among hooks webhook then "SKIPPED" else "SUCCESS")
              webhooks.
Proof.
  intros Hne Hserver Hlisted Hkeys.
  unfold Webhooks.import_repository. cbn [fst snd].
  destruct webhooks as [|webhook rest] eqn:Ew; [contradiction|]. rewrite <- Ew in *.
  unfold Webhooks._get_repository. unfold bind at 1. unfold bind at 1.
  cbn [Webhooks.logging modify]. unfold try_except, bind at 1, Webhooks.call.
  cbn [Webhooks.server Webhooks.trace Webhooks.log Webhooks.migration_results hook_store].
  unfold bind at 1. cbn [Webhooks.logging modify ret].
  unfold Webhooks.get_hooks. cbn [fst snd]. unfold bind at 1. unfold bind at 1.
  unfold Webhooks.call.
  cbn [Webhooks.server Webhooks.trace Webhooks.log Webhooks.migration_results hook_store ret].
  rewrite Hserver.
  match goal with
  | |- context [bind (Webhooks.url_set hooks ∅) _ ?w0] =>
      destruct (url_set_members hooks ∅ w0 Hlisted) as (existing & Hset & Hmem);
      set (w2 := w0) in *
  end.
  unfold bind at 1. rewrite Hset. unfold bind at 1. cbn [Webhooks.logging modify].
  assert (Hexisting : forall k,
             k ∈ existing
             <-> exists hook, In hook hooks /\ to_key (hook_url hook) = Some k).
  { intros k. rewrite Hmem. split; [intros [H|H]; [|exact H]|intros H; right; exact H].
    apply not_elem_of_empty in H. contradiction. }
  match goal with
  | |- context [for_each _ tt _ ?w0] =>
      destruct (import_loop_on_store source_repo target_repo
                  (Webhooks.target_github_api, target_org +:+ "/" +:+ target_repo)
                  existing hooks Hexisting webhooks w0 Hkeys)
        as (w' & Hrun & Hsv & Htr & Hres)
  end.
  exists w'. split; [exact Hrun|].
  rewrite Hsv, Htr, Hres. unfold w2.
  cbn [Webhooks.server Webhooks.trace Webhooks.migration_results].
  rewrite <- !app_assoc. auto.
Qed.

Lemma filter_none {A} (f : A -> bool) (l : list A) :
  (forall x, In x l -> f x = true) -> List.filter (fun x => negb (f x)) l = [].
Proof.
  induction l as [|x l IH]; intros H; [reflexivity|].
  cbn [List.filter]. rewrite (H x (or_introl eq_refl)). cbn [negb].
  apply IH. intros y Hin. apply H. right. exact Hin.
Qed.

Lemma created_hook_listed webhook :
  is_Some (to_key (Webhooks.wh_url webhook)) -> listed_hook (created_hook webhook).
Proof. intros Hk. split; [reflexivity|exact Hk]. Qed.

Lemma url_among_app hooks hooks' webhook :
  url_among (hooks ++ hooks') webhook = url_among hooks webhook || url_among hooks' webhook.
Proof. unfold url_among. apply existsb_app. Qed.

Lemma url_among_created webhooks webhook :
  In webhook webhooks -> url_among (map created_hook webhooks) webhook = true.
Proof.
  intros Hin. unfold url_among. apply existsb_exists.
  exists (created_hook webhook). split; [apply in_map; exact Hin|].
  apply bool_decide_eq_true_2. reflexivity.
Qed.

(** Importing the webhooks of a repository a second time creates
    nothing, whatever the target held before: on a target that keeps the
    hooks it is given, after one import of the export a second import of
    the same export makes the two reads and no [create_hook], leaves the
    hooks as they are and records SKIPPED for every webhook. *)
Theorem second_webhook_import_creates_nothing source_repo target_repo hooks webhooks
    (w : W) :
  webhooks <> [] ->
  Webhooks.server w = hooks ->
  Forall listed_hook hooks ->
  Forall (fun webhook => is_Some (to_key (Webhooks.wh_url webhook))) webhooks ->
  exists w1 w2,
    Webhooks.import_repository hook_store source_org target_org now
      (source_repo, (target_repo, webhooks)) w = (Ok tt, w1)
    /\ Webhooks.import_repository hook_store source_org target_org now
         (source_repo, (target_repo, webhooks)) w1 = (Ok tt, w2)
    /\ Webhooks.trace w2
       = Webhooks.trace w1
         ++ [Webhooks.GetRepo Webhooks.target_github_api
               (target_org +:+ "/" +:+ target_repo);
             Webhooks.GetHooks Webhooks.target_github_api
               (target_org +:+ "/" +:+ target_repo)]
    /\ Webhooks.server w2 = Webhooks.server w1
    /\ map Webhooks.r_status (Webhooks.migration_results w2)
       = map Webhooks.r_status (Webhooks.migration_results w1)
         ++ map (fun _ => "SKIPPED") webhooks.
Proof.
  intros Hne Hserver Hlisted Hkeys.
  destruct (import_repository_on_store source_repo target_repo hooks webhooks w
              Hne Hserver Hlisted Hkeys) as (w1 & Hrun1 & Hsv1 & _ & _).
  set (created := List.filter (fun webhook => negb (url_among hooks webhook)) webhooks)
    in *.
  assert (Hlisted1 : Forall listed_hook (hooks ++ map created_hook created)).
  { apply Forall_app. split; [exact Hlisted|].
    apply List.Forall_forall. intros hook Hin. apply in_map_iff in Hin.
    destruct Hin as (webhook & <- & Hin). apply created_hook_listed.
    apply filter_In in Hin. destruct Hin as [Hin _].
    pose proof (proj1 (List.Forall_forall _ _) Hkeys) as Hk. apply Hk. exact Hin. }
  destruct (import_repository_on_store source_repo target_repo _ webhooks w1
              Hne Hsv1 Hlisted1 Hkeys) as (w2 & Hrun2 & Hsv2 & Htr2 & Hres2).
  assert (Hall : forall webhook, In webhook webhooks ->
             url_among (hooks ++ map created_hook created) webhook = true).
  { intros webhook Hin. rewrite url_among_app.
    destruct (url_among hooks webhook) eqn:E; [reflexivity|].
    apply url_among_created. apply filter_In. split; [exact Hin|]. rewrite E. reflexivity. }
  assert (Hnone : List.filter
                    (fun webhook => negb (url_among (hooks ++ map created_hook created)
                                            webhook)) webhooks = []).
  { apply filter_none. exact Hall. }
  assert (Hskipped : map (fun webhook =>
                            if url_among (hooks ++ map created_hook created) webhook
                            then "SKIPPED" else "SUCCESS") webhooks
                     = map (fun _ => "SKIPPED") webhooks).
  { apply map_ext_in. intros webhook Hin. rewrite (Hall webhook Hin). reflexivity. }
  exists w1, w2. split; [exact Hrun1|]. split; [exact Hrun2|].
  rewrite Htr2, Hsv2, Hres2, Hnone, Hskipped, Hsv1. cbn [map]. rewrite !app_nil_r. auto.
Qed.

End WebhookStore.

(** A target that holds the CI hook, and an export of the CI webhook and
    a chat webhook: the second import skips both. *)
Lemma second_webhook_import_creates_nothing_witness :
  exists w1 w2,
    Webhooks.import_repository hook_store "initech" "acme" "2026-01-01 00:00:00"
      ("svc-a", ("svc-a",
                 [Webhooks.mkWebhook (JStr "https://ci.example/hook") (JStr "json") (JStr "0")
                    (JArr [JStr "push"]) true;
                  Webhooks.mkWebhook (JStr "https://chat.example/hook") (JStr "json")
                    (JStr "0") (JArr [JStr "push"]) true]))
      (Webhooks.init_state ci_hooks) = (Ok tt, w1)
    /\ Webhooks.import_repository hook_store "initech" "acme" "2026-01-01 00:00:00"
         ("svc-a", ("svc-a",
                    [Webhooks.mkWebhook (JStr "https://ci.example/hook") (JStr "json")
                       (JStr "0") (JArr [JStr "push"]) true;
                     Webhooks.mkWebhook (JStr "https://chat.example/hook") (JStr "json")
                       (JStr "0") (JArr [JStr "push"]) true]))
         w1 = (Ok tt, w2)
    /\ Webhooks.trace w2
       = Webhooks.trace w1
         ++ [Webhooks.GetRepo Webhooks.target_github_api ("acme" +:+ "/" +:+ "svc-a");
             Webhooks.GetHooks Webhooks.target_github_api ("acme" +:+ "/" +:+ "svc-a")]
    /\ Webhooks.server w2 = Webhooks.server w1
    /\ map Webhooks.r_status (Webhooks.migration_results w2)
       = map Webhooks.r_status (Webhooks.migration_results w1)
         ++ map (fun _ => "SKIPPED")
              [Webhooks.mkWebhook (JStr "https://ci.example/hook") (JStr "json") (JStr "0")
                 (JArr [JStr "push"]) true;
               Webhooks.mkWebhook (JStr "https://chat.example/hook") (JStr "json")
                 (JStr "0") (JArr [JStr "push"]) true].
Proof.
  apply (second_webhook_import_creates_nothing "initech" "acme" "2026-01-01 00:00:00"
           "svc-a" "svc-a" ci_hooks
           [Webhooks.mkWebhook (JStr "https://ci.example/hook") (JStr "json") (JStr "0")
              (JArr [JStr "push"]) true;
            Webhooks.mkWebhook (JStr "https://chat.example/hook") (JStr "json")
              (JStr "0") (JArr [JStr "push"]) true]
           (Webhooks.init_state ci_hooks)).
  - discriminate.
  - reflexivity.
  - repeat constructor; eexists; reflexivity.
  - repeat constructor; eexists; reflexivity.
Defined.

(** ** Secrets leave sealed *)

Lemma adds_for_each_in {W R A B} (tr : W -> list R) (P : R -> Prop) (xs : list A) (acc : B)
    (body : B -> A -> M W B) :
  (forall acc x, In x xs -> adds tr P (body acc x)) -> adds tr P (for_each xs acc body).
Proof.
  revert acc. induction xs as [|x xs IH]; intros acc Hbody; cbn [for_each].
  - apply adds_ret.
  - apply adds_bind; [apply Hbody; left; reflexivity|].
    intros acc'. apply IH. intros acc'' y Hy. apply Hbody. right. exact Hy.
Qed.

Section Sealed.

Context {Server : Type}.
Variable serve : Request -> Server -> (Response + string) * Server.
Variable render_time : Z -> string.
Variable sealed_box : nat -> string -> Json -> string + string.
Variable target_org : string.

Local Abbreviation W := (World Server).
Local Abbreviation sealed_or_read plains :=
  (fun rq : Request => rq_method rq = GET \/ writes_sealed sealed_box plains rq).

Lemma sealed_organization_secret key budget org name value visibility names session
    create_placeholder :
  adds (@requests Server)
    (sealed_or_read [if no_actual_value value then PLACEHOLDER_VALUE_SET_MANUALLY
                     else value])
    (create_organization_secret serve render_time sealed_box key target_org budget org name
       value visibility names session create_placeholder).
Proof.
  unfold create_organization_secret. cbv zeta.
  set (plain := if no_actual_value value then PLACEHOLDER_VALUE_SET_MANUALLY else value).
  set (P := fun rq : Request => _ \/ _).
  assert (Hget : forall session url params,
             (fun _ : Session => True) session -> P (mkRequest session GET url params None))
    by (intros; left; reflexivity).
  pose proof (@adds_logger Server P) as Hlog.
  pose proof (adds_check_organization_secret_exists serve render_time P _ Hget) as H1.
  pose proof (adds_get_organization_public_key serve render_time P _ Hget) as H2.
  pose proof (adds_encrypt_secret (Server:=Server) sealed_box P) as H3.
  pose proof (@adds_subscript Server P) as H4.
  pose proof (adds_with_selected_repositories serve render_time key target_org P _ Hget)
    as H5.
  adds_step; [apply H1; exact I|].
  adds_step; [adds_auto|].
  adds_step; [adds_auto|].
  adds_step; [adds_auto|].
  adds_step; [apply H2; exact I|].
  adds_step; [adds_auto|].
  eapply adds_bind_ok with
    (Q := fun encrypted => forall c, encrypted = Some c ->
            exists n pk, sealed_box n plain pk = inl c);
    [adds_auto | intros ? ? ? E; exact (sealed_or_none sealed_box _ _ _ _ _ _ E) |].
  intros [c|] Hc; [|adds_auto].
  destruct (Hc c eq_refl) as (n & pk & Hseal).
  adds_step; [adds_auto|].
  eapply adds_bind_ok with
    (Q := fun data => assoc "encrypted_value" data = Some (JStr c)
                      /\ assoc "value" data = None);
    [apply H5; exact I
    |intros ? ? ? E; split;
     [exact (with_selected_other_keys serve render_time key target_org _ _ _ _ _ _
               "encrypted_value" ltac:(discriminate) ltac:(discriminate) _ _ _ E)
     |exact (with_selected_other_keys serve render_time key target_org _ _ _ _ _ _
               "value" ltac:(discriminate) ltac:(discriminate) _ _ _ E)]|].
  intros data [Hdata Hvalue].
  adds_step; [|adds_auto].
  apply adds_make_request. right. split; [reflexivity|].
  exists n, plain, pk, data, c.
  split; [left; reflexivity|]. repeat split; assumption.
Qed.

Lemma sealed_repository_secret org repo name value session create_placeholder :
  adds (@requests Server)
    (sealed_or_read [if no_actual_value value then PLACEHOLDER_VALUE_SET_MANUALLY
                     else value])
    (create_repository_secret serve render_time sealed_box org repo name value session
       create_placeholder).
Proof.
  unfold create_repository_secret. cbv zeta.
  set (plain := if no_actual_value value then PLACEHOLDER_VALUE_SET_MANUALLY else value).
  set (P := fun rq : Request => _ \/ _).
  assert (Hget : forall session url params,
             (fun _ : Session => True) session -> P (mkRequest session GET url params None))
    by (intros; left; reflexivity).
  pose proof (@adds_logger Server P) as Hlog.
  pose proof (adds_check_repository_secret_exists serve render_time P _ Hget) as H1.
  pose proof (adds_get_repository_public_key serve render_time P _ Hget) as H2.
  pose proof (adds_encrypt_secret (Server:=Server) sealed_box P) as H3.
  pose proof (@adds_subscript Server P) as H4.
  adds_step; [apply H1; exact I|].
  adds_step; [adds_auto|].
  adds_step; [adds_auto|].
  adds_step; [adds_auto|].
  adds_step; [apply H2; exact I|].
  adds_step; [adds_auto|].
  eapply adds_bind_ok with
    (Q := fun encrypted => forall c, encrypted = Some c ->
            exists n pk, sealed_box n plain pk = inl c);
    [adds_auto | intros ? ? ? E; exact (sealed_or_none sealed_box _ _ _ _ _ _ E) |].
  intros [c|] Hc; [|adds_auto].
  destruct (Hc c eq_refl) as (n & pk & Hseal).
  adds_step; [adds_auto|].
  adds_step; [|adds_auto].
  apply adds_make_request. right. split; [reflexivity|].
  eexists n, plain, pk, _, c.
  split; [left; reflexivity|]. repeat split. exact Hseal.
Qed.

(** No secret leaves unsealed: whatever the rows and the answers of the
    service, every request of [migrate_secrets] is a GET, or a PUT whose
    encrypted value the sealed box made of the value of one of the rows
    or of the placeholder text, and whose body has no field [value]. *)
Theorem secrets_are_written_sealed budget secrets_data create_placeholder (w : W) :
  Forall (fun rq =>
            rq_method rq = GET
            \/ writes_sealed sealed_box
                 (PLACEHOLDER_VALUE_SET_MANUALLY :: map value secrets_data) rq)
    (added requests
       (migrate_secrets serve render_time sealed_box target_org budget secrets_data
          create_placeholder) w).
Proof.
  apply adds_added. unfold migrate_secrets.
  set (P := fun rq : Request => _ \/ _).
  pose proof (@adds_logger Server P) as Hlog.
  adds_step; [adds_auto|]. adds_step; [|adds_auto].
  apply adds_for_each_in. intros counts secret Hin.
  assert (Hweak : forall rq,
             sealed_or_read [if no_actual_value (value secret)
                             then PLACEHOLDER_VALUE_SET_MANUALLY else value secret] rq ->
             P rq).
  { intros rq [Hget|(Hput & n & plain & pk & data & c & Hplain & Hrest)];
      [left; exact Hget|right].
    split; [exact Hput|]. exists n, plain, pk, data, c. split; [|exact Hrest].
    destruct Hplain as [<-|[]].
    destruct (no_actual_value (value secret)); [left; reflexivity|right].
    apply in_map. exact Hin. }
  adds_step; [|adds_auto]. adds_step; [|adds_auto].
  destruct (String.eqb (scope secret) "organization").
  - eapply adds_weaken; [exact Hweak|]. apply sealed_organization_secret.
  - destruct (String.eqb (scope secret) "repository"); [|adds_auto].
    eapply adds_weaken; [exact Hweak|]. apply sealed_repository_secret.
Qed.

End Sealed.
